(* ===== verification/_CoqProject ===== *)
-Q . S2P
Prelude.v
Goroutines.v
GoErrors.v
GoStrings.v
GoFloat64.v
GoDuration.v
GoTime.v
GoNet.v
GoFlag.v
GoEncoding.v
GoIp.v
GoHttp.v
GoPath.v
GoText.v
GoJson.v
GoBase64.v
GoJsonText.v
GoJsonDecode.v
Sha256.v
Effects.v
GoOs.v
GoTls.v
GoTesting.v
Sandbox.v
BrokerApi.v
DaemonConfig.v
PreviewToken.v
PreviewProxy.v
DockerApi.v
DockerBackend.v
DockerLifecycle.v
DockerExec.v
PreviewPool.v
PreviewDocker.v
DockerStream.v
DockerSession.v
DockerReap.v
DaemonServer.v
DaemonDecode.v
DaemonRespond.v
DaemonCapacity.v
DaemonListen.v
DaemonTls.v
DaemonStart.v
OpenbloxdMain.v
DaemonServe.v
DaemonReap.v
DaemonRelay.v
DaemonTunnel.v
BrokerClient.v
PreviewBroker.v
DaemonDocker.v
DaemonStages.v
DaemonCap.v
BrokerRemote.v
TestPki.v
Conformance.v
ConformanceProbes.v
ConformanceCore.v
ConformanceCalls.v
ConformanceTidy.v
ConformanceClosed.v
ConformanceEnds.v
ConformanceLimits.v
ConformanceDocker.v
