(* ===== verification/Prelude.v ===== *)
(** * openblox: a verification library

    openblox runs untrusted code in hardened containers.  This library models
    the program's own logic (the Go files under src/pkg, src/internal and
    src/cmd) as executable definitions and proves what makes it correct.

    ** The program

    - [pkg/sandbox] is the contract: specifications and the options that build
      them, commands, results, previews, sentinel errors.
    - [pkg/docker] implements the contract on a Docker engine: creating, opening
      and destroying containers, running commands with timeouts and capped
      output, moving files, starting processes, dialling ports, minting
      previews, and reclaiming what has outlived its bounds.
    - [pkg/preview] signs and verifies preview tokens and proxies HTTP requests
      to ports inside sandboxes.
    - [internal/daemon] and [cmd/openbloxd] serve a backend over a Unix socket
      and, behind mutual TLS, over a network: a configuration of named profiles
      fixes the policy, a request only chooses a profile; a capacity table
      bounds the sandboxes of a profile; a reaper enforces lifetimes.
    - [pkg/brokerapi] is the wire format, [pkg/brokerclient] the client, which
      offers the same contract over the daemon, locally or remotely.
    - [pkg/conformance] is the suite that measures an implementation of the
      contract from the outside; [internal/testpki] makes the certificates of
      its TLS tests.

    ** The files

    Foundations.  [Prelude]: machine integers, strings as byte lists, map
    iteration in arbitrary order (the class [MapRange]), tactics and hints.
    [Goroutines]: systems of goroutines as relations on their states.
    [GoErrors]: error values, [errors.Is].  [GoStrings], [GoFloat64],
    [GoDuration], [GoTime], [GoNet], [GoIp], [GoFlag], [GoEncoding], [GoHttp],
    [GoPath], [GoText], [GoJson], [GoBase64], [Sha256]: the parts of the standard library the program's
    behaviour depends on, modelled from its documentation and source: decimal
    numbers, binary64 arithmetic, [Duration.String] and [ParseDuration],
    RFC 3339 times, [SplitHostPort], [ParseIP], command-line flags, base64 and
    URL escaping, path cleaning, [TrimSpace] and [Fields], JSON strings, SHA-256
    and HMAC.  [GoJsonText]: JSON values, their text and a parser of it, with
    the round trip.  [GoJsonDecode]: how encoding/json stores a value into a
    struct, strictly or not.  [Effects]: a
    program that calls out is a tree of calls ([prog]); [safe] speaks of every
    call and result under every behaviour of the other side, [wp] of an other
    side that keeps a contract, [run] executes a program against a concrete one.
    [GoOs]: the system calls of the daemon on a host with files, modes, a mask,
    groups and a log.  [GoTls]: certificates with their periods, usages and right
    to sign, TLS configurations and the handshakes they admit at a time, over the
    parsing and signatures of an abstract authority (the class [Pki]).  [GoTesting]: package testing, a
    test as a program with the state of its [testing.T].

    Components.
    - [Sandbox]: pkg/sandbox (options.go, sandbox.go, errors.go).
    - [BrokerApi]: pkg/brokerapi (types.go, errors.go), with the JSON text of
      the requests, their decoding, and what a value is after JSON.
    - [DaemonConfig]: internal/daemon/config.go, from the decoded YAML on.
    - [PreviewToken], [PreviewProxy]: pkg/preview/token.go and proxy.go.  The
      handler's revocation set is its state; a request is served to a verdict
      and, if forwarded, to the outgoing request and the connection dialled.
      [PreviewPool]: a handler serving any number of requests at once over one
      pool of connections, on any dialer that keeps the promise of the class
      [Dialer]; [PreviewDocker] and [PreviewBroker] discharge it for the two
      implementations, [Backend.DialPort] and [Client.DialPort].
    - [DockerApi]: the calls of the Docker client the program makes, and the
      class [DockerEngine] of engines that keep Docker's documented contract.
    - [DockerBackend]: pkg/docker/backend.go, image.go: the create payload and
      the lifecycle operations.  [DockerLifecycle]: [Create] against every
      [DockerEngine], and a reference engine that is one.
    - [DockerExec]: pkg/docker/sandbox.go, process.go, activity.go, dial.go,
      expose.go.  [DockerSession]: the goroutines of one exec between attaching
      and its outcome.  [DockerStream]: the goroutine, pipe and [Close] behind a
      file reader and a dialled port.  [DockerReap]: pkg/docker/reap.go.
    - [DaemonServer]: internal/daemon server.go, sandboxes.go, exec.go, dial.go,
      capacity.go, caller.go and the allowlist of listener_tls.go; a handler is
      a program over the backend's operations and the capacity's lock and
      table.  [DaemonDecode]: what of a request's body gets through [decode].
      [DaemonRespond]: the text of the responses and what the client's decoder
      makes of it.  [DaemonCapacity]: counting the requests of a profile.
      [DaemonRelay]: the two copying goroutines of a dialled stream, blocking in
      their reads and writes, and the client's end of it
      (pkg/brokerclient/dial.go).
      [DaemonTunnel]: the relay running over the stream of [DockerStream].
    - [DaemonListen]: listener.go, umask_unix.go, umask_other.go, the Unix
      socket.  [DaemonTls]: listener_tls.go, the network listener.
    - [DaemonReap]: reap.go, the loop, with the sweep of [DockerReap] on a
      [SweepEngine].
    - [DaemonStart], [DaemonServe]: cmd/openbloxd/main.go, from the
      configuration file to open listeners, with what is logged, and serving
      until a signal or a failure.  [OpenbloxdMain]: [main] over its command
      line.  [DaemonDocker]: the daemon as deployed, route table, handlers and
      Docker backend composed into one program per HTTP request.
      [DaemonStages]: the protocol such a program keeps towards a profile's cap;
      [DaemonCap]: any number of them interleaved call by call, on a
      [CountingEngine].
    - [BrokerClient]: pkg/brokerclient client.go, options.go, sandbox.go,
      dial.go; the daemon's route table ([dispatch], server.go's [Handler], as
      net/http serves it) and the client composed with the daemon ([over]).
      [BrokerRemote]: remote.go, the client over TLS.
    - [TestPki]: internal/testpki/testpki.go.
    - [Conformance]: the harness (conformance.go, harness.go, image.go).
      [ConformanceProbes]: filesystem.go, privilege.go, network.go.
      [ConformanceCore]: process.go, lifecycle.go, hostlocal.go and the tables
      of the two tiers.  [ConformanceCalls], [ConformanceTidy],
      [ConformanceClosed], [ConformanceEnds], [ConformanceLimits]: what every
      run of the suite does; [ConformanceDocker]: the suite composed with the
      Docker backend.

    Names are the source's; a method is prefixed with its type, or with
    [client] in [BrokerClient], where two types have methods of one name.

    ** What the theorems show

    - The whole daemon: no HTTP request, whatever its bytes, makes it create
      anything but a hardened container of one of the operator's profiles, or
      run a command as anybody but the sandbox's user, the recording of activity
      apart, a fixed script run as root ([daemon_contains]).
    - Isolation: every container created is hardened and runs on a runtime that
      was confirmed in the same call ([Create_hardened],
      [Create_asserts_runtime]); [Create] honours its contract on every engine
      that honours its own ([Create_contract]); guest operations never gain
      privilege and never have caller text parsed as shell code
      ([guest_operations_confined], [validateProcessName_confines]).
    - Policy: a request decides nothing but a profile, an environment and labels
      ([handleCreate_confined], [clientCreate_sends_no_policy]); an accepted
      configuration bounds everything ([Config_validate_sound],
      [ListenConfig_validate_iff]); validation accepts exactly what it means to
      ([Spec_Validate_iff], [validateUser_iff]).
    - Who gets in: the socket is never reachable by others ([Listen_confined]),
      the network only by the callers the operator named ([ListenTLS_gates]),
      with both ends verified ([mutual_authentication]); a start opens all it
      should or leaves no trace, and the command ends accordingly
      ([main_serves_or_leaves_no_trace], [registry_credential]); the test authority's certificates are what both
      ends expect ([testpki_interoperates]).
    - Liveness of the daemon's goroutines under every schedule: [serve_ends],
      [reaper_enforces_lifetimes], [exec_session_ends], and a dialled port from
      the client to the guest, [tunnel_faithful_and_ends] (of its two halves
      alone: [relay_faithful_and_ends], [dialled_stream_closes]); streams are complete
      ([upgraded_stream_complete]).
    - Bounds: the containers of a profile under every interleaving of every
      kind of request, with failures and removals ([cap_bounds_containers]: the
      cap, plus one for each create request that found its sandbox there, and
      the bound is met), captured output ([output_capped]), timeouts ([ResolveTimeout_narrows],
      [killGroup_terminates]), lifetimes ([reap_sweep], [expired_bounds]).
    - Previews: tokens ([Verify_Sign], [Verify_only_issued]), forwarding
      ([previews_confined], [broker_previews_confined], and of single requests
      and pools [ServeHTTP_authorised], [pooled_connection_confined],
      [revoked_stays_refused], [parseRoute_URL]), [Expose_usable].
    - The wire: a body is decoded only if it is one object of the request's
      type and nothing else ([accepted_bodies_are_typed]); what the client sends
      is what the daemon decodes ([requests_round_trip]), and what the daemon
      answers what the client decodes ([responses_round_trip]).
    - The broker refines the backend: commands, files, processes, ports and
      errors are the same through the client and the daemon as without them
      ([exec_over_broker], [operations_over_broker],
      [handles_over_broker], [wire_errors], [infoOf_round_trip],
      [labels_round_trip], [fail_hides_internals]).
    - The suite: a green run measured what it claims ([Run_verdict]), its probes
      fail closed but for one ([probes_fail_closed]), every property ends
      ([properties_end]), runs do not touch each other's sandboxes
      ([runs_never_collide]) and leave none behind that the backend would destroy
      ([Run_leaves_nothing]);
      mount flags are read from the right entry ([mountOptionsFor_longest]); two
      of its lifecycle properties hold of the Docker backend on every suitable
      engine ([docker_refuses_root], [docker_destroy_removes]).
    - Where the code falls short of what it means: [revocation_misses_respelling],
      [capacity_exceeded_by_removal], [destroy_dot_reports_success],
      [exec_wire_limits], [forwarded_path_reescaped],
      [default_timeout_above_inherited_max], [memory_mb_overflow_accepted],
      [listen_port_zero_respelled], [handleProfiles_omits_defaults],
      [readFile_close_leaks], [failed_sweep_unlogged], [late_override_passes],
      [filtered_tier_passes], [loopback_probe_uncontrolled],
      [leak_cycle_leaves_sandbox], [stacked_mount_flags],
      [broken_reader_unreported], [capacity_exceeded_by_replacement],
      [socket_left_behind].

    ** Bounds and fuel

    Integers are [Z] with wrap-around written out where the code can overflow
    ([wrap64]); durations and times are nanoseconds.  Recursions that are not
    structural take fuel that is proved or evidently enough: the digits of a
    number (its binary length), the segments of a duration and the trimming of a
    string (the string's length), the retries of a kill ([killFuel], 42: two
    seconds over fifty milliseconds and one for each end, proved in
    [killGroup_terminates]), the wait for a crashed sandbox ([pollFuel], 102:
    twenty seconds over 200 milliseconds, proved in [properties_end]), the
    values of a JSON text (its length, proved in [json_parse_print]), the
    redirects an HTTP client follows (ten, the library's own limit).  The
    reaper's loop has no end of its own: its theorem holds for every number of
    turns, and those on previews for every number of retries of a stale
    connection.

    ** What is not modelled

    The Docker engine, the kernel and the guest (parameters, constrained only by
    [DockerEngine], [SweepEngine], [HealthyEngine] or [CountingEngine] where a
    theorem says so); the copying of a proxied request and its response by
    net/http's reverse proxy (a round trip over the connection it was given);
    YAML decoding, the parsing of certificates and the checking of their
    signatures (parameters); rendering of error texts (an error keeps its format
    and arguments); log output but that of [run] up to serving, of [main], of the
    reaper and the audit line of a network request; contexts but for those the
    suite destroys with and those of the goroutine systems; deadlines on open
    streams.
    The shell scripts run inside the sandbox are constants here, their shell
    semantics is not modelled.
    For the same reason the properties of the conformance suite that are measured
    inside a sandbox are not proved of the Docker backend; those that depend
    only on the runtime's answers are ([ConformanceDocker]).  Accessors,
    interface declarations and the forwarding of addresses and deadlines to the
    connection underneath have no definition of their own. *)

From Stdlib Require Export Ascii String.
From stdpp Require Export base gmap strings list fin_maps.
From Stdlib Require Export ZArith Lia.

#[export] Set Default Goal Selector "!".

Declare Scope go_scope.
Delimit Scope go_scope with go.
#[global] Open Scope string_scope.
#[global] Open Scope Z_scope.

(** The hint database that automates the common cases of the development. *)
Create HintDb openblox.
Create Rewrite HintDb openblox_rw.

(** ** Machine integers *)

(** Go's [int64] (and [int], which is 64 bits wide on the supported
    platforms, amd64 and arm64): a [Z] with two's-complement wrap-around. *)
Definition wrap64 (z : Z) : Z := (z + 2 ^ 63) mod 2 ^ 64 - 2 ^ 63.

Definition max_int64 : Z := 2 ^ 63 - 1.
Definition min_int64 : Z := - 2 ^ 63.

Definition in_int64 (z : Z) : Prop := min_int64 <= z <= max_int64.

#[global] Instance in_int64_dec z : Decision (in_int64 z).
Proof. unfold in_int64. apply _. Defined.

Lemma wrap64_id z : in_int64 z -> wrap64 z = z.
Proof.
  unfold in_int64, wrap64, min_int64, max_int64; intros H.
  rewrite Z.mod_small; lia.
Qed.

Lemma wrap64_in_int64 z : in_int64 (wrap64 z).
Proof.
  unfold in_int64, wrap64, min_int64, max_int64.
  pose proof (Z.mod_pos_bound (z + 2 ^ 63) (2 ^ 64)). lia.
Qed.

#[export] Hint Resolve wrap64_in_int64 : openblox.

(** ** Tactics *)

(** Turn boolean comparisons in the context and in the goal into the
    propositions they decide. *)
Ltac zbool :=
  repeat match goal with
    | H : (_ <? _) = true |- _ => apply Z.ltb_lt in H
    | H : (_ <? _) = false |- _ => apply Z.ltb_ge in H
    | H : (_ <=? _) = true |- _ => apply Z.leb_le in H
    | H : (_ <=? _) = false |- _ => apply Z.leb_gt in H
    | H : (_ >? _) = true |- _ => rewrite Z.gtb_ltb in H; apply Z.ltb_lt in H
    | H : (_ >? _) = false |- _ => rewrite Z.gtb_ltb in H; apply Z.ltb_ge in H
    | H : (_ =? _) = true |- _ => apply Z.eqb_eq in H
    | H : (_ =? _) = false |- _ => apply Z.eqb_neq in H
    | H : (_ && _) = true |- _ => apply andb_prop in H as [? ?]
    | H : (_ || _) = false |- _ => apply orb_false_elim in H as [? ?]
    | H : negb _ = true |- _ => apply negb_true_iff in H
    | H : negb _ = false |- _ => apply negb_false_iff in H
    end.

(** Case analysis on the next comparison of integers in the goal; the cases
    arithmetic refutes are closed. *)
Ltac zcase :=
  rewrite ?Z.gtb_ltb, ?Z.geb_leb;
  match goal with
  | |- context [?a <? ?b] => destruct (Z.ltb_spec a b); try lia
  | |- context [?a <=? ?b] => destruct (Z.leb_spec a b); try lia
  | |- context [?a =? ?b] => destruct (Z.eqb_spec a b); try lia
  end.

(** Case analysis on the next [if] or [match] of a hypothesis or the goal,
    remembering the equation. *)
Ltac casesplit :=
  match goal with
  | H : context [if ?b then _ else _] |- _ => destruct b eqn:?
  | |- context [if ?b then _ else _] => destruct b eqn:?
  | H : context [match ?x with _ => _ end] |- _ => destruct x eqn:?
  | |- context [match ?x with _ => _ end] => destruct x eqn:?
  end.

(** ** Strings as byte sequences

    A Go string is a sequence of bytes; so is [String.string], whose
    characters are eight bits. *)

#[global] Arguments String.append !_ _ : simpl nomatch.

Lemma sapp_assoc (s t u : string) : (s ++ t) ++ u = s ++ (t ++ u).
Proof. induction s; simpl; congruence. Qed.

Lemma sapp_nil_r (s : string) : s ++ "" = s.
Proof. induction s; simpl; congruence. Qed.

Lemma slength_app (s t : string) :
  String.length (s ++ t) = (String.length s + String.length t)%nat.
Proof. induction s; simpl; congruence. Qed.

Lemma sapp_inj_l (s t u : string) : s ++ t = s ++ u -> t = u.
Proof. induction s; simpl; intros H; [done|]. injection H; auto. Qed.

Lemma sapp_inj_length (s s' t t' : string) :
  String.length s = String.length s' ->
  s ++ t = s' ++ t' -> s = s' /\ t = t'.
Proof.
  revert s'; induction s as [|c s IH]; intros [|c' s']; simpl; try done.
  intros [= Hl] [= -> Ht]. destruct (IH s' Hl Ht) as [-> ->]. done.
Qed.

(** [has_byte c s]: the byte [c] occurs in [s]. *)
Fixpoint has_byte (c : Ascii.ascii) (s : string) : bool :=
  match s with
  | "" => false
  | String d s' => Ascii.eqb c d || has_byte c s'
  end.

Lemma has_byte_app c s t : has_byte c (s ++ t) = has_byte c s || has_byte c t.
Proof. induction s; simpl; [done|]. rewrite IHs. by rewrite orb_assoc. Qed.

(** [all_bytes p s]: every byte of [s] satisfies [p]. *)
Fixpoint all_bytes (p : Ascii.ascii -> bool) (s : string) : bool :=
  match s with
  | "" => true
  | String d s' => p d && all_bytes p s'
  end.

Lemma all_bytes_app p s t : all_bytes p (s ++ t) = all_bytes p s && all_bytes p t.
Proof. induction s; simpl; [done|]. rewrite IHs. by rewrite andb_assoc. Qed.

Lemma all_bytes_weaken (p q : Ascii.ascii -> bool) s :
  (forall c, p c = true -> q c = true) -> all_bytes p s = true -> all_bytes q s = true.
Proof.
  intros Hpq; induction s; simpl; [done|]. intros H; zbool.
  rewrite Hpq by done. simpl. auto.
Qed.

Lemma all_bytes_not_has p c s :
  p c = false -> all_bytes p s = true -> has_byte c s = false.
Proof.
  intros Hc; induction s as [|d s IH]; simpl; [done|]. intros H; zbool.
  destruct (Ascii.eqb_spec c d); subst; [congruence|]. auto.
Qed.

#[export] Hint Rewrite sapp_assoc sapp_nil_r slength_app has_byte_app all_bytes_app
  : openblox_rw.

(** The value of a byte. *)
Definition byte_val (c : Ascii.ascii) : Z := Z.of_N (Ascii.N_of_ascii c).
Definition byte_of (z : Z) : Ascii.ascii := Ascii.ascii_of_N (Z.to_N z).

Lemma byte_val_bound c : 0 <= byte_val c < 256.
Proof.
  unfold byte_val. pose proof (Ascii.N_ascii_bounded c). lia.
Qed.

Lemma byte_val_of z : 0 <= z < 256 -> byte_val (byte_of z) = z.
Proof.
  intros H. unfold byte_val, byte_of.
  rewrite Ascii.N_ascii_embedding by lia. lia.
Qed.

Lemma byte_of_val c : byte_of (byte_val c) = c.
Proof.
  unfold byte_val, byte_of. rewrite N2Z.id. apply Ascii.ascii_N_embedding.
Qed.

Lemma byte_val_inj c d : byte_val c = byte_val d -> c = d.
Proof. intros H. rewrite <- (byte_of_val c), <- (byte_of_val d). by rewrite H. Qed.

(** ** Iterating over a Go map

    [for k, v := range m] visits every entry once, in an order the language
    leaves unspecified.  A definition that ranges over a map takes the order
    as an argument of this class, so its theorems hold for every order. *)
Class MapRange (V : Type) : Type := {
  range : gmap string V -> list (string * V);
  range_perm : forall m, range m ≡ₚ map_to_list m
}.
#[global] Hint Mode MapRange ! : typeclass_instances.

(** The order used by witnesses. *)
Definition map_range_default (V : Type) : MapRange V :=
  {| range := map_to_list; range_perm := fun m => reflexivity _ |}.

Section map_range.
Context {V : Type} `{MapRange V}.

Lemma elem_of_range (m : gmap string V) k v : (k, v) ∈ range m <-> m !! k = Some v.
Proof. rewrite range_perm. apply elem_of_map_to_list. Qed.

Lemma range_NoDup_fst (m : gmap string V) : NoDup ((range m).*1).
Proof. rewrite range_perm. apply NoDup_fst_map_to_list. Qed.

Lemma range_list_to_map (m : gmap string V) : list_to_map (range m) = m.
Proof.
  transitivity (list_to_map (M:=gmap string V) (map_to_list m)).
  - apply list_to_map_proper; [apply range_NoDup_fst | apply range_perm].
  - apply list_to_map_to_list.
Qed.
End map_range.

(** Inserting the entries of a list without duplicate keys, each under the
    image of its key by an injective function. *)
Lemma fold_insert_lookup {V} (f : string -> string) l (base : gmap string V) k :
  (forall x y, f x = f y -> x = y) -> NoDup l.*1 ->
  fold_left (fun m '(x, v) => <[f x := v]> m) l base !! k =
  match list_find (fun '(x, _) => f x = k) l with
  | Some (_, (_, v)) => Some v
  | None => base !! k
  end.
Proof.
  intros Hinj. revert base; induction l as [|[x v] l IH]; intros base Hnd; cbn [fold_left]; [done|].
  cbn in Hnd. apply NoDup_cons in Hnd as [Hx Hnd]. rewrite IH by done. cbn [list_find].
  destruct (decide (f x = k)) as [<-|Hne].
  - destruct (list_find _ l) as [[i [y w]]|] eqn:E; cbn.
    + exfalso. apply list_find_Some in E as (Hi & Hy & _). apply Hinj in Hy as ->.
      apply Hx, list_elem_of_fmap. exists (x, w). split; [done|]. by eapply list_elem_of_lookup_2.
    + by rewrite lookup_insert_eq.
  - destruct (list_find _ l) as [[i [y w]]|]; cbn; [done|]. by rewrite lookup_insert_ne.
Qed.

