(* ===== verification/Goroutines.v ===== *)
(** * Systems of goroutines

    A system is a relation on its states, one step of one goroutine at a time.
    What every schedule does: [sn] when none goes on forever, [red] when some
    goroutine can move. *)

From stdpp Require Export relations.
From S2P Require Import Prelude.

(** An invariant that holds at the start and survives every step holds in every
    reachable state. *)
Lemma rtc_preserves {A} (R : relation A) (I : A -> Prop) x y :
  (forall x y, I x -> R x y -> I y) -> I x -> rtc R x y -> I y.
Proof. intros HR Hx Hr. induction Hr; eauto. Qed.

(** Steps that decrease a natural number cannot go on forever. *)
Lemma sn_measure {A} (R : relation A) (I : A -> Prop) (f : A -> nat) x :
  (forall x y, I x -> R x y -> I y /\ (f y < f x)%nat) -> I x -> sn R x.
Proof.
  intros HR. remember (f x) as n eqn:Hn. revert x Hn. induction n as [n IH] using lt_wf_ind.
  intros x -> Hx. constructor. intros y Hy. destruct (HR x y Hx Hy) as [Hi Hlt]. by eapply IH.
Qed.
