(* ===== verification/GoErrors.v ===== *)
(** * Go errors

    The error values of the program and [errors.Is].  An error built by
    [fmt.Errorf] is kept as its format string and arguments; the arguments
    formatted with [%w] are the errors it wraps.  Rendering (the text of
    [err.Error()]) is not performed: where the program copies that text, the
    model keeps the error it is the text of. *)

From S2P Require Import Prelude.

(** The sentinel errors of the program (declared with [errors.New]), and the
    two context errors of the standard library the program tests for.
    Identity of the pointer is identity of the constructor. *)
Inductive sentinel : Set :=
  | ErrNotFound
  | ErrInvalid
  | ErrTimeout
  | ErrRuntimeUnavailable
  | ErrStopped
  | ErrImageUnavailable
  | ErrAtCapacity
  | ErrProfileConflict
  | ErrInternal
  | ErrInvalidToken
  | DeadlineExceeded
  | Canceled
  | ErrServerClosed.

#[global] Instance sentinel_eq_dec : EqDecision sentinel.
Proof. solve_decision. Defined.

(** The classes of Docker client errors the program distinguishes
    ([cerrdefs.IsNotFound], [cerrdefs.IsConflict]). *)
Inductive ext_kind : Set := ExtNotFound | ExtConflict | ExtOther.

#[global] Instance ext_kind_eq_dec : EqDecision ext_kind.
Proof. solve_decision. Defined.

(** One argument of a [fmt.Errorf] call. *)
Inductive arg (E : Type) : Type :=
  | AStr (s : string)      (** a string: %s or %q *)
  | AInt (z : Z)           (** an integer or a duration: %d or %s *)
  | AWrap (e : E)          (** an error formatted with %w *)
  | AErrText (e : E)       (** the text of an error: %v, %s or err.Error() *)
  | AOther.                (** a value of another type, not kept *)
Arguments AStr {E}.
Arguments AInt {E}.
Arguments AWrap {E}.
Arguments AErrText {E}.
Arguments AOther {E}.

Inductive error : Type :=
  | Sentinel (s : sentinel)
  | External (k : ext_kind) (text : string)
  | Errorf (format : string) (args : list (arg error))
  | Join (errs : list error).

(** [errors.Is(err, target)] for a sentinel target: the error itself or any
    error of the tree its [Unwrap] methods span. *)
Fixpoint Is (e : error) (target : sentinel) {struct e} : bool :=
  match e with
  | Sentinel s => bool_decide (s = target)
  | External _ _ => false
  | Errorf _ args =>
      existsb (fun a => match a with AWrap e' => Is e' target | _ => false end) args
  | Join errs => existsb (fun e' => Is e' target) errs
  end.

(** [cerrdefs.IsNotFound] and [cerrdefs.IsConflict]: the class of the external
    error in the wrapped tree. *)
Fixpoint ext_is (e : error) (k : ext_kind) {struct e} : bool :=
  match e with
  | Sentinel _ => false
  | External k' _ => bool_decide (k' = k)
  | Errorf _ args =>
      existsb (fun a => match a with AWrap e' => ext_is e' k | _ => false end) args
  | Join errs => existsb (fun e' => ext_is e' k) errs
  end.

Definition IsNotFound (e : error) : bool := ext_is e ExtNotFound.
Definition IsConflict (e : error) : bool := ext_is e ExtConflict.

(** The value-or-error pairs Go functions return. *)
Inductive result (A : Type) : Type :=
  | Ok (a : A)
  | Err (e : error).
Arguments Ok {A}.
Arguments Err {A}.

(** A projection instead of [injection], which would evaluate the values. *)
Lemma Ok_inj {A} (a b : A) : Ok a = Ok b -> a = b.
Proof. congruence. Qed.

Definition is_ok {A} (r : result A) : bool := match r with Ok _ => true | Err _ => false end.

(** [if err != nil { return ..., err }] *)
Notation "'try' x ':=' e 'in' k" :=
  (match e with Ok x => k | Err err => Err err end)
  (at level 10, x pattern, e at level 100, k at level 200).

Lemma Is_wrap s fmt args e :
  AWrap e ∈ args -> Is e s = true -> Is (Errorf fmt args) s = true.
Proof.
  intros Hin He. simpl. apply existsb_exists. exists (AWrap e).
  split; [by apply list_elem_of_In | done].
Qed.
#[export] Hint Resolve Is_wrap : openblox.
