(* ===== verification/GoStrings.v ===== *)
(** * The parts of Go's [strings], [strconv] and [path] the program uses

    Each function is written after the documented behaviour of the standard
    library on byte strings, and comes with the lemmas the components use:
    what splitting a joined string gives, and that printing a number and
    parsing it back gives the number. *)

From S2P Require Import Prelude.

(** ** [strings] *)

(** [strings.HasPrefix] *)
Fixpoint HasPrefix (s p : string) : bool :=
  match p, s with
  | "", _ => true
  | String c p', String d s' => Ascii.eqb c d && HasPrefix s' p'
  | String _ _, "" => false
  end.

(** [strings.CutPrefix]: the rest of [s] after the prefix [p], if it has it. *)
Fixpoint CutPrefix (s p : string) : option string :=
  match p, s with
  | "", _ => Some s
  | String c p', String d s' => if Ascii.eqb c d then CutPrefix s' p' else None
  | String _ _, "" => None
  end.

(** [strings.Cut(s, sep)] for a one-byte separator: the text before and after
    its first occurrence. *)
Fixpoint Cut (s : string) (sep : Ascii.ascii) : option (string * string) :=
  match s with
  | "" => None
  | String d s' =>
      if Ascii.eqb d sep then Some ("", s')
      else match Cut s' sep with
           | Some (a, b) => Some (String d a, b)
           | None => None
           end
  end.

(** [strings.Split(s, sep)] for a one-byte separator. *)
Fixpoint Split (s : string) (sep : Ascii.ascii) : list string :=
  match s with
  | "" => [""]
  | String d s' =>
      if Ascii.eqb d sep then "" :: Split s' sep
      else match Split s' sep with
           | h :: t => String d h :: t
           | [] => [String d ""]
           end
  end.

(** [strings.SplitN(s, sep, S n)] for a one-byte separator: at most [S n]
    parts, the last one holding the unsplit rest. *)
Fixpoint SplitN (s : string) (sep : Ascii.ascii) (n : nat) : list string :=
  match n with
  | O => [s]
  | S n' => match Cut s sep with
            | Some (a, b) => a :: SplitN b sep n'
            | None => [s]
            end
  end.

(** The text after the last occurrence of a byte: [s[strings.LastIndex(s, c)+1:]],
    [None] when the index is -1. *)
Fixpoint AfterLast (s : string) (c : Ascii.ascii) : option string :=
  match s with
  | "" => None
  | String d s' =>
      match AfterLast s' c with
      | Some r => Some r
      | None => if Ascii.eqb d c then Some s' else None
      end
  end.

(** [strings.TrimSuffix(s, c)] for a one-byte suffix. *)
Fixpoint TrimSuffix1 (s : string) (c : Ascii.ascii) : string :=
  match s with
  | "" => ""
  | String d "" => if Ascii.eqb d c then "" else s
  | String d s' => String d (TrimSuffix1 s' c)
  end.

(** [path.IsAbs] *)
Definition IsAbs (p : string) : bool := HasPrefix p "/".

Lemma HasPrefix_app p s : HasPrefix (p ++ s) p = true.
Proof. induction p; simpl; [by destruct s|]. by rewrite Ascii.eqb_refl. Qed.

Lemma HasPrefix_true s p : HasPrefix s p = true -> exists r, s = p ++ r.
Proof.
  revert s; induction p as [|c p IH]; intros s; [by exists s|].
  destruct s as [|d s]; simpl; [done|]. intros [H1 H2]%andb_prop.
  apply Ascii.eqb_eq in H1 as ->. destruct (IH s) as [r ->]; [done|]. by exists r.
Qed.

Lemma CutPrefix_app p s : CutPrefix (p ++ s) p = Some s.
Proof. induction p; simpl; [by destruct s|]. by rewrite Ascii.eqb_refl. Qed.

Lemma CutPrefix_Some s p r : CutPrefix s p = Some r <-> s = p ++ r.
Proof.
  split; [|intros ->; apply CutPrefix_app].
  revert s; induction p as [|c p IH]; intros s.
  { destruct s; simpl; by intros [= <-]. }
  destruct s as [|d s]; simpl; [done|]. destruct (Ascii.eqb_spec c d); [|done].
  intros H%IH. by subst.
Qed.

Lemma Cut_app a c b : has_byte c a = false -> Cut (a ++ String c b) c = Some (a, b).
Proof.
  induction a as [|d a IH]; simpl; [by rewrite Ascii.eqb_refl|].
  intros H; zbool. rewrite Ascii.eqb_sym, H. by rewrite IH.
Qed.

Lemma Cut_Some s c a b :
  Cut s c = Some (a, b) <-> s = a ++ String c b /\ has_byte c a = false.
Proof.
  split; [|intros [-> H]; by apply Cut_app].
  revert a b; induction s as [|d s IH]; intros a b; simpl; [done|].
  destruct (Ascii.eqb_spec d c); [intros [= <- <-]; by subst|].
  destruct (Cut s c) as [[a' b']|]; [|done].
  intros [= <- <-]. destruct (IH a' b') as [-> Hn]; [done|].
  simpl. rewrite Hn. destruct (Ascii.eqb_spec c d); [congruence|done].
Qed.

Lemma Cut_None s c : Cut s c = None <-> has_byte c s = false.
Proof.
  induction s as [|d s IH]; simpl; [done|].
  destruct (Ascii.eqb_spec d c) as [->|Hne].
  - rewrite Ascii.eqb_refl. done.
  - rewrite Ascii.eqb_sym. destruct (Ascii.eqb_spec d c); [done|]. simpl.
    rewrite <- IH. destruct (Cut s c) as [[]|]; split; done.
Qed.

Lemma Split_nonempty s c : Split s c <> [].
Proof. destruct s; simpl; [done|]. repeat casesplit; done. Qed.

(** Splitting at the first occurrence of the separator. *)
Lemma Split_app a c b :
  has_byte c a = false -> Split (a ++ String c b) c = a :: Split b c.
Proof.
  induction a as [|d a IH]; simpl; [by rewrite Ascii.eqb_refl|].
  intros H; zbool. rewrite Ascii.eqb_sym, H. by rewrite IH.
Qed.

Lemma Split_none s c : has_byte c s = false -> Split s c = [s].
Proof.
  induction s as [|d s IH]; simpl; [done|].
  intros H; zbool. rewrite Ascii.eqb_sym, H. by rewrite IH.
Qed.

Lemma Split_Cut s c :
  Split s c = match Cut s c with Some (a, b) => a :: Split b c | None => [s] end.
Proof.
  destruct (Cut s c) as [[a b]|] eqn:E.
  - apply Cut_Some in E as [-> Hn]. by apply Split_app.
  - apply Split_none. by apply Cut_None.
Qed.

(** A three-part split determines the string. *)
Lemma Split_three s c x y z :
  Split s c = [x; y; z] ->
  s = x ++ String c (y ++ String c z) /\
  has_byte c x = false /\ has_byte c y = false /\ has_byte c z = false.
Proof.
  rewrite Split_Cut. destruct (Cut s c) as [[a b]|] eqn:E1; [|done].
  rewrite Split_Cut. destruct (Cut b c) as [[a2 b2]|] eqn:E2; [|done].
  rewrite Split_Cut. destruct (Cut b2 c) as [[a3 b3]|] eqn:E3.
  { intros [= <- <- <- H]. by destruct (Split_nonempty b3 c). }
  intros [= <- <- <-].
  apply Cut_Some in E1 as [-> H1]. apply Cut_Some in E2 as [-> H2].
  apply Cut_None in E3. done.
Qed.

(** ** Decimal digits *)

Definition is_digit (c : Ascii.ascii) : bool :=
  (48 <=? byte_val c) && (byte_val c <=? 57).
Definition digit_val (c : Ascii.ascii) : Z := byte_val c - 48.
Definition digit_of (d : Z) : Ascii.ascii := byte_of (48 + d).

(** The value of a digit string, continuing from [acc]. *)
Fixpoint dec_val (s : string) (acc : Z) : Z :=
  match s with
  | "" => acc
  | String c s' => dec_val s' (acc * 10 + digit_val c)
  end.

Lemma digit_of_is_digit d : 0 <= d < 10 -> is_digit (digit_of d) = true.
Proof. intros H. unfold is_digit, digit_of. rewrite byte_val_of by lia. lia. Qed.

Lemma digit_val_of d : 0 <= d < 10 -> digit_val (digit_of d) = d.
Proof. intros H. unfold digit_val, digit_of. rewrite byte_val_of by lia. lia. Qed.

Lemma is_digit_val c : is_digit c = true -> 0 <= digit_val c < 10.
Proof. unfold is_digit, digit_val. intros; zbool. lia. Qed.

Lemma dec_val_app s t a : dec_val (s ++ t) a = dec_val t (dec_val s a).
Proof. revert a; induction s; simpl; auto. Qed.

Lemma dec_val_mono s a :
  all_bytes is_digit s = true -> 0 <= a -> a <= dec_val s a.
Proof.
  revert a; induction s as [|c s IH]; simpl; [lia|]. intros a H Ha; zbool.
  pose proof (is_digit_val c ltac:(done)).
  etransitivity; [|apply IH; [done|lia]]. lia.
Qed.

(** ** Printing: [%d], [strconv.Itoa] *)

Fixpoint digits (fuel : nat) (n : Z) (acc : string) : string :=
  match fuel with
  | O => acc
  | S f =>
      let acc' := String (digit_of (n mod 10)) acc in
      if n <? 10 then acc' else digits f (n / 10) acc'
  end.

(** [fuel] digits are enough for [n < 10 ^ fuel]; a number has no more decimal
    digits than binary ones. *)
Definition utoa (n : Z) : string := digits (S (Z.to_nat (Z.log2 n))) n "".

Definition Itoa (z : Z) : string := if z <? 0 then "-" ++ utoa (- z) else utoa z.

Lemma digits_acc fuel n acc : digits fuel n acc = digits fuel n "" ++ acc.
Proof.
  revert n acc; induction fuel as [|f IH]; intros n acc; simpl; [done|].
  destruct (n <? 10); [done|]. rewrite IH, (IH _ (String _ "")).
  by rewrite sapp_assoc.
Qed.

Lemma digits_all fuel n acc :
  all_bytes is_digit acc = true -> all_bytes is_digit (digits fuel n acc) = true.
Proof.
  revert n acc; induction fuel as [|f IH]; intros n acc Hacc; simpl; [done|].
  assert (all_bytes is_digit (String (digit_of (n mod 10)) acc) = true).
  { simpl. rewrite digit_of_is_digit; [done|]. apply Z.mod_pos_bound; lia. }
  destruct (n <? 10); auto.
Qed.

Lemma digits_val fuel n :
  0 <= n < 10 ^ Z.of_nat fuel -> dec_val (digits fuel n "") 0 = n.
Proof.
  revert n; induction fuel as [|f IH]; intros n Hn; simpl.
  { change (10 ^ Z.of_nat 0) with 1 in Hn. lia. }
  destruct (n <? 10) eqn:E; zbool.
  - simpl. rewrite Z.mod_small, digit_val_of by lia. lia.
  - rewrite digits_acc, dec_val_app, IH; simpl.
    + rewrite digit_val_of by (apply Z.mod_pos_bound; lia).
      pose proof (Z.div_mod n 10). lia.
    + rewrite Nat2Z.inj_succ, Z.pow_succ_r in Hn by lia.
      split; [apply Z.div_pos; lia|]. apply Z.div_lt_upper_bound; lia.
Qed.

Lemma log2_fuel n : 0 <= n -> n < 10 ^ Z.of_nat (S (Z.to_nat (Z.log2 n))).
Proof.
  intros Hn. rewrite Nat2Z.inj_succ, Z2Nat.id by apply Z.log2_nonneg.
  destruct (Z.eq_dec n 0) as [->|]; [reflexivity|].
  pose proof (Z.log2_spec n ltac:(lia)) as [_ H].
  eapply Z.lt_le_trans; [exact H|]. apply Z.pow_le_mono_l.
  pose proof (Z.log2_nonneg n). lia.
Qed.

Lemma utoa_digits n : all_bytes is_digit (utoa n) = true.
Proof. by apply digits_all. Qed.

Lemma utoa_val n : 0 <= n -> dec_val (utoa n) 0 = n.
Proof. intros. apply digits_val. split; [done|]. by apply log2_fuel. Qed.

Lemma utoa_nonempty n : utoa n <> "".
Proof.
  unfold utoa. simpl. destruct (n <? 10); [done|]. rewrite digits_acc.
  destruct (digits _ _ _); done.
Qed.

Lemma utoa_inj m n : 0 <= m -> 0 <= n -> utoa m = utoa n -> m = n.
Proof. intros Hm Hn H. rewrite <- (utoa_val m), <- (utoa_val n) by done. by rewrite H. Qed.

(** ** Parsing: [strconv.ParseUint], [strconv.ParseInt], [strconv.Atoi] *)

Definition max_uint64 : Z := 2 ^ 64 - 1.

(** The loop of [ParseUint] in base 10: [None] for its syntax and range errors. *)
Fixpoint parse_uint_loop (maxVal : Z) (s : string) (n : Z) : option Z :=
  match s with
  | "" => Some n
  | String c s' =>
      if negb (is_digit c) then None
      else if n >=? max_uint64 / 10 + 1 then None
      else
        let n10 := (n * 10) mod 2 ^ 64 in
        let n1 := (n10 + digit_val c) mod 2 ^ 64 in
        if (n1 <? n10) || (n1 >? maxVal) then None
        else parse_uint_loop maxVal s' n1
  end.

(** [strconv.ParseUint(s, 10, bitSize)] *)
Definition ParseUint (s : string) (bitSize : Z) : option Z :=
  match s with
  | "" => None
  | _ => parse_uint_loop (2 ^ bitSize - 1) s 0
  end.

(** [strconv.ParseInt(s, 10, 64)] *)
Definition ParseInt64 (s : string) : option Z :=
  match s with
  | "" => None
  | String c s' =>
      let '(neg, u) :=
        if Ascii.eqb c "+"%char then (false, s')
        else if Ascii.eqb c "-"%char then (true, s')
        else (false, s) in
      match ParseUint u 64 with
      | None => None
      | Some un =>
          if negb neg && (un >=? 2 ^ 63) then None
          else if neg && (un >? 2 ^ 63) then None
          else Some (if neg then wrap64 (- wrap64 un) else wrap64 un)
      end
  end.

(** [strconv.Atoi]: [ParseInt] at the width of [int]. Its fast path for short
    strings computes the same value. *)
Definition Atoi (s : string) : option Z := ParseInt64 s.

(** What the loop computes: the decimal value, when every byte is a digit and
    the value fits. *)
Lemma parse_uint_loop_spec bits s n :
  0 <= bits <= 64 -> 0 <= n <= 2 ^ bits - 1 ->
  parse_uint_loop (2 ^ bits - 1) s n =
  if all_bytes is_digit s && (dec_val s n <=? 2 ^ bits - 1)
  then Some (dec_val s n) else None.
Proof.
  intros Hbits. assert (2 ^ bits <= 2 ^ 64) by (apply Z.pow_le_mono_r; lia).
  revert n; induction s as [|c s IH]; intros n Hn; cbn [parse_uint_loop all_bytes dec_val].
  { cbn. by destruct (Z.leb_spec n (2 ^ bits - 1)); [|lia]. }
  destruct (is_digit c) eqn:Hc; cbn [negb andb]; [|done].
  pose proof (is_digit_val c Hc) as Hd.
  change (max_uint64 / 10 + 1) with 1844674407370955162.
  assert (Hbig : 2 ^ bits - 1 < n * 10 + digit_val c ->
    None = if all_bytes is_digit s && (dec_val s (n * 10 + digit_val c) <=? 2 ^ bits - 1)
           then Some (dec_val s (n * 10 + digit_val c)) else None).
  { intros Hlt. destruct (all_bytes is_digit s) eqn:Hs; simpl; [|done].
    pose proof (dec_val_mono s (n * 10 + digit_val c) Hs ltac:(lia)).
    destruct (Z.leb_spec (dec_val s (n * 10 + digit_val c)) (2 ^ bits - 1)); [lia|done]. }
  rewrite Z.geb_leb. destruct (Z.leb_spec 1844674407370955162 n); [apply Hbig; lia|].
  rewrite (Z.mod_small (n * 10)) by lia. rewrite Z.gtb_ltb.
  destruct (Z.lt_ge_cases (n * 10 + digit_val c) (2 ^ 64)) as [Hlt|Hge].
  - rewrite Z.mod_small by lia.
    destruct (Z.ltb_spec (n * 10 + digit_val c) (n * 10)); [lia|]. cbn [orb].
    destruct (Z.ltb_spec (2 ^ bits - 1) (n * 10 + digit_val c)); [apply Hbig; lia|].
    apply IH. lia.
  - replace ((n * 10 + digit_val c) mod 2 ^ 64) with (n * 10 + digit_val c - 2 ^ 64).
    2: { apply Zmod_unique with 1; lia. }
    destruct (Z.ltb_spec (n * 10 + digit_val c - 2 ^ 64) (n * 10)); [|lia].
    cbn [orb]. apply Hbig. lia.
Qed.

Lemma ParseUint_Some s bits n :
  0 <= bits <= 64 ->
  ParseUint s bits = Some n <->
  s <> "" /\ all_bytes is_digit s = true /\ n = dec_val s 0 /\ n <= 2 ^ bits - 1.
Proof.
  intros Hb. unfold ParseUint. destruct s as [|c s]; [naive_solver|].
  rewrite parse_uint_loop_spec; [|done|pose proof (Z.pow_pos_nonneg 2 bits); lia].
  destruct (all_bytes _ _); cbn [andb]; [|naive_solver].
  destruct (Z.leb_spec (dec_val (String c s) 0) (2 ^ bits - 1)); [naive_solver|].
  split; [done|]. intros (_ & _ & -> & ?). lia.
Qed.

Lemma ParseUint_utoa bits n :
  0 <= bits <= 64 -> 0 <= n < 2 ^ bits -> ParseUint (utoa n) bits = Some n.
Proof.
  intros Hb Hn. apply ParseUint_Some; [done|]. rewrite utoa_val by lia.
  pose proof (utoa_nonempty n). rewrite utoa_digits. repeat split; [done|lia].
Qed.

Lemma utoa_head n c s : utoa n = String c s -> is_digit c = true.
Proof.
  intros H. pose proof (utoa_digits n) as Hd. rewrite H in Hd. simpl in Hd. by zbool.
Qed.

Lemma is_digit_not c d : is_digit c = true -> is_digit d = false -> Ascii.eqb c d = false.
Proof. intros Hc Hd. destruct (Ascii.eqb_spec c d); [congruence|done]. Qed.

(** Printing an [int64] and parsing it back gives it. *)
Lemma ParseInt64_Itoa z : in_int64 z -> ParseInt64 (Itoa z) = Some z.
Proof.
  unfold in_int64, min_int64, max_int64; intros Hz. unfold Itoa.
  destruct (Z.ltb_spec z 0).
  - cbn [String.append ParseInt64]. change (Ascii.eqb "-"%char "+"%char) with false.
    change (Ascii.eqb "-"%char "-"%char) with true. cbv iota beta.
    rewrite ParseUint_utoa by lia. cbn [negb andb].
    rewrite Z.gtb_ltb. destruct (Z.ltb_spec (2 ^ 63) (- z)); [lia|]. f_equal.
    destruct (Z.eq_dec z (- 2 ^ 63)) as [->|]; [reflexivity|].
    rewrite (wrap64_id (- z)), wrap64_id; unfold in_int64, min_int64, max_int64; lia.
  - destruct (utoa z) as [|c s] eqn:E; [by destruct (utoa_nonempty z)|].
    pose proof (utoa_head _ _ _ E) as Hc. unfold ParseInt64.
    rewrite !is_digit_not by done. rewrite <- E, ParseUint_utoa by lia.
    cbn [negb andb]. rewrite Z.geb_leb. destruct (Z.leb_spec (2 ^ 63) z); [lia|].
    rewrite wrap64_id; [done|]. unfold in_int64, min_int64, max_int64; lia.
Qed.

#[export] Hint Resolve utoa_digits utoa_nonempty digit_of_is_digit : openblox.
