(* ===== verification/GoFloat64.v ===== *)
(** * Go's [float64]

    IEEE-754 binary64 arithmetic through the Standard Library's [SpecFloat]
    (round to nearest even, 53-bit significands), for the two places the
    program computes with floats: the fraction in a duration string and the
    CPU count of a profile.  The lemma the components need is that products of
    integers below [2^53] are exact. *)

From S2P Require Import Prelude.
From Stdlib Require Import SpecFloat.

Abbreviation float64 := spec_float.

Definition fprec : Z := 53.
Definition femax : Z := 1024.

(** [float64(n)] for an integer [n]. *)
Definition f64_of_int (n : Z) : float64 := binary_normalize fprec femax n 0 false.
Definition f64_mul : float64 -> float64 -> float64 := SFmul fprec femax.
Definition f64_div : float64 -> float64 -> float64 := SFdiv fprec femax.
(** Go's [<], [>] and [==] on floats: false on NaN. *)
Definition f64_ltb (x y : float64) : bool := SFltb x y.
Definition f64_eqb (x y : float64) : bool := SFeqb x y.

(** Truncation toward zero of a finite float; [None] for NaN and infinities,
    whose conversion to an integer the language leaves to the platform. *)
Definition f64_trunc (x : float64) : option Z :=
  match x with
  | S754_zero _ => Some 0
  | S754_finite s m e =>
      let v := if 0 <=? e then Zpos m * 2 ^ e else Zpos m / 2 ^ (- e) in
      Some (if s then - v else v)
  | S754_infinity _ | S754_nan => None
  end.

#[global] Arguments f64_of_int : simpl never.
#[global] Arguments f64_mul : simpl never.
#[global] Arguments f64_div : simpl never.

(** The normalised float of a positive integer below [2^53]. *)
Definition f64_norm (x : Z) : float64 :=
  S754_finite false (Z.to_pos (x * 2 ^ (52 - Z.log2 x))) (Z.log2 x - 52).

Lemma digits2_log2 p : Zpos (digits2_pos p) = Z.log2 (Zpos p) + 1.
Proof.
  assert (H : forall q, digits2_pos q = Pos.size q).
  { induction q; simpl; congruence. }
  rewrite H. destruct p; simpl; lia.
Qed.

Lemma Zdigits2_log2 x : 0 < x -> Zdigits2 x = Z.log2 x + 1.
Proof. intros. destruct x; try lia. apply digits2_log2. Qed.

Definition exact_rec (m : Z) : shr_record := {| shr_m := m; shr_r := false; shr_s := false |}.

Lemma shr_1_double m : 0 < m -> shr_1 (exact_rec (m * 2)) = exact_rec m.
Proof. intros. rewrite Z.mul_comm. by destruct m. Qed.

Lemma iter_shr_exact p m :
  0 < m -> iter_pos shr_1 p (exact_rec (m * 2 ^ Zpos p)) = exact_rec m.
Proof.
  revert m; induction p as [p IH|p IH|]; intros m Hm; cbn [iter_pos].
  - replace (m * 2 ^ Zpos p~1) with (m * 2 ^ Zpos p * 2 ^ Zpos p * 2).
    2: { rewrite (Pos2Z.inj_xI p), Z.pow_add_r, Z.pow_1_r by lia.
         replace (2 * Zpos p) with (Zpos p + Zpos p) by lia.
         rewrite Z.pow_add_r by lia. ring. }
    pose proof (Z.pow_pos_nonneg 2 (Zpos p) ltac:(lia) ltac:(lia)).
    rewrite shr_1_double, IH, IH by nia. done.
  - replace (m * 2 ^ Zpos p~0) with (m * 2 ^ Zpos p * 2 ^ Zpos p).
    2: { rewrite (Pos2Z.inj_xO p). replace (2 * Zpos p) with (Zpos p + Zpos p) by lia.
         rewrite Z.pow_add_r by lia. ring. }
    pose proof (Z.pow_pos_nonneg 2 (Zpos p) ltac:(lia) ltac:(lia)).
    rewrite IH, IH by nia. done.
  - change (2 ^ 1) with 2. by apply shr_1_double.
Qed.

Lemma shr_exact m e n :
  0 < m -> 0 <= n -> shr (exact_rec (m * 2 ^ n)) e n = (exact_rec m, e + n).
Proof.
  intros Hm Hn. unfold shr. destruct n as [|p|p]; [|by rewrite iter_shr_exact|lia].
  rewrite Z.pow_0_r, Z.mul_1_r, Z.add_0_r. done.
Qed.

Lemma log2_shift x j : 0 < x -> 0 <= j -> Z.log2 (x * 2 ^ j) = Z.log2 x + j.
Proof. intros. rewrite Z.log2_mul_pow2 by lia. lia. Qed.

(** Rounding an exactly representable integer loses nothing. *)
Lemma round_exact x j :
  0 < x < 2 ^ 53 -> 52 - Z.log2 x <= j <= 1000 ->
  binary_round_aux fprec femax false (x * 2 ^ j) (- j) loc_Exact = f64_norm x.
Proof.
  intros Hx Hj. unfold binary_round_aux, shr_fexp.
  assert (Hl : Z.log2 x <= 52) by (apply Z.lt_succ_r, Z.log2_lt_pow2; lia).
  pose proof (Z.log2_nonneg x). pose proof (Z.pow_pos_nonneg 2 j).
  rewrite Zdigits2_log2, log2_shift by nia.
  unfold fexp, emin, fprec, femax. change (3 - 1024 - 53) with (-1074).
  replace (Z.max (Z.log2 x + j + 1 + - j - 53) (-1074)) with (Z.log2 x - 52) by lia.
  change (shr_record_of_loc (x * 2 ^ j) loc_Exact) with (exact_rec (x * 2 ^ j)).
  replace (x * 2 ^ j) with
    ((x * 2 ^ (52 - Z.log2 x)) * 2 ^ (Z.log2 x - 52 - - j)).
  2: { rewrite <- Z.mul_assoc, <- Z.pow_add_r by lia. do 2 f_equal. lia. }
  pose proof (Z.pow_pos_nonneg 2 (52 - Z.log2 x) ltac:(lia) ltac:(lia)).
  rewrite shr_exact by nia. cbn [exact_rec shr_m loc_of_shr_record round_nearest_even shr_r shr_s].
  rewrite Zdigits2_log2, log2_shift by nia.
  replace (Z.max _ _ - _) with 0 by lia. cbn [shr].
  cbn [shr_record_of_loc shr_m].
  destruct (x * 2 ^ (52 - Z.log2 x)) as [|m|m] eqn:E; [nia| |nia].
  destruct (Z.leb_spec (- j + (Z.log2 x - 52 - - j)) (1024 - 53)); [|lia].
  unfold f64_norm. rewrite E. f_equal. lia.
Qed.

Lemma iter_xO_mul d p : Zpos (Pos.iter xO p d) = Zpos p * 2 ^ Zpos d.
Proof.
  revert p; induction d using Pos.peano_ind; intros p; [simpl; lia|].
  rewrite Pos.iter_succ, Pos2Z.inj_succ, Z.pow_succ_r by lia.
  rewrite Pos2Z.inj_xO, IHd. ring.
Qed.

Lemma f64_of_int_norm x : 0 < x < 2 ^ 53 -> f64_of_int x = f64_norm x.
Proof.
  intros Hx. unfold f64_of_int, binary_normalize. destruct x as [|p|p]; try lia.
  unfold binary_round, shl_align. rewrite digits2_log2.
  assert (Hl : Z.log2 (Zpos p) <= 52) by (apply Z.lt_succ_r, Z.log2_lt_pow2; lia).
  pose proof (Z.log2_nonneg (Zpos p)).
  replace (fexp _ _ _ - 0) with (Z.log2 (Zpos p) - 52).
  2: { unfold fexp, emin, fprec, femax. lia. }
  replace (fexp _ _ _) with (Z.log2 (Zpos p) - 52).
  2: { unfold fexp, emin, fprec, femax. lia. }
  destruct (Z.log2 (Zpos p) - 52) as [|d|d] eqn:E; [|lia|].
  - rewrite <- (round_exact (Zpos p) 0) by lia. by rewrite Z.pow_0_r, Z.mul_1_r.
  - rewrite iter_xO_mul. rewrite <- (round_exact (Zpos p) (Zpos d)) by lia. done.
Qed.

Lemma f64_trunc_norm x : 0 < x < 2 ^ 53 -> f64_trunc (f64_norm x) = Some x.
Proof.
  intros Hx. unfold f64_trunc, f64_norm.
  assert (Hl : Z.log2 x <= 52) by (apply Z.lt_succ_r, Z.log2_lt_pow2; lia).
  pose proof (Z.pow_pos_nonneg 2 (52 - Z.log2 x) ltac:(lia) ltac:(lia)).
  rewrite Z2Pos.id by nia. f_equal.
  destruct (Z.leb_spec 0 (Z.log2 x - 52)).
  - replace (Z.log2 x) with 52 by lia. change (2 ^ (52 - 52)) with 1.
    change (2 ^ (52 - 52)) with 1. lia.
  - replace (- (Z.log2 x - 52)) with (52 - Z.log2 x) by lia. by apply Z.div_mul; lia.
Qed.

(** Products of integers that fit a significand are exact. *)
Lemma f64_mul_exact a b :
  0 < a -> 0 < b -> a * b < 2 ^ 53 ->
  f64_mul (f64_of_int a) (f64_of_int b) = f64_of_int (a * b).
Proof.
  intros Ha Hb Hab. rewrite !f64_of_int_norm by nia.
  unfold f64_mul, SFmul. unfold f64_norm at 1. unfold f64_norm at 1. cbn [xorb].
  assert (Z.log2 a <= 52) by (apply Z.lt_succ_r, Z.log2_lt_pow2; nia).
  assert (Z.log2 b <= 52) by (apply Z.lt_succ_r, Z.log2_lt_pow2; nia).
  pose proof (Z.log2_nonneg a). pose proof (Z.log2_nonneg b).
  pose proof (Z.log2_mul_below a b Ha Hb).
  pose proof (Z.pow_pos_nonneg 2 (52 - Z.log2 a) ltac:(lia) ltac:(lia)).
  pose proof (Z.pow_pos_nonneg 2 (52 - Z.log2 b) ltac:(lia) ltac:(lia)).
  rewrite Pos2Z.inj_mul, !Z2Pos.id by nia.
  rewrite <- (round_exact (a * b) (104 - Z.log2 a - Z.log2 b)) by nia.
  f_equal; [|lia].
  replace (104 - Z.log2 a - Z.log2 b) with (52 - Z.log2 a + (52 - Z.log2 b)) by lia.
  rewrite Z.pow_add_r by lia. ring.
Qed.
