(* ===== verification/GoDuration.v ===== *)
(** * [time.Duration]

    Durations are [int64] nanoseconds.  openblox writes a sandbox's bounds as
    [Duration.String()] labels and reads them back with [time.ParseDuration],
    and sends a command's timeout over the wire the same way; both functions
    are modelled from the standard library, digit loops, unit table and
    floating-point fraction included, and the round trip is proved for every
    duration. *)

From S2P Require Import Prelude GoStrings GoFloat64.

Definition Nanosecond : Z := 1.
Definition Microsecond : Z := 1000.
Definition Millisecond : Z := 1000000.
Definition Second : Z := 1000000000.
Definition Minute : Z := 60 * Second.
Definition Hour : Z := 60 * Minute.

(** ** [Duration.String] *)

(** [fmtFrac]: the fraction of [v / 10^prec], written in front of [acc] without
    trailing zeros, and the integral part. *)
Fixpoint fmt_frac (prec : nat) (v : Z) (print : bool) (acc : string) : string * Z :=
  match prec with
  | O => (if print then String "." acc else acc, v)
  | S p =>
      let digit := v mod 10 in
      let print := print || negb (digit =? 0) in
      fmt_frac p (v / 10) print (if print then String (digit_of digit) acc else acc)
  end.

(** [fmtInt] writes the decimal digits of [v] in front of [acc]. *)
Definition fmt_int (v : Z) (acc : string) : string := utoa v ++ acc.

(** The micro sign, U+00B5, in UTF-8. *)
Definition micro : string := String "194" (String "181" "").

Definition format_mag (u : Z) : string :=
  if u <? Second then
    if u =? 0 then "0s"
    else
      let '(prec, unit) :=
        if u <? Microsecond then (0%nat, "ns")
        else if u <? Millisecond then (3%nat, micro ++ "s")
        else (6%nat, "ms") in
      let '(acc, u) := fmt_frac prec u false unit in
      fmt_int u acc
  else
    let '(acc, u) := fmt_frac 9 u false "s" in
    let acc := fmt_int (u mod 60) acc in
    let u := u / 60 in
    if 0 <? u then
      let acc := fmt_int (u mod 60) (String "m" acc) in
      let u := u / 60 in
      if 0 <? u then fmt_int u (String "h" acc) else acc
    else acc.

(** [Duration.String]: the magnitude is taken as a [uint64], so the smallest
    duration prints too. *)
Definition DurationString (d : Z) : string :=
  if d <? 0 then String "-" (format_mag (- d)) else format_mag d.

(** ** [time.ParseDuration] *)

(** [leadingInt]: the digits at the front of [s]. *)
Fixpoint leading_int (s : string) (x : Z) : option (Z * string) :=
  match s with
  | String c s' =>
      if is_digit c then
        if x >? 2 ^ 63 / 10 then None
        else
          let x := x * 10 + digit_val c in
          if x >? 2 ^ 63 then None else leading_int s' x
      else Some (x, s)
  | "" => Some (x, s)
  end.

(** [leadingFraction]: the digits after the point; digits past the precision
    of an [int64] are skipped. *)
Fixpoint leading_fraction (s : string) (x : Z) (scale : float64) (overflow : bool)
  : Z * float64 * string :=
  match s with
  | String c s' =>
      if is_digit c then
        if overflow then leading_fraction s' x scale overflow
        else if x >? (2 ^ 63 - 1) / 10 then leading_fraction s' x scale true
        else
          let y := x * 10 + digit_val c in
          if y >? 2 ^ 63 then leading_fraction s' x scale true
          else leading_fraction s' y (f64_mul scale (f64_of_int 10)) overflow
      else (x, scale, s)
  | "" => (x, scale, s)
  end.

(** The unit name: everything up to the next digit or point. *)
Fixpoint take_unit (s : string) : string * string :=
  match s with
  | String c s' =>
      if Ascii.eqb c "."%char || is_digit c then ("", s)
      else let '(u, r) := take_unit s' in (String c u, r)
  | "" => ("", "")
  end.

(** [unitMap]; the micro sign and the Greek mu both mean microseconds. *)
Definition unit_of (u : string) : option Z :=
  if String.eqb u "ns" then Some Nanosecond
  else if String.eqb u "us" then Some Microsecond
  else if String.eqb u (micro ++ "s") then Some Microsecond
  else if String.eqb u (String "206" (String "188" "s")) then Some Microsecond
  else if String.eqb u "ms" then Some Millisecond
  else if String.eqb u "s" then Some Second
  else if String.eqb u "m" then Some Minute
  else if String.eqb u "h" then Some Hour
  else None.

(** [uint64(float64(f) * (float64(unit) / scale))]. The product is finite and
    non-negative: [f] is positive and the quotient is at most the unit. *)
Definition frac_nanos (f unit : Z) (scale : float64) : Z :=
  default 0 (f64_trunc (f64_mul (f64_of_int f) (f64_div (f64_of_int unit) scale))).

(** The optional fraction: the digits after the point, their scale, the rest, and
    whether there were any. *)
Definition opt_fraction (s : string) : Z * float64 * string * bool :=
  match s with
  | String p s' =>
      if Ascii.eqb p "."%char then
        let '(f, scale, r) := leading_fraction s' 0 (f64_of_int 1) false in
        (f, scale, r, negb (Nat.eqb (String.length s') (String.length r)))
      else (0, f64_of_int 1, s, false)
  | "" => (0, f64_of_int 1, s, false)
  end.

(** One round of the loop: a number with an optional fraction and its unit.
    [None] is the error return. *)
Definition parse_segment (s : string) (d : Z) : option (string * Z) :=
  match s with
  | "" => None
  | String c _ =>
      if negb (Ascii.eqb c "."%char || is_digit c) then None
      else
        match leading_int s 0 with
        | None => None
        | Some (v, s1) =>
            let pre := negb (Nat.eqb (String.length s) (String.length s1)) in
            let '(f, scale, s2, post) := opt_fraction s1 in
            if negb pre && negb post then None
            else
              let '(u, s3) := take_unit s2 in
              match u with
              | "" => None
              | _ =>
                  match unit_of u with
                  | None => None
                  | Some unit =>
                      if v >? 2 ^ 63 / unit then None
                      else
                        let v := v * unit in
                        let v := if f >? 0 then (v + frac_nanos f unit scale) mod 2 ^ 64 else v in
                        if (f >? 0) && (v >? 2 ^ 63) then None
                        else
                          let d := (d + v) mod 2 ^ 64 in
                          if d >? 2 ^ 63 then None else Some (s3, d)
                  end
              end
        end
  end.

(** [for s != "" { ... }]; every round consumes at least one byte, so the
    length of the string is enough fuel. *)
Fixpoint parse_segments (fuel : nat) (s : string) (d : Z) : option Z :=
  match s with
  | "" => Some d
  | _ =>
      match fuel with
      | O => None
      | S n =>
          match parse_segment s d with
          | None => None
          | Some (s', d') => parse_segments n s' d'
          end
      end
  end.

(** [time.ParseDuration]; [None] is an error. *)
Definition ParseDuration (s : string) : option Z :=
  let '(neg, s) :=
    match s with
    | String c s' =>
        if Ascii.eqb c "-"%char then (true, s')
        else if Ascii.eqb c "+"%char then (false, s') else (false, s)
    | "" => (false, s)
    end in
  if String.eqb s "0" then Some 0
  else if String.eqb s "" then None
  else
    match parse_segments (String.length s) s 0 with
    | None => None
    | Some d =>
        if neg then Some (wrap64 (- wrap64 d))
        else if d >? 2 ^ 63 - 1 then None
        else Some (wrap64 d)
    end.

Example duration_ex1 : DurationString (15 * Minute) = "15m0s".
Proof. reflexivity. Qed.
Example duration_ex2 : DurationString (2 * Hour + 1500 * Millisecond) = "2h0m1.5s".
Proof. reflexivity. Qed.
Example duration_ex3 : DurationString (-1500) = "-1.5" ++ micro ++ "s".
Proof. vm_compute. reflexivity. Qed.
Example duration_ex4 : ParseDuration "1.5h" = Some (90 * Minute).
Proof. vm_compute. reflexivity. Qed.
Example duration_ex5 : ParseDuration "-2h0m1.5s" = Some (- (2 * Hour + 1500 * Millisecond)).
Proof. vm_compute. reflexivity. Qed.
Example duration_ex6 : ParseDuration (DurationString min_int64) = Some min_int64.
Proof. vm_compute. reflexivity. Qed.
Example duration_ex7 : ParseDuration "9223372036854775808ns" = None.
Proof. vm_compute. reflexivity. Qed.
Example duration_ex8 : ParseDuration ".1h" = Some (6 * Minute).
Proof. vm_compute. reflexivity. Qed.

(** ** Fuel *)

Lemma leading_int_length s x v r :
  leading_int s x = Some (v, r) -> (String.length r <= String.length s)%nat.
Proof.
  revert x; induction s as [|c s IH]; intros x; simpl; [by intros [= <- <-]|].
  repeat casesplit; try done; [intros H%IH; lia | intros [= <- <-]; simpl; lia].
Qed.

Lemma leading_fraction_length s x sc o f sc' r :
  leading_fraction s x sc o = (f, sc', r) -> (String.length r <= String.length s)%nat.
Proof.
  revert x sc o; induction s as [|c s IH]; intros x sc o; simpl; [by intros [= <- <- <-]|].
  repeat casesplit; try (intros H%IH; lia). intros [= <- <- <-]; simpl; lia.
Qed.

Lemma opt_fraction_length s f sc r p :
  opt_fraction s = (f, sc, r, p) -> (String.length r <= String.length s)%nat.
Proof.
  unfold opt_fraction. destruct s as [|p1 s]; [by intros [= <- <- <- <-]|].
  destruct (Ascii.eqb p1 _); [|by intros [= <- <- <- <-]].
  destruct (leading_fraction _ _ _ _) as [[f' sc'] r'] eqn:E.
  intros [= <- <- <- <-]. apply leading_fraction_length in E. simpl; lia.
Qed.

Lemma take_unit_length s u r :
  take_unit s = (u, r) -> String.length s = (String.length u + String.length r)%nat.
Proof.
  revert u r; induction s as [|c s IH]; intros u r; simpl; [by intros [= <- <-]|].
  destruct (_ || _); [by intros [= <- <-]|].
  destruct (take_unit s) as [u' r'] eqn:E. intros [= <- <-]. simpl. rewrite (IH u' r'); done.
Qed.

(** Every round consumes input. *)
Lemma parse_segment_length s d s' d' :
  parse_segment s d = Some (s', d') -> (String.length s' < String.length s)%nat.
Proof.
  unfold parse_segment. destruct s as [|c s]; [done|].
  destruct (negb _); [done|].
  destruct (leading_int _ 0) as [[v s1]|] eqn:E1; [|done].
  apply leading_int_length in E1.
  destruct (opt_fraction s1) as [[[f sc] s2] p] eqn:E2.
  apply opt_fraction_length in E2. destruct (_ && _); [done|].
  destruct (take_unit s2) as [u s3] eqn:E3. apply take_unit_length in E3.
  destruct u as [|c' u]; [done|]. repeat casesplit; try done.
  all: intros [= <- <-]; simpl in *; lia.
Qed.

Lemma parse_segments_fuel n s d :
  (String.length s <= n)%nat ->
  parse_segments n s d = parse_segments (String.length s) s d.
Proof.
  revert s d. induction n as [n IH] using lt_wf_ind. intros s d Hn.
  destruct s as [|c s]; [by destruct n|].
  destruct n as [|n]; [simpl in Hn; lia|]. cbn [parse_segments String.length].
  destruct (parse_segment _ _) as [[s' d']|] eqn:E; [|done].
  apply parse_segment_length in E. simpl in E, Hn.
  rewrite (IH n), (IH (String.length s)); [done|lia..].
Qed.

Lemma parse_segments_step s d s' d' :
  parse_segment s d = Some (s', d') ->
  parse_segments (String.length s) s d = parse_segments (String.length s') s' d'.
Proof.
  intros E. pose proof (parse_segment_length _ _ _ _ E) as Hl.
  destruct s as [|c s]; [done|]. cbn [parse_segments String.length].
  rewrite E. apply parse_segments_fuel. simpl in Hl. lia.
Qed.

(** ** The round trip *)

(** The rest of a duration string after a number or a unit. *)
Definition no_digit_head (s : string) : Prop :=
  match s with "" => True | String c _ => is_digit c = false end.
Definition digit_head (s : string) : Prop :=
  match s with "" => True | String c _ => is_digit c = true end.
Definition unit_byte (c : ascii) : bool := negb (Ascii.eqb c "."%char || is_digit c).

Lemma leading_int_digits ds r x :
  all_bytes is_digit ds = true -> no_digit_head r -> 0 <= x -> dec_val ds x <= 2 ^ 63 ->
  leading_int (ds ++ r) x = Some (dec_val ds x, r).
Proof.
  revert x; induction ds as [|c ds IH]; intros x Hds Hr Hx Hv; simpl.
  { destruct r as [|c r]; simpl; [done|]. simpl in Hr. by rewrite Hr. }
  simpl in Hds. apply andb_prop in Hds as [Hc Hds]. rewrite Hc.
  pose proof (is_digit_val c Hc). simpl in Hv.
  pose proof (dec_val_mono ds (x * 10 + digit_val c) Hds ltac:(lia)).
  rewrite !Z.gtb_ltb.
  destruct (Z.ltb_spec (2 ^ 63 / 10) x).
  { change (2 ^ 63 / 10) with 922337203685477580 in *. lia. }
  destruct (Z.ltb_spec (2 ^ 63) (x * 10 + digit_val c)); [lia|].
  apply IH; auto; lia.
Qed.

Definition scale_of (k : nat) : float64 := Nat.iter k (fun s => f64_mul s (f64_of_int 10)) (f64_of_int 1).

Lemma leading_fraction_digits ds r x k :
  all_bytes is_digit ds = true -> no_digit_head r ->
  0 <= x -> dec_val ds x < 10 ^ 18 ->
  leading_fraction (ds ++ r) x (scale_of k) false =
  (dec_val ds x, scale_of (k + String.length ds), r).
Proof.
  revert x k; induction ds as [|c ds IH]; intros x k Hds Hr Hx Hv; simpl.
  { rewrite Nat.add_0_r. destruct r as [|c r]; simpl; [done|]. simpl in Hr. by rewrite Hr. }
  simpl in Hds. apply andb_prop in Hds as [Hc Hds]. rewrite Hc.
  pose proof (is_digit_val c Hc). simpl in Hv.
  pose proof (dec_val_mono ds (x * 10 + digit_val c) Hds ltac:(lia)).
  rewrite !Z.gtb_ltb.
  destruct (Z.ltb_spec ((2 ^ 63 - 1) / 10) x).
  { change ((2 ^ 63 - 1) / 10) with 922337203685477580 in *. lia. }
  destruct (Z.ltb_spec (2 ^ 63) (x * 10 + digit_val c)); [lia|].
  change (f64_mul (scale_of k) (f64_of_int 10)) with (scale_of (S k)).
  rewrite IH by (auto; lia). by rewrite Nat.add_succ_comm.
Qed.

Lemma take_unit_app u r :
  all_bytes unit_byte u = true -> digit_head r -> take_unit (u ++ r) = (u, r).
Proof.
  intros Hu Hr. induction u as [|c u IH]; simpl.
  - destruct r as [|c r]; simpl; [done|]. simpl in Hr. by rewrite Hr, orb_true_r.
  - simpl in Hu. apply andb_prop in Hu as [Hc Hu]. unfold unit_byte in Hc.
    apply negb_true_iff in Hc. rewrite Hc. by rewrite IH.
Qed.

(** What [fmtFrac] writes: nothing, or a point and the digits of the fraction
    without its trailing zeros. *)
Lemma fmt_frac_print p v acc :
  0 <= v ->
  exists ds, fmt_frac p v true acc = (String "." (ds ++ acc), v / 10 ^ Z.of_nat p) /\
    all_bytes is_digit ds = true /\ String.length ds = p /\
    dec_val ds 0 = v mod 10 ^ Z.of_nat p.
Proof.
  revert v acc; induction p as [|p IH]; intros v acc Hv.
  { exists "". cbn. rewrite Z.div_1_r, Z.mod_1_r. done. }
  cbn [fmt_frac orb].
  destruct (IH (v / 10) (String (digit_of (v mod 10)) acc)) as (ds & -> & Hd & Hl & Hval).
  { apply Z.div_pos; lia. }
  pose proof (Z.mod_pos_bound v 10 ltac:(lia)).
  exists (ds ++ String (digit_of (v mod 10)) ""). split_and!.
  - rewrite sapp_assoc, Z.div_div by (try apply Z.pow_pos_nonneg; lia).
    by rewrite Nat2Z.inj_succ, Z.pow_succ_r by lia.
  - rewrite all_bytes_app, Hd. simpl. by rewrite digit_of_is_digit.
  - rewrite slength_app, Hl. simpl. lia.
  - rewrite dec_val_app, Hval. simpl. rewrite digit_val_of by done.
    rewrite Nat2Z.inj_succ, Z.pow_succ_r by lia.
    rewrite Z.rem_mul_r by (try apply Z.pow_pos_nonneg; lia). lia.
Qed.

Lemma fmt_frac_spec p v acc :
  0 <= v ->
  fmt_frac p v false acc = (acc, v / 10 ^ Z.of_nat p) /\ v mod 10 ^ Z.of_nat p = 0 \/
  exists ds, fmt_frac p v false acc = (String "." (ds ++ acc), v / 10 ^ Z.of_nat p) /\
    all_bytes is_digit ds = true /\ (0 < String.length ds <= p)%nat /\
    0 < dec_val ds 0 /\
    dec_val ds 0 * 10 ^ (Z.of_nat p - Z.of_nat (String.length ds)) = v mod 10 ^ Z.of_nat p.
Proof.
  revert v acc; induction p as [|p IH]; intros v acc Hv.
  { left. cbn. rewrite Z.div_1_r, Z.mod_1_r. done. }
  cbn [fmt_frac orb]. pose proof (Z.mod_pos_bound v 10 ltac:(lia)) as Hm.
  assert (0 <= v / 10) by (apply Z.div_pos; lia).
  assert (Hpow : 0 < 10 ^ Z.of_nat p) by (apply Z.pow_pos_nonneg; lia).
  assert (Hdiv : v / 10 / 10 ^ Z.of_nat p = v / 10 ^ Z.of_nat (S p)).
  { rewrite Z.div_div by lia. by rewrite Nat2Z.inj_succ, Z.pow_succ_r by lia. }
  assert (Hmod : v mod 10 ^ Z.of_nat (S p) = v mod 10 + 10 * ((v / 10) mod 10 ^ Z.of_nat p)).
  { rewrite Nat2Z.inj_succ, Z.pow_succ_r by lia. apply Z.rem_mul_r; lia. }
  destruct (Z.eqb_spec (v mod 10) 0) as [H0|H0]; cbn [negb].
  - destruct (IH (v / 10) acc ltac:(done)) as [[-> Hz]|(ds & -> & Hd & Hl & Hp & Hval)].
    + left. rewrite Hdiv, Hmod, H0, Hz. done.
    + right. exists ds. rewrite Hdiv, Hmod, H0. split_and!; auto; [lia..|].
      rewrite <- Hval, Nat2Z.inj_succ.
      replace (Z.succ (Z.of_nat p) - Z.of_nat (String.length ds))
        with (Z.succ (Z.of_nat p - Z.of_nat (String.length ds))) by lia.
      rewrite Z.pow_succ_r by lia. ring.
  - right. destruct (fmt_frac_print p (v / 10) (String (digit_of (v mod 10)) acc))
      as (ds & -> & Hd & Hl & Hval); [done|].
    exists (ds ++ String (digit_of (v mod 10)) "").
    rewrite Hdiv, Hmod, sapp_assoc, all_bytes_app, slength_app, dec_val_app, Hd, Hl, Hval.
    cbn [all_bytes andb dec_val String.length String.append].
    rewrite digit_of_is_digit, digit_val_of by done.
    pose proof (Z.mod_pos_bound (v / 10) _ Hpow). split_and!; auto; [lia..|].
    replace (_ - _) with 0 by lia. lia.
Qed.

(** The fraction of a unit that is a power of ten is computed exactly. *)
Lemma frac_nanos_exact prec k f :
  prec = 3%nat \/ prec = 6%nat \/ prec = 9%nat -> (0 < k <= prec)%nat ->
  0 < f < 10 ^ Z.of_nat k ->
  frac_nanos f (10 ^ Z.of_nat prec) (scale_of k) = f * 10 ^ (Z.of_nat prec - Z.of_nat k).
Proof.
  intros Hprec Hk Hf. unfold frac_nanos.
  assert (Hq : f64_div (f64_of_int (10 ^ Z.of_nat prec)) (scale_of k)
             = f64_of_int (10 ^ (Z.of_nat prec - Z.of_nat k))).
  { destruct Hprec as [->|[->| ->]];
      do 10 (destruct k as [|k]; [first [lia | vm_compute; reflexivity]|]); lia. }
  rewrite Hq.
  assert (Hp : 0 < 10 ^ (Z.of_nat prec - Z.of_nat k)) by (apply Z.pow_pos_nonneg; lia).
  assert (f * 10 ^ (Z.of_nat prec - Z.of_nat k) < 10 ^ 9).
  { apply Z.lt_le_trans with (10 ^ Z.of_nat k * 10 ^ (Z.of_nat prec - Z.of_nat k)); [nia|].
    rewrite <- Z.pow_add_r by lia. apply Z.pow_le_mono_r; lia. }
  rewrite f64_mul_exact by lia. rewrite f64_of_int_norm, f64_trunc_norm by lia. done.
Qed.

Lemma dec_val_lt ds a :
  all_bytes is_digit ds = true -> 0 <= a ->
  dec_val ds a < (a + 1) * 10 ^ Z.of_nat (String.length ds).
Proof.
  revert a; induction ds as [|c ds IH]; intros a Hd Ha.
  { simpl. lia. }
  simpl in Hd. apply andb_prop in Hd as [Hc Hd]. pose proof (is_digit_val c Hc).
  cbn [dec_val String.length]. rewrite Nat2Z.inj_succ, Z.pow_succ_r by lia.
  eapply Z.lt_le_trans; [apply IH; [done|lia]|].
  pose proof (Z.pow_pos_nonneg 10 (Z.of_nat (String.length ds))). nia.
Qed.

(** A unit name as [format_mag] writes it. *)
Definition unit_name (u : string) (unit : Z) : Prop :=
  unit_of u = Some unit /\ u <> "" /\ all_bytes unit_byte u = true.

(** The common part of the two kinds of segment: what remains to be done once
    the number has been read. *)
Lemma parse_segment_number v r u unit rest d f scale (post : bool) :
  0 <= v <= 2 ^ 63 -> no_digit_head r ->
  opt_fraction r = (f, scale, u ++ rest, post) ->
  unit_name u unit -> digit_head rest ->
  parse_segment (utoa v ++ r) d =
    (if v >? 2 ^ 63 / unit then None
     else
       let w := if f >? 0 then (v * unit + frac_nanos f unit scale) mod 2 ^ 64 else v * unit in
       if (f >? 0) && (w >? 2 ^ 63) then None
       else
         let d := (d + w) mod 2 ^ 64 in
         if d >? 2 ^ 63 then None else Some (rest, d)).
Proof.
  intros Hv Hr Hf (Hu & Hne & Hub) Hrest.
  destruct (utoa v) as [|c s] eqn:E; [by destruct (utoa_nonempty v)|].
  pose proof (utoa_head _ _ _ E) as Hc. unfold parse_segment. cbn [String.append].
  rewrite Hc, orb_true_r. cbn [negb].
  change (String c (s ++ r)) with (String c s ++ r). rewrite <- E.
  rewrite leading_int_digits; auto using utoa_digits; [|lia|rewrite utoa_val; lia].
  rewrite utoa_val by lia. rewrite Hf.
  destruct (Nat.eqb_spec (String.length (utoa v ++ r)) (String.length r)) as [Hl|_].
  { rewrite E, slength_app in Hl. simpl in Hl. lia. }
  cbn [negb andb]. rewrite take_unit_app by done. rewrite Hu.
  by destruct u.
Qed.

Lemma parse_segment_int u unit v rest d :
  unit_name u unit -> 0 < unit -> digit_head rest ->
  0 <= v -> 0 <= d -> d + v * unit <= 2 ^ 63 ->
  parse_segment (utoa v ++ u ++ rest) d = Some (rest, d + v * unit).
Proof.
  intros Hu Hunit Hrest Hv Hd Hle.
  assert (Hhead : no_digit_head (u ++ rest) /\ opt_fraction (u ++ rest) = (0, f64_of_int 1, u ++ rest, false)).
  { destruct Hu as (_ & Hne & Hub). destruct u as [|c u]; [done|].
    simpl in Hub. apply andb_prop in Hub as [Hc _]. unfold unit_byte in Hc.
    apply negb_true_iff, orb_false_elim in Hc as [Hc1 Hc2].
    cbn. by rewrite Hc1. }
  destruct Hhead as [H1 H2].
  rewrite (parse_segment_number v (u ++ rest) u unit rest d 0 (f64_of_int 1) false);
    auto; [|nia].
  cbn [Z.gtb Z.compare andb]. rewrite !Z.gtb_ltb.
  destruct (Z.ltb_spec (2 ^ 63 / unit) v) as [Hlt|_].
  { apply Z.div_lt_upper_bound in Hlt || idtac.
    assert (2 ^ 63 < unit * v); [|nia].
    pose proof (Z.mul_succ_div_gt (2 ^ 63) unit Hunit). nia. }
  rewrite Z.mod_small by lia.
  destruct (Z.ltb_spec (2 ^ 63) (d + v * unit)); [lia|done].
Qed.

(** A segment with the fraction [fmtFrac] writes. *)
Lemma parse_segment_frac u prec v w d :
  prec = 3%nat \/ prec = 6%nat \/ prec = 9%nat ->
  unit_name u (10 ^ Z.of_nat prec) ->
  0 <= v -> 0 <= w -> 0 <= d ->
  d + v * 10 ^ Z.of_nat prec + w mod 10 ^ Z.of_nat prec <= 2 ^ 63 ->
  parse_segment (utoa v ++ fst (fmt_frac prec w false u)) d =
  Some ("", d + v * 10 ^ Z.of_nat prec + w mod 10 ^ Z.of_nat prec).
Proof.
  intros Hprec Hu Hv Hw Hd Hle.
  assert (Hpow : 0 < 10 ^ Z.of_nat prec) by (apply Z.pow_pos_nonneg; lia).
  pose proof (Z.mod_pos_bound w _ Hpow) as Hmod.
  destruct (fmt_frac_spec prec w u Hw) as [[-> Hz]|(ds & -> & Hds & Hl & Hpos & Hval)]; cbn [fst].
  - rewrite Hz, Z.add_0_r. rewrite <- (sapp_nil_r u) at 1.
    apply parse_segment_int; auto; [done|lia].
  - assert (Hk : dec_val ds 0 < 10 ^ Z.of_nat (String.length ds)).
    { pose proof (dec_val_lt ds 0 Hds). lia. }
    assert (Hun : no_digit_head u).
    { destruct Hu as (_ & _ & Hub). destruct u as [|c u]; [done|].
      simpl in Hub |- *. apply andb_prop in Hub as [Hc _]. unfold unit_byte in Hc.
      by apply negb_true_iff, orb_false_elim in Hc as [_ ?]. }
    rewrite (parse_segment_number v _ u (10 ^ Z.of_nat prec) "" d
      (dec_val ds 0) (scale_of (String.length ds)) true); [|nia|done| |done|done].
    2: { cbn [opt_fraction]. rewrite Ascii.eqb_refl.
         change (f64_of_int 1) with (scale_of 0).
         rewrite (leading_fraction_digits ds u 0 0); auto; [|lia|].
         - rewrite slength_app, sapp_nil_r.
           destruct (Nat.eqb_spec (String.length ds + String.length u) (String.length u)); [lia|done].
         - eapply Z.lt_le_trans; [exact Hk|]. apply Z.pow_le_mono_r; lia. }
    rewrite (frac_nanos_exact prec) by (auto; lia). rewrite Hval.
    rewrite !Z.gtb_ltb. destruct (Z.ltb_spec 0 (dec_val ds 0)); [|lia]. cbn [andb].
    destruct (Z.ltb_spec (2 ^ 63 / 10 ^ Z.of_nat prec) v).
    { pose proof (Z.mul_succ_div_gt (2 ^ 63) _ Hpow). nia. }
    assert (0 <= v * 10 ^ Z.of_nat prec) by nia.
    cbv zeta. rewrite (Z.mod_small (v * _ + _)) by lia.
    rewrite (Z.mod_small (d + _)) by lia. rewrite Z.add_assoc.
    by repeat zcase.
Qed.

Lemma fmt_frac_snd p v acc : 0 <= v -> snd (fmt_frac p v false acc) = v / 10 ^ Z.of_nat p.
Proof. intros Hv. by destruct (fmt_frac_spec p v acc Hv) as [[-> _]|(? & -> & _)]. Qed.

Lemma utoa_digit_head v r : digit_head (utoa v ++ r).
Proof.
  destruct (utoa v) as [|c s] eqn:E; [by destruct (utoa_nonempty v)|].
  simpl. by eapply utoa_head.
Qed.

#[local] Hint Resolve utoa_digit_head : core.

(** The three shapes of [format_mag]. *)
Definition seconds_text (v u : Z) : string := utoa v ++ fst (fmt_frac 9 u false "s").

Lemma format_mag_small u prec unit :
  0 < u < Second ->
  (u < Microsecond /\ prec = 0%nat /\ unit = "ns") \/
  (Microsecond <= u < Millisecond /\ prec = 3%nat /\ unit = micro ++ "s") \/
  (Millisecond <= u /\ prec = 6%nat /\ unit = "ms") ->
  format_mag u = utoa (u / 10 ^ Z.of_nat prec) ++ fst (fmt_frac prec u false unit).
Proof.
  intros Hu Hc. unfold format_mag. unfold Second, Microsecond, Millisecond in *.
  repeat zcase; destruct Hc as [(?&->&->)|[(?&->&->)|(?&->&->)]]; try lia;
    match goal with |- context [fmt_frac ?p u false ?t] =>
      rewrite <- (fmt_frac_snd p u t) by lia; by destruct (fmt_frac p u false t) end.
Qed.

Lemma format_mag_large u :
  Second <= u ->
  format_mag u =
    let s := u / Second in
    let m := s / 60 in
    if 0 <? m then
      if 0 <? m / 60 then
        utoa (m / 60) ++ "h" ++ utoa (m mod 60) ++ "m" ++ seconds_text (s mod 60) u
      else utoa (m mod 60) ++ "m" ++ seconds_text (s mod 60) u
    else seconds_text (s mod 60) u.
Proof.
  intros Hu. unfold format_mag, seconds_text, Second in *. zcase.
  pose proof (fmt_frac_snd 9 u "s" ltac:(lia)) as Hs.
  change (10 ^ Z.of_nat 9) with 1000000000 in Hs. rewrite <- Hs.
  by destruct (fmt_frac 9 u false "s").
Qed.

Lemma unit_name_intro u unit : unit_of u = Some unit -> u <> "" ->
  all_bytes unit_byte u = true -> unit_name u unit.
Proof. done. Qed.

Lemma parse_seconds v u d :
  0 <= v -> 0 <= u -> 0 <= d -> d + v * Second + u mod Second <= 2 ^ 63 ->
  parse_segments (String.length (seconds_text v u)) (seconds_text v u) d =
  Some (d + v * Second + u mod Second).
Proof.
  intros Hv Hu Hd Hle. unfold seconds_text.
  erewrite parse_segments_step.
  2: { apply (parse_segment_frac "s" 9); auto. done. }
  done.
Qed.

(** Read one integral segment of a duration string. *)
Ltac int_segment u unit :=
  erewrite parse_segments_step;
  [|apply (parse_segment_int u unit);
    [done|done|apply utoa_digit_head|unfold Hour, Minute, Second in *; lia..]].

Lemma parse_format_mag u :
  0 < u <= 2 ^ 63 ->
  parse_segments (String.length (format_mag u)) (format_mag u) 0 = Some u.
Proof.
  intros Hu. destruct (Z.lt_ge_cases u Second) as [Hs|Hs].
  - assert (Hsmall : forall prec unit, unit_name unit (10 ^ Z.of_nat prec) ->
      prec = 3%nat \/ prec = 6%nat \/ prec = 9%nat ->
      format_mag u = utoa (u / 10 ^ Z.of_nat prec) ++ fst (fmt_frac prec u false unit) ->
      parse_segments (String.length (format_mag u)) (format_mag u) 0 = Some u).
    { intros prec unit Hn Hp ->.
      assert (0 < 10 ^ Z.of_nat prec) by (apply Z.pow_pos_nonneg; lia).
      pose proof (Z.div_mod u (10 ^ Z.of_nat prec)).
      assert (0 <= u / 10 ^ Z.of_nat prec) by (apply Z.div_pos; lia).
      erewrite parse_segments_step.
      2: { apply parse_segment_frac; auto; lia. }
      cbn. f_equal. lia. }
    destruct (Z.lt_ge_cases u Microsecond).
    + rewrite (format_mag_small u 0 "ns"); [|lia|by left].
      cbn [fmt_frac fst Z.of_nat]. rewrite Z.pow_0_r, Z.div_1_r.
      erewrite parse_segments_step.
      2: { rewrite <- (sapp_nil_r "ns"). apply (parse_segment_int "ns" 1); try done; lia. }
      cbn. f_equal. lia.
    + destruct (Z.lt_ge_cases u Millisecond).
      * apply (Hsmall 3%nat (micro ++ "s")); auto; [done|]. apply format_mag_small; [lia|naive_solver].
      * apply (Hsmall 6%nat "ms"); auto; [done|]. apply format_mag_small; [lia|naive_solver].
  - rewrite format_mag_large by done. cbv zeta.
    set (s := u / Second). set (m := s / 60).
    assert (Hu' : u = Second * s + u mod Second) by (apply Z.div_mod; done).
    assert (Hs' : s = 60 * m + s mod 60) by (apply Z.div_mod; done).
    assert (Hm' : m = 60 * (m / 60) + m mod 60) by (apply Z.div_mod; done).
    pose proof (Z.mod_pos_bound u Second ltac:(done)).
    pose proof (Z.mod_pos_bound s 60 ltac:(done)).
    pose proof (Z.mod_pos_bound m 60 ltac:(done)).
    assert (0 <= s) by (apply Z.div_pos; unfold Second in *; lia).
    assert (0 <= m) by (apply Z.div_pos; lia).
    unfold Second in *. zcase; [zcase|].
    + int_segment "h" Hour. int_segment "m" Minute.
      rewrite parse_seconds by (unfold Hour, Minute, Second; lia).
      f_equal. unfold Hour, Minute, Second. lia.
    + int_segment "m" Minute.
      rewrite parse_seconds by (unfold Minute, Second; lia).
      f_equal. unfold Minute, Second. lia.
    + rewrite parse_seconds by (unfold Second; lia). f_equal. unfold Second. lia.
Qed.

Lemma format_mag_head u :
  0 < u -> exists c s, format_mag u = String c s /\ is_digit c = true /\ s <> "".
Proof.
  intros Hu.
  assert (H : exists v r, format_mag u = utoa v ++ r /\ r <> "").
  { destruct (Z.lt_ge_cases u Second) as [Hs|Hs].
    - destruct (Z.lt_ge_cases u Microsecond); [|destruct (Z.lt_ge_cases u Millisecond)].
      all: eexists _, _; split; [eapply format_mag_small; [lia|naive_solver]|].
      all: match goal with |- fst (fmt_frac ?p _ _ ?t) <> _ =>
             by destruct (fmt_frac_spec p u t ltac:(lia)) as [[-> _]|(? & -> & _)] end.
    - rewrite format_mag_large by done. cbv zeta.
      repeat casesplit; eexists _, _; (split; [reflexivity|]); try done.
      by destruct (fmt_frac_spec 9 u "s" ltac:(lia)) as [[-> _]|(? & -> & _)]. }
  destruct H as (v & r & -> & Hr).
  destruct (utoa v) as [|c s] eqn:E; [by destruct (utoa_nonempty v)|].
  exists c, (s ++ r). split_and!; [done|by eapply utoa_head|]. by destruct s, r.
Qed.

(** [ParseDuration] reads back what [Duration.String] wrote, for every
    duration. *)
Lemma ParseDuration_String d : in_int64 d -> ParseDuration (DurationString d) = Some d.
Proof.
  unfold in_int64, min_int64, max_int64. intros Hd.
  destruct (Z.eq_dec d 0) as [->|Hd0]; [reflexivity|].
  unfold DurationString. zcase.
  - destruct (format_mag_head (- d)) as (c & s & E & Hc & Hs); [lia|].
    unfold ParseDuration. cbn [Ascii.eqb Bool.eqb].
    assert (E0 : String.eqb (format_mag (- d)) "0" = false).
    { rewrite E. apply String.eqb_neq. intros [= -> ->]. done. }
    assert (E1 : String.eqb (format_mag (- d)) "" = false) by (by rewrite E).
    rewrite E0, E1, parse_format_mag by lia. f_equal.
    destruct (Z.eq_dec d (- 2 ^ 63)) as [->|]; [reflexivity|].
    rewrite (wrap64_id (- d)), wrap64_id; unfold in_int64, min_int64, max_int64; lia.
  - destruct (format_mag_head d) as (c & s & E & Hc & Hs); [lia|].
    assert (E0 : String.eqb (format_mag d) "0" = false).
    { rewrite E. apply String.eqb_neq. intros [= -> ->]. done. }
    assert (E1 : String.eqb (format_mag d) "" = false) by (by rewrite E).
    unfold ParseDuration. rewrite E. rewrite !is_digit_not by done. rewrite <- E.
    rewrite E0, E1, parse_format_mag by lia. zcase.
    rewrite wrap64_id; [done|]. unfold in_int64, min_int64, max_int64; lia.
Qed.

Lemma ParseDuration_in_int64 s d : ParseDuration s = Some d -> in_int64 d.
Proof.
  unfold ParseDuration. repeat casesplit; intros [= <-]; auto with openblox; done.
Qed.
