(* ===== verification/GoTime.v ===== *)
(** * [time.Time]

    Instants in nanoseconds since the Unix epoch, saturating subtraction, and
    the RFC 3339 text form [time.RFC3339Nano] that openblox records in labels
    and in the sandbox's activity file.  The text form is modelled down to the
    calendar, and parsing what was formatted gives the instant back for every
    year from 0 to 9999. *)

From S2P Require Import Prelude GoStrings GoDuration.

Abbreviation time := Z.

(** [time.Time{}]: January 1, year 1, 00:00:00 UTC. *)
Definition zero_time : time := -62135596800 * Second.
Definition IsZero (t : time) : bool := t =? zero_time.

(** [t.Before(u)], [t.After(u)] *)
Definition Before (t u : time) : bool := t <? u.
Definition After (t u : time) : bool := u <? t.

(** [t.Sub(u)]: the result saturates at the ends of [Duration]. *)
Definition Sub (t u : time) : Z := Z.min max_int64 (Z.max min_int64 (t - u)).

(** [t.UnixNano()] wraps; [time.Unix(0, n)]. *)
Definition UnixNano (t : time) : Z := wrap64 t.
Definition Unix0 (n : Z) : time := n.

(** ** The proleptic Gregorian calendar *)

Definition is_leap (y : Z) : bool :=
  (y mod 4 =? 0) && (negb (y mod 100 =? 0) || (y mod 400 =? 0)).

(** [daysIn] *)
Definition days_in (m y : Z) : Z :=
  if m =? 2 then (if is_leap y then 29 else 28)
  else if (m =? 4) || (m =? 6) || (m =? 9) || (m =? 11) then 30 else 31.

(** Days from 1970-01-01 to the given date: 400-year eras of 146097 days,
    years counted from March. *)
Definition days_of_civil (y m d : Z) : Z :=
  let y := if m <=? 2 then y - 1 else y in
  let era := y / 400 in
  let yoe := y mod 400 in
  let mp := (m + 9) mod 12 in
  let doy := (153 * mp + 2) / 5 + d - 1 in
  let doe := yoe * 365 + yoe / 4 - yoe / 100 + doy in
  era * 146097 + doe - 719468.

(** The year of a day of an era and its day within that year, both counted
    from March: centuries of 36524 days, four-year cycles of 1461 days and
    years of 365 days, the last century and the last year of a cycle taking
    the extra day. *)
Definition year_of_doe (doe : Z) : Z * Z :=
  let cent := Z.min (doe / 36524) 3 in
  let r := doe - cent * 36524 in
  let quad := r / 1461 in
  let r := r - quad * 1461 in
  let yr := Z.min (r / 365) 3 in
  (100 * cent + 4 * quad + yr, r - yr * 365).

(** The month and day of a day of the year counted from March. *)
Definition month_of_doy (doy : Z) : Z * Z :=
  let mp := (5 * doy + 2) / 153 in
  (if mp <? 10 then mp + 3 else mp - 9, doy - (153 * mp + 2) / 5 + 1).

(** The date of a day of an era. *)
Definition civil_of_doe (doe : Z) : Z * Z * Z :=
  let '(yoe, doy) := year_of_doe doe in
  let '(m, d) := month_of_doy doy in
  (if m <=? 2 then yoe + 1 else yoe, m, d).

Definition civil_of_days (z : Z) : Z * Z * Z :=
  let z := z + 719468 in
  let '(y, m, d) := civil_of_doe (z mod 146097) in
  (z / 146097 * 400 + y, m, d).

(** ** [t.UTC().Format(time.RFC3339Nano)] *)

Definition pad2 (n : Z) : string := String (digit_of (n / 10)) (String (digit_of (n mod 10)) "").
Definition pad4 (n : Z) : string := pad2 (n / 100) ++ pad2 (n mod 100).

(** [appendInt(b, year, 4)] *)
Definition append_year (y : Z) : string :=
  if y <? 0 then "-" ++ (if - y <? 10000 then pad4 (- y) else utoa (- y))
  else if y <? 10000 then pad4 y else utoa y.

Definition FormatRFC3339Nano (t : time) : string :=
  let secs := t / Second in
  let nsec := t mod Second in
  let '(y, m, d) := civil_of_days (secs / 86400) in
  let s := secs mod 86400 in
  append_year y ++ "-" ++ pad2 m ++ "-" ++ pad2 d ++ "T" ++
  pad2 (s / 3600) ++ ":" ++ pad2 (s / 60 mod 60) ++ ":" ++ pad2 (s mod 60) ++
  fst (fmt_frac 9 nsec false "Z").

(** ** [time.Parse(time.RFC3339Nano, value)]

    The general parser specialised to this layout, one step per layout
    element.  Its fast path for RFC 3339 accepts a subset of the same strings
    with the same values.  [None] is an error. *)

(** [getnum(s, fixed)]: one or two digits, exactly two when [fixed]. *)
Definition getnum (s : string) (fixed : bool) : option (Z * string) :=
  match s with
  | String c s1 =>
      if is_digit c then
        match s1 with
        | String d s2 =>
            if is_digit d then Some (digit_val c * 10 + digit_val d, s2)
            else if fixed then None else Some (digit_val c, s1)
        | "" => if fixed then None else Some (digit_val c, s1)
        end
      else None
  | "" => None
  end.

(** The year: exactly four digits. *)
Definition getyear (s : string) : option (Z * string) :=
  match getnum s true with
  | None => None
  | Some (a, s) =>
      match getnum s true with
      | None => None
      | Some (b, s) => Some (a * 100 + b, s)
      end
  end.

(** A number between two bounds. *)
Definition getnum_in (s : string) (fixed : bool) (lo hi : Z) : option (Z * string) :=
  match getnum s fixed with
  | Some (n, r) => if (n <? lo) || (hi <? n) then None else Some (n, r)
  | None => None
  end.

(** The digits at the front of a string. *)
Fixpoint span_digits (s : string) : string * string :=
  match s with
  | String c s' =>
      if is_digit c then let '(ds, r) := span_digits s' in (String c ds, r) else ("", s)
  | "" => ("", "")
  end.

(** [parseNanoseconds] on the digits after the point: only nine count. *)
Definition nanos_of_digits (ds : string) : Z :=
  let ds9 := String.substring 0 9 ds in
  dec_val ds9 0 * 10 ^ (9 - Z.of_nat (String.length ds9)).

(** The optional fraction; a comma is accepted for the point. *)
Definition getfrac (s : string) : Z * string :=
  match s with
  | String p (String c r) =>
      if (Ascii.eqb p "."%char || Ascii.eqb p ","%char) && is_digit c then
        let '(ds, rest) := span_digits (String c r) in (nanos_of_digits ds, rest)
      else (0, s)
  | _ => (0, s)
  end.

(** The zone: [Z], or a sign, hours, a colon and minutes; its offset in seconds. *)
Definition getzone (s : string) : option (Z * string) :=
  match s with
  | String "Z" r => Some (0, r)
  | String sg r =>
      match getnum_in r true 0 24 with
      | Some (hh, String ":" r) =>
          match getnum_in r true 0 60 with
          | Some (mm, r) =>
              if Ascii.eqb sg "+"%char then Some ((hh * 60 + mm) * 60, r)
              else if Ascii.eqb sg "-"%char then Some (- ((hh * 60 + mm) * 60), r)
              else None
          | None => None
          end
      | _ => None
      end
  | "" => None
  end.

Definition skip1 (c : ascii) (s : string) : option string :=
  match s with
  | String d r => if Ascii.eqb d c then Some r else None
  | "" => None
  end.

Definition ParseRFC3339Nano (s : string) : option time :=
  '(y, s) ← getyear s;
  s ← skip1 "-"%char s;
  '(mo, s) ← getnum_in s true 1 12;
  s ← skip1 "-"%char s;
  '(d, s) ← getnum s true;
  s ← skip1 "T"%char s;
  '(h, s) ← getnum_in s false 0 23;
  s ← skip1 ":"%char s;
  '(mi, s) ← getnum_in s true 0 59;
  s ← skip1 ":"%char s;
  '(sec, s) ← getnum_in s true 0 59;
  let '(nsec, s) := getfrac s in
  '(off, s) ← getzone s;
  if negb (String.eqb s "") then None
  else if (d <? 1) || (days_in mo y <? d) then None
  else Some ((days_of_civil y mo d * 86400 + h * 3600 + mi * 60 + sec - off) * Second + nsec).

Example time_ex1 : FormatRFC3339Nano (1700000000 * Second + 120000000) = "2023-11-14T22:13:20.12Z".
Proof. vm_compute. reflexivity. Qed.
Example time_ex2 :
  ParseRFC3339Nano "2023-11-14T23:13:20.12+01:00" = Some (1700000000 * Second + 120000000).
Proof. vm_compute. reflexivity. Qed.
Example time_ex3 : ParseRFC3339Nano "0001-01-01T00:00:00Z" = Some zero_time.
Proof. vm_compute. reflexivity. Qed.
Example time_ex4 : ParseRFC3339Nano "2023-02-29T00:00:00Z" = None.
Proof. vm_compute. reflexivity. Qed.
Example time_ex5 : ParseRFC3339Nano "" = None.
Proof. reflexivity. Qed.

(** ** Round trip *)

Lemma getnum_pad2 n r fixed : 0 <= n < 100 -> getnum (pad2 n ++ r) fixed = Some (n, r).
Proof.
  intros Hn. unfold pad2. cbn [String.append getnum].
  pose proof (Z.mod_pos_bound n 10 ltac:(lia)).
  assert (0 <= n / 10 < 10).
  { split; [apply Z.div_pos; lia|apply Z.div_lt_upper_bound; lia]. }
  rewrite !digit_of_is_digit, !digit_val_of by lia.
  do 2 f_equal. pose proof (Z.div_mod n 10). lia.
Qed.

Lemma getnum_in_pad2 n r fixed lo hi :
  0 <= n < 100 -> lo <= n <= hi -> getnum_in (pad2 n ++ r) fixed lo hi = Some (n, r).
Proof. intros Hn Hb. unfold getnum_in. rewrite getnum_pad2 by done. by repeat zcase. Qed.

Lemma getyear_pad4 y r : 0 <= y < 10000 -> getyear (pad4 y ++ r) = Some (y, r).
Proof.
  intros Hy. unfold getyear, pad4. rewrite sapp_assoc.
  pose proof (Z.mod_pos_bound y 100 ltac:(lia)).
  assert (0 <= y / 100 < 100).
  { split; [apply Z.div_pos; lia|apply Z.div_lt_upper_bound; lia]. }
  rewrite !getnum_pad2 by lia. do 2 f_equal. pose proof (Z.div_mod y 100). lia.
Qed.

(** Checking a decidable property of every integer below a bound by
    computation. *)
Definition check_below (f : Z -> bool) (p : positive) : Z * bool :=
  Pos.iter (fun '(z, ok) => (z + 1, ok && f z)) (0, true) p.

Lemma check_below_spec f p :
  snd (check_below f p) = true -> forall z, 0 <= z < Zpos p -> f z = true.
Proof.
  unfold check_below.
  assert (H : forall q, fst (Pos.iter (fun '(z, ok) => (z + 1, ok && f z)) (0, true) q) = Zpos q).
  { induction q using Pos.peano_ind; [done|]. rewrite Pos.iter_succ.
    destruct (Pos.iter _ _ q) as [z ok]. cbn in *. lia. }
  induction p using Pos.peano_ind.
  { cbn. intros Hf z Hz. by replace z with 0 by lia. }
  rewrite Pos.iter_succ. specialize (H p). destruct (Pos.iter _ _ p) as [w ok].
  cbn in H |- *. subst w. intros [Hok Hf]%andb_prop z Hz.
  destruct (Z.eq_dec z (Zpos p)) as [->|]; [done|]. apply IHp; [done|lia].
Qed.

Definition doy_ok (doy : Z) : bool :=
  let '(m, d) := month_of_doy doy in
  ((153 * ((m + 9) mod 12) + 2) / 5 + d - 1 =? doy) &&
  (1 <=? m) && (m <=? 12) && (1 <=? d) &&
  ((d <=? days_in m 1) || ((doy =? 365) && (m =? 2) && (d =? 29))).

Lemma doy_ok_all doy : 0 <= doy < 366 -> doy_ok doy = true.
Proof. apply (check_below_spec doy_ok 366). vm_compute. reflexivity. Qed.

Lemma year_of_doe_spec doe yoe doy :
  0 <= doe < 146097 -> year_of_doe doe = (yoe, doy) ->
  0 <= yoe < 400 /\ 0 <= doy < 366 /\
  doe = yoe * 365 + yoe / 4 - yoe / 100 + doy /\
  (doy = 365 -> is_leap (yoe + 1) = true).
Proof.
  intros Hdoe. unfold year_of_doe.
  set (cent := Z.min (doe / 36524) 3). set (r := doe - cent * 36524).
  set (quad := r / 1461). set (r2 := r - quad * 1461). set (yr := Z.min (r2 / 365) 3).
  intros [= <- <-].
  assert (Hc : 0 <= cent <= 3 /\ 0 <= r <= 36524 /\ (cent < 3 -> r < 36524)).
  { unfold r, cent. pose proof (Z.div_mod doe 36524). pose proof (Z.mod_pos_bound doe 36524).
    assert (0 <= doe / 36524) by (apply Z.div_pos; lia). lia. }
  assert (Hq : 0 <= quad <= 24 /\ 0 <= r2 <= 1460 /\ r = 1461 * quad + r2).
  { unfold r2, quad. pose proof (Z.div_mod r 1461). pose proof (Z.mod_pos_bound r 1461).
    assert (0 <= r / 1461) by (apply Z.div_pos; lia). lia. }
  assert (Hy : 0 <= yr <= 3 /\ 0 <= r2 - yr * 365 <= 365 /\ (r2 - yr * 365 = 365 -> yr = 3 /\ r2 = 1460)).
  { unfold yr. pose proof (Z.div_mod r2 365). pose proof (Z.mod_pos_bound r2 365).
    assert (0 <= r2 / 365) by (apply Z.div_pos; lia). lia. }
  assert (H4 : (100 * cent + 4 * quad + yr) / 4 = 25 * cent + quad).
  { symmetry. apply Z.div_unique with yr; lia. }
  assert (H100 : (100 * cent + 4 * quad + yr) / 100 = cent).
  { symmetry. apply Z.div_unique with (4 * quad + yr); lia. }
  rewrite H4, H100. split_and!; try (unfold r in *; lia).
  intros H365. destruct Hy as (_ & _ & Hy). destruct (Hy H365) as [-> Hr2].
  unfold is_leap. replace ((100 * cent + 4 * quad + 3 + 1) mod 4) with 0.
  2: { apply Z.mod_unique with (25 * cent + quad + 1); lia. }
  cbn [Z.eqb andb]. destruct (Z.eq_dec quad 24) as [->|].
  - assert (cent = 3) as -> by lia. reflexivity.
  - replace ((100 * cent + 4 * quad + 3 + 1) mod 100) with (4 * quad + 4).
    2: { apply Z.mod_unique with cent; lia. }
    by zcase.
Qed.

Lemma is_leap_29 y : is_leap y = true -> days_in 2 y = 29.
Proof. unfold days_in. by intros ->. Qed.

Lemma days_in_least m y : days_in m 1 <= days_in m y.
Proof. unfold days_in. repeat case_match; done || lia. Qed.

(** Every day of the 400-year era has a date, and the date names that day. *)
Lemma civil_of_doe_spec doe y m d :
  0 <= doe < 146097 -> civil_of_doe doe = (y, m, d) ->
  days_of_civil y m d + 719468 = doe /\ 1 <= m <= 12 /\ 1 <= d <= days_in m y.
Proof.
  intros Hdoe. unfold civil_of_doe. destruct (year_of_doe doe) as [yoe doy] eqn:Ey.
  destruct (year_of_doe_spec doe yoe doy Hdoe Ey) as (Hyoe & Hdoy & Hsum & Hleap).
  pose proof (doy_ok_all doy Hdoy) as Hok. unfold doy_ok in Hok.
  destruct (month_of_doy doy) as [m' d']. intros [= <- <- <-].
  repeat match goal with H : _ && _ = true |- _ => apply andb_prop in H as [? ?] end.
  zbool. split_and!; try lia.
  - unfold days_of_civil. destruct (m' <=? 2).
    + replace (yoe + 1 - 1) with yoe by lia. rewrite Z.div_small, Z.mod_small by lia. lia.
    + rewrite Z.div_small, Z.mod_small by lia. lia.
  - match goal with H : (_ || _) = true |- _ => apply orb_true_iff in H as [H|H] end; zbool.
    + etransitivity; [done|apply days_in_least].
    + subst. cbn [Z.leb Z.compare Pos.compare Pos.compare_cont]. by rewrite is_leap_29 by auto.
Qed.

Lemma days_of_civil_era e y m d :
  days_of_civil (e * 400 + y) m d = e * 146097 + days_of_civil y m d.
Proof.
  unfold days_of_civil.
  assert (H : forall k, (e * 400 + y - k) / 400 = e + (y - k) / 400 /\
                        (e * 400 + y - k) mod 400 = (y - k) mod 400).
  { intros k. replace (e * 400 + y - k) with (e * 400 + (y - k)) by lia.
    rewrite Z.div_add_l by lia. split; [done|].
    rewrite Z.add_comm. apply Z.mod_add; lia. }
  destruct (m <=? 2).
  - destruct (H 1) as [-> ->]. lia.
  - destruct (H 0) as [H1 H2]. rewrite !Z.sub_0_r in H1, H2. rewrite H1, H2. lia.
Qed.

Lemma days_in_era e y m : days_in m (e * 400 + y) = days_in m y.
Proof.
  unfold days_in, is_leap.
  assert (H : forall k j, k * j = 400 -> 0 < k -> (e * 400 + y) mod k = y mod k).
  { intros k j Hk Hpos. replace (e * 400 + y) with (y + (e * j) * k) by (rewrite <- Hk; ring).
    apply Z.mod_add. lia. }
  rewrite (H 4 100), (H 100 4), (H 400 1) by lia. done.
Qed.

Lemma civil_of_days_spec z y m d :
  civil_of_days z = (y, m, d) ->
  days_of_civil y m d = z /\ 1 <= m <= 12 /\ 1 <= d <= days_in m y.
Proof.
  unfold civil_of_days. pose proof (Z.mod_pos_bound (z + 719468) 146097 ltac:(lia)) as Hb.
  destruct (civil_of_doe _) as [[y' m'] d'] eqn:E. intros [= <- <- <-].
  destruct (civil_of_doe_spec _ _ _ _ Hb E) as (Hday & Hm & Hd).
  rewrite days_of_civil_era, days_in_era.
  pose proof (Z.div_mod (z + 719468) 146097). lia.
Qed.

Lemma days_in_bound m y : 28 <= days_in m y <= 31.
Proof. unfold days_in. repeat case_match; lia. Qed.

Lemma span_digits_app ds r :
  all_bytes is_digit ds = true -> no_digit_head r -> span_digits (ds ++ r) = (ds, r).
Proof.
  intros Hds Hr. induction ds as [|c ds IH]; cbn [String.append span_digits].
  - destruct r as [|c r]; [done|]. simpl in Hr |- *. by rewrite Hr.
  - simpl in Hds. apply andb_prop in Hds as [Hc Hds]. by rewrite Hc, IH.
Qed.

Lemma substring_all n s : (String.length s <= n)%nat -> String.substring 0 n s = s.
Proof.
  revert n; induction s as [|c s IH]; intros [|n] Hn; simpl in *; try done; [lia|].
  by rewrite IH by lia.
Qed.

Lemma getfrac_fmt nsec :
  0 <= nsec < Second -> getfrac (fst (fmt_frac 9 nsec false "Z")) = (nsec, "Z").
Proof.
  intros Hn. unfold Second in Hn.
  destruct (fmt_frac_spec 9 nsec "Z" ltac:(lia)) as [[-> Hz]|(ds & -> & Hds & Hl & Hp & Hv)];
    change (10 ^ Z.of_nat 9) with 1000000000 in *; rewrite Z.mod_small in * by lia; cbn [fst].
  - by subst.
  - destruct ds as [|c ds]; [simpl in Hl; lia|]. cbn [String.append getfrac].
    pose proof Hds as Hds'. simpl in Hds'. apply andb_prop in Hds' as [Hc _].
    rewrite Hc. change (String c (ds ++ "Z")) with (String c ds ++ "Z").
    rewrite (span_digits_app (String c ds) "Z") by done. cbn [Ascii.eqb Bool.eqb orb andb].
    unfold nanos_of_digits. rewrite substring_all by lia.
    change (Z.of_nat 9) with 9 in Hv. by rewrite Hv.
Qed.

(** An instant in the years 0 to 9999. *)
Definition year_of (t : time) : Z := fst (fst (civil_of_days (t / Second / 86400))).
Definition four_digit_year (t : time) : Prop := 0 <= year_of t < 10000.

Lemma skip1_eq c r : skip1 c (String c r) = Some r.
Proof. unfold skip1. by rewrite Ascii.eqb_refl. Qed.

Ltac skip_sep := cbn [mbind option_bind String.append]; rewrite skip1_eq; cbn [mbind option_bind].

Lemma ParseRFC3339Nano_Format t :
  four_digit_year t -> ParseRFC3339Nano (FormatRFC3339Nano t) = Some t.
Proof.
  unfold four_digit_year, year_of, FormatRFC3339Nano. intros Hy.
  set (secs := t / Second) in *.
  destruct (civil_of_days (secs / 86400)) as [[y m] d] eqn:E. cbn [fst] in Hy.
  apply civil_of_days_spec in E as (Hdays & Hm & Hd). pose proof (days_in_bound m y).
  set (s := secs mod 86400).
  assert (Hs : 0 <= s < 86400) by (apply Z.mod_pos_bound; lia).
  assert (Hns : 0 <= t mod Second < Second) by (apply Z.mod_pos_bound; done).
  assert (0 <= s / 3600 <= 23).
  { split; [apply Z.div_pos; lia|]. apply Z.lt_succ_r, Z.div_lt_upper_bound; lia. }
  pose proof (Z.mod_pos_bound (s / 60) 60 ltac:(lia)).
  pose proof (Z.mod_pos_bound s 60 ltac:(lia)).
  unfold append_year. repeat zcase. unfold ParseRFC3339Nano.
  rewrite getyear_pad4 by lia. skip_sep.
  rewrite getnum_in_pad2 by lia. skip_sep.
  rewrite getnum_pad2 by lia. skip_sep.
  rewrite getnum_in_pad2 by lia. skip_sep.
  rewrite getnum_in_pad2 by lia. skip_sep.
  rewrite getnum_in_pad2 by lia. cbn [mbind option_bind].
  rewrite getfrac_fmt by done. cbn [getzone mbind option_bind negb].
  change (String.eqb "" "") with true. cbn [negb].
  repeat zcase. cbn [orb]. f_equal. rewrite Hdays.
  assert (t = Second * secs + t mod Second) by (apply Z.div_mod; done).
  assert (secs = 86400 * (secs / 86400) + s) by (apply Z.div_mod; lia).
  assert (s / 60 = 60 * (s / 3600) + s / 60 mod 60).
  { replace (s / 3600) with (s / 60 / 60) by (rewrite Z.div_div by lia; done).
    apply Z.div_mod; lia. }
  assert (s = 60 * (s / 60) + s mod 60) by (apply Z.div_mod; lia).
  unfold Second in *. lia.
Qed.
