(* ===== verification/GoNet.v ===== *)
(** * The parts of Go's [net] the program uses: host:port addresses. *)

From S2P Require Import Prelude GoStrings.

(** [bytealg.IndexByteString], [LastIndexByteString]; [None] is -1. *)
Fixpoint IndexByte (s : string) (c : ascii) : option nat :=
  match s with
  | "" => None
  | String d s' => if Ascii.eqb d c then Some 0%nat else S <$> IndexByte s' c
  end.

Fixpoint LastIndexByte (s : string) (c : ascii) : option nat :=
  match s with
  | "" => None
  | String d s' =>
      match LastIndexByte s' c with
      | Some i => Some (S i)
      | None => if Ascii.eqb d c then Some 0%nat else None
      end
  end.

(** [s[n:]] and [s[:n]] *)
Fixpoint sdrop (n : nat) (s : string) : string :=
  match n, s with
  | O, _ => s
  | S n', String _ s' => sdrop n' s'
  | S _, "" => ""
  end.

Definition stake (n : nat) (s : string) : string := String.substring 0 n s.

(** The texts of the errors [SplitHostPort] reports. *)
Inductive addr_error : Set :=
  | MissingPort | TooManyColons | MissingBracket | UnexpectedOpen | UnexpectedClose.

(** [net.SplitHostPort] *)
Definition SplitHostPort (hostport : string) : sum addr_error (string * string) :=
  match LastIndexByte hostport ":"%char with
  | None => inl MissingPort
  | Some i =>
      let host_jk : sum addr_error (string * nat * nat) :=
        if HasPrefix hostport "[" then
          match IndexByte hostport "]"%char with
          | None => inl MissingBracket
          | Some e =>
              if Nat.eqb (S e) (String.length hostport) then inl MissingPort
              else if Nat.eqb (S e) i then inr (String.substring 1 (e - 1) hostport, 1%nat, S e)
              else if HasPrefix (sdrop (S e) hostport) ":" then inl TooManyColons
              else inl MissingPort
          end
        else
          let host := stake i hostport in
          if has_byte ":"%char host then inl TooManyColons else inr (host, 0%nat, 0%nat) in
      match host_jk with
      | inl err => inl err
      | inr (host, j, k) =>
          if has_byte "["%char (sdrop j hostport) then inl UnexpectedOpen
          else if has_byte "]"%char (sdrop k hostport) then inl UnexpectedClose
          else inr (host, sdrop (S i) hostport)
      end
  end.

(** [net.JoinHostPort] *)
Definition JoinHostPort (host port : string) : string :=
  if has_byte ":"%char host || has_byte "%"%char host
  then "[" ++ host ++ "]:" ++ port else host ++ ":" ++ port.

Example split_ex1 : SplitHostPort "127.0.0.1:8443" = inr ("127.0.0.1", "8443").
Proof. reflexivity. Qed.
Example split_ex2 : SplitHostPort "[::1]:8443" = inr ("::1", "8443").
Proof. reflexivity. Qed.
Example split_ex3 : SplitHostPort ":8443" = inr ("", "8443").
Proof. reflexivity. Qed.
Example split_ex4 : SplitHostPort "host:" = inr ("host", "").
Proof. reflexivity. Qed.
Example split_ex5 : SplitHostPort "::1" = inl TooManyColons.
Proof. reflexivity. Qed.
Example split_ex6 : SplitHostPort "host" = inl MissingPort.
Proof. reflexivity. Qed.

Lemma LastIndexByte_app s t c :
  has_byte c t = false -> LastIndexByte (s ++ String c t) c = Some (String.length s).
Proof.
  intros Ht.
  assert (Hn : forall u, has_byte c u = false -> LastIndexByte u c = None).
  { induction u as [|d u IH]; cbn [has_byte LastIndexByte]; [done|].
    intros [H1 H2]%orb_false_elim. rewrite IH by done. by rewrite Ascii.eqb_sym, H1. }
  induction s as [|d s IH]; cbn [String.append LastIndexByte String.length].
  - by rewrite Hn, Ascii.eqb_refl.
  - by rewrite IH.
Qed.

Lemma sdrop_app s t : sdrop (String.length s) (s ++ t) = t.
Proof. induction s; simpl; [by destruct t|done]. Qed.

Lemma stake_length n s : (n <= String.length s)%nat -> String.length (stake n s) = n.
Proof.
  unfold stake. revert n; induction s as [|c s IH]; intros [|n] H; cbn in *; try lia.
  rewrite IH; lia.
Qed.

Lemma stake_app s t : stake (String.length s) (s ++ t) = s.
Proof.
  unfold stake. induction s as [|c s IH]; cbn; [by destruct t|]. by rewrite IH.
Qed.

(** A host without colons or brackets and a port without them is taken apart
    as it was put together. *)
Lemma SplitHostPort_plain host port :
  has_byte ":"%char host = false -> has_byte "["%char host = false ->
  has_byte "]"%char host = false ->
  has_byte ":"%char port = false -> has_byte "["%char port = false ->
  has_byte "]"%char port = false ->
  SplitHostPort (host ++ ":" ++ port) = inr (host, port).
Proof.
  intros Hc Ho Hcl Hpc Hpo Hpcl. unfold SplitHostPort.
  change (":" ++ port) with (String ":" port).
  rewrite (LastIndexByte_app host port ":"%char) by done.
  assert (HasPrefix (host ++ String ":" port) "[" = false) as ->.
  { destruct host as [|d host]; [done|]. cbn [String.append HasPrefix].
    cbn [has_byte] in Ho. apply orb_false_elim in Ho as [-> _]. done. }
  rewrite stake_app, Hc. cbn [sdrop].
  rewrite !has_byte_app, Ho, Hcl. cbn [has_byte]. rewrite Hpo, Hpcl.
  cbn [orb Ascii.eqb Bool.eqb]. do 2 f_equal. change (sdrop (S (String.length host)) (host ++ String ":" port) = port).
  clear. induction host; simpl; [by destruct port|done].
Qed.
