(* ===== verification/GoFlag.v ===== *)
(** * Command-line flags ([flag.FlagSet.Parse])

    The parser of package flag for string and boolean flags: one or two
    dashes, a value after [=] or, for a string flag, in the next argument; it
    stops at the first argument that is not a flag, or after [--]. *)

From S2P Require Import Prelude GoStrings GoNet.

Inductive flag_value : Type := FString (s : string) | FBool (b : bool).
Abbreviation flags := (gmap string flag_value).

Inductive parse_end : Type :=
  | Parsed (values : flags) (args : list string)
  | FlagHelp              (** [-h] or [-help]: usage, and exit with 0 *)
  | FlagError.            (** a message and usage, and exit with 2 *)

(** [strconv.ParseBool] *)
Definition ParseBool (s : string) : option bool :=
  if bool_decide (s ∈ ["1"; "t"; "T"; "TRUE"; "true"; "True"]) then Some true
  else if bool_decide (s ∈ ["0"; "f"; "F"; "FALSE"; "false"; "False"]) then Some false
  else None.

(** The name of a flag argument, dashes removed: [None] for an argument that is
    not a flag, [Some None] for bad syntax. *)
Definition flag_name (s : string) : option (option string) :=
  match s with
  | String c (String d r) =>
      if negb (Ascii.eqb c "-") then None
      else
        let name := if Ascii.eqb d "-" then r else String d r in
        Some (if String.eqb name "" || HasPrefix name "-" || HasPrefix name "=" then None else Some name)
  | _ => None
  end.

(** Each turn of [Parse] consumes an argument. *)
Fixpoint flag_Parse (args : list string) (values : flags) : parse_end :=
  match args with
  | [] => Parsed values []
  | s :: rest =>
      if String.eqb s "--" then Parsed values rest
      else
        match flag_name s with
        | None => Parsed values args
        | Some None => FlagError
        | Some (Some name) =>
            let '(name, value) := match Cut name "="%char with
              | Some (n, v) => (n, Some v)
              | None => (name, None)
              end in
            match values !! name with
            | None =>
                if String.eqb name "help" || String.eqb name "h" then FlagHelp else FlagError
            | Some (FBool _) =>
                match value with
                | None => flag_Parse rest (<[name := FBool true]> values)
                | Some v =>
                    match ParseBool v with
                    | Some b => flag_Parse rest (<[name := FBool b]> values)
                    | None => FlagError
                    end
                end
            | Some (FString _) =>
                match value, rest with
                | Some v, _ => flag_Parse rest (<[name := FString v]> values)
                | None, v :: rest => flag_Parse rest (<[name := FString v]> values)
                | None, [] => FlagError
                end
            end
        end
  end.

Definition flag_string (values : flags) (name : string) : string :=
  match values !! name with Some (FString s) => s | _ => "" end.
Definition flag_bool (values : flags) (name : string) : bool :=
  match values !! name with Some (FBool b) => b | _ => false end.
