(* ===== verification/GoEncoding.v ===== *)
(** * Text encodings: unpadded URL-safe base64 and percent-escaping

    [base64.RawURLEncoding] and [url.PathEscape]/[url.PathUnescape] as the
    standard library implements them, with their round trips.  The base64
    decoder is the lenient one the program uses: it skips line breaks and does
    not check the unused bits of the last character. *)

From S2P Require Import Prelude GoStrings.

(** ** base64 *)

Definition b64_char (v : Z) : ascii :=
  byte_of (if v <? 26 then 65 + v
           else if v <? 52 then 97 + (v - 26)
           else if v <? 62 then 48 + (v - 52)
           else if v =? 62 then 45 else 95).

Definition b64_val (c : ascii) : option Z :=
  let b := byte_val c in
  if (65 <=? b) && (b <=? 90) then Some (b - 65)
  else if (97 <=? b) && (b <=? 122) then Some (b - 97 + 26)
  else if (48 <=? b) && (b <=? 57) then Some (b - 48 + 52)
  else if b =? 45 then Some 62
  else if b =? 95 then Some 63
  else None.

(** [EncodeToString] *)
Fixpoint b64_encode (s : string) : string :=
  match s with
  | "" => ""
  | String a "" =>
      let x := byte_val a in
      String (b64_char (x / 4)) (String (b64_char (x mod 4 * 16)) "")
  | String a (String b "") =>
      let x := byte_val a in let y := byte_val b in
      String (b64_char (x / 4)) (String (b64_char (x mod 4 * 16 + y / 16))
        (String (b64_char (y mod 16 * 4)) ""))
  | String a (String b (String c s')) =>
      let x := byte_val a in let y := byte_val b in let z := byte_val c in
      String (b64_char (x / 4)) (String (b64_char (x mod 4 * 16 + y / 16))
        (String (b64_char (y mod 16 * 4 + z / 64)) (String (b64_char (z mod 64))
          (b64_encode s'))))
  end.

(** The values of the characters; line feeds and carriage returns are skipped,
    any other byte outside the alphabet is an error. *)
Fixpoint b64_vals (s : string) : option (list Z) :=
  match s with
  | "" => Some []
  | String c s' =>
      if (byte_val c =? 10) || (byte_val c =? 13) then b64_vals s'
      else v ← b64_val c; vs ← b64_vals s'; Some (v :: vs)
  end.

(** Groups of four values are three bytes; a last group of three or two is two
    or one, its spare bits ignored; a single leftover is an error. *)
Fixpoint b64_bytes (vs : list Z) : option string :=
  match vs with
  | [] => Some ""
  | [_] => None
  | [a; b] => Some (String (byte_of (a * 4 + b / 16)) "")
  | [a; b; c] =>
      Some (String (byte_of (a * 4 + b / 16)) (String (byte_of (b mod 16 * 16 + c / 4)) ""))
  | a :: b :: c :: d :: vs' =>
      r ← b64_bytes vs';
      Some (String (byte_of (a * 4 + b / 16))
        (String (byte_of (b mod 16 * 16 + c / 4)) (String (byte_of (c mod 4 * 64 + d)) r)))
  end.

(** [DecodeString] *)
Definition b64_decode (s : string) : option string :=
  vs ← b64_vals s; b64_bytes vs.

Lemma b64_val_char v : 0 <= v < 64 ->
  b64_val (b64_char v) = Some v /\
  (byte_val (b64_char v) =? 10) || (byte_val (b64_char v) =? 13) = false.
Proof.
  intros Hv. unfold b64_val, b64_char.
  destruct (Z.ltb_spec v 26); [|destruct (Z.ltb_spec v 52); [|destruct (Z.ltb_spec v 62);
    [|destruct (Z.eqb_spec v 62)]]]; rewrite !byte_val_of by lia; cbv zeta;
    (split; [repeat (zcase; cbn [andb]); f_equal; lia|repeat zcase; done]).
Qed.

Lemma b64_vals_char v s : 0 <= v < 64 ->
  b64_vals (String (b64_char v) s) = (vs ← b64_vals s; Some (v :: vs)).
Proof.
  intros Hv. destruct (b64_val_char v Hv) as [H1 H2].
  cbn [b64_vals]. by rewrite H2, H1.
Qed.

Lemma div_bound a b c : 0 < b -> 0 <= a < b * c -> 0 <= a / b < c.
Proof. intros. split; [apply Z.div_pos; lia|apply Z.div_lt_upper_bound; lia]. Qed.

Lemma string_ind3 (P : string -> Prop) :
  P "" -> (forall a, P (String a "")) -> (forall a b, P (String a (String b ""))) ->
  (forall a b c s, P s -> P (String a (String b (String c s)))) -> forall s, P s.
Proof.
  intros H0 H1 H2 H3. fix IH 1.
  intros [|a [|b [|c s]]]; [exact H0|apply H1|apply H2|apply H3, IH].
Qed.

Lemma quarter (x : Z) : 0 <= x < 256 -> x / 4 * 4 + x mod 4 * 16 / 16 = x.
Proof. intros. rewrite Z.div_mul by lia. pose proof (Z.div_mod x 4). lia. Qed.

Lemma join_div a b k : 0 < k -> 0 <= b < k -> (a * k + b) / k = a.
Proof. intros. symmetry. apply Z.div_unique with b; lia. Qed.
Lemma join_mod a b k : 0 < k -> 0 <= b < k -> (a * k + b) mod k = b.
Proof. intros. symmetry. apply Z.mod_unique with a; lia. Qed.

(** Decoding what was encoded gives the bytes back. *)
Lemma b64_decode_encode s : b64_decode (b64_encode s) = Some s.
Proof.
  unfold b64_decode.
  assert (Hb : forall c, 0 <= byte_val c < 256) by apply byte_val_bound.
  assert (H4 : forall c, 0 <= byte_val c / 4 < 64) by (intros; apply div_bound; [lia|apply Hb]).
  assert (H16 : forall c, 0 <= byte_val c / 16 < 16) by (intros; apply div_bound; [lia|apply Hb]).
  assert (H64 : forall c, 0 <= byte_val c / 64 < 4) by (intros; apply div_bound; [lia|apply Hb]).
  assert (M : forall c k, 0 < k -> 0 <= byte_val c mod k < k) by (intros; by apply Z.mod_pos_bound).
  assert (D : forall c k, 0 < k -> byte_val c = byte_val c / k * k + byte_val c mod k).
  { intros c k Hk. pose proof (Z.div_mod (byte_val c) k). lia. }
  induction s as [|a|a b|a b c s IH] using string_ind3; cbn [b64_encode]; [done|..].
  all: pose proof (M a 4); try pose proof (M b 16); try pose proof (M c 64).
  all: pose proof (H4 a); try pose proof (H16 b); try pose proof (H64 c).
  all: rewrite !b64_vals_char by lia.
  - cbn [b64_vals mbind option_bind b64_bytes]. rewrite Z.div_mul by lia.
    rewrite <- D by lia. by rewrite byte_of_val.
  - cbn [b64_vals mbind option_bind b64_bytes].
    rewrite join_div, join_mod, Z.div_mul by lia. rewrite <- !D by lia. by rewrite !byte_of_val.
  - destruct (b64_vals (b64_encode s)) as [vs|]; [|done].
    cbn [mbind option_bind b64_bytes] in IH |- *. rewrite IH. cbn [mbind option_bind].
    rewrite !join_div, !join_mod by lia. rewrite <- !D by lia. by rewrite !byte_of_val.
Qed.

Lemma b64_encode_inj s t : b64_encode s = b64_encode t -> s = t.
Proof.
  intros H. pose proof (b64_decode_encode s) as Hs. rewrite H, b64_decode_encode in Hs.
  congruence.
Qed.

(** The bytes base64 text is made of: none is a dot or a colon. *)
Definition is_b64 (c : ascii) : bool := match b64_val c with Some _ => true | None => false end.

Lemma b64_encode_all s : all_bytes is_b64 (b64_encode s) = true.
Proof.
  assert (Hc : forall v, 0 <= v < 64 -> is_b64 (b64_char v) = true).
  { intros v Hv. unfold is_b64. by rewrite (proj1 (b64_val_char v Hv)). }
  assert (Hb : forall c, 0 <= byte_val c < 256) by apply byte_val_bound.
  assert (H4 : forall c, 0 <= byte_val c / 4 < 64) by (intros; apply div_bound; [lia|apply Hb]).
  assert (H16 : forall c, 0 <= byte_val c / 16 < 16) by (intros; apply div_bound; [lia|apply Hb]).
  assert (H64 : forall c, 0 <= byte_val c / 64 < 4) by (intros; apply div_bound; [lia|apply Hb]).
  assert (M : forall c k, 0 < k -> 0 <= byte_val c mod k < k) by (intros; by apply Z.mod_pos_bound).
  induction s as [|a|a b|a b c s IH] using string_ind3; cbn [b64_encode all_bytes]; [done|..].
  all: pose proof (M a 4); try pose proof (M b 16); try pose proof (M c 64).
  all: pose proof (H4 a); try pose proof (H16 b); try pose proof (H64 c).
  all: by rewrite !Hc by lia.
Qed.

(** ** Percent-escaping of a path segment *)

Definition is_alnum (c : ascii) : bool :=
  let b := byte_val c in
  ((97 <=? b) && (b <=? 122)) || ((65 <=? b) && (b <=? 90)) || ((48 <=? b) && (b <=? 57)).

(** The other bytes a path segment may hold as they are: - _ . ~ $ & + : = @ *)
Definition segment_marks : list Z := [45; 95; 46; 126; 36; 38; 43; 58; 61; 64].

(** [shouldEscape(c, encodePathSegment)] *)
Definition shouldEscape (c : ascii) : bool :=
  negb (is_alnum c || existsb (Z.eqb (byte_val c)) segment_marks).

Definition upper_hex (n : Z) : ascii := byte_of (if n <? 10 then 48 + n else 55 + n).

(** [url.PathEscape] *)
Fixpoint PathEscape (s : string) : string :=
  match s with
  | "" => ""
  | String c s' =>
      if shouldEscape c then
        String "%" (String (upper_hex (byte_val c / 16))
          (String (upper_hex (byte_val c mod 16)) (PathEscape s')))
      else String c (PathEscape s')
  end.

Definition unhex (c : ascii) : option Z :=
  let b := byte_val c in
  if (48 <=? b) && (b <=? 57) then Some (b - 48)
  else if (97 <=? b) && (b <=? 102) then Some (b - 97 + 10)
  else if (65 <=? b) && (b <=? 70) then Some (b - 65 + 10)
  else None.

(** [url.PathUnescape]; [None] is the escape error. *)
Fixpoint PathUnescape (s : string) : option string :=
  match s with
  | "" => Some ""
  | String c s1 =>
      if Ascii.eqb c "%"%char then
        match s1 with
        | String h (String l s2) =>
            a ← unhex h; b ← unhex l; r ← PathUnescape s2;
            Some (String (byte_of (a * 16 + b)) r)
        | _ => None
        end
      else r ← PathUnescape s1; Some (String c r)
  end.

Lemma unhex_upper n : 0 <= n < 16 -> unhex (upper_hex n) = Some n.
Proof.
  intros Hn. unfold unhex, upper_hex. zcase; rewrite !byte_val_of by lia; cbv zeta;
    repeat (zcase; cbn [andb]); f_equal; lia.
Qed.

Lemma shouldEscape_percent c : shouldEscape c = false -> Ascii.eqb c "%"%char = false.
Proof. intros H. destruct (Ascii.eqb_spec c "%"%char) as [->|]; [by vm_compute in H|done]. Qed.

(** Unescaping an escaped segment gives it back. *)
Lemma PathUnescape_Escape s : PathUnescape (PathEscape s) = Some s.
Proof.
  induction s as [|c s IH]; cbn [PathEscape]; [done|].
  destruct (shouldEscape c) eqn:E; cbn [PathUnescape].
  - rewrite Ascii.eqb_refl. pose proof (byte_val_bound c).
    rewrite !unhex_upper by (apply div_bound || apply Z.mod_pos_bound; lia).
    rewrite IH. cbn [mbind option_bind]. do 2 f_equal.
    rewrite <- (byte_of_val c) at 3. f_equal. pose proof (Z.div_mod (byte_val c) 16). lia.
  - rewrite shouldEscape_percent by done. by rewrite IH.
Qed.

(** The bytes an escaped segment is made of; in particular no slash, no
    question mark and no hash. *)
Definition segment_byte (c : ascii) : bool := negb (shouldEscape c) || Ascii.eqb c "%"%char.

Lemma PathEscape_all s : all_bytes segment_byte (PathEscape s) = true.
Proof.
  assert (Hh : forall n, 0 <= n < 16 -> segment_byte (upper_hex n) = true).
  { intros n Hn. unfold segment_byte, shouldEscape, is_alnum, upper_hex.
    zcase; rewrite byte_val_of by lia; cbv zeta; repeat (zcase; cbn [andb orb negb]); done. }
  induction s as [|c s IH]; cbn [PathEscape]; [done|]. destruct (shouldEscape c) eqn:E.
  - cbn [all_bytes]. pose proof (byte_val_bound c).
    rewrite !Hh, IH; [done|apply Z.mod_pos_bound; lia|apply div_bound; lia].
  - cbn [all_bytes]. unfold segment_byte at 1. by rewrite E, IH.
Qed.

Example escape_ex : PathEscape "a b/c?d" = "a%20b%2Fc%3Fd".
Proof. reflexivity. Qed.
