(* ===== verification/GoIp.v ===== *)
(** * IP addresses as text ([net.ParseIP], [IP.IsUnspecified])

    After net/netip's parser: dotted decimal without leading zeros, and groups
    of hexadecimal digits with at most one ellipsis and an optional dotted
    tail.  An address is its eight 16-bit groups; an IPv4 address is the
    IPv4-mapped one, as in [net.IP]. *)

From S2P Require Import Prelude GoStrings GoNet GoEncoding.

(** One field of a dotted address: a number below 256 without leading zeros. *)
Definition ipv4_field (s : string) : option Z :=
  match s with
  | "" => None
  | String c r =>
      if negb (all_bytes is_digit s) then None
      else if Ascii.eqb c "0" && negb (String.eqb r "") then None
      else if dec_val s 0 >? 255 then None
      else Some (dec_val s 0)
  end.

(** The two groups of a dotted address. *)
Definition parse_ipv4 (s : string) : option (list Z) :=
  match Split s "."%char with
  | [a; b; c; d] =>
      a ← ipv4_field a; b ← ipv4_field b; c ← ipv4_field c; d ← ipv4_field d;
      Some [a * 256 + b; c * 256 + d]
  | _ => None
  end.

(** The hexadecimal digits at the front, at most four, and their value. *)
Fixpoint hex_group (n : nat) (s : string) (acc : Z) : nat * Z * string :=
  match s with
  | String c r =>
      match unhex c with
      | Some v => hex_group (S n) r (acc * 16 + v)
      | None => (n, acc, s)
      end
  | "" => (n, acc, "")
  end.

(** The loop over the groups: [groups] read so far, in order, and the position
    of the ellipsis; [None] is a syntax error.  Each turn reads a digit. *)
Fixpoint ipv6_groups (fuel : nat) (s : string) (groups : list Z) (ellipsis : option nat)
    : option (list Z * option nat) :=
  match fuel with
  | O => None
  | S fuel =>
      if (8 <=? length groups)%nat then None
      else
        let '(n, v, r) := hex_group 0 s 0 in
        if (n =? 0)%nat || (4 <? n)%nat then None
        else if HasPrefix r "." then
          if match ellipsis with None => negb (length groups =? 6)%nat | Some _ => false end then None
          else if (6 <? length groups)%nat then None
          else tail ← parse_ipv4 s; Some ((groups ++ tail)%list, ellipsis)
        else
          let groups := (groups ++ [v])%list in
          match r with
          | "" => Some (groups, ellipsis)
          | String c "" => None
          | String c (String d r2) =>
              if negb (Ascii.eqb c ":") then None
              else if Ascii.eqb d ":" then
                match ellipsis with
                | Some _ => None
                | None =>
                    if String.eqb r2 "" then Some (groups, Some (length groups))
                    else ipv6_groups fuel r2 groups (Some (length groups))
                end
              else ipv6_groups fuel (String d r2) groups ellipsis
          end
  end.

Definition parse_ipv6 (s : string) : option (list Z) :=
  let '(s', ellipsis) := match CutPrefix s "::" with
    | Some r => (r, Some 0%nat)
    | None => (s, None)
    end in
  if String.eqb s' "" && bool_decide (is_Some ellipsis) then Some (repeat 0 8)
  else
    ' (groups, ellipsis) ← ipv6_groups (S (String.length s')) s' [] ellipsis;
    let n := length groups in
    match ellipsis with
    | None => if (n =? 8)%nat then Some groups else None
    | Some i =>
        if (n <? 8)%nat then Some (take i groups ++ repeat 0 (8 - n) ++ drop i groups)%list else None
    end.

(** The first dot, colon or percent sign decides. *)
Fixpoint ip_kind (s : string) : option ascii :=
  match s with
  | "" => None
  | String c r =>
      if Ascii.eqb c "." || Ascii.eqb c ":" || Ascii.eqb c "%" then Some c else ip_kind r
  end.

Definition ParseIP (s : string) : option (list Z) :=
  match ip_kind s with
  | Some c =>
      if Ascii.eqb c "." then
        v4 ← parse_ipv4 s; Some ([0; 0; 0; 0; 0; 65535] ++ v4)%list
      else if Ascii.eqb c ":" then parse_ipv6 s
      else None
  | None => None
  end.

(** [IP.IsUnspecified]: 0.0.0.0 or :: *)
Definition IsUnspecified (ip : list Z) : bool :=
  bool_decide (ip = repeat 0 8) || bool_decide (ip = [0; 0; 0; 0; 0; 65535; 0; 0]).

Example ip_ex1 : ParseIP "10.0.0.5" = Some [0; 0; 0; 0; 0; 65535; 2560; 5].
Proof. reflexivity. Qed.
Example ip_ex2 : ParseIP "fe80::1:2" = Some [65152; 0; 0; 0; 0; 0; 1; 2].
Proof. reflexivity. Qed.
Example ip_ex3 : ParseIP "::ffff:0.0.0.0" = Some [0; 0; 0; 0; 0; 65535; 0; 0].
Proof. reflexivity. Qed.
Example ip_ex4 : map ParseIP ["010.0.0.1"; "1.2.3"; "1::2::3"; "::1%eth0"; "12345::"; "1:2:3:4:5:6:7:8:9"; "0"; "localhost"]
  = repeat None 8.
Proof. reflexivity. Qed.
Example ip_ex5 : ParseIP "1:2:3:4:5:6:7::" = Some [1; 2; 3; 4; 5; 6; 7; 0].
Proof. reflexivity. Qed.
