(* ===== verification/GoHttp.v ===== *)
(** * Pieces of net/http, net/url and strings that the HTTP code relies on

    Header maps, [strings.TrimSpace], and the escaping of a URL's path on its
    way into a request line. *)

From S2P Require Import Prelude GoStrings GoEncoding.

(** ** Headers: canonical keys, each with its values in order *)

Abbreviation Header := (gmap string (list string)).

(** [Header.Get] for a key in canonical form. *)
Definition HeaderGet (h : Header) (k : string) : string :=
  match h !! k with Some (v :: _) => v | _ => "" end.

Definition HeaderDel (h : Header) (k : string) : Header := delete k h.
Definition HeaderSet (h : Header) (k v : string) : Header := <[k := [v]]> h.

(** ** [strings.TrimSpace] *)

(** The byte sequences of the code points [unicode.IsSpace] holds of. *)
Definition space_runes : list (list Z) :=
  [[9]; [10]; [11]; [12]; [13]; [32]; [194; 133]; [194; 160]; [225; 154; 128];
   [226; 128; 128]; [226; 128; 129]; [226; 128; 130]; [226; 128; 131]; [226; 128; 132];
   [226; 128; 133]; [226; 128; 134]; [226; 128; 135]; [226; 128; 136]; [226; 128; 137];
   [226; 128; 138]; [226; 128; 168]; [226; 128; 169]; [226; 128; 175]; [226; 129; 159];
   [227; 128; 128]].

Fixpoint strip_bytes (p : list Z) (s : string) : option string :=
  match p, s with
  | [], _ => Some s
  | b :: p', String c s' => if byte_val c =? b then strip_bytes p' s' else None
  | _, _ => None
  end.

Fixpoint strip_any (ps : list (list Z)) (s : string) : option string :=
  match ps with
  | [] => None
  | p :: ps' => match strip_bytes p s with Some r => Some r | None => strip_any ps' s end
  end.

(** Strip leading sequences until none matches; each strip shortens [s], so
    its length is fuel enough. *)
Fixpoint trim_with (ps : list (list Z)) (fuel : nat) (s : string) : string :=
  match fuel with
  | O => s
  | S fuel' => match strip_any ps s with Some r => trim_with ps fuel' r | None => s end
  end.

Fixpoint srev_app (s acc : string) : string :=
  match s with "" => acc | String c s' => srev_app s' (String c acc) end.
Definition srev (s : string) : string := srev_app s "".

Definition TrimSpace (s : string) : string :=
  let l := trim_with space_runes (String.length s) s in
  srev (trim_with (map (@rev Z) space_runes) (String.length l) (srev l)).

Example trim_ex1 : TrimSpace "  a b	 " = "a b".
Proof. reflexivity. Qed.
Example trim_ex2 : TrimSpace (String (byte_of 194) (String (byte_of 160) "x")) = "x".
Proof. reflexivity. Qed.
Example trim_ex3 : TrimSpace "   " = "".
Proof. reflexivity. Qed.

(** ** [url.URL.EscapedPath] of a URL without a [RawPath] *)

Definition path_marks : list Z := [45; 95; 46; 126; 36; 38; 43; 44; 47; 58; 59; 61; 64].

(** [shouldEscape(c, encodePath)] *)
Definition path_escapes (c : ascii) : bool :=
  negb (is_alnum c || existsb (Z.eqb (byte_val c)) path_marks).

Fixpoint escape_path (s : string) : string :=
  match s with
  | "" => ""
  | String c s' =>
      if path_escapes c then
        String "%" (String (upper_hex (byte_val c / 16))
          (String (upper_hex (byte_val c mod 16)) (escape_path s')))
      else String c (escape_path s')
  end.

Definition EscapedPath (path : string) : string :=
  if String.eqb path "*" then "*" else escape_path path.

Lemma escape_path_id s : all_bytes (fun c => negb (path_escapes c)) s = true -> escape_path s = s.
Proof.
  induction s as [|c s IH]; cbn; [done|]. intros H; zbool. rewrite H. by rewrite IH.
Qed.

(** ** Printable ASCII is left alone by [TrimSpace] *)

Definition visible (c : ascii) : bool := (33 <=? byte_val c) && (byte_val c <=? 126).

Lemma srev_app_spec s t : srev_app s t = srev s ++ t.
Proof.
  unfold srev. revert t; induction s as [|c s IH]; intros t; cbn; [done|].
  rewrite IH, (IH (String c "")), sapp_assoc. done.
Qed.

Lemma srev_cons c s : srev (String c s) = srev s ++ String c "".
Proof. exact (srev_app_spec s (String c "")). Qed.

Lemma srev_app_dist s t : srev (s ++ t) = srev t ++ srev s.
Proof.
  induction s as [|c s IH]; cbn [String.append]; [by rewrite sapp_nil_r|].
  by rewrite !srev_cons, IH, sapp_assoc.
Qed.

Lemma srev_involutive s : srev (srev s) = s.
Proof. induction s as [|c s IH]; [done|]. by rewrite srev_cons, srev_app_dist, IH. Qed.

Lemma srev_visible s : all_bytes visible s = true -> all_bytes visible (srev s) = true.
Proof.
  induction s as [|c s IH]; [done|]. cbn [all_bytes]. intros H; zbool.
  rewrite srev_cons, all_bytes_app, IH by done. cbn. by rewrite H.
Qed.

Definition starts_invisible (p : list Z) : bool :=
  match p with [] => false | b :: _ => (b <? 33) || (126 <? b) end.

Lemma strip_any_visible ps s :
  forallb starts_invisible ps = true ->
  all_bytes visible s = true -> strip_any ps s = None.
Proof.
  intros Hps Hs. induction ps as [|p ps IH]; [done|].
  cbn [forallb] in Hps. apply andb_prop in Hps as [Hp Hps]. cbn [strip_any].
  destruct p as [|b p]; [done|]. destruct s as [|c s]; cbn [strip_bytes]; [auto|].
  cbn [starts_invisible] in Hp. pose proof Hs as Hs'. cbn [all_bytes] in Hs.
  unfold visible in Hs. zbool. destruct (Z.eqb_spec (byte_val c) b); [lia|auto].
Qed.

Lemma TrimSpace_visible s : all_bytes visible s = true -> TrimSpace s = s.
Proof.
  intros Hs. unfold TrimSpace.
  assert (Hid : forall ps n t, forallb starts_invisible ps = true ->
    all_bytes visible t = true -> trim_with ps n t = t).
  { intros ps [|n] t Hp Ht; cbn [trim_with]; [done|]. by rewrite strip_any_visible. }
  rewrite (Hid space_runes) by done. cbv zeta.
  rewrite Hid; [apply srev_involutive|done|by apply srev_visible].
Qed.

(** ** What [TrimSpace] keeps of a string that starts visibly *)

Lemma strip_bytes_suffix p s r : strip_bytes p s = Some r -> exists t, s = t ++ r.
Proof.
  revert s; induction p as [|b p IH]; intros s; [by intros [= <-]; exists ""|].
  destruct s as [|c s]; [done|]. cbn [strip_bytes]. destruct (byte_val c =? b); [|done].
  intros (t & ->)%IH. by exists (String c t).
Qed.

Lemma trim_with_suffix ps n s : exists t, s = t ++ trim_with ps n s.
Proof.
  revert s; induction n as [|n IH]; intros s; cbn [trim_with]; [by exists ""|].
  destruct (strip_any ps s) as [r|] eqn:E; [|by exists ""].
  assert (Hs : exists t, s = t ++ r).
  { clear IH. induction ps as [|p ps IHp]; [done|]. cbn [strip_any] in E.
    destruct (strip_bytes p s) as [r'|] eqn:Ep; [|auto].
    apply (inj Some) in E as ->. by eapply strip_bytes_suffix. }
  destruct Hs as [t ->], (IH r) as [t' Ht]. exists (t ++ t'). by rewrite sapp_assoc, <- Ht.
Qed.

Lemma TrimSpace_head c s :
  visible c = true -> exists t, String c s = TrimSpace (String c s) ++ t.
Proof.
  intros Hc. unfold TrimSpace.
  assert (Hl : trim_with space_runes (String.length (String c s)) (String c s) = String c s).
  { cbn [String.length trim_with].
    assert (Hno : forall ps, forallb starts_invisible ps = true -> strip_any ps (String c s) = None).
    { induction ps as [|p ps IH]; [done|]. cbn [forallb strip_any]. intros [Hp Hps]%andb_prop.
      destruct p as [|b p]; [done|]. cbn [strip_bytes starts_invisible] in *.
      unfold visible in Hc. zbool. destruct (Z.eqb_spec (byte_val c) b); [lia|auto]. }
    by rewrite Hno. }
  rewrite Hl. cbv zeta.
  destruct (trim_with_suffix (map (@rev Z) space_runes) (String.length (String c s)) (srev (String c s)))
    as [t Ht].
  exists (srev t). rewrite <- srev_app_dist, <- Ht. by rewrite srev_involutive.
Qed.
