(* ===== verification/GoPath.v ===== *)
(** * Slash-separated paths ([path.Clean], [path.Dir], [path.Join]) and modes

    Lexical path processing as the standard library does it, over the list of
    segments, and the octal rendering of file modes. *)

From S2P Require Import Prelude GoStrings GoNet.

(** The segments of a cleaned path, innermost first: [.] and empty segments
    vanish, [..] removes the segment before it, and is dropped at a root. *)
Fixpoint clean_segs (rooted : bool) (segs : list string) (out : list string) : list string :=
  match segs with
  | [] => out
  | s :: segs =>
      if String.eqb s "" || String.eqb s "." then clean_segs rooted segs out
      else if String.eqb s ".." then
        match out with
        | t :: out' => if String.eqb t ".." then clean_segs rooted segs (s :: out)
                       else clean_segs rooted segs out'
        | [] => if rooted then clean_segs rooted segs [] else clean_segs rooted segs [s]
        end
      else clean_segs rooted segs (s :: out)
  end.

Definition Clean (p : string) : string :=
  if String.eqb p "" then "."
  else
    let rooted := HasPrefix p "/" in
    match rev (clean_segs rooted (Split p "/"%char) []) with
    | [] => if rooted then "/" else "."
    | segs => (if rooted then "/" else "") ++ String.concat "/" segs
    end.

(** [path.Dir]: everything up to the last slash, cleaned. *)
Definition PathDir (p : string) : string :=
  match LastIndexByte p "/"%char with
  | None => Clean ""
  | Some i => Clean (stake (S i) p)
  end.

(** [path.Join(a, b)] *)
Definition Join2 (a b : string) : string :=
  if String.eqb a "" then (if String.eqb b "" then "" else Clean b)
  else if String.eqb b "" then Clean a
  else Clean (a ++ "/" ++ b).

Example clean_ex1 : Clean "/a/./b//../c/" = "/a/c".
Proof. reflexivity. Qed.
Example clean_ex2 : Clean "/../../etc" = "/etc".
Proof. reflexivity. Qed.
Example clean_ex3 : Clean "../a/.." = "..".
Proof. reflexivity. Qed.
Example dir_ex1 : PathDir "/workspace/a/b.txt" = "/workspace/a".
Proof. reflexivity. Qed.
Example dir_ex2 : PathDir "/b.txt" = "/".
Proof. reflexivity. Qed.
Example join_ex : Join2 "/tmp/p" "../../etc" = "/etc".
Proof. reflexivity. Qed.

(** A segment that cleaning keeps: one non-empty name, not a dot or two. *)
Definition plain_segment (s : string) : bool :=
  negb (String.eqb s "") && negb (String.eqb s ".") && negb (String.eqb s "..")
  && negb (has_byte "/"%char s).

Lemma clean_segs_plain rooted segs out :
  forallb plain_segment segs = true -> clean_segs rooted segs out = (rev segs ++ out)%list.
Proof.
  revert out; induction segs as [|s segs IH]; intros out Hs; [done|].
  cbn [forallb] in Hs. apply andb_prop in Hs as [Hp Hs]. unfold plain_segment in Hp. zbool.
  cbn [clean_segs rev]. rewrite H, H1, H2. cbn [orb]. rewrite IH by done.
  by rewrite <- app_assoc.
Qed.

(** ** Octal *)

(** [fmt.Sprintf("%04o", m)] for the nine permission bits of a mode. *)
Definition octal4 (m : Z) : string :=
  String (digit_of (m / 512 mod 8)) (String (digit_of (m / 64 mod 8))
    (String (digit_of (m / 8 mod 8)) (String (digit_of (m mod 8)) ""))).

Example octal_ex : octal4 420 = "0644".
Proof. reflexivity. Qed.
