(* ===== verification/GoText.v ===== *)
(** * More of package strings

    Substring search, fields and trimming of a byte, and the two characters
    string literals cannot spell. *)

From S2P Require Import Prelude GoStrings GoHttp.

Definition dq : string := String (byte_of 34) "".
Definition nl : string := String (byte_of 10) "".
Definition nlc : ascii := byte_of 10.

(** [strings.Contains] *)
Fixpoint Contains (s sub : string) : bool :=
  HasPrefix s sub || match s with "" => false | String _ s' => Contains s' sub end.

(** [strings.ContainsAny], for a set of single bytes. *)
Fixpoint ContainsAny (s : string) (chars : list ascii) : bool :=
  match s with
  | "" => false
  | String c s' => existsb (Ascii.eqb c) chars || ContainsAny s' chars
  end.

(** [strings.Fields]: a white-space character ends the field being read. *)
Fixpoint fields_from (fuel : nat) (s cur : string) : list string :=
  let flush := if String.eqb cur "" then [] else [srev cur] in
  match fuel, s with
  | S fuel, String c s' =>
      match strip_any space_runes s with
      | Some rest => (flush ++ fields_from fuel rest "")%list
      | None => fields_from fuel s' (String c cur)
      end
  | _, _ => flush
  end.

Definition Fields (s : string) : list string := fields_from (String.length s) s "".

(** [strings.Trim(s, c)] for a one-byte cutset. *)
Fixpoint TrimLeft1 (s : string) (c : ascii) : string :=
  match s with
  | String d s' => if Ascii.eqb d c then TrimLeft1 s' c else s
  | "" => ""
  end.

Definition Trim1 (s : string) (c : ascii) : string := srev (TrimLeft1 (srev (TrimLeft1 s c)) c).

Example fields_ex : Fields "  26 25  0:24 / /tmp rw " = ["26"; "25"; "0:24"; "/"; "/tmp"; "rw"].
Proof. reflexivity. Qed.
Example trim1_ex : Trim1 "0000000a0" "0" = "a".
Proof. reflexivity. Qed.

Lemma Contains_spec s sub : Contains s sub = true <-> exists pre post, s = pre ++ sub ++ post.
Proof.
  split.
  - induction s as [|c s IH]; cbn [Contains]; intros [H|H]%orb_prop; try done.
    + apply HasPrefix_true in H as [r Hr]. by exists "", r.
    + apply HasPrefix_true in H as [r Hr]. by exists "", r.
    + destruct (IH H) as (pre & post & ->). by exists (String c pre), post.
  - intros (pre & post & ->). induction pre as [|c pre IH]; cbn [String.append].
    + destruct (sub ++ post) as [|d s] eqn:E; cbn [Contains]; rewrite <- E, HasPrefix_app; done.
    + cbn [Contains]. by rewrite IH, orb_true_r.
Qed.
