(* ===== verification/GoJson.v ===== *)
(** * encoding/json, as far as the wire uses it

    What [json.Marshal] writes for the strings, string lists and string maps of
    the wire types, and what such a string is after it was marshalled and
    decoded again.  JSON text is Unicode: a byte that is not part of a valid
    UTF-8 sequence is written as the replacement character U+FFFD, so a string
    survives the wire exactly when it is valid UTF-8. *)

From stdpp Require Import sorting.
From S2P Require Import Prelude GoStrings GoEncoding.

(** ** UTF-8, as [utf8.DecodeRuneInString] accepts it *)

Definition byte_in (lo hi : Z) (c : ascii) : bool := (lo <=? byte_val c) && (byte_val c <=? hi).
Definition continuation (c : ascii) : bool := byte_in 128 191 c.

(** The second byte allowed after a given first byte of a three- or four-byte
    sequence: no overlong forms, no surrogates, nothing above U+10FFFF. *)
Definition second_ok (a b : ascii) : bool :=
  if byte_val a =? 224 then byte_in 160 191 b
  else if byte_val a =? 237 then byte_in 128 159 b
  else if byte_val a =? 240 then byte_in 144 191 b
  else if byte_val a =? 244 then byte_in 128 143 b
  else continuation b.

(** The length of the sequence a string starts with; 0 if it is not valid. *)
Definition rune_len (s : string) : nat :=
  match s with
  | "" => 0
  | String a s1 =>
      if byte_in 0 127 a then 1
      else if byte_in 194 223 a then
        match s1 with String b _ => if continuation b then 2 else 0 | _ => 0 end
      else if byte_in 224 239 a then
        match s1 with
        | String b (String c _) => if second_ok a b && continuation c then 3 else 0
        | _ => 0
        end
      else if byte_in 240 244 a then
        match s1 with
        | String b (String c (String d _)) =>
            if second_ok a b && continuation c && continuation d then 4 else 0
        | _ => 0
        end
      else 0
  end%nat.

(** [utf8.ValidString] *)
Fixpoint valid_utf8 (s : string) : bool :=
  match s with
  | "" => true
  | String a s1 =>
      match rune_len s, s1 with
      | 1%nat, _ => valid_utf8 s1
      | 2%nat, String b s2 => valid_utf8 s2
      | 3%nat, String b (String c s3) => valid_utf8 s3
      | 4%nat, String b (String c (String d s4)) => valid_utf8 s4
      | _, _ => false
      end
  end.

(** U+FFFD *)
Definition replacement : string :=
  String (byte_of 239) (String (byte_of 191) (String (byte_of 189) "")).

(** A string after it was marshalled and decoded. *)
Fixpoint json_text (s : string) : string :=
  match s with
  | "" => ""
  | String a s1 =>
      match rune_len s, s1 with
      | 1%nat, _ => String a (json_text s1)
      | 2%nat, String b s2 => String a (String b (json_text s2))
      | 3%nat, String b (String c s3) => String a (String b (String c (json_text s3)))
      | 4%nat, String b (String c (String d s4)) =>
          String a (String b (String c (String d (json_text s4))))
      | _, _ => replacement ++ json_text s1
      end
  end.

(** ** [json.Marshal] of strings *)

Definition lower_hex (n : Z) : ascii := byte_of (if n <? 10 then 48 + n else 87 + n).

(** The bytes below 128 that are written as they are ([htmlSafeSet]). *)
Definition html_safe (c : ascii) : bool :=
  byte_in 32 127 c && negb (existsb (Z.eqb (byte_val c)) [34; 38; 60; 62; 92]).

(** An escaped byte below 128. *)
Definition json_escape (c : ascii) : string :=
  let b := byte_val c in
  if (b =? 92) || (b =? 34) then String "\" (String c "")
  else if b =? 8 then "\b"
  else if b =? 12 then "\f"
  else if b =? 10 then "\n"
  else if b =? 13 then "\r"
  else if b =? 9 then "\t"
  else "\u00" ++ String (lower_hex (b / 16)) (String (lower_hex (b mod 16)) "").

(** U+2028 and U+2029 are escaped as well. *)
Definition line_separator (a b c : ascii) : bool :=
  (byte_val a =? 226) && (byte_val b =? 128) && byte_in 168 169 c.

Fixpoint json_body (s : string) : string :=
  match s with
  | "" => ""
  | String a s1 =>
      match rune_len s, s1 with
      | 1%nat, _ => (if html_safe a then String a "" else json_escape a) ++ json_body s1
      | 2%nat, String b s2 => String a (String b (json_body s2))
      | 3%nat, String b (String c s3) =>
          (if line_separator a b c then "\u202" ++ String (lower_hex (byte_val c - 160)) ""
           else String a (String b (String c ""))) ++ json_body s3
      | 4%nat, String b (String c (String d s4)) =>
          String a (String b (String c (String d (json_body s4))))
      | _, _ => "\ufffd" ++ json_body s1
      end
  end.

Definition quote_mark : string := String (byte_of 34) "".
Definition json_quote (s : string) : string := quote_mark ++ json_body s ++ quote_mark.

Definition json_array (l : list string) : string :=
  "[" ++ String.concat "," (map json_quote l) ++ "]".

Definition json_field (name value : string) : string := json_quote name ++ ":" ++ value.
Definition json_object (fields : list string) : string := "{" ++ String.concat "," fields ++ "}".

(** Keys are written in order. *)
Definition key_le (a b : string * string) : Prop := String.leb (fst a) (fst b) = true.

#[global] Instance key_le_dec : RelDecision key_le.
Proof. intros a b. unfold key_le. apply _. Defined.

Definition json_entries (m : gmap string string) : list (string * string) :=
  merge_sort key_le (map_to_list m).

Definition json_map (m : gmap string string) : string :=
  json_object (map (fun '(k, v) => json_field k (json_quote v)) (json_entries m)).

(** A map after it was marshalled and decoded: keys that become equal
    overwrite each other in their written order. *)
Definition json_text_map (m : gmap string string) : gmap string string :=
  fold_left (fun out '(k, v) => <[json_text k := json_text v]> out) (json_entries m) ∅.

Example json_quote_ex :
  json_quote ("a<" ++ String (byte_of 10) (String (byte_of 255) "z"))
  = quote_mark ++ "a\u003c\n\ufffdz" ++ quote_mark.
Proof. reflexivity. Qed.

Lemma json_object_brace fields : HasPrefix (json_object fields) "{" = true.
Proof. unfold json_object. cbn. by destruct (_ ++ _). Qed.

(** ** What survives the wire *)

Lemma json_text_valid_len n s : (String.length s <= n)%nat -> valid_utf8 s = true -> json_text s = s.
Proof.
  revert s; induction n as [|n IH]; intros [|a s1] Hl; try done; cbn [String.length] in Hl; [lia|].
  cbn [valid_utf8 json_text].
  destruct (rune_len (String a s1)) as [|[|[|[|[|]]]]]; try done.
  - intros Hv. rewrite IH by (done || lia). done.
  - destruct s1 as [|b s2]; [done|]. cbn [String.length] in Hl.
    intros Hv. rewrite IH by (done || lia). done.
  - destruct s1 as [|b [|c s3]]; try done. cbn [String.length] in Hl.
    intros Hv. rewrite IH by (done || lia). done.
  - destruct s1 as [|b [|c [|d s4]]]; try done. cbn [String.length] in Hl.
    intros Hv. rewrite IH by (done || lia). done.
Qed.

(** A valid string survives the wire. *)
Lemma json_text_valid s : valid_utf8 s = true -> json_text s = s.
Proof. by apply (json_text_valid_len (String.length s)). Qed.

Lemma json_text_list_valid l : forallb valid_utf8 l = true -> map json_text l = l.
Proof.
  induction l as [|s l IH]; [done|]. cbn [forallb map]. intros [Hs Hl]%andb_prop.
  by rewrite IH, json_text_valid.
Qed.

Lemma json_text_length_len n s :
  (String.length s <= n)%nat -> (String.length s <= String.length (json_text s))%nat.
Proof.
  revert s; induction n as [|n IH]; intros [|a s1] Hl; cbn [String.length] in *; try (cbn; lia).
  assert (H1 : (S (String.length s1) <= String.length (replacement ++ json_text s1))%nat).
  { pose proof (IH s1). cbn. lia. }
  cbn [json_text]. destruct (rune_len (String a s1)) as [|[|[|[|[|]]]]]; try exact H1.
  - pose proof (IH s1). cbn [String.length]. lia.
  - destruct s1 as [|b s2]; [exact H1|]. cbn [String.length] in *. pose proof (IH s2). lia.
  - destruct s1 as [|b [|c s3]]; try exact H1. cbn [String.length] in *. pose proof (IH s3). lia.
  - destruct s1 as [|b [|c [|d s4]]]; try exact H1. cbn [String.length] in *. pose proof (IH s4). lia.
Qed.

Lemma json_text_fixed_len n s : (String.length s <= n)%nat -> json_text s = s -> valid_utf8 s = true.
Proof.
  revert s; induction n as [|n IH]; intros [|a s1] Hl; try done; cbn [String.length] in Hl; [lia|].
  assert (H1 : replacement ++ json_text s1 = String a s1 -> False).
  { intros He. apply (f_equal String.length) in He. cbn in He.
    pose proof (json_text_length_len _ s1 (le_n _)). lia. }
  cbn [valid_utf8 json_text].
  destruct (rune_len (String a s1)) as [|[|[|[|[|]]]]]; try (by intros ?%H1).
  - intros [= He]. apply IH; [lia|done].
  - destruct s1 as [|b s2]; [by intros ?%H1|]. cbn [String.length] in Hl.
    intros [= He]. apply IH; [lia|done].
  - destruct s1 as [|b [|c s3]]; try (by intros ?%H1). cbn [String.length] in Hl.
    intros [= He]. apply IH; [lia|done].
  - destruct s1 as [|b [|c [|d s4]]]; try (by intros ?%H1). cbn [String.length] in Hl.
    intros [= He]. apply IH; [lia|done].
Qed.

(** Exactly the valid strings survive the wire. *)
Lemma json_text_fixed s : json_text s = s <-> valid_utf8 s = true.
Proof.
  split; [|apply json_text_valid]. by apply (json_text_fixed_len (String.length s)).
Qed.

Lemma fold_insert_list_to_map {V} (l : list (string * V)) :
  NoDup l.*1 -> fold_left (fun out '(k, v) => <[k := v]> out) l ∅ = (list_to_map l : gmap string V).
Proof.
  intros Hnd. transitivity (list_to_map (reverse l) : gmap string V).
  - clear Hnd. induction l as [|[k v] l IH] using rev_ind; [done|].
    by rewrite fold_left_app, IH, reverse_app.
  - apply list_to_map_proper; by rewrite reverse_Permutation.
Qed.

(** A map of valid strings survives the wire. *)
Lemma json_text_map_valid m :
  map_Forall (fun k v => valid_utf8 k = true /\ valid_utf8 v = true) m -> json_text_map m = m.
Proof.
  intros Hm. unfold json_text_map.
  assert (Hp : json_entries m ≡ₚ map_to_list m) by apply merge_sort_Permutation.
  assert (Hv : Forall (fun '(k, v) => json_text k = k /\ json_text v = v) (json_entries m)).
  { rewrite Hp. apply Forall_forall. intros [k v] Hin. apply elem_of_map_to_list in Hin.
    destruct (Hm _ _ Hin). split; by apply json_text_valid. }
  assert (Hnd : NoDup (json_entries m).*1) by (rewrite Hp; apply NoDup_fst_map_to_list).
  transitivity (fold_left (fun out '(k, v) => <[k := v]> out) (json_entries m) (∅ : gmap string string)).
  - generalize (∅ : gmap string string). clear Hnd Hp. induction Hv as [|[k v] l [Hk Hv] _ IH]; [done|].
    intros out. cbn [fold_left]. by rewrite Hk, Hv, IH.
  - rewrite fold_insert_list_to_map by done. rewrite <- (list_to_map_to_list m) at 2.
    by apply list_to_map_proper.
Qed.

Lemma valid_utf8_ascii s t : all_bytes (byte_in 0 127) s = true -> valid_utf8 (s ++ t) = valid_utf8 t.
Proof.
  induction s as [|c s IH]; [done|]. cbn [all_bytes]. intros [Hc Hs]%andb_prop.
  cbn [String.append valid_utf8]. unfold rune_len. rewrite Hc. by apply IH.
Qed.

Lemma digit_ascii c : is_digit c = true -> byte_in 0 127 c = true.
Proof. unfold is_digit, byte_in. intros H. zbool. lia. Qed.
