(* ===== verification/GoBase64.v ===== *)
(** * Padded base64 ([base64.StdEncoding])

    How encoding/json writes and reads a byte slice: the standard alphabet,
    padded to groups of four.  It differs from the unpadded URL alphabet of
    [GoEncoding] in two characters and the padding. *)

From S2P Require Import Prelude GoStrings GoEncoding GoJson.

Fixpoint smap (f : ascii -> ascii) (s : string) : string :=
  match s with "" => "" | String c s => String (f c) (smap f s) end.

Definition std_of_url (c : ascii) : ascii :=
  if Ascii.eqb c "-" then "+" else if Ascii.eqb c "_" then "/" else c.
Definition url_of_std (c : ascii) : option ascii :=
  if Ascii.eqb c "+" then Some "-"%char else if Ascii.eqb c "/" then Some "_"%char
  else if Ascii.eqb c "-" || Ascii.eqb c "_" then None else Some c.

(** The padding behind [n] characters. *)
Definition padding (n : nat) : string :=
  match (n mod 4)%nat with 2%nat => "==" | 3%nat => "=" | _ => "" end.

(** [EncodeToString] *)
Definition std_encode (s : string) : string :=
  let e := b64_encode s in smap std_of_url e ++ padding (String.length e).

(** [DecodeString]: line breaks are skipped; the characters up to the padding,
    which must fill the last group exactly. *)
Fixpoint strip_breaks (s : string) : string :=
  match s with
  | "" => ""
  | String c s => if (byte_val c =? 10) || (byte_val c =? 13) then strip_breaks s
                  else String c (strip_breaks s)
  end.

Fixpoint span_unpadded (s : string) : string * string :=
  match s with
  | "" => ("", "")
  | String c r => if Ascii.eqb c "=" then ("", s)
                  else let '(body, pads) := span_unpadded r in (String c body, pads)
  end.

Fixpoint to_url (s : string) : option string :=
  match s with
  | "" => Some ""
  | String c s => d ← url_of_std c; r ← to_url s; Some (String d r)
  end.

Definition std_decode (s : string) : option string :=
  let '(body, pads) := span_unpadded (strip_breaks s) in
  if negb (String.eqb pads (padding (String.length body))) || (String.length body mod 4 =? 1)%nat then None
  else url ← to_url body; b64_decode url.

Example std_ex : map std_encode [""; "f"; "fo"; "foo"; "~~~"] = [""; "Zg=="; "Zm8="; "Zm9v"; "fn5+"].
Proof. reflexivity. Qed.
Example std_bad : map std_decode ["Zg"; "Zg="; "Zm9v="; "fn5-"; "Z=g="; "Zg==Zg=="] = repeat None 6.
Proof. reflexivity. Qed.

(** ** Round trip *)

Lemma smap_length f s : String.length (smap f s) = String.length s.
Proof. induction s as [|c s IH]; [done|]. cbn. by rewrite IH. Qed.

Lemma url_of_std_of_url c : is_b64 c = true -> url_of_std (std_of_url c) = Some c.
Proof. destruct c as [[] [] [] [] [] [] [] []]; vm_compute; done. Qed.
Lemma std_not_pad c : is_b64 c = true ->
  Ascii.eqb (std_of_url c) "=" = false /\ (byte_val (std_of_url c) =? 10) || (byte_val (std_of_url c) =? 13) = false
  /\ byte_in 0 127 (std_of_url c) = true.
Proof. destruct c as [[] [] [] [] [] [] [] []]; vm_compute; done. Qed.

Lemma strip_breaks_std e pads :
  all_bytes is_b64 e = true -> strip_breaks pads = pads -> strip_breaks (smap std_of_url e ++ pads) = smap std_of_url e ++ pads.
Proof.
  intros He Hp. induction e as [|c e IH]; [done|]. cbn [all_bytes] in He. apply andb_prop in He as [Hc He].
  cbn [smap String.append strip_breaks]. rewrite (proj1 (proj2 (std_not_pad c Hc))). by rewrite IH.
Qed.

Lemma span_unpadded_std e pads :
  all_bytes is_b64 e = true -> span_unpadded pads = ("", pads) ->
  span_unpadded (smap std_of_url e ++ pads) = (smap std_of_url e, pads).
Proof.
  intros He Hp. induction e as [|c e IH]; [done|]. cbn [all_bytes] in He. apply andb_prop in He as [Hc He].
  cbn [smap String.append span_unpadded]. rewrite (proj1 (std_not_pad c Hc)). by rewrite IH.
Qed.

Lemma to_url_std e : all_bytes is_b64 e = true -> to_url (smap std_of_url e) = Some e.
Proof.
  induction e as [|c e IH]; [done|]. cbn [all_bytes]. intros [Hc He]%andb_prop.
  cbn [smap to_url]. rewrite url_of_std_of_url by done. cbn. by rewrite IH.
Qed.

Lemma b64_encode_length s : (String.length (b64_encode s) mod 4 <> 1)%nat.
Proof.
  induction s as [|a|a b|a b c s IH] using string_ind3; cbn [b64_encode String.length]; try done.
  change (S (S (S (S ?n)))) with (4 + n)%nat. rewrite (Nat.Div0.add_mod 4), Nat.Div0.mod_same.
  cbn [Nat.add]. by rewrite Nat.Div0.mod_mod.
Qed.

Lemma padding_cases n : padding n ∈ [""; "="; "=="].
Proof. unfold padding. destruct (n mod 4)%nat as [|[|[|[|k]]]]; set_solver. Qed.

Lemma std_decode_encode s : std_decode (std_encode s) = Some s.
Proof.
  unfold std_decode, std_encode. pose proof (b64_encode_all s) as He. set (e := b64_encode s) in *.
  assert (Hp : strip_breaks (padding (String.length e)) = padding (String.length e) /\
    span_unpadded (padding (String.length e)) = ("", padding (String.length e))).
  { pose proof (padding_cases (String.length e)) as H.
    repeat (apply elem_of_cons in H as [->|H]; [done|]). by apply not_elem_of_nil in H. }
  destruct Hp as [Hp1 Hp2]. rewrite strip_breaks_std, span_unpadded_std by done.
  rewrite smap_length, String.eqb_refl. cbn [negb orb].
  destruct (Nat.eqb_spec (String.length e mod 4) 1) as [Hm|_]; [by apply b64_encode_length in Hm|].
  rewrite to_url_std by done. apply b64_decode_encode.
Qed.

Lemma std_encode_ascii s : all_bytes (byte_in 0 127) (std_encode s) = true.
Proof.
  unfold std_encode. rewrite all_bytes_app. apply andb_true_intro. split.
  - pose proof (b64_encode_all s) as He. induction (b64_encode s) as [|c e IH]; [done|].
    cbn [all_bytes] in He. apply andb_prop in He as [Hc He]. cbn [smap all_bytes].
    rewrite (proj2 (proj2 (std_not_pad c Hc))). by apply IH.
  - pose proof (padding_cases (String.length (b64_encode s))) as H.
    repeat (apply elem_of_cons in H as [->|H]; [done|]). by apply not_elem_of_nil in H.
Qed.
