(* ===== verification/GoJsonText.v ===== *)
(** * JSON text

    A JSON document as encoding/json's scanner reads it and as its encoder
    writes it: values, the compact printer, a parser that returns the value at
    the front of a text and what follows it, and the proof that reading back
    what was written gives the value, up to what happens to strings that are
    not valid UTF-8. *)

From S2P Require Import Prelude GoStrings GoDuration GoTime GoEncoding GoJson.

(** ** Values *)

#[local] Unset Elimination Schemes.
Inductive json : Type :=
  | JNull
  | JBool (b : bool)
  | JNum (literal : string)
  | JStr (s : string)
  | JArr (elems : list json)
  | JObj (members : list (string * json)).
#[local] Set Elimination Schemes.

Definition json_ind (P : json -> Prop) (Hnull : P JNull) (Hbool : forall b, P (JBool b))
    (Hnum : forall l, P (JNum l)) (Hstr : forall s, P (JStr s))
    (Harr : forall l, Forall P l -> P (JArr l))
    (Hobj : forall l, Forall (fun kv => P (snd kv)) l -> P (JObj l)) : forall v, P v :=
  fix go v := match v with
    | JNull => Hnull
    | JBool b => Hbool b
    | JNum l => Hnum l
    | JStr s => Hstr s
    | JArr l => Harr l ((fix all l := match l return Forall P l with
        | [] => Forall_nil_2 P
        | v :: l => Forall_cons_2 P v l (go v) (all l)
        end) l)
    | JObj l => Hobj l ((fix all l := match l return Forall (fun kv => P (snd kv)) l with
        | [] => Forall_nil_2 _
        | kv :: l => Forall_cons_2 _ kv l (go (snd kv)) (all l)
        end) l)
    end.

(** ** Writing ([json.Marshal]) *)

Fixpoint json_print (v : json) : string :=
  match v with
  | JNull => "null"
  | JBool true => "true"
  | JBool false => "false"
  | JNum literal => literal
  | JStr s => json_quote s
  | JArr l => "[" ++ String.concat "," (map json_print l) ++ "]"
  | JObj l => json_object (map (fun kv => json_field (fst kv) (json_print (snd kv))) l)
  end.

(** ** Reading *)

Definition is_space (c : ascii) : bool := existsb (Z.eqb (byte_val c)) [32; 9; 13; 10].

Fixpoint skip_ws (s : string) : string :=
  match s with
  | "" => ""
  | String c r => if is_space c then skip_ws r else s
  end.

(** [utf8.EncodeRune] *)
Definition encode_rune (r : Z) : string :=
  if r <? 128 then String (byte_of r) ""
  else if r <? 2048 then
    String (byte_of (192 + r / 64)) (String (byte_of (128 + r mod 64)) "")
  else if (1114111 <? r) || ((55296 <=? r) && (r <=? 57343)) then replacement
  else if r <? 65536 then
    String (byte_of (224 + r / 4096)) (String (byte_of (128 + r / 64 mod 64))
      (String (byte_of (128 + r mod 64)) ""))
  else
    String (byte_of (240 + r / 262144)) (String (byte_of (128 + r / 4096 mod 64))
      (String (byte_of (128 + r / 64 mod 64)) (String (byte_of (128 + r mod 64)) ""))).

Definition hex4 (a b c d : ascii) : option Z :=
  a ← unhex a; b ← unhex b; c ← unhex c; d ← unhex d;
  Some (((a * 16 + b) * 16 + c) * 16 + d).

(** [utf16.IsSurrogate] and [utf16.DecodeRune] *)
Definition is_surrogate (r : Z) : bool := (55296 <=? r) && (r <=? 57343).
Definition decode_pair (r1 r2 : Z) : option Z :=
  if (55296 <=? r1) && (r1 <=? 56319) && (56320 <=? r2) && (r2 <=? 57343)
  then Some ((r1 - 55296) * 1024 + (r2 - 56320) + 65536) else None.

(** The byte after a backslash, other than [u]. *)
Definition escaped (e : ascii) : option ascii :=
  let b := byte_val e in
  if (b =? 34) || (b =? 92) || (b =? 47) then Some e
  else if b =? 98 then Some (byte_of 8)
  else if b =? 102 then Some (byte_of 12)
  else if b =? 110 then Some (byte_of 10)
  else if b =? 114 then Some (byte_of 13)
  else if b =? 116 then Some (byte_of 9)
  else None.

Definition emit (t : string) (r : option (string * string)) : option (string * string) :=
  match r with Some (s, rest) => Some (t ++ s, rest) | None => None end.

(** A string after its opening quote: its value, and what follows the closing
    quote ([unquoteBytes]). *)
Fixpoint unquote (s : string) : option (string * string) :=
  match s with
  | "" => None
  | String a s1 =>
      if byte_val a =? 34 then Some ("", s1)
      else if byte_val a =? 92 then
        match s1 with
        | "" => None
        | String e s2 =>
            if byte_val e =? 117 then
              match s2 with
              | String h1 (String h2 (String h3 (String h4 s6))) =>
                  match hex4 h1 h2 h3 h4 with
                  | None => None
                  | Some r =>
                      if is_surrogate r then
                        match s6 with
                        | String b (String u (String k1 (String k2 (String k3 (String k4 s12))))) =>
                            match (if (byte_val b =? 92) && (byte_val u =? 117)
                                   then hex4 k1 k2 k3 k4 ≫= decode_pair r else None) with
                            | Some d => emit (encode_rune d) (unquote s12)
                            | None => emit replacement (unquote s6)
                            end
                        | _ => emit replacement (unquote s6)
                        end
                      else emit (encode_rune r) (unquote s6)
                  end
              | _ => None
              end
            else match escaped e with
                 | Some c => emit (String c "") (unquote s2)
                 | None => None
                 end
        end
      else if byte_val a <? 32 then None
      else
        match rune_len s, s1 with
        | 1%nat, _ => emit (String a "") (unquote s1)
        | 2%nat, String b s2 => emit (String a (String b "")) (unquote s2)
        | 3%nat, String b (String c s3) => emit (String a (String b (String c ""))) (unquote s3)
        | 4%nat, String b (String c (String d s4)) =>
            emit (String a (String b (String c (String d "")))) (unquote s4)
        | _, _ => emit replacement (unquote s1)
        end
  end.

(** A number: sign, integer part, fraction, exponent. *)
Definition num_int (s : string) : option (string * string) :=
  match s with
  | String c r =>
      if Ascii.eqb c "0" then Some ("0", r)
      else if is_digit c then let '(ds, r) := span_digits r in Some (String c ds, r)
      else None
  | "" => None
  end.
Definition digits1 (s : string) : option (string * string) :=
  match span_digits s with ("", _) => None | dr => Some dr end.
Definition num_frac (s : string) : option (string * string) :=
  match s with
  | String c r => if Ascii.eqb c "." then emit "." (digits1 r) else Some ("", s)
  | "" => Some ("", "")
  end.
Definition num_exp (s : string) : option (string * string) :=
  match s with
  | String c r =>
      if Ascii.eqb c "e" || Ascii.eqb c "E" then
        match r with
        | String g r' =>
            if Ascii.eqb g "+" || Ascii.eqb g "-" then emit (String c (String g "")) (digits1 r')
            else emit (String c "") (digits1 r)
        | "" => None
        end
      else Some ("", s)
  | "" => Some ("", "")
  end.
Definition parse_num (s : string) : option (string * string) :=
  let '(sign, s) := match s with
    | String c r => if Ascii.eqb c "-" then ("-", r) else ("", s)
    | "" => ("", "")
    end in
  ' (i, s) ← num_int s; ' (f, s) ← num_frac s; ' (e, s) ← num_exp s;
  Some (sign ++ i ++ f ++ e, s).

Section loops.
Variable value : string -> option (json * string).

(** The elements of an array up to its bracket, and the members of an object
    up to its brace; at least one. *)
Fixpoint parse_elems (fuel : nat) (s : string) : option (list json * string) :=
  match fuel with
  | O => None
  | S fuel =>
      match value s with
      | None => None
      | Some (v, r) =>
          match skip_ws r with
          | String c r =>
              if Ascii.eqb c "," then
                match parse_elems fuel (skip_ws r) with
                | Some (vs, r) => Some (v :: vs, r)
                | None => None
                end
              else if Ascii.eqb c "]" then Some ([v], r)
              else None
          | "" => None
          end
      end
  end.

(** One member: a key, a colon, a value. *)
Definition parse_member (s : string) : option ((string * json) * string) :=
  match s with
  | String q r =>
      if byte_val q =? 34 then
        match unquote r with
        | None => None
        | Some (k, r) =>
            match skip_ws r with
            | String c r =>
                if Ascii.eqb c ":" then
                  match value (skip_ws r) with
                  | Some (v, r) => Some ((k, v), r)
                  | None => None
                  end
                else None
            | "" => None
            end
        end
      else None
  | "" => None
  end.

Fixpoint parse_members (fuel : nat) (s : string) : option (list (string * json) * string) :=
  match fuel with
  | O => None
  | S fuel =>
      match parse_member s with
      | None => None
      | Some (m, r) =>
          match skip_ws r with
          | String c r =>
              if Ascii.eqb c "," then
                match parse_members fuel (skip_ws r) with
                | Some (ms, r) => Some (m :: ms, r)
                | None => None
                end
              else if Ascii.eqb c "}" then Some ([m], r)
              else None
          | "" => None
          end
      end
  end.
End loops.

(** The scanner refuses a document nested deeper than this. *)
Definition maxNestingDepth : Z := 10000.

(** The value at the front of a text without leading space.  The text's length
    is fuel enough: every level and every element consumes a byte. *)
Fixpoint parse_value (fuel : nat) (depth : Z) (s : string) : option (json * string) :=
  match fuel with
  | O => None
  | S fuel =>
      match s with
      | "" => None
      | String c r =>
          if Ascii.eqb c "[" then
            if depth >=? maxNestingDepth then None
            else match skip_ws r with
                 | String d r' =>
                     if Ascii.eqb d "]" then Some (JArr [], r')
                     else match parse_elems (parse_value fuel (depth + 1)) fuel (skip_ws r) with
                          | Some (vs, r) => Some (JArr vs, r)
                          | None => None
                          end
                 | "" => None
                 end
          else if Ascii.eqb c "{" then
            if depth >=? maxNestingDepth then None
            else match skip_ws r with
                 | String d r' =>
                     if Ascii.eqb d "}" then Some (JObj [], r')
                     else match parse_members (parse_value fuel (depth + 1)) fuel (skip_ws r) with
                          | Some (ms, r) => Some (JObj ms, r)
                          | None => None
                          end
                 | "" => None
                 end
          else if byte_val c =? 34 then
            match unquote r with Some (t, r) => Some (JStr t, r) | None => None end
          else if Ascii.eqb c "n" then
            match CutPrefix s "null" with Some r => Some (JNull, r) | None => None end
          else if Ascii.eqb c "t" then
            match CutPrefix s "true" with Some r => Some (JBool true, r) | None => None end
          else if Ascii.eqb c "f" then
            match CutPrefix s "false" with Some r => Some (JBool false, r) | None => None end
          else match parse_num s with Some (l, r) => Some (JNum l, r) | None => None end
      end
  end.

Definition json_parse (s : string) : option (json * string) :=
  parse_value (String.length (skip_ws s)) 0 (skip_ws s).

(** ** Reading back what was written *)

(** A string after the wire ([GoJson.json_text]), throughout a value. *)
Fixpoint json_norm (v : json) : json :=
  match v with
  | JStr s => JStr (json_text s)
  | JArr l => JArr (map json_norm l)
  | JObj l => JObj (map (fun kv => (json_text (fst kv), json_norm (snd kv))) l)
  | _ => v
  end.

(** The numbers the program writes are decimal integers. *)
Fixpoint json_ints (v : json) : Prop :=
  match v with
  | JNum l => exists z, l = Itoa z
  | JArr l => foldr and True (map json_ints l)
  | JObj l => foldr and True (map (fun kv => json_ints (snd kv)) l)
  | _ => True
  end.

Fixpoint json_depth (v : json) : Z :=
  match v with
  | JArr l => 1 + foldr Z.max 0 (map json_depth l)
  | JObj l => 1 + foldr Z.max 0 (map (fun kv => json_depth (snd kv)) l)
  | _ => 0
  end.

(** What may follow a number without being read as part of it. *)
Definition ends_num (s : string) : bool :=
  match s with
  | "" => true
  | String c _ => negb (is_digit c || existsb (Ascii.eqb c) ["."; "e"; "E"]%char)
  end.

Lemma emit_Some t r : emit t (Some r) = Some (t ++ fst r, snd r).
Proof. by destruct r. Qed.

Lemma unquote_escape a t :
  byte_in 0 127 a = true -> html_safe a = false ->
  unquote (json_escape a ++ t) = emit (String a "") (unquote t).
Proof.
  destruct a as [[] [] [] [] [] [] [] []]; intros H1 H2; (discriminate H1 || discriminate H2 || reflexivity).
Qed.

Lemma unquote_separator c t :
  byte_in 168 169 c = true ->
  unquote (("\u202" ++ String (lower_hex (byte_val c - 160)) "") ++ t)
  = emit (String (byte_of 226) (String (byte_of 128) (String c ""))) (unquote t).
Proof.
  destruct c as [[] [] [] [] [] [] [] []]; intros H1; (discriminate H1 || reflexivity).
Qed.

Lemma unquote_plain a t :
  byte_val a <> 34 -> byte_val a <> 92 -> 32 <= byte_val a ->
  unquote (String a t) = match rune_len (String a t), t with
    | 1%nat, _ => emit (String a "") (unquote t)
    | 2%nat, String b s2 => emit (String a (String b "")) (unquote s2)
    | 3%nat, String b (String c s3) => emit (String a (String b (String c ""))) (unquote s3)
    | 4%nat, String b (String c (String d s4)) =>
        emit (String a (String b (String c (String d "")))) (unquote s4)
    | _, _ => emit replacement (unquote t)
    end.
Proof.
  intros H1 H2 H3. cbn [unquote]. apply Z.eqb_neq in H1 as ->. apply Z.eqb_neq in H2 as ->.
  apply Z.ltb_ge in H3 as ->. done.
Qed.

Lemma html_safe_plain a : html_safe a = true -> byte_in 0 127 a = true /\ byte_val a <> 34 /\ byte_val a <> 92 /\ 32 <= byte_val a.
Proof. unfold html_safe, byte_in. cbn [existsb]. intros H. zbool. split_and!; lia. Qed.

(** The first byte of a longer sequence, and the length of a sequence given
    its own bytes. *)
Lemma rune_len_long a s1 n :
  rune_len (String a s1) = n -> (2 <= n)%nat -> 194 <= byte_val a /\ byte_in 0 127 a = false.
Proof.
  unfold rune_len, byte_in. intros <-. repeat zcase; cbn [andb]; try lia; intros; split; try lia; done.
Qed.

Ltac rune_case := repeat match goal with
  | |- context [if ?b then _ else _] => destruct b; try done
  | |- context [match ?s with "" => _ | String _ _ => _ end] => is_var s; destruct s; try done
  end.

Lemma rune_len_2 a b s t : rune_len (String a (String b s)) = 2%nat -> rune_len (String a (String b t)) = 2%nat.
Proof. unfold rune_len. rune_case. Qed.
Lemma rune_len_3 a b c s t :
  rune_len (String a (String b (String c s))) = 3%nat -> rune_len (String a (String b (String c t))) = 3%nat.
Proof. unfold rune_len. rune_case. Qed.
Lemma rune_len_4 a b c d s t :
  rune_len (String a (String b (String c (String d s)))) = 4%nat ->
  rune_len (String a (String b (String c (String d t)))) = 4%nat.
Proof. unfold rune_len. rune_case. Qed.

Lemma rune_len_bad a s1 n :
  rune_len (String a s1) = n -> (n = 0%nat \/ (5 <= n)%nat) -> n = 0%nat.
Proof. unfold rune_len. intros <-. rune_case; try lia. Qed.

(** A quoted string is read back. *)
Lemma unquote_body_len n s rest :
  (String.length s <= n)%nat -> unquote (json_body s ++ quote_mark ++ rest) = Some (json_text s, rest).
Proof.
  revert s; induction n as [|n IH]; intros [|a s1] Hl; try reflexivity; cbn [String.length] in Hl; [lia|].
  assert (Hbad : unquote (("\ufffd" ++ json_body s1) ++ quote_mark ++ rest)
    = Some (replacement ++ json_text s1, rest)).
  { rewrite sapp_assoc. transitivity (emit replacement (unquote (json_body s1 ++ quote_mark ++ rest))); [reflexivity|].
    rewrite IH by lia. done. }
  cbn [json_body json_text]. destruct (rune_len (String a s1)) as [|[|[|[|[|m]]]]] eqn:Er; try exact Hbad.
  - assert (Ha : byte_in 0 127 a = true).
    { revert Er. unfold rune_len. destruct (byte_in 0 127 a); [done|]. rune_case. }
    rewrite sapp_assoc. destruct (html_safe a) eqn:Es.
    + destruct (html_safe_plain _ Es) as (_ & ? & ? & ?). cbn [String.append].
      rewrite unquote_plain by done. unfold rune_len at 1. rewrite Ha. by rewrite IH by lia.
    + rewrite unquote_escape by done. by rewrite IH by lia.
  - destruct s1 as [|b s2]; [exact Hbad|]. cbn [String.length] in Hl. cbn [String.append].
    destruct (rune_len_long _ _ _ Er ltac:(lia)) as [? _]. rewrite unquote_plain by lia.
    rewrite (rune_len_2 _ _ _ _ Er). by rewrite IH by lia.
  - destruct s1 as [|b [|c s3]]; try exact Hbad. cbn [String.length] in Hl. rewrite sapp_assoc.
    destruct (rune_len_long _ _ _ Er ltac:(lia)) as [? _].
    destruct (line_separator a b c) eqn:Es.
    + unfold line_separator in Es. zbool. rewrite unquote_separator by done. rewrite IH by lia.
      assert (a = byte_of 226 /\ b = byte_of 128) as [-> ->]; [|done].
      by rewrite <- (byte_of_val a), <- (byte_of_val b); split; f_equal.
    + cbn [String.append]. rewrite unquote_plain by lia. rewrite (rune_len_3 _ _ _ _ _ Er).
      by rewrite IH by lia.
  - destruct s1 as [|b [|c [|d s4]]]; try exact Hbad. cbn [String.length] in Hl. cbn [String.append].
    destruct (rune_len_long _ _ _ Er ltac:(lia)) as [? _]. rewrite unquote_plain by lia.
    rewrite (rune_len_4 _ _ _ _ _ _ Er). by rewrite IH by lia.
Qed.

Lemma unquote_body s rest : unquote (json_body s ++ quote_mark ++ rest) = Some (json_text s, rest).
Proof. by apply (unquote_body_len (String.length s)). Qed.

Lemma digits_head fuel n acc :
  0 < n < 10 ^ Z.of_nat fuel ->
  exists c s, digits fuel n acc = String c s /\ is_digit c = true /\ Ascii.eqb c "0" = false.
Proof.
  revert n acc; induction fuel as [|f IH]; intros n acc Hn; cbn [digits].
  { change (10 ^ Z.of_nat 0) with 1 in Hn. lia. }
  destruct (Z.ltb_spec n 10).
  - eexists _, _. split; [done|]. rewrite Z.mod_small by lia. split; [by apply digit_of_is_digit; lia|].
    apply Ascii.eqb_neq. intros He. apply (f_equal byte_val) in He. unfold digit_of in He.
    rewrite byte_val_of in He by lia. change (byte_val "0") with 48 in He. lia.
  - apply IH. rewrite Nat2Z.inj_succ, Z.pow_succ_r in Hn by lia.
    split; [apply Z.div_str_pos; lia|]. apply Z.div_lt_upper_bound; lia.
Qed.

Lemma ends_num_spec rest :
  ends_num rest = true ->
  no_digit_head rest /\ num_frac rest = Some ("", rest) /\ num_exp rest = Some ("", rest).
Proof.
  destruct rest as [|c r]; [done|]. cbn [ends_num existsb]. intros H. zbool. unfold num_frac, num_exp.
  cbn. by repeat match goal with H : Ascii.eqb _ _ = false |- _ => rewrite H; clear H end.
Qed.

Lemma num_int_utoa n rest :
  0 <= n -> ends_num rest = true -> num_int (utoa n ++ rest) = Some (utoa n, rest).
Proof.
  intros Hn Hr. destruct (ends_num_spec rest Hr) as (Hd & _).
  destruct (decide (n = 0)) as [->|Hne]; [reflexivity|].
  destruct (digits_head (S (Z.to_nat (Z.log2 n))) n "") as (c & s & Hu & Hc & H0).
  { pose proof (log2_fuel n Hn). lia. }
  pose proof (utoa_digits n) as Hall. fold (utoa n) in Hu. rewrite Hu in Hall |- *.
  cbn [all_bytes] in Hall. zbool. cbn [String.append num_int]. rewrite H0, Hc.
  by rewrite span_digits_app.
Qed.

Lemma parse_num_Itoa z rest :
  ends_num rest = true -> parse_num (Itoa z ++ rest) = Some (Itoa z, rest).
Proof.
  intros Hr. destruct (ends_num_spec rest Hr) as (_ & Hf & He).
  assert (Hgo : forall sign n, 0 <= n ->
    (' (i, s) ← num_int (utoa n ++ rest); ' (f, s) ← num_frac s; ' (e, s) ← num_exp s;
     Some (sign ++ i ++ f ++ e, s)) = Some (sign ++ utoa n, rest)).
  { intros sign n Hn. rewrite num_int_utoa by done. cbn. rewrite Hf. cbn. rewrite He. cbn.
    by rewrite sapp_nil_r. }
  unfold Itoa, parse_num. destruct (Z.ltb_spec z 0).
  - cbn [String.append]. change (Ascii.eqb "-" "-") with true. cbv iota. rewrite Hgo by lia. done.
  - destruct (utoa z) as [|c u] eqn:Hu; [by destruct (utoa_nonempty z)|].
    assert (Hc : is_digit c = true) by by eapply utoa_head.
    cbn [String.append]. rewrite (is_digit_not c "-" Hc eq_refl). rewrite <- Hu in *.
    change (String c (u ++ rest)) with (String c u ++ rest). rewrite <- Hu. by apply Hgo.
Qed.

(** How a written value starts. *)
Lemma json_head v :
  json_ints v ->
  exists c t, json_print v = String c t /\ is_space c = false /\ Ascii.eqb c "]" = false.
Proof.
  destruct v as [|[]|l|s|l|l]; cbn [json_ints json_print]; try (by eexists _, _).
  intros [z ->]. unfold Itoa. destruct (z <? 0); [by eexists _, _|].
  destruct (utoa z) as [|c u] eqn:Hu; [by destruct (utoa_nonempty z)|].
  assert (Hc : is_digit c = true) by by eapply utoa_head. eexists _, _. split; [done|].
  split; [|by apply is_digit_not]. unfold is_digit in Hc. unfold is_space. zbool. cbn [existsb].
  repeat (apply orb_false_intro; [apply Z.eqb_neq; lia|]). done.
Qed.

Lemma skip_ws_print v rest : json_ints v -> skip_ws (json_print v ++ rest) = json_print v ++ rest.
Proof. intros (c & t & -> & Hs & _)%json_head. cbn [String.append skip_ws]. by rewrite Hs. Qed.

(** [value] reads back every value satisfying [P], within [fuel] bytes. *)
Definition reads_back (fuel : nat) (P : json -> Prop) (value : string -> option (json * string)) : Prop :=
  forall v rest, P v -> ends_num rest = true -> (String.length (json_print v ++ rest) <= fuel)%nat ->
    value (json_print v ++ rest) = Some (json_norm v, rest).

Lemma join_cons (x : string) l : String.concat "," (x :: l) = x ++ match l with [] => "" | _ => "," ++ String.concat "," l end.
Proof. destruct l; [by rewrite sapp_nil_r|done]. Qed.

Lemma parse_elems_print value bound l fuel rest :
  reads_back bound (fun v => v ∈ l) value -> l <> [] -> Forall json_ints l -> (fuel <= bound)%nat ->
  (String.length (String.concat "," (map json_print l) ++ "]" ++ rest) <= fuel)%nat ->
  parse_elems value fuel (String.concat "," (map json_print l) ++ "]" ++ rest) = Some (map json_norm l, rest).
Proof.
  revert fuel; induction l as [|v l IH]; [done|]. intros fuel Hv _ Hi Hb Hl.
  apply Forall_cons in Hi as [Hi His]. cbn [map] in *. rewrite join_cons in *.
  destruct fuel as [|fuel]; [rewrite !slength_app in Hl; cbn in Hl; lia|].
  cbn [parse_elems]. rewrite sapp_assoc in *. rewrite Hv; [| set_solver | by destruct l | lia].
  destruct l as [|w l]; [reflexivity|]. rewrite map_cons in *. cbv iota in *. rewrite sapp_assoc in *.
  cbn [String.append skip_ws]. change (is_space ",") with false. cbv iota.
  change (Ascii.eqb "," ",") with true. cbv iota.
  rewrite <- map_cons. assert (Hi2 : json_ints w) by by inversion His.
  assert (Hsk : forall t, skip_ws (String.concat "," (map json_print (w :: l)) ++ t)
    = String.concat "," (map json_print (w :: l)) ++ t).
  { intros t. cbn [map]. rewrite join_cons, sapp_assoc. by apply skip_ws_print. }
  rewrite Hsk, IH; [done| |done|done|lia|].
  - intros x r Hx. apply Hv. set_solver.
  - rewrite slength_app in Hl. cbn [String.append String.length] in Hl. cbn [map String.append]. lia.
Qed.

Lemma json_quote_app s t : json_quote s ++ t = String (byte_of 34) (json_body s ++ quote_mark ++ t).
Proof. unfold json_quote. rewrite !sapp_assoc. reflexivity. Qed.

Lemma parse_member_print value bound kv rest :
  reads_back bound (fun v => v = snd kv) value -> json_ints (snd kv) -> ends_num rest = true ->
  (String.length (json_field (fst kv) (json_print (snd kv)) ++ rest) <= bound)%nat ->
  parse_member value (json_field (fst kv) (json_print (snd kv)) ++ rest)
  = Some ((json_text (fst kv), json_norm (snd kv)), rest).
Proof.
  intros Hv Hi Hr Hl. unfold json_field in *. rewrite !sapp_assoc, json_quote_app in *.
  cbn [parse_member]. change (byte_val (byte_of 34) =? 34) with true. cbv iota.
  rewrite unquote_body. cbn [String.append skip_ws]. change (is_space ":") with false. cbv iota.
  change (Ascii.eqb ":" ":") with true. cbv iota. rewrite skip_ws_print, Hv; [done|done|done| |done].
  cbn [String.length] in Hl. rewrite !slength_app in *. cbn [String.length] in Hl. lia.
Qed.

Lemma parse_members_print value bound l fuel rest :
  reads_back bound (fun v => v ∈ l.*2) value -> l <> [] -> Forall (fun kv => json_ints (snd kv)) l ->
  (fuel <= bound)%nat ->
  let members := String.concat "," (map (fun kv => json_field (fst kv) (json_print (snd kv))) l) in
  (String.length (members ++ "}" ++ rest) <= fuel)%nat ->
  parse_members value fuel (members ++ "}" ++ rest)
  = Some (map (fun kv => (json_text (fst kv), json_norm (snd kv))) l, rest).
Proof.
  set (pr := fun kv => json_field (fst kv) (json_print (snd kv))). cbv zeta.
  revert fuel; induction l as [|kv l IH]; [done|]. intros fuel Hv _ Hi Hb Hl.
  apply Forall_cons in Hi as [Hi His]. cbn [map] in *. rewrite join_cons in *.
  destruct fuel as [|fuel]; [rewrite !slength_app in Hl; cbn in Hl; lia|].
  cbn [parse_members]. rewrite sapp_assoc in *. unfold pr at 1. rewrite (parse_member_print _ bound);
    [|intros v r -> ; apply Hv; set_solver|done|by destruct l|fold (pr kv); lia].
  destruct l as [|kw l]; [reflexivity|]. rewrite map_cons in *. cbv iota in *. rewrite sapp_assoc in *.
  cbn [String.append skip_ws]. change (is_space ",") with false. cbv iota.
  change (Ascii.eqb "," ",") with true. cbv iota. rewrite <- map_cons.
  assert (Hsk : forall t, skip_ws (String.concat "," (map pr (kw :: l)) ++ t)
    = String.concat "," (map pr (kw :: l)) ++ t).
  { intros t. cbn [map]. rewrite join_cons. reflexivity. }
  rewrite Hsk, IH; [done| |done|done|lia|].
  - intros x r Hx. apply Hv. set_solver.
  - rewrite slength_app in Hl. cbn [String.append String.length] in Hl. cbn [map String.append]. lia.
Qed.

Lemma foldr_and {A} (P : A -> Prop) l : foldr and True (map P l) <-> Forall P l.
Proof. induction l as [|x l IH]; cbn; [by split|]. rewrite IH, Forall_cons. done. Qed.

Lemma foldr_max_nonneg l : 0 <= foldr Z.max 0 l.
Proof. induction l; cbn; lia. Qed.

Lemma foldr_max {A} (f : A -> Z) l x : x ∈ l -> f x <= foldr Z.max 0 (map f l).
Proof. induction l as [|y l IH]; [set_solver|]. rewrite elem_of_cons. cbn. intros [->|?%IH]; lia. Qed.

Lemma parse_value_num fuel depth s l r :
  parse_num s = Some (l, r) -> parse_value (S fuel) depth s = Some (JNum l, r).
Proof.
  intros H. destruct s as [|c s]; [done|]. cbn [parse_value].
  destruct (Ascii.eqb_spec c "["); [by subst|]. destruct (Ascii.eqb_spec c "{"); [by subst|].
  destruct (Z.eqb_spec (byte_val c) 34) as [Hq|].
  { rewrite <- (byte_of_val c), Hq in H. done. }
  destruct (Ascii.eqb_spec c "n"); [by subst|]. destruct (Ascii.eqb_spec c "t"); [by subst|].
  destruct (Ascii.eqb_spec c "f"); [by subst|]. by rewrite H.
Qed.

Lemma parse_value_arr value l fuel depth rest :
  value = parse_value fuel (depth + 1) -> reads_back fuel (fun v => v ∈ l) value ->
  Forall json_ints l -> depth < maxNestingDepth ->
  (String.length (json_print (JArr l) ++ rest) <= S fuel)%nat ->
  parse_value (S fuel) depth (json_print (JArr l) ++ rest) = Some (JArr (map json_norm l), rest).
Proof.
  intros -> Hv Hi Hd Hl. cbn [json_print] in *. rewrite !sapp_assoc in *. cbn [String.append] in *.
  cbn [parse_value]. change (Ascii.eqb "[" "[") with true. cbv iota. rewrite Z.geb_leb.
  destruct (Z.leb_spec maxNestingDepth depth); [lia|]. destruct l as [|v l]; [reflexivity|].
  assert (Hhead : exists c t, String.concat "," (map json_print (v :: l)) ++ String "]" rest = String c t
    /\ is_space c = false /\ Ascii.eqb c "]" = false).
  { apply Forall_cons in Hi as [(c & t & Hc & ?)%json_head _]. cbn [map]. rewrite join_cons, Hc.
    by eexists _, _. }
  destruct Hhead as (c & t & Hh & Hs & Hb).
  pose proof (parse_elems_print (parse_value fuel (depth + 1)) fuel (v :: l) fuel rest Hv) as He.
  cbn [String.append] in He. rewrite Hh in He, Hl |- *. cbn [skip_ws]. rewrite Hs. cbv iota beta.
  rewrite Hb. rewrite He; [done|done|done|lia|]. cbn [String.length] in Hl |- *. lia.
Qed.

Lemma parse_value_obj value l fuel depth rest :
  value = parse_value fuel (depth + 1) -> reads_back fuel (fun v => v ∈ l.*2) value ->
  Forall (fun kv => json_ints (snd kv)) l -> depth < maxNestingDepth ->
  (String.length (json_print (JObj l) ++ rest) <= S fuel)%nat ->
  parse_value (S fuel) depth (json_print (JObj l) ++ rest) = Some (json_norm (JObj l), rest).
Proof.
  intros -> Hv Hi Hd Hl. cbn [json_print] in *. unfold json_object in *. rewrite !sapp_assoc in *.
  cbn [String.append] in *. cbn [parse_value].
  change (Ascii.eqb "{" "[") with false. change (Ascii.eqb "{" "{") with true. cbv iota. rewrite Z.geb_leb.
  destruct (Z.leb_spec maxNestingDepth depth); [lia|]. destruct l as [|kv l]; [reflexivity|].
  set (members := String.concat "," _) in *.
  assert (Hhead : exists t, members ++ String "}" rest = String (byte_of 34) t).
  { subst members. cbn [map]. rewrite join_cons. by eexists. }
  destruct Hhead as (t & Hh).
  pose proof (parse_members_print (parse_value fuel (depth + 1)) fuel (kv :: l) fuel rest Hv) as He.
  cbv zeta in He. fold members in He. cbn [String.append] in He. rewrite Hh in He, Hl |- *. cbn [skip_ws].
  change (is_space (byte_of 34)) with false. change (Ascii.eqb (byte_of 34) "}") with false. cbv iota beta.
  rewrite He; [done|done|done|lia|]. cbn [String.length] in Hl |- *. lia.
Qed.

(** A written value is read back, whatever follows it. *)
Lemma parse_value_print v fuel depth rest :
  json_ints v -> depth + json_depth v <= maxNestingDepth -> ends_num rest = true ->
  (String.length (json_print v ++ rest) <= fuel)%nat ->
  parse_value fuel depth (json_print v ++ rest) = Some (json_norm v, rest).
Proof.
  revert fuel depth rest. induction v as [|b|l|s|l IH|l IH] using json_ind; intros [|fuel] depth rest Hi Hd Hr Hl.
  all: try (rewrite slength_app in Hl; destruct (json_head _ Hi) as (? & ? & Hh & _); rewrite Hh in Hl;
    cbn [String.length] in Hl; exfalso; lia).
  - cbn. by destruct rest.
  - destruct b; cbn; by destruct rest.
  - destruct Hi as [z ->]. by apply parse_value_num, parse_num_Itoa.
  - cbn [json_print] in *. rewrite json_quote_app. cbn [parse_value].
    change (byte_val (byte_of 34) =? 34) with true.
    change (Ascii.eqb (byte_of 34) "[") with false. change (Ascii.eqb (byte_of 34) "{") with false. cbv iota.
    by rewrite unquote_body.
  - cbn [json_ints json_depth] in Hi, Hd. apply foldr_and in Hi. rewrite Forall_forall in IH.
    eapply parse_value_arr; [done| |done| |done].
    + intros v r Hv Hr' Hl'. rewrite Forall_forall in Hi. apply IH; auto. pose proof (foldr_max json_depth l v Hv). lia.
    + pose proof (foldr_max_nonneg (map json_depth l)). lia.
  - cbn [json_ints json_depth] in Hi, Hd. apply foldr_and in Hi. rewrite Forall_forall in IH.
    eapply parse_value_obj; [done| |done| |done].
    + intros v r ([k w] & -> & Hv)%list_elem_of_fmap Hr' Hl'. rewrite Forall_forall in Hi.
      apply (IH (k, w) Hv); [by apply (Hi (k, w))| |done|done].
      pose proof (foldr_max (fun kv => json_depth (snd kv)) l (k, w) Hv). cbn [snd] in *. lia.
    + pose proof (foldr_max_nonneg (map (fun kv => json_depth (snd kv)) l)). lia.
Qed.

(** Reading back a document: the value, normalised, and nothing left over. *)
Lemma json_parse_print v rest :
  json_ints v -> json_depth v <= maxNestingDepth -> ends_num rest = true ->
  json_parse (json_print v ++ rest) = Some (json_norm v, rest).
Proof.
  intros Hi Hd Hr. unfold json_parse. rewrite skip_ws_print by done. by apply parse_value_print.
Qed.

(** ** What is read is a prefix of the text *)

Definition suffix (r s : string) : Prop := exists t, s = t ++ r.

Lemma suffix_refl s : suffix s s.
Proof. by exists "". Qed.
Lemma suffix_cons c r s : suffix r s -> suffix r (String c s).
Proof. intros [t ->]. by exists (String c t). Qed.
Lemma suffix_trans r s t : suffix r s -> suffix s t -> suffix r t.
Proof. intros [a ->] [b ->]. exists (b ++ a). by rewrite sapp_assoc. Qed.
#[local] Hint Resolve suffix_refl suffix_cons : core.

Lemma skip_ws_suffix s : suffix (skip_ws s) s.
Proof. induction s as [|c s IH]; cbn [skip_ws]; [done|]. destruct (is_space c); auto. Qed.

Lemma emit_inv t o r : emit t o = Some r -> exists s, o = Some (s, snd r).
Proof. destruct o as [[s rest]|]; [|done]. intros [= <-]. by eexists. Qed.

Lemma unquote_suffix_len n s t r : (String.length s <= n)%nat -> unquote s = Some (t, r) -> suffix r s.
Proof.
  revert s t r; induction n as [|n IH]; intros [|a s1] t r Hl; try done; cbn [String.length] in Hl; [lia|].
  assert (Hgo : forall k x, (String.length k <= n)%nat -> emit x (unquote k) = Some (t, r) -> suffix r k).
  { intros k x Hk Hx. apply emit_inv in Hx as [y Hy]. by eapply IH. }
  cbn [unquote]. intros H.
  repeat match type of H with
    | context [if ?b then _ else _] => destruct b
    | context [match ?x with "" => _ | String _ _ => _ end] => is_var x; destruct x
    | context [match ?x with Some _ => _ | None => _ end] => destruct x
    | context [match ?x with O => _ | S _ => _ end] => destruct x
    end; try discriminate H; cbn [String.length] in Hl.
  all: first [injection H as <- <-; by auto
             | apply Hgo in H; [by auto 20|cbn [String.length]; lia]].
Qed.

Lemma unquote_suffix s t r : unquote s = Some (t, r) -> suffix r s.
Proof. by apply (unquote_suffix_len (String.length s)). Qed.

Lemma span_digits_suffix s : suffix (snd (span_digits s)) s.
Proof.
  induction s as [|c s IH]; cbn [span_digits]; [done|]. destruct (is_digit c); [|done].
  destruct (span_digits s) as [ds r]. by apply suffix_cons.
Qed.
Lemma digits1_suffix s t r : digits1 s = Some (t, r) -> suffix r s.
Proof.
  unfold digits1. pose proof (span_digits_suffix s). destruct (span_digits s) as [[|c ds] r']; [done|].
  by intros [= <- <-].
Qed.
Lemma num_int_suffix s t r : num_int s = Some (t, r) -> suffix r s.
Proof.
  destruct s as [|c s]; [done|]. cbn [num_int]. destruct (Ascii.eqb c "0"); [intros [= <- <-]; auto|].
  destruct (is_digit c); [|done]. pose proof (span_digits_suffix s). destruct (span_digits s) as [ds r'].
  intros [= <- <-]. auto.
Qed.
Lemma num_frac_suffix s t r : num_frac s = Some (t, r) -> suffix r s.
Proof.
  destruct s as [|c s]; cbn [num_frac]; [by intros [= <- <-]|].
  destruct (Ascii.eqb c "."); [|by intros [= <- <-]]. intros [x Hx]%emit_inv.
  apply digits1_suffix in Hx. auto.
Qed.
Lemma num_exp_suffix s t r : num_exp s = Some (t, r) -> suffix r s.
Proof.
  destruct s as [|c s]; cbn [num_exp]; [by intros [= <- <-]|].
  destruct (_ || _); [|by intros [= <- <-]]. destruct s as [|g s]; [done|].
  destruct (_ || _); intros [x Hx]%emit_inv; apply digits1_suffix in Hx; auto.
Qed.
Lemma parse_num_suffix s t r : parse_num s = Some (t, r) -> suffix r s.
Proof.
  unfold parse_num.
  assert (Hgo : forall sign u, (' (i, s) ← num_int u; ' (f, s) ← num_frac s; ' (e, s) ← num_exp s;
     Some (sign ++ i ++ f ++ e, s)) = Some (t, r) -> suffix r u).
  { intros sign u H. destruct (num_int u) as [[i s1]|] eqn:E1; [|done]. cbn in H.
    destruct (num_frac s1) as [[f s2]|] eqn:E2; [|done]. cbn in H.
    destruct (num_exp s2) as [[e s3]|] eqn:E3; [|done]. cbn in H. injection H as _ <-.
    apply num_int_suffix in E1. apply num_frac_suffix in E2. apply num_exp_suffix in E3.
    by eauto using suffix_trans. }
  destruct s as [|c s]; [apply Hgo|]. destruct (Ascii.eqb c "-"); [|apply Hgo].
  intros ?%Hgo. auto.
Qed.

Section loop_suffix.
Variable value : string -> option (json * string).
Hypothesis value_suffix : forall s v r, value s = Some (v, r) -> suffix r s.

Lemma skip_suffix c r s : skip_ws s = String c r -> suffix r s.
Proof.
  intros H. pose proof (skip_ws_suffix s) as Hs. rewrite H in Hs. eapply suffix_trans; [|exact Hs]. auto.
Qed.

Lemma parse_elems_suffix fuel s vs r : parse_elems value fuel s = Some (vs, r) -> suffix r s.
Proof.
  revert s vs r; induction fuel as [|fuel IH]; intros s vs r; [done|]. cbn [parse_elems].
  destruct (value s) as [[v s1]|] eqn:Ev; [|done]. destruct (skip_ws s1) as [|c s2] eqn:Es; [done|].
  pose proof (suffix_trans _ _ _ (skip_suffix _ _ _ Es) (value_suffix _ _ _ Ev)) as H2.
  destruct (Ascii.eqb c ","); [|destruct (Ascii.eqb c "]"); [by intros [= <- <-]|done]].
  destruct (parse_elems value fuel (skip_ws s2)) as [[ws s3]|] eqn:Ep; [|done]. intros [= <- <-].
  eauto using suffix_trans, skip_ws_suffix.
Qed.

Lemma parse_member_suffix s m r : parse_member value s = Some (m, r) -> suffix r s.
Proof.
  destruct s as [|c s]; [done|]. cbn [parse_member]. destruct (_ =? 34); [|done].
  destruct (unquote s) as [[k s1]|] eqn:Eu; [|done]. destruct (skip_ws s1) as [|d s2] eqn:Es; [done|].
  destruct (Ascii.eqb d ":"); [|done]. destruct (value (skip_ws s2)) as [[v s3]|] eqn:Ev; [|done].
  intros [= <- <-]. apply value_suffix in Ev. apply unquote_suffix in Eu. apply skip_suffix in Es.
  pose proof (skip_ws_suffix s2). apply suffix_cons. by eauto 8 using suffix_trans.
Qed.

Lemma parse_members_suffix fuel s ms r : parse_members value fuel s = Some (ms, r) -> suffix r s.
Proof.
  revert s ms r; induction fuel as [|fuel IH]; intros s ms r; [done|]. cbn [parse_members].
  destruct (parse_member value s) as [[m s1]|] eqn:Ev; [|done].
  destruct (skip_ws s1) as [|c s2] eqn:Es; [done|].
  pose proof (suffix_trans _ _ _ (skip_suffix _ _ _ Es) (parse_member_suffix _ _ _ Ev)) as H2.
  destruct (Ascii.eqb c ","); [|destruct (Ascii.eqb c "}"); [by intros [= <- <-]|done]].
  destruct (parse_members value fuel (skip_ws s2)) as [[ws s3]|] eqn:Ep; [|done]. intros [= <- <-].
  eauto using suffix_trans, skip_ws_suffix.
Qed.
End loop_suffix.

Lemma parse_value_suffix fuel depth s v r : parse_value fuel depth s = Some (v, r) -> suffix r s.
Proof.
  revert depth s v r; induction fuel as [|fuel IH]; intros depth s v r; [done|].
  destruct s as [|c s]; [done|]. cbn [parse_value].
  assert (Hv := fun s v r => IH (depth + 1) s v r). intros H.
  repeat match type of H with
    | context [if ?b then _ else _] => destruct b
    | context [match skip_ws ?x with _ => _ end] => destruct (skip_ws x) eqn:Hsk
    | context [match unquote ?x with _ => _ end] => destruct (unquote x) as [[]|] eqn:Hu
    | context [match parse_elems ?g ?f ?x with _ => _ end] => destruct (parse_elems g f x) as [[]|] eqn:He
    | context [match parse_members ?g ?f ?x with _ => _ end] => destruct (parse_members g f x) as [[]|] eqn:He
    | context [match CutPrefix ?x ?y with _ => _ end] => destruct (CutPrefix x y) eqn:Hc
    | context [match parse_num ?x with _ => _ end] => destruct (parse_num x) as [[]|] eqn:Hn
    end; try discriminate H; injection H as <- <-.
  all: try (apply suffix_cons; by eauto using skip_suffix, unquote_suffix).
  all: try (apply suffix_cons; rewrite <- Hsk in *;
    by eauto using suffix_trans, skip_ws_suffix, parse_elems_suffix, parse_members_suffix).
  all: try (apply CutPrefix_Some in Hc as ->; by eexists).
  by eapply parse_num_suffix.
Qed.

(** ** Reading a longer text

    What is read of a text is read of the text with more behind it, unless it
    is a number that ends the text. *)

Lemma unquote_quote1 b q : unquote (String b "") = Some q -> byte_val b = 34.
Proof.
  destruct b as [[] [] [] [] [] [] [] []]; vm_compute; intros H; try discriminate H; reflexivity.
Qed.

Lemma quote_no_second a b : byte_val b = 34 -> continuation b = false /\ second_ok a b = false.
Proof.
  intros H. rewrite <- (byte_of_val b), H. split; [reflexivity|]. unfold second_ok.
  repeat (destruct (_ =? _); [reflexivity|]). reflexivity.
Qed.

(** The length of the sequence at the front of a text does not change when the
    text grows, if a string can end in the rest of it. *)
Lemma rune_len_app a s q r : unquote s = Some q -> rune_len (String a (s ++ r)) = rune_len (String a s).
Proof.
  destruct s as [|b [|c [|d s]]]; intros H; [done| | |by unfold rune_len; cbn [String.append]].
  - apply unquote_quote1 in H. destruct (quote_no_second a b H) as [Hc Hs]. cbn [String.append].
    unfold rune_len. rewrite Hc, Hs. rune_case.
  - destruct (Z.eqb_spec (byte_val b) 34) as [Hb|Hb].
    + destruct (quote_no_second a b Hb) as [Hc Hs]. cbn [String.append]. unfold rune_len. rewrite Hc, Hs. rune_case.
    + assert (Hc : continuation c = false \/ second_ok a b = false).
      { destruct (Z.eqb_spec (byte_val b) 92) as [He|He].
        - right. rewrite <- (byte_of_val b), He. unfold second_ok. repeat (destruct (_ =? _); [reflexivity|]). reflexivity.
        - left. apply (quote_no_second c c). revert H. cbn [unquote].
          apply Z.eqb_neq in Hb as ->. apply Z.eqb_neq in He as ->. destruct (_ <? 32); [done|].
          destruct (rune_len _) as [|[|[|[|[|]]]]]; try done;
            try (intros [? ?]%emit_inv; by eapply unquote_quote1). }
      cbn [String.append]. unfold rune_len. destruct Hc as [-> | ->]; rewrite ?andb_false_r; rune_case.
Qed.

Lemma emit_app x k k' t q r :
  (forall y, k = Some (y, q) -> k' = Some (y, q ++ r)) ->
  emit x k = Some (t, q) -> emit x k' = Some (t, q ++ r).
Proof. intros H. destruct k as [[y z]|]; [|done]. intros [= <- <-]. by rewrite (H y). Qed.

(** A string cannot end inside an escape. *)
Lemma unquote_escape_short b u s :
  (byte_val b =? 92) && (byte_val u =? 117) = true -> (String.length s < 4)%nat ->
  unquote (String b (String u s)) = None.
Proof.
  intros [Hb Hu]%andb_true_iff Hl. cbn [unquote]. rewrite Hb, Hu.
  destruct (Z.eqb_spec (byte_val b) 34) as [E|]; [rewrite E in Hb; done|].
  destruct s as [|? [|? [|? [|? ?]]]]; try done. cbn [String.length] in Hl. lia.
Qed.

(** The escape of a surrogate, with the one that may pair with it. *)
Lemma unquote_pair_app v s r o :
  (forall k x q, suffix k s -> emit x (unquote k) = Some q -> emit x (unquote (k ++ r)) = Some (fst q, snd q ++ r)) ->
  let pair s := match s with
    | String b (String u (String k1 (String k2 (String k3 (String k4 s12))))) =>
        match (if (byte_val b =? 92) && (byte_val u =? 117)
               then hex4 k1 k2 k3 k4 ≫= decode_pair v else None) with
        | Some d => emit (encode_rune d) (unquote s12)
        | None => emit replacement (unquote s)
        end
    | _ => emit replacement (unquote s)
    end in
  pair s = Some o -> pair (s ++ r) = Some (fst o, snd o ++ r).
Proof.
  intros Hgo pair.
  assert (Hlone : emit replacement (unquote s) = Some o ->
    emit replacement (unquote (s ++ r)) = Some (fst o, snd o ++ r)) by (apply Hgo; auto).
  destruct s as [|b s]; [done|].
  destruct s as [|u s].
  { intros H. pose proof H as [y Hy]%emit_inv. apply unquote_quote1 in Hy. specialize (Hlone H). revert Hlone.
    clear -Hy. subst pair. cbn [String.append]. rewrite Hy. change (34 =? 92) with false. cbn [andb]. rune_case. }
  destruct ((byte_val b =? 92) && (byte_val u =? 117)) eqn:Ebu.
  - destruct s as [|k1 [|k2 [|k3 [|k4 s12]]]].
    1-4: intros [y Hy]%emit_inv; rewrite unquote_escape_short in Hy by (done || cbn; lia); done.
    subst pair. cbn [String.append]. rewrite Ebu. destruct (_ ≫= _) as [d|]; [|exact Hlone].
    apply Hgo. by auto 10.
  - subst pair. intros H.
    assert (H' : emit replacement (unquote (String b (String u s))) = Some o).
    { revert H. cbv beta iota. rewrite Ebu. by do 4 (destruct s as [|? s]; [done|]). }
    specialize (Hlone H'). revert Hlone. clear -Ebu. cbn [String.append]. rewrite Ebu. generalize (s ++ r). intros w.
    by do 4 (destruct w as [|? w]; [done|]).
Qed.

Lemma unquote_app_len n s t q r :
  (String.length s <= n)%nat -> unquote s = Some (t, q) -> unquote (s ++ r) = Some (t, q ++ r).
Proof.
  revert s t q; induction n as [|n IH]; intros [|a s1] t q Hl; try done; cbn [String.length] in Hl; [lia|].
  assert (Hgo : forall k x, (String.length k <= n)%nat -> emit x (unquote k) = Some (t, q) ->
    emit x (unquote (k ++ r)) = Some (t, q ++ r)).
  { intros k x Hk. apply (emit_app x (unquote k)). intros. by apply IH. }
  cbn [unquote String.append]. destruct (byte_val a =? 34); [by intros [= <- <-]|].
  destruct (byte_val a =? 92).
  - destruct s1 as [|e s2]; [done|]. cbn [String.append String.length] in *.
    destruct (byte_val e =? 117); [|destruct (escaped e); [apply Hgo; lia|done]].
    destruct s2 as [|h1 [|h2 [|h3 [|h4 s6]]]]; try done. cbn [String.append String.length] in *.
    destruct (hex4 h1 h2 h3 h4) as [v|]; [|done]. destruct (is_surrogate v); [|apply Hgo; lia].
    intros H. apply (unquote_pair_app v s6 r) in H; [exact H|]. intros k x [t' q'] [w ->] Hk.
    apply (emit_app x (unquote k)); [|exact Hk]. intros. apply IH; [|done]. rewrite slength_app in Hl. lia.
  - destruct (byte_val a <? 32); [done|]. intros H.
    assert (Hlone : forall x, emit x (unquote s1) = Some (t, q) ->
      rune_len (String a (s1 ++ r)) = rune_len (String a s1) /\ emit x (unquote (s1 ++ r)) = Some (t, q ++ r)).
    { intros x Hx. split; [|apply Hgo; [lia|done]]. apply emit_inv in Hx as [y Hy]. by eapply rune_len_app. }
    destruct (rune_len (String a s1)) as [|[|[|[|[|m]]]]] eqn:Er.
    1,2,6: apply Hlone in H as [-> H]; exact H.
    + destruct s1 as [|b s2]; [discriminate H|]. cbn [String.append String.length] in *.
      rewrite (rune_len_2 a b s2) by done. apply Hgo; [lia|done].
    + destruct s1 as [|b [|c s3]]; [exfalso; revert Er; unfold rune_len; by rune_case..|]. cbn [String.append String.length] in *.
      rewrite (rune_len_3 a b c s3) by done. apply Hgo; [lia|done].
    + destruct s1 as [|b [|c [|d s4]]]; [exfalso; revert Er; unfold rune_len; by rune_case..|]. cbn [String.append String.length] in *.
      rewrite (rune_len_4 a b c d s4) by done. apply Hgo; [lia|done].
Qed.

Lemma unquote_app s t q r : unquote s = Some (t, q) -> unquote (s ++ r) = Some (t, q ++ r).
Proof. by apply (unquote_app_len (String.length s)). Qed.

Lemma skip_ws_app s c q r : skip_ws s = String c q -> skip_ws (s ++ r) = String c (q ++ r).
Proof.
  induction s as [|d s IH]; [done|]. cbn [skip_ws String.append]. destruct (is_space d); [done|].
  by intros [= <- <-].
Qed.

Lemma CutPrefix_longer p s q r : CutPrefix s p = Some q -> CutPrefix (s ++ r) p = Some (q ++ r).
Proof.
  intros ->%CutPrefix_Some. rewrite sapp_assoc. generalize (q ++ r). clear. intros q.
  induction p as [|c p IH]; [by destruct q|]. cbn. by rewrite Ascii.eqb_refl.
Qed.

(** What follows a number decides where it ends. *)
Lemma span_digits_longer s r :
  snd (span_digits s) <> "" ->
  span_digits (s ++ r) = (fst (span_digits s), snd (span_digits s) ++ r).
Proof.
  induction s as [|c s IH]; cbn [span_digits String.append]; [done|]. destruct (is_digit c); [|done].
  destruct (span_digits s) as [ds q]. cbn [fst snd] in *. intros H. by rewrite IH.
Qed.
Lemma digits1_app s t q r : digits1 s = Some (t, q) -> q <> "" -> digits1 (s ++ r) = Some (t, q ++ r).
Proof.
  unfold digits1. pose proof (span_digits_longer s r) as H. destruct (span_digits s) as [[|c ds] q']; [done|].
  intros [= <- <-] Hq. by rewrite H.
Qed.
Lemma num_int_app s t q r : num_int s = Some (t, q) -> q <> "" -> num_int (s ++ r) = Some (t, q ++ r).
Proof.
  destruct s as [|c s]; [done|]. cbn [num_int String.append]. destruct (Ascii.eqb c "0"); [by intros [= <- <-]|].
  destruct (is_digit c); [|done]. pose proof (span_digits_longer s r) as H. destruct (span_digits s) as [ds q'].
  intros [= <- <-] Hq. by rewrite H.
Qed.
Lemma num_frac_app s t q r : num_frac s = Some (t, q) -> q <> "" -> num_frac (s ++ r) = Some (t, q ++ r).
Proof.
  destruct s as [|c s]; cbn [num_frac String.append]; [by intros [= <- <-]|].
  destruct (Ascii.eqb c "."); [|by intros [= <- <-]]. intros H Hq. revert H. apply emit_app.
  intros y Hd. by apply digits1_app.
Qed.
Lemma num_exp_app s t q r : num_exp s = Some (t, q) -> q <> "" -> num_exp (s ++ r) = Some (t, q ++ r).
Proof.
  destruct s as [|c s]; cbn [num_exp String.append]; [by intros [= <- <-]|].
  destruct (_ || _); [|by intros [= <- <-]]. destruct s as [|g s]; [done|]. cbn [String.append].
  intros H Hq. revert H. destruct (_ || _); apply emit_app; intros y Hd; [by apply digits1_app|].
  by apply (digits1_app (String g s)).
Qed.
Lemma parse_num_app s t q r : parse_num s = Some (t, q) -> q <> "" -> parse_num (s ++ r) = Some (t, q ++ r).
Proof.
  unfold parse_num.
  assert (Hgo : forall sign u, (' (i, s) ← num_int u; ' (f, s) ← num_frac s; ' (e, s) ← num_exp s;
     Some (sign ++ i ++ f ++ e, s)) = Some (t, q) -> q <> "" ->
     (' (i, s) ← num_int (u ++ r); ' (f, s) ← num_frac s; ' (e, s) ← num_exp s;
     Some (sign ++ i ++ f ++ e, s)) = Some (t, q ++ r)).
  { intros sign u H Hq. destruct (num_int u) as [[i s1]|] eqn:E1; [|done]. cbn in H.
    destruct (num_frac s1) as [[f s2]|] eqn:E2; [|done]. cbn in H.
    destruct (num_exp s2) as [[e s3]|] eqn:E3; [|done]. cbn in H. injection H as <- ->.
    assert (H2 : s2 <> "") by (intros ->; injection E3 as _ <-; done).
    assert (H1 : s1 <> "") by (intros ->; injection E2 as _ <-; done).
    rewrite (num_int_app _ _ _ r E1 H1). cbn. rewrite (num_frac_app _ _ _ r E2 H2). cbn.
    by rewrite (num_exp_app _ _ _ r E3 Hq). }
  destruct s as [|c s]; [done|]. cbn [String.append]. destruct (Ascii.eqb c "-"); [apply Hgo|].
  apply (Hgo "" (String c s)).
Qed.

(** A value that ends before its text does, or that is not a number. *)
Definition ended (v : json) (q : string) : Prop := q <> "" \/ forall l, v <> JNum l.

Section loop_app.
Variables (value value' : string -> option (json * string)) (r : string).
Hypothesis value_app : forall s v q, value s = Some (v, q) -> ended v q -> value' (s ++ r) = Some (v, q ++ r).

Lemma skip_ended s c q v : skip_ws s = String c q -> ended v s.
Proof. left. intros ->. done. Qed.

Hypothesis value_empty : value "" = None.

Lemma skip_value_app s v q :
  value (skip_ws s) = Some (v, q) -> ended v q -> value' (skip_ws (s ++ r)) = Some (v, q ++ r).
Proof.
  intros H He. destruct (skip_ws s) as [|c s'] eqn:Es; [by rewrite value_empty in H|].
  rewrite (skip_ws_app _ _ _ r Es). by apply (value_app (String c s')).
Qed.

Lemma parse_elems_app fuel fuel' s vs q :
  (fuel <= fuel')%nat -> parse_elems value fuel s = Some (vs, q) ->
  parse_elems value' fuel' (s ++ r) = Some (vs, q ++ r).
Proof.
  revert fuel' s vs q; induction fuel as [|fuel IH]; intros [|fuel'] s vs q Hf; try done; [lia|].
  cbn [parse_elems]. destruct (value s) as [[v s1]|] eqn:Ev; [|done].
  destruct (skip_ws s1) as [|c s2] eqn:Es; [done|].
  rewrite (value_app _ _ _ Ev (skip_ended _ _ _ _ Es)), (skip_ws_app _ _ _ r Es).
  destruct (Ascii.eqb c ","); [|destruct (Ascii.eqb c "]"); [by intros [= <- <-]|done]].
  destruct (parse_elems value fuel (skip_ws s2)) as [[ws s3]|] eqn:Ep; [|done]. intros [= <- <-].
  destruct (skip_ws s2) as [|d s2'] eqn:Es2.
  { destruct fuel; cbn [parse_elems] in Ep; [done|]. by rewrite value_empty in Ep. }
  rewrite (skip_ws_app _ _ _ r Es2). change (String d (s2' ++ r)) with (String d s2' ++ r).
  by rewrite (IH fuel' (String d s2') ws s3) by (lia || done).
Qed.

Lemma parse_member_app s m q :
  parse_member value s = Some (m, q) -> q <> "" -> parse_member value' (s ++ r) = Some (m, q ++ r).
Proof.
  destruct s as [|c s]; [done|]. cbn [parse_member String.append]. destruct (_ =? 34); [|done].
  destruct (unquote s) as [[k s1]|] eqn:Eu; [|done]. rewrite (unquote_app _ _ _ r Eu).
  destruct (skip_ws s1) as [|d s2] eqn:Es; [done|]. rewrite (skip_ws_app _ _ _ r Es).
  destruct (Ascii.eqb d ":"); [|done]. destruct (value (skip_ws s2)) as [[v s3]|] eqn:Ev; [|done].
  intros [= <- <-] Hq. by rewrite (skip_value_app _ _ _ Ev) by (by left).
Qed.

Lemma parse_members_app fuel fuel' s ms q :
  (fuel <= fuel')%nat -> parse_members value fuel s = Some (ms, q) ->
  parse_members value' fuel' (s ++ r) = Some (ms, q ++ r).
Proof.
  revert fuel' s ms q; induction fuel as [|fuel IH]; intros [|fuel'] s ms q Hf; try done; [lia|].
  cbn [parse_members]. destruct (parse_member value s) as [[m s1]|] eqn:Em; [|done].
  destruct (skip_ws s1) as [|c s2] eqn:Es; [done|].
  rewrite (parse_member_app _ _ _ Em), (skip_ws_app _ _ _ r Es) by (by intros ->).
  destruct (Ascii.eqb c ","); [|destruct (Ascii.eqb c "}"); [by intros [= <- <-]|done]].
  destruct (parse_members value fuel (skip_ws s2)) as [[ws s3]|] eqn:Ep; [|done]. intros [= <- <-].
  destruct (skip_ws s2) as [|d s2'] eqn:Es2; [by destruct fuel|].
  rewrite (skip_ws_app _ _ _ r Es2). change (String d (s2' ++ r)) with (String d s2' ++ r).
  by rewrite (IH fuel' (String d s2') ws s3) by (lia || done).
Qed.
End loop_app.

Lemma parse_value_app fuel fuel' depth s v q r :
  (fuel <= fuel')%nat -> parse_value fuel depth s = Some (v, q) -> ended v q ->
  parse_value fuel' depth (s ++ r) = Some (v, q ++ r).
Proof.
  revert fuel' depth s v q; induction fuel as [|fuel IH]; intros [|fuel'] depth s v q Hf; try done; [lia|].
  destruct s as [|c s]; [done|]. cbn [parse_value String.append].
  assert (Hv : forall s v q, parse_value fuel (depth + 1) s = Some (v, q) -> ended v q ->
    parse_value fuel' (depth + 1) (s ++ r) = Some (v, q ++ r)) by (intros; apply IH; [lia|done..]).
  assert (H0 : parse_value fuel (depth + 1) "" = None) by (by destruct fuel).
  destruct (Ascii.eqb c "["); [|destruct (Ascii.eqb c "{")]; [..|destruct (byte_val c =? 34)].
  - destruct (_ >=? _); [done|]. destruct (skip_ws s) as [|d s1] eqn:Es; [done|].
    rewrite (skip_ws_app _ _ _ r Es). destruct (Ascii.eqb d "]"); [by intros [= <- <-]|].
    destruct (parse_elems _ _ _) as [[vs q']|] eqn:Ep; [|done]. intros [= <- <-] _.
    change (String d (s1 ++ r)) with (String d s1 ++ r).
    by rewrite (parse_elems_app _ _ r Hv H0 fuel fuel' _ _ _ ltac:(lia) Ep).
  - destruct (_ >=? _); [done|]. destruct (skip_ws s) as [|d s1] eqn:Es; [done|].
    rewrite (skip_ws_app _ _ _ r Es). destruct (Ascii.eqb d "}"); [by intros [= <- <-]|].
    destruct (parse_members _ _ _) as [[vs q']|] eqn:Ep; [|done]. intros [= <- <-] _.
    change (String d (s1 ++ r)) with (String d s1 ++ r).
    by rewrite (parse_members_app _ _ r Hv H0 fuel fuel' _ _ _ ltac:(lia) Ep).
  - destruct (unquote s) as [[t q']|] eqn:Eu; [|done]. intros [= <- <-] _. by rewrite (unquote_app _ _ _ r Eu).
  - change (String c (s ++ r)) with (String c s ++ r).
    destruct (Ascii.eqb c "n"); [|destruct (Ascii.eqb c "t"); [|destruct (Ascii.eqb c "f")]].
    1-3: destruct (CutPrefix (String c s) _) as [q'|] eqn:Ec; [|done]; intros [= <- <-] _;
      by rewrite (CutPrefix_longer _ _ _ r Ec).
    destruct (parse_num (String c s)) as [[l q']|] eqn:En; [|done]. intros [= <- <-] [He|He]; [|by destruct (He l)].
    by rewrite (parse_num_app _ _ _ r En He).
Qed.
