(* ===== verification/GoJsonDecode.v ===== *)
(** * [json.Decoder] into the wire's types

    How the decoder takes one value from a stream and how it stores a value
    into a struct: field names matched exactly or else by case folding, unknown
    fields refused or ignored, [null] leaving a scalar as it is and emptying a
    slice or a map, a repeated field decoded into what the first occurrence
    left (a slice keeps its backing array, a map its entries).  A struct is the
    list of its fields with their contents. *)

From S2P Require Import Prelude GoStrings GoTime GoNet GoEncoding GoBase64 GoJson GoJsonText.

(** ** The value at the front of a stream *)

(** The first value of the [data] a reader delivers, and the data after it;
    [eof] says whether the reader then reports the end of the stream or an
    error.  A number, string or literal is taken only once a byte follows it or
    the stream has ended. *)
Definition first_value (data : string) (eof : bool) : option (string * string) :=
  let s := skip_ws data in
  match json_parse data with
  | None => None
  | Some (_, rest) =>
      let self_ending := HasPrefix s "{" || HasPrefix s "[" in
      if self_ending || negb (String.eqb rest "") || eof
      then Some (stake (String.length s - String.length rest) s, rest) else None
  end.

(** ** Fields *)

Inductive cell : Type :=
  | CStr (s : string)
  | CInt (n : Z)
  | CBool (b : bool)
  | CTime (t : time)
  | CBytes (s : string)
  | CStrs (written : list string) (len : nat)
  | CMap (m : gmap string string).

Definition decode_str (old : string) (v : json) : option string :=
  match v with JStr s => Some s | JNull => Some old | _ => None end.

(** The elements of an array stored into a slice of strings.  [written] is the
    slice's backing array up to the last element ever written, past its length
    as well; an element that was never written is empty. *)
Fixpoint decode_elems (l : list json) (written : list string) : option (list string) :=
  match l with
  | [] => Some written
  | v :: l =>
      x ← decode_str (default "" (head written)) v; xs ← decode_elems l (tail written);
      Some (x :: xs)
  end.

Fixpoint decode_entries (l : list (string * json)) (m : gmap string string)
    : option (gmap string string) :=
  match l with
  | [] => Some m
  | (k, v) :: l => s ← decode_str "" v; decode_entries l (<[k := s]> m)
  end.

(** The value [v] stored into a field that holds [c]: an integer from a number
    without fraction or exponent, a time from a string in RFC 3339 without
    escapes, bytes from a string in base64.  (Bytes are read from an array of
    numbers as well, which no encoder writes; here that is refused.) *)
Definition decode_cell (c : cell) (v : json) : option cell :=
  match c with
  | CStr s => CStr <$> decode_str s v
  | CInt n =>
      match v with JNum literal => CInt <$> ParseInt64 literal | JNull => Some (CInt n) | _ => None end
  | CBool b => match v with JBool b => Some (CBool b) | JNull => Some (CBool b) | _ => None end
  | CTime t =>
      match v with JStr s => CTime <$> ParseRFC3339Nano s | JNull => Some (CTime t) | _ => None end
  | CBytes s =>
      match v with JStr s => CBytes <$> std_decode s | JNull => Some (CBytes "") | _ => None end
  | CStrs w _ =>
      match v with
      | JNull | JArr [] => Some (CStrs [] 0)
      | JArr l => w' ← decode_elems l w; Some (CStrs w' (length l))
      | _ => None
      end
  | CMap m =>
      match v with
      | JNull => Some (CMap ∅)
      | JObj l => CMap <$> decode_entries l m
      | _ => None
      end
  end.

(** [foldName]: letters in upper case, and the two other runes that fold to
    ASCII ones, U+017F and U+212A.  What other runes fold to is not ASCII, so
    no field has such a name, and they are left. *)
Fixpoint fold_name (s : string) : string :=
  match s with
  | "" => ""
  | String a s1 =>
      let keep := String (if byte_in 97 122 a then byte_of (byte_val a - 32) else a) (fold_name s1) in
      match s1 with
      | String b s2 =>
          if (byte_val a =? 197) && (byte_val b =? 191) then String "S" (fold_name s2)
          else match s2 with
               | String c s3 =>
                   if (byte_val a =? 226) && (byte_val b =? 132) && (byte_val c =? 170)
                   then String "K" (fold_name s3) else keep
               | "" => keep
               end
      | "" => keep
      end
  end.

Abbreviation fields := (list (string * cell)).

Definition find_field (fs : fields) (key : string) : option (string * cell) :=
  match find (fun f => String.eqb (fst f) key) fs with
  | Some f => Some f
  | None => find (fun f => String.eqb (fold_name (fst f)) (fold_name key)) fs
  end.

Definition set_field (fs : fields) (name : string) (c : cell) : fields :=
  map (fun f => if String.eqb (fst f) name then (name, c) else f) fs.

(** An object stored into a struct; [strict] under [DisallowUnknownFields]. *)
Fixpoint decode_members (strict : bool) (members : list (string * json)) (fs : fields) : option fields :=
  match members with
  | [] => Some fs
  | (k, v) :: members =>
      match find_field fs k with
      | Some (name, c) => c' ← decode_cell c v; decode_members strict members (set_field fs name c')
      | None => if strict then None else decode_members strict members fs
      end
  end.

Definition decode_struct (strict : bool) (fs : fields) (v : json) : option fields :=
  match v with
  | JObj members => decode_members strict members fs
  | JNull => Some fs
  | _ => None
  end.

(** ** Contents of a field *)

Definition get_cell (fs : fields) (name : string) : cell :=
  match find (fun f => String.eqb (fst f) name) fs with Some (_, c) => c | None => CStr "" end.
Definition get_str (fs : fields) (name : string) : string :=
  match get_cell fs name with CStr s => s | _ => "" end.
Definition get_int (fs : fields) (name : string) : Z :=
  match get_cell fs name with CInt n => n | _ => 0 end.
Definition get_bool (fs : fields) (name : string) : bool :=
  match get_cell fs name with CBool b => b | _ => false end.
Definition get_time (fs : fields) (name : string) : time :=
  match get_cell fs name with CTime t => t | _ => zero_time end.
Definition get_bytes (fs : fields) (name : string) : string :=
  match get_cell fs name with CBytes s => s | _ => "" end.
Definition get_strs (fs : fields) (name : string) : list string :=
  match get_cell fs name with CStrs w n => take n w | _ => [] end.
Definition get_map (fs : fields) (name : string) : gmap string string :=
  match get_cell fs name with CMap m => m | _ => ∅ end.

(** ** Examples: what a repeated field, a folded name and [null] do *)

Definition demo_fields : fields := [("argv", CStrs [] 0); ("dir", CStr "")].
Definition demo_decode (text : string) : option (list string * string) :=
  ' (v, _) ← json_parse text; fs ← decode_struct true demo_fields v;
  Some (get_strs fs "argv", get_str fs "dir").
Definition q (s : string) : string := json_quote s.

Example decode_repeated :
  demo_decode ("{" ++ q "argv" ++ ":[" ++ q "a" ++ "," ++ q "b" ++ "], " ++ q "ARGV" ++ " : [" ++ q "c" ++ "],"
    ++ q "argv" ++ ":[null,null]}") = Some (["c"; "b"], "").
Proof. vm_compute. reflexivity. Qed.
Example decode_null : demo_decode ("{" ++ q "dir" ++ ":null}") = Some ([], "").
Proof. vm_compute. reflexivity. Qed.
Example decode_unknown : demo_decode ("{" ++ q "image" ++ ":null}") = None.
Proof. vm_compute. reflexivity. Qed.

(** ** Decoding what a struct of strings, slices and maps is written as *)

Lemma decode_elems_strs l : decode_elems (map JStr l) [] = Some l.
Proof. induction l as [|s l IH]; [done|]. cbn [map decode_elems tail]. by rewrite IH. Qed.

Lemma decode_cell_strs l : decode_cell (CStrs [] 0) (JArr (map JStr l)) = Some (CStrs l (length l)).
Proof.
  pose proof (decode_elems_strs l) as H. destruct l as [|s l]; [done|]. cbn [decode_cell map] in *.
  rewrite H. cbn. by rewrite length_map.
Qed.

Lemma decode_entries_strs l m :
  decode_entries (map (fun kv => (fst kv, JStr (snd kv))) l) m
  = Some (fold_left (fun m kv => <[fst kv := snd kv]> m) l m).
Proof. revert m; induction l as [|[k v] l IH]; intros m; [done|]. apply IH. Qed.

Lemma first_value_print v eof :
  json_ints v -> json_depth v <= maxNestingDepth -> HasPrefix (json_print v) "{" = true ->
  first_value (json_print v) eof = Some (json_print v, "").
Proof.
  intros Hi Hd Hp. pose proof (json_parse_print v "" Hi Hd eq_refl) as H.
  pose proof (skip_ws_print v "" Hi) as Hs. rewrite sapp_nil_r in H, Hs. unfold first_value.
  rewrite H, Hs, Hp. cbn [orb String.length]. rewrite Nat.sub_0_r. unfold stake.
  by rewrite substring_all.
Qed.
