(* ===== verification/Sha256.v ===== *)
(** * SHA-256 and HMAC-SHA-256 ([crypto/sha256], [crypto/hmac])

    Executable definitions after FIPS 180-4 and RFC 2104, with known-answer
    tests.  openblox derives container names and preview hosts from SHA-256
    digests and signs preview tokens with HMAC. *)

From S2P Require Import Prelude.

Definition mask32 (x : Z) : Z := Z.land x 4294967295.
Definition add32 (x y : Z) : Z := mask32 (x + y).
Definition rotr (x n : Z) : Z := Z.lor (Z.shiftr x n) (mask32 (Z.shiftl x (32 - n))).
Definition not32 (x : Z) : Z := Z.lxor x 4294967295.

Definition sha_k : list Z :=
  [1116352408; 1899447441; 3049323471; 3921009573; 961987163; 1508970993; 2453635748; 2870763221;
   3624381080; 310598401; 607225278; 1426881987; 1925078388; 2162078206; 2614888103; 3248222580;
   3835390401; 4022224774; 264347078; 604807628; 770255983; 1249150122; 1555081692; 1996064986;
   2554220882; 2821834349; 2952996808; 3210313671; 3336571891; 3584528711; 113926993; 338241895;
   666307205; 773529912; 1294757372; 1396182291; 1695183700; 1986661051; 2177026350; 2456956037;
   2730485921; 2820302411; 3259730800; 3345764771; 3516065817; 3600352804; 4094571909; 275423344;
   430227734; 506948616; 659060556; 883997877; 958139571; 1322822218; 1537002063; 1747873779;
   1955562222; 2024104815; 2227730452; 2361852424; 2428436474; 2756734187; 3204031479; 3329325298].

(** The chaining state: eight words. *)
Record sha_state : Type := mkSha { ha : Z; hb : Z; hc : Z; hd : Z; he : Z; hf : Z; hg : Z; hh : Z }.

Definition sha_init : sha_state :=
  mkSha 1779033703 3144134277 1013904242 2773480762 1359893119 2600822924 528734635 1541459225.

Definition sig0 (x : Z) : Z := Z.lxor (Z.lxor (rotr x 7) (rotr x 18)) (Z.shiftr x 3).
Definition sig1 (x : Z) : Z := Z.lxor (Z.lxor (rotr x 17) (rotr x 19)) (Z.shiftr x 10).
Definition sum0 (x : Z) : Z := Z.lxor (Z.lxor (rotr x 2) (rotr x 13)) (rotr x 22).
Definition sum1 (x : Z) : Z := Z.lxor (Z.lxor (rotr x 6) (rotr x 11)) (rotr x 25).
Definition ch (x y z : Z) : Z := Z.lxor (Z.land x y) (Z.land (not32 x) z).
Definition maj (x y z : Z) : Z := Z.lxor (Z.lxor (Z.land x y) (Z.land x z)) (Z.land y z).

(** One round with constant [k] and message word [w]. *)
Definition sha_round (s : sha_state) (kw : Z * Z) : sha_state :=
  let '(k, w) := kw in
  let t1 := mask32 (hh s + sum1 (he s) + ch (he s) (hf s) (hg s) + k + w) in
  let t2 := mask32 (sum0 (ha s) + maj (ha s) (hb s) (hc s)) in
  mkSha (add32 t1 t2) (ha s) (hb s) (hc s) (add32 (hd s) t1) (he s) (hf s) (hg s).

(** The message schedule: the window holds the last sixteen words, newest
    last. *)
Fixpoint schedule (n : nat) (win : list Z) : list Z :=
  match n with
  | O => []
  | S n' =>
      match win with
      | w0 :: rest =>
          let next := mask32 (sig1 (nth 14 win 0) + nth 9 win 0 + sig0 (nth 1 win 0) + w0) in
          w0 :: schedule n' (rest ++ [next])%list
      | [] => []
      end
  end.

Definition sha_block (s : sha_state) (words : list Z) : sha_state :=
  let r := fold_left sha_round (combine sha_k (schedule 64 words)) s in
  mkSha (add32 (ha s) (ha r)) (add32 (hb s) (hb r)) (add32 (hc s) (hc r)) (add32 (hd s) (hd r))
    (add32 (he s) (he r)) (add32 (hf s) (hf r)) (add32 (hg s) (hg r)) (add32 (hh s) (hh r)).

(** Bytes and big-endian words. *)
Fixpoint bytes_of (s : string) : list Z :=
  match s with "" => [] | String c s' => byte_val c :: bytes_of s' end.
Fixpoint string_of (l : list Z) : string :=
  match l with [] => "" | b :: l' => String (byte_of b) (string_of l') end.

Definition be_bytes (n : nat) (x : Z) : list Z :=
  map (fun i => Z.land (Z.shiftr x (8 * Z.of_nat (n - 1 - i))) 255) (seq 0 n).

Fixpoint words_of (n : nat) (l : list Z) : list Z :=
  match n, l with
  | S n', a :: b :: c :: d :: l' =>
      Z.lor (Z.lor (Z.shiftl a 24) (Z.shiftl b 16)) (Z.lor (Z.shiftl c 8) d) :: words_of n' l'
  | _, _ => []
  end.

Definition sha_pad (l : list Z) : list Z :=
  let n := Z.of_nat (length l) in
  (l ++ 128 :: repeat 0 (Z.to_nat ((55 - n) mod 64)) ++ be_bytes 8 (8 * n))%list.

Fixpoint sha_blocks (fuel : nat) (l : list Z) (s : sha_state) : sha_state :=
  match fuel, l with
  | S f, _ :: _ => sha_blocks f (skipn 64 l) (sha_block s (words_of 16 (firstn 64 l)))
  | _, _ => s
  end.

(** [sha256.Sum256] on bytes; a padded message of [n] bytes has at most [n]
    blocks. *)
Definition sha256_bytes (l : list Z) : list Z :=
  let m := sha_pad l in
  let s := sha_blocks (length m) m sha_init in
  flat_map (be_bytes 4) [ha s; hb s; hc s; hd s; he s; hf s; hg s; hh s].

Definition sha256 (s : string) : string := string_of (sha256_bytes (bytes_of s)).

(** [hmac.New(sha256.New, key)] written with [msg] and summed. *)
Definition hmac_bytes (key msg : list Z) : list Z :=
  let key := if (64 <? Z.of_nat (length key)) then sha256_bytes key else key in
  let key := (key ++ repeat 0 (64 - length key))%list in
  let inner := sha256_bytes (map (Z.lxor 54) key ++ msg)%list in
  sha256_bytes (map (Z.lxor 92) key ++ inner)%list.

Definition hmac_sha256 (key msg : string) : string :=
  string_of (hmac_bytes (bytes_of key) (bytes_of msg)).

(** ** Lower-case hexadecimal ([encoding/hex]) *)

Definition hex_digit (n : Z) : ascii := byte_of (if n <? 10 then 48 + n else 87 + n).

Fixpoint hex (s : string) : string :=
  match s with
  | "" => ""
  | String c s' =>
      String (hex_digit (byte_val c / 16)) (String (hex_digit (byte_val c mod 16)) (hex s'))
  end.

Example sha_abc :
  hex (sha256 "abc") = "ba7816bf8f01cfea414140de5dae2223b00361a396177a9cb410ff61f20015ad".
Proof. vm_compute. reflexivity. Qed.
Example sha_empty :
  hex (sha256 "") = "e3b0c44298fc1c149afbf4c8996fb92427ae41e4649b934ca495991b7852b855".
Proof. vm_compute. reflexivity. Qed.
Example sha_two_blocks :
  hex (sha256 "abcdbcdecdefdefgefghfghighijhijkijkljklmklmnlmnomnopnopq") =
  "248d6a61d20638b8e5c026930c3e6039a33ce45964ff2167f6ecedd419db06c1".
Proof. vm_compute. reflexivity. Qed.
Example hmac_jefe :
  hex (hmac_sha256 "Jefe" "what do ya want for nothing?") =
  "5bdcc146bf60754e6a042426089575c75a003f089d2739839dec58b964ec3843".
Proof. vm_compute. reflexivity. Qed.

(** ** Lengths and injectivity *)

Lemma be_bytes_length n x : length (be_bytes n x) = n.
Proof. unfold be_bytes. by rewrite length_map, length_seq. Qed.

Lemma sha256_bytes_length l : length (sha256_bytes l) = 32%nat.
Proof. reflexivity. Qed.

Lemma string_of_length l : String.length (string_of l) = length l.
Proof. induction l; simpl; congruence. Qed.

Lemma sha256_length s : String.length (sha256 s) = 32%nat.
Proof. unfold sha256. by rewrite string_of_length, sha256_bytes_length. Qed.

Lemma hmac_length k m : String.length (hmac_sha256 k m) = 32%nat.
Proof. unfold hmac_sha256, hmac_bytes. by rewrite string_of_length, sha256_bytes_length. Qed.

Lemma hex_length s : String.length (hex s) = (2 * String.length s)%nat.
Proof. induction s; simpl; lia. Qed.

Lemma hex_digit_inj m n : 0 <= m < 16 -> 0 <= n < 16 -> hex_digit m = hex_digit n -> m = n.
Proof.
  intros Hm Hn H. apply (f_equal byte_val) in H. unfold hex_digit in H.
  revert H. repeat zcase; rewrite !byte_val_of by lia; lia.
Qed.

Lemma hex_inj s t : hex s = hex t -> s = t.
Proof.
  revert t; induction s as [|c s IH]; intros [|d t]; cbn [hex]; try done.
  intros [= H1 H2 H3].
  pose proof (byte_val_bound c). pose proof (byte_val_bound d).
  assert (forall n, 0 <= n < 256 -> 0 <= n / 16 < 16).
  { intros n Hn. split; [apply Z.div_pos; lia|apply Z.div_lt_upper_bound; lia]. }
  apply hex_digit_inj in H1; [|auto..].
  apply hex_digit_inj in H2; [|apply Z.mod_pos_bound; lia..].
  f_equal; [|auto]. apply byte_val_inj.
  rewrite (Z.div_mod (byte_val c) 16), (Z.div_mod (byte_val d) 16) by lia. congruence.
Qed.

(** The bytes hexadecimal text is made of. *)
Definition is_hex (c : ascii) : bool :=
  ((48 <=? byte_val c) && (byte_val c <=? 57)) || ((97 <=? byte_val c) && (byte_val c <=? 102)).

Lemma hex_all s : all_bytes is_hex (hex s) = true.
Proof.
  assert (Hd : forall n, 0 <= n < 16 -> is_hex (hex_digit n) = true).
  { intros n Hn. unfold is_hex, hex_digit. zcase; rewrite byte_val_of by lia; lia. }
  induction s as [|c s IH]; cbn [hex all_bytes]; [done|].
  pose proof (byte_val_bound c).
  rewrite !Hd, IH; [done|apply Z.mod_pos_bound; lia|].
  split; [apply Z.div_pos; lia|apply Z.div_lt_upper_bound; lia].
Qed.


(** Proofs treat the digests as black boxes. *)
#[global] Arguments sha256 : simpl never.
#[global] Arguments hmac_sha256 : simpl never.
