(* ===== verification/Effects.v ===== *)
(** * Effectful code

    Operations that call out (to Docker, to a backend, to a shared structure)
    are programs of a free monad over the calls they make.  A program fixes
    which calls are made, with which arguments and in which order, as a
    function of the answers; nothing is assumed about the answers.  A theorem
    quantified over answers therefore holds under every behaviour of the other
    side, concurrent interference included; a theorem that needs the other side
    to keep a contract states it as a relation on a state. *)

From S2P Require Import Prelude GoErrors.

Section prog.
Context {E : Type -> Type}.

Inductive prog (A : Type) : Type :=
  | Ret (a : A)
  | Vis {X : Type} (e : E X) (k : X -> prog A).
Arguments Ret {A}.
Arguments Vis {A X}.

Fixpoint bind {A B} (p : prog A) (f : A -> prog B) : prog B :=
  match p with
  | Ret a => f a
  | Vis e k => Vis e (fun x => bind (k x) f)
  end.

Definition call {X} (e : E X) : prog X := Vis e Ret.

(** ** Postconditions against a contract of the other side

    [step e w x w']: with the other side in state [w], the call [e] may answer
    [x] and leave it in state [w'].  [wp] demands the postcondition of every
    allowed execution; the calls themselves are constrained by [ok]. *)
Section wp.
Context {W : Type}.
Variable ok : forall X, E X -> W -> Prop.
Variable step : forall X, E X -> W -> X -> W -> Prop.

Fixpoint wp {A} (p : prog A) (Q : A -> W -> Prop) (w : W) : Prop :=
  match p with
  | Ret a => Q a w
  | Vis e k => ok _ e w /\ forall x w', step _ e w x w' -> wp (k x) Q w'
  end.

Lemma wp_bind {A B} (p : prog A) (f : A -> prog B) Q w :
  wp (bind p f) Q w <-> wp p (fun a w' => wp (f a) Q w') w.
Proof.
  revert w; induction p as [a|X e k IH]; intros w; simpl; [done|].
  split; intros [Hok H]; split; auto; intros x w' Hs; apply IH; auto.
Qed.

Lemma wp_mono {A} (p : prog A) (Q R : A -> W -> Prop) w :
  (forall a w', Q a w' -> R a w') -> wp p Q w -> wp p R w.
Proof.
  intros HQR; revert w; induction p as [a|X e k IH]; intros w; simpl; [auto|].
  intros [Hok H]. split; auto.
Qed.

Lemma wp_all {A I} (P : I -> Prop) (p : prog A) Q (R : I -> A -> W -> Prop) w :
  wp p Q w -> (forall i, P i -> wp p (R i) w) ->
  wp p (fun a w' => Q a w' /\ forall i, P i -> R i a w') w.
Proof.
  revert w; induction p as [a|X e k IH]; intros w; simpl; [by split|].
  intros [Hok H] HR. split; [done|]. intros x w' Hs. apply IH; [auto|]. intros i Hi. by apply (HR i Hi).
Qed.

Lemma wp_call {X} (e : E X) Q w :
  ok _ e w -> (forall x w', step _ e w x w' -> Q x w') -> wp (call e) Q w.
Proof. by split. Qed.
End wp.

Lemma wp_weaken_ok {W A} (ok : forall X, E X -> W -> Prop) step (p : prog A) Q w :
  wp ok step p Q w -> wp (fun _ _ _ => True) step p Q w.
Proof.
  revert w; induction p as [a|X e k IH]; intros w; simpl; [done|].
  intros [_ Hk]. split; auto.
Qed.

(** The executions a contract allows: [outcome step p w a w'] when [p] started
    in [w] may end with [a] in [w']. *)
Inductive outcome {W A} (step : forall X, E X -> W -> X -> W -> Prop) : prog A -> W -> A -> W -> Prop :=
  | outcome_ret a w : outcome step (Ret a) w a w
  | outcome_vis X (e : E X) k w x w' a w'' :
      step X e w x w' -> outcome step (k x) w' a w'' -> outcome step (Vis e k) w a w''.

Lemma wp_outcome {W A} (ok : forall X, E X -> W -> Prop) step (p : prog A) Q w a w' :
  wp ok step p Q w -> outcome step p w a w' -> Q a w'.
Proof.
  intros Hwp Ho. induction Ho as [a w|X e k w x w' a w'' Hs _ IH]; [done|].
  destruct Hwp as [_ Hk]. eauto.
Qed.

(** ** Safety: every call any execution makes satisfies [P], every result
    satisfies [Q], whatever the answers are. *)
Section safe.
Variable P : forall X, E X -> Prop.

Fixpoint safe {A} (p : prog A) (Q : A -> Prop) : Prop :=
  match p with
  | Ret a => Q a
  | Vis e k => P _ e /\ forall x, safe (k x) Q
  end.

Lemma safe_bind {A B} (p : prog A) (f : A -> prog B) Q R :
  safe p R -> (forall a, R a -> safe (f a) Q) -> safe (bind p f) Q.
Proof.
  induction p as [a|X e k IH]; simpl; [auto|].
  intros [HP H] Hf. split; auto.
Qed.

Lemma safe_call {X} (e : E X) (Q : X -> Prop) :
  P _ e -> (forall x, Q x) -> safe (call e) Q.
Proof. by split. Qed.

Lemma safe_any {A} (p : prog A) : (forall X (e : E X), P X e) -> safe p (fun _ => True).
Proof. intros HP. induction p as [a|X e k IH]; simpl; auto. Qed.

Lemma safe_mono {A} (p : prog A) (Q R : A -> Prop) :
  (forall a, Q a -> R a) -> safe p Q -> safe p R.
Proof.
  intros HQR. induction p as [a|X e k IH]; simpl; [auto|].
  intros [HP H]. split; auto.
Qed.
End safe.

Lemma safe_weaken {A} (P P' : forall X, E X -> Prop) (p : prog A) Q :
  (forall X e, P X e -> P' X e) -> safe P p Q -> safe P' p Q.
Proof.
  intros HP. induction p as [a|X e k IH]; simpl; [auto|]. intros [He Hk]. split; auto.
Qed.

(** ** Running a program against a concrete other side *)
Section run.
Context {W : Type}.
Variable h : forall X, E X -> W -> X * W.

Fixpoint run {A} (p : prog A) (w : W) : A * W :=
  match p with
  | Ret a => (a, w)
  | Vis e k => let '(x, w') := h _ e w in run (k x) w'
  end.

Lemma run_bind {A B} (p : prog A) (f : A -> prog B) w :
  run (bind p f) w = let '(a, w') := run p w in run (f a) w'.
Proof.
  revert w; induction p as [a|X e k IH]; intros w; simpl; [done|].
  destruct (h X e w) as [x w']. apply IH.
Qed.

(** A deterministic other side is one that allows exactly its own answers. *)
Lemma wp_run {A} (p : prog A) Q w :
  wp (fun _ _ _ => True) (fun X e w x w' => h X e w = (x, w')) p Q w <->
  let '(a, w') := run p w in Q a w'.
Proof.
  revert w; induction p as [a|X e k IH]; intros w; simpl; [done|].
  destruct (h X e w) as [x w'] eqn:Eh. rewrite <- IH. split.
  - intros [_ H]. by apply H.
  - intros H. split; [done|]. by intros ? ? [= <- <-].
Qed.

Lemma run_outcome {A} (step : forall X, E X -> W -> X -> W -> Prop) :
  (forall X e w, step X e w (fst (h X e w)) (snd (h X e w))) ->
  forall (p : prog A) w, outcome step p w (fst (run p w)) (snd (run p w)).
Proof.
  intros Hh p. induction p as [a|X e k IH]; intros w; simpl; [constructor|].
  pose proof (Hh X e w) as Hs. destruct (h X e w) as [x w']. by econstructor.
Qed.

(** What holds of every allowed execution holds of one that is. *)
Lemma wp_run_refines {A} ok (step : forall X, E X -> W -> X -> W -> Prop) :
  (forall X e w, step X e w (fst (h X e w)) (snd (h X e w))) ->
  forall (p : prog A) Q w, wp ok step p Q w -> let '(a, w') := run p w in Q a w'.
Proof.
  intros Hh p Q. induction p as [a|X e k IH]; intros w; simpl; [done|]. intros [_ Hk].
  pose proof (Hh X e w) as Hs. destruct (h X e w) as [x w']. by apply IH, Hk.
Qed.

(** Safety speaks of every execution. *)
Lemma safe_run {A} (P : forall X, E X -> Prop) (p : prog A) (Q : A -> Prop) w :
  safe P p Q -> Q (fst (run p w)).
Proof.
  revert w; induction p as [a|X e k IH]; intros w; simpl; [done|].
  intros [_ Hk]. destruct (h X e w) as [x w']. by apply IH.
Qed.
End run.
End prog.

Arguments prog E A : clear implicits.
Arguments Ret {E A}.
Arguments Vis {E A X}.

(** ** Implementing the calls of one signature by programs over another

    A state is threaded through: what the implementation keeps between two
    calls of one program. *)
Section interp.
Context {E F : Type -> Type} {S : Type}.
Variable h : forall X, E X -> S -> prog F (X * S).

Fixpoint interp {A} (p : prog E A) (s : S) : prog F (A * S) :=
  match p with
  | Ret a => Ret (a, s)
  | Vis e k => bind (h _ e s) (fun xs => interp (k (fst xs)) (snd xs))
  end.

(** If each call is implemented safely wherever the program makes it, the
    implemented program is safe. *)
Lemma safe_interp {A} (P : forall X, E X -> Prop) (P' : forall X, F X -> Prop) (p : prog E A) Q s :
  (forall X e s, P X e -> safe P' (h X e s) (fun _ => True)) ->
  safe P p Q -> safe P' (interp p s) (fun as' => Q (fst as')).
Proof.
  intros Hh. revert s; induction p as [a|X e k IH]; intros s; cbn [interp safe]; [done|].
  intros [He Hk]. eapply safe_bind; [by apply Hh|]. intros [x s'] _. by apply IH.
Qed.

(** If each call is implemented to the contract the program relies on, the
    implemented program meets what the program does. *)
Lemma wp_interp {A W} (ok : forall X, E X -> W -> Prop) (step : forall X, E X -> W -> X -> W -> Prop)
    (ok' : forall X, F X -> W -> Prop) (step' : forall X, F X -> W -> X -> W -> Prop)
    (p : prog E A) (Q : A -> W -> Prop) s w :
  (forall X e s w, ok X e w -> wp ok' step' (h X e s) (fun xs w' => step X e w (fst xs) w') w) ->
  wp ok step p Q w -> wp ok' step' (interp p s) (fun as' w' => Q (fst as') w') w.
Proof.
  intros Hh. revert s w; induction p as [a|X e k IH]; intros s w; cbn [interp wp]; [done|].
  intros [He Hk]. apply wp_bind. eapply wp_mono; [|by apply Hh]. intros [x s'] w' Hs. by apply IH, Hk.
Qed.
End interp.

Notation "x <- p ;; q" := (bind p (fun x => q))
  (at level 20, p at level 99, q at level 200) : go_scope.
Notation "' pat <- p ;; q" := (bind p (fun x => match x with pat => q end))
  (at level 20, pat pattern, p at level 99, q at level 200) : go_scope.
(** Call and return early on error. *)
Notation "x <-? p ;; q" :=
  (bind p (fun r => match r with Ok x => q | Err err => Ret (Err err) end))
  (at level 20, p at level 99, q at level 200) : go_scope.
#[global] Open Scope go_scope.

#[export] Hint Resolve safe_call : openblox.
