(* ===== verification/GoOs.v ===== *)
(** * The operating system as the daemon's start-up uses it

    The calls of [os], [os/user], [net] and [syscall] that opening a listener
    makes, and what they do to a file system and to the process's file mode
    mask, and the lines of [log/slog].  Symbolic links and other processes are
    left out; every call may fail. *)

From S2P Require Import Prelude GoErrors GoStrings Effects.

(** ** Files *)

(** The file types [os.FileMode] distinguishes, with their type bits. *)
Inductive filetype : Set := Regular | Directory | NamedPipe | Device | Socket_.

#[global] Instance filetype_eq_dec : EqDecision filetype.
Proof. solve_decision. Defined.

Definition ModeSocket : Z := Z.shiftl 1 24.

Definition type_bits (k : filetype) : Z :=
  match k with
  | Regular => 0
  | Directory => Z.shiftl 1 31
  | NamedPipe => Z.shiftl 1 25
  | Device => Z.shiftl 1 26
  | Socket_ => ModeSocket
  end.

(** A file: its type, permission bits and group. *)
Record node : Type := mkNode { nd_type : filetype; nd_perm : Z; nd_gid : Z }.

(** [FileInfo.Mode] *)
Definition FileMode (nd : node) : Z := Z.lor (type_bits (nd_type nd)) (Z.land (nd_perm nd) 511).

(** [x &^ y] *)
Definition andnot (x y : Z) : Z := Z.land x (Z.lnot y).

(** ** Calls *)

(** A bound listener, with what closing it has to know. *)
Inductive Listener : Type :=
  | UnixListener (path : string)
  | TCPListener (addr : string).

(** A line of [log/slog]: its level, message and attributes. *)
Inductive slog_value : Type :=
  | SlogString (s : string)
  | SlogInt (n : Z)
  | SlogError (err : error).
Record slog_line : Type := mkSlog {
  SlogLevel : string;
  SlogMessage : string;
  SlogAttrs : list (string * slog_value)
}.

Inductive osE : Type -> Type :=
  | OsStat (path : string) : osE (result Z)
  | OsRemove (path : string) : osE (result unit)
  | OsChmod (path : string) (mode : Z) : osE (result unit)
  | OsChown (path : string) (uid gid : Z) : osE (result unit)
  | OsReadFile (path : string) : osE (result string)
  | LookupGroup (name : string) : osE (result string)
  | Umask (mask : Z) : osE Z
  | NetListen (network addr : string) : osE (result Listener)
  | CloseListener (ln : Listener) : osE unit
  | Slog (line : slog_line) : osE unit.

(** ** What they do *)

Record world : Type := mkWorld {
  files : gmap string node;
  umask : Z;
  own_gid : Z;                       (** group of a file this process creates *)
  groups : gmap string string;       (** group database: decimal identifiers *)
  contents : gmap string string;     (** what reading a file gives *)
  logged : list slog_line            (** what was logged, in order *)
}.

Definition set_files (w : world) (fs : gmap string node) : world :=
  mkWorld fs (umask w) (own_gid w) (groups w) (contents w) (logged w).
Definition set_umask (w : world) (m : Z) : world :=
  mkWorld (files w) m (own_gid w) (groups w) (contents w) (logged w).
Definition log_to (w : world) (lines : list slog_line) : world :=
  mkWorld (files w) (umask w) (own_gid w) (groups w) (contents w) (logged w ++ lines).

Lemma log_to_nil w : log_to w [] = w.
Proof. destruct w. unfold log_to. cbn. by rewrite app_nil_r. Qed.
Lemma log_to_app w a b : log_to (log_to w a) b = log_to w (a ++ b)%list.
Proof. unfold log_to. cbn. by rewrite app_assoc. Qed.

(** A socket address that starts with [@] is not a file. *)
Definition is_abstract (path : string) : bool := HasPrefix path "@".

(** Binding a Unix socket creates its file, under the mask. *)
Definition bind_socket (w : world) (path : string) : world :=
  if is_abstract path then w
  else set_files w (<[path := mkNode Socket_ (andnot 511 (umask w)) (own_gid w)]> (files w)).

(** Closing a Unix listener unlinks its file. *)
Definition close_listener (w : world) (ln : Listener) : world :=
  match ln with
  | UnixListener path => if is_abstract path then w else set_files w (delete path (files w))
  | TCPListener _ => w
  end.

Definition os_step (X : Type) (e : osE X) (w : world) : X -> world -> Prop :=
  match e in osE X return X -> world -> Prop with
  | OsStat path => fun r w' => w' = w /\
      match r with
      | Ok m => exists nd, files w !! path = Some nd /\ m = FileMode nd
      | Err _ => True
      end
  | OsRemove path => fun r w' =>
      match r with
      | Ok _ => is_Some (files w !! path) /\ w' = set_files w (delete path (files w))
      | Err _ => w' = w
      end
  | OsChmod path mode => fun r w' =>
      match r with
      | Ok _ => exists nd, files w !! path = Some nd /\
          w' = set_files w (<[path := mkNode (nd_type nd) (Z.land mode 511) (nd_gid nd)]> (files w))
      | Err _ => w' = w
      end
  | OsChown path _ gid => fun r w' =>
      match r with
      | Ok _ => exists nd, files w !! path = Some nd /\
          w' = set_files w (<[path := mkNode (nd_type nd) (nd_perm nd)
                                        (if gid <? 0 then nd_gid nd else gid)]> (files w))
      | Err _ => w' = w
      end
  | OsReadFile path => fun r w' => w' = w /\
      match r with Ok s => contents w !! path = Some s | Err _ => True end
  | LookupGroup name => fun r w' => w' = w /\
      match r with Ok g => groups w !! name = Some g | Err _ => True end
  | Umask mask => fun old w' => old = umask w /\ w' = set_umask w (Z.land mask 511)
  | NetListen network addr => fun r w' =>
      match r with
      | Ok ln =>
          if String.eqb network "unix" then
            ln = UnixListener addr /\ (is_abstract addr = false -> files w !! addr = None) /\
            w' = bind_socket w addr
          else ln = TCPListener addr /\ w' = w
      | Err _ => w' = w
      end
  | CloseListener ln => fun _ w' => w' = close_listener w ln
  | Slog line => fun _ w' => w' = log_to w [line]
  end.

Lemma FileMode_socket nd : Z.land (FileMode nd) ModeSocket = 0 <-> nd_type nd <> Socket_.
Proof.
  unfold FileMode. rewrite Z.land_lor_distr_l, <- Z.land_assoc.
  change (Z.land 511 ModeSocket) with 0. rewrite Z.land_0_r, Z.lor_0_r.
  destruct (nd_type nd); vm_compute; split; congruence.
Qed.

(** A host on which everything that can succeed does. *)
Definition enoent : error := External ExtOther "no such file or directory".

Definition os_run (X : Type) (e : osE X) (w : world) : X * world :=
  match e in osE X return X * world with
  | OsStat path =>
      (match files w !! path with Some nd => Ok (FileMode nd) | None => Err enoent end, w)
  | OsRemove path =>
      match files w !! path with
      | Some _ => (Ok tt, set_files w (delete path (files w)))
      | None => (Err enoent, w)
      end
  | OsChmod path mode =>
      match files w !! path with
      | Some nd => (Ok tt, set_files w
          (<[path := mkNode (nd_type nd) (Z.land mode 511) (nd_gid nd)]> (files w)))
      | None => (Err enoent, w)
      end
  | OsChown path _ gid =>
      match files w !! path with
      | Some nd => (Ok tt, set_files w
          (<[path := mkNode (nd_type nd) (nd_perm nd) (if gid <? 0 then nd_gid nd else gid)]> (files w)))
      | None => (Err enoent, w)
      end
  | OsReadFile path =>
      (match contents w !! path with Some s => Ok s | None => Err enoent end, w)
  | LookupGroup name =>
      (match groups w !! name with
       | Some g => Ok g
       | None => Err (External ExtOther "user: unknown group")
       end, w)
  | Umask mask => (umask w, set_umask w (Z.land mask 511))
  | NetListen network addr =>
      if String.eqb network "unix" then
        match files w !! addr with
        | Some _ => (Err (External ExtOther "bind: address already in use"), w)
        | None => (Ok (UnixListener addr), bind_socket w addr)
        end
      else (Ok (TCPListener addr), w)
  | CloseListener ln => (tt, close_listener w ln)
  | Slog line => (tt, log_to w [line])
  end.

Lemma os_run_step X (e : osE X) w : os_step X e w (fst (os_run X e w)) (snd (os_run X e w)).
Proof.
  destruct e; cbn; try done.
  - split; [done|]. destruct (files w !! path) eqn:E; [by eexists|done].
  - destruct (files w !! path) eqn:E; [|done]. by split; [eexists|].
  - destruct (files w !! path) eqn:E; [|done]. by eexists.
  - destruct (files w !! path) eqn:E; [|done]. by eexists.
  - split; [done|]. by destruct (contents w !! path).
  - split; [done|]. by destruct (groups w !! name).
  - destruct (String.eqb network "unix") eqn:En; [|by split].
    destruct (files w !! addr) eqn:E; cbn; [done|]. by split_and!.
Qed.
