(* ===== verification/GoTls.v ===== *)
(** * Mutual TLS as the program configures it

    The fields of [x509.Certificate] and [tls.Config] the program sets, which
    chains [x509.Certificate.Verify] builds, and which connections [crypto/tls]
    completes.  Parsing PEM, pairing a certificate with its key, checking one
    signature and matching a host name are parameters. *)

From S2P Require Import Prelude GoErrors GoStrings GoTime GoNet GoOs Effects.

(** ** Certificates *)

Inductive ExtUsage : Set := ExtKeyUsageServerAuth | ExtKeyUsageClientAuth.

#[global] Instance ExtUsage_eq_dec : EqDecision ExtUsage.
Proof. solve_decision. Defined.

Definition KeyUsageDigitalSignature : Z := 1.
Definition KeyUsageCertSign : Z := Z.shiftl 1 5.

(** [x509.Certificate]: the bytes it was parsed from, none for a template, and
    the fields the program sets or the verification reads. *)
Record certificate : Type := mkCertificate {
  Raw : string;
  SerialNumber : Z;
  CommonName : string;
  NotBefore : time;
  NotAfter : time;
  IsCA : bool;
  KeyUsage : Z;
  BasicConstraintsValid : bool;
  ExtKeyUsage : list ExtUsage;
  DNSNames : list string;
  IPAddresses : list string
}.

#[global] Instance certificate_eq_dec : EqDecision certificate.
Proof. solve_decision. Defined.

Definition VersionTLS12 : Z := 771.
Definition VersionTLS13 : Z := 772.

Inductive ClientAuthType : Set :=
  | NoClientCert | RequestClientCert | RequireAnyClientCert
  | VerifyClientCertIfGiven | RequireAndVerifyClientCert.

(** [tls.ConnectionState]; on a resumed session the certificates and chains are
    those saved with it. *)
Record ConnectionState : Type := mkConnectionState {
  Version : Z;
  DidResume : bool;
  PeerCertificates : list certificate;
  VerifiedChains : list (list certificate)
}.

Record tlsConfig : Type := mkTlsConfig {
  MinVersion : Z;
  Certificates : list (list certificate);   (** each a leaf and what it is sent with *)
  ClientAuth : ClientAuthType;
  ClientCAs : list certificate;
  RootCAs : list certificate;
  ServerName : string;
  VerifyPeerCertificate : option (list (list certificate) -> result unit);
  VerifyConnection : option (ConnectionState -> result unit)
}.

(** What the model does not look into: [AppendCertsFromPEM], [X509KeyPair], the
    signature check of [CheckSignatureFrom] and [VerifyHostname]. *)
Class Pki : Type := {
  parsePEM : string -> list certificate;
  X509KeyPair : string -> string -> result (list certificate);
  signed_by : certificate -> certificate -> bool;
  valid_for : certificate -> string -> bool
}.

Section pki.
Context `{Pki}.

(** [tls.LoadX509KeyPair] *)
Definition LoadX509KeyPair (certFile keyFile : string) : prog osE (result (list certificate)) :=
  certPEM <-? call (OsReadFile certFile);;
  keyPEM <-? call (OsReadFile keyFile);;
  Ret (X509KeyPair certPEM keyPEM).

(** ** Chains *)

(** A certificate whose key may sign others, as [CheckSignatureFrom] asks. *)
Definition may_sign (c : certificate) : bool :=
  BasicConstraintsValid c && IsCA c
  && ((KeyUsage c =? 0) || negb (Z.land (KeyUsage c) KeyUsageCertSign =? 0)).

(** Its period, and whether its extended key usage allows the use. *)
Definition in_time (now : time) (c : certificate) : bool := (NotBefore c <=? now) && (now <=? NotAfter c).
Definition allows (usage : ExtUsage) (c : certificate) : bool :=
  bool_decide (ExtKeyUsage c = []) || bool_decide (usage ∈ ExtKeyUsage c).

(** Each member is signed by the next, which may sign, and the last is one of
    the roots. *)
Fixpoint links (roots : list certificate) (c : certificate) (rest : list certificate) : bool :=
  match rest with
  | [] => bool_decide (c ∈ roots)
  | d :: rest => may_sign d && signed_by c d && links roots d rest
  end.

(** [x509.Certificate.Verify]: a chain starts at the certificate verified, is
    linked to a root, and each member is in its period and allows the use. *)
Definition chain_ok (usage : ExtUsage) (now : time) (roots : list certificate) (leaf : certificate)
    (chain : list certificate) : bool :=
  match chain with
  | [] => false
  | c :: rest => bool_decide (c = leaf) && links roots c rest
      && forallb (in_time now) chain && forallb (allows usage) chain
  end.

Definition starts_with (leaf : certificate) (chain : list certificate) : bool :=
  match chain with [] => false | c :: _ => bool_decide (c = leaf) end.

(** The peer's certificate and the chains found for it; chains of a resumed
    session were checked when it was established, and it is resumed only while
    the peer's certificate has not expired. *)
Definition verified (usage : ExtUsage) (now : time) (roots : list certificate) (cs : ConnectionState)
    : bool :=
  match PeerCertificates cs, VerifiedChains cs with
  | leaf :: _, _ :: _ =>
      forallb (starts_with leaf) (VerifiedChains cs)
      && (if DidResume cs then now <=? NotAfter leaf
          else forallb (chain_ok usage now roots leaf) (VerifiedChains cs))
  | _, _ => false
  end.

Definition client_auth_ok (c : tlsConfig) (now : time) (cs : ConnectionState) : bool :=
  match ClientAuth c with
  | NoClientCert | RequestClientCert => true
  | RequireAnyClientCert => negb (bool_decide (PeerCertificates cs = []))
  | VerifyClientCertIfGiven =>
      bool_decide (PeerCertificates cs = []) || verified ExtKeyUsageClientAuth now (ClientCAs c) cs
  | RequireAndVerifyClientCert => verified ExtKeyUsageClientAuth now (ClientCAs c) cs
  end.

(** A server completes a handshake at the time [now]: the version is acceptable, the client
    authenticated as asked, and the callbacks agree; [VerifyPeerCertificate] is
    not called for a resumed session, [VerifyConnection] always is. *)
Definition server_accepts (c : tlsConfig) (now : time) (cs : ConnectionState) : bool :=
  (MinVersion c <=? Version cs) && client_auth_ok c now cs
  && match VerifyPeerCertificate c with
     | Some f => DidResume cs || is_ok (f (VerifiedChains cs))
     | None => true
     end
  && match VerifyConnection c with
     | Some f => is_ok (f cs)
     | None => true
     end.

(** The name a dialler verifies: the configured one, or the address up to its
    last colon. *)
Definition dialled_name (c : tlsConfig) (addr : string) : string :=
  if String.eqb (ServerName c) "" then
    match LastIndexByte addr ":"%char with
    | Some i => stake i addr
    | None => addr
    end
  else ServerName c.

(** A client without a session cache completes a handshake. *)
Definition client_accepts (c : tlsConfig) (addr : string) (now : time) (cs : ConnectionState) : bool :=
  (MinVersion c <=? Version cs) && negb (DidResume cs) && verified ExtKeyUsageServerAuth now (RootCAs c) cs
  && match PeerCertificates cs with
     | leaf :: _ => valid_for leaf (dialled_name c addr)
     | [] => false
     end.

Lemma verified_spec usage now roots cs :
  verified usage now roots cs = true <->
  exists leaf peers chains, PeerCertificates cs = leaf :: peers /\ VerifiedChains cs = chains /\
    chains <> [] /\ Forall (fun ch => starts_with leaf ch = true) chains /\
    if DidResume cs then now <= NotAfter leaf
    else Forall (fun ch => chain_ok usage now roots leaf ch = true) chains.
Proof.
  unfold verified. destruct (PeerCertificates cs) as [|leaf peers].
  { split; [done|]. naive_solver. }
  destruct (VerifiedChains cs) as [|ch chs] eqn:Ec; [split; [done|]; naive_solver|].
  assert (Hall : forall f : list certificate -> bool,
    forallb f (ch :: chs) = true <-> Forall (fun x => f x = true) (ch :: chs)).
  { intros f. rewrite forallb_forall. setoid_rewrite <- list_elem_of_In. by rewrite <- Forall_forall. }
  rewrite andb_true_iff, Hall. destruct (DidResume cs).
  - rewrite Z.leb_le. split.
    + intros [H1 H2]. by exists leaf, peers, (ch :: chs).
    + by intros (? & ? & ? & [= <- <-] & <- & _ & H1 & H2).
  - rewrite Hall. split.
    + intros [H1 H2]. by exists leaf, peers, (ch :: chs).
    + by intros (? & ? & ? & [= <- <-] & <- & _ & H1 & H2).
Qed.

(** A keypair that was loaded is in the files. *)
Definition loaded (w : world) (certFile keyFile : string) (chain : list certificate) : Prop :=
  exists certPEM keyPEM, contents w !! certFile = Some certPEM /\ contents w !! keyFile = Some keyPEM /\
    X509KeyPair certPEM keyPEM = Ok chain.

Lemma LoadX509KeyPair_spec certFile keyFile w ok (Q : result (list certificate) -> world -> Prop) :
  (forall X e w', ok X e w') ->
  (forall chain, loaded w certFile keyFile chain -> Q (Ok chain) w) -> (forall e, Q (Err e) w) ->
  wp ok os_step (LoadX509KeyPair certFile keyFile) Q w.
Proof.
  intros Hok HQ HE. unfold LoadX509KeyPair. cbn [bind call wp]. split; [apply Hok|].
  intros [certPEM|e] w1 [-> Hc]; cbn [bind call wp]; [|apply HE]. split; [apply Hok|].
  intros [keyPEM|e] w1 [-> Hk]; cbn [bind call wp]; [|apply HE].
  destruct (X509KeyPair certPEM keyPEM) as [chain|e] eqn:E; [|apply HE]. apply HQ. by exists certPEM, keyPEM.
Qed.
End pki.
