(* ===== verification/GoTesting.v ===== *)
(** * Go's testing package

    What a test does: a test function over the calls of [E] runs with the state
    of its [testing.T] and ends by returning, by [FailNow] or [SkipNow]
    ([runtime.Goexit]), or by a panic.  [Run] executes a subtest to its end,
    cleanups included, unless the command line's -run or -skip leaves it out. *)

From S2P Require Import Prelude Effects.

(** The line go test prints for a test. *)
Inductive status : Set := PASS | FAIL | SKIP.

#[global] Instance status_eq_dec : EqDecision status.
Proof. solve_decision. Defined.

Section testing.
Context {E : Type -> Type}.

Inductive exit (A : Type) : Type :=
  | Returned (a : A)
  | Goexit
  | Panicked.
Arguments Returned {A}.
Arguments Goexit {A}.
Arguments Panicked {A}.

(** A [testing.T]: whether it has failed, with the formats of its messages, or
    skipped, and its cleanups, the last registered first. *)
Record testT : Type := mkT {
  failed : bool;
  messages : list string;
  skipped : bool;
  cleanups : list (prog E unit)
}.

Definition T (A : Type) : Type := testT -> prog E (exit A * testT).

Definition tret {A} (a : A) : T A := fun t => Ret (Returned a, t).

Definition tbind {A B} (m : T A) (f : A -> T B) : T B := fun t =>
  bind (m t) (fun rt =>
    match rt with
    | (Returned a, t) => f a t
    | (Goexit, t) => Ret (Goexit, t)
    | (Panicked, t) => Ret (Panicked, t)
    end).

Definition tdo {X} (e : E X) : T X := fun t => bind (call e) (fun x => Ret (Returned x, t)).

Definition tpanic {A} : T A := fun t => Ret (Panicked, t).

(** [t.Errorf], [t.Fatalf], [t.Skipf], [t.Cleanup] *)
Definition tErrorf (what : string) : T unit := fun t =>
  Ret (Returned tt, mkT true (messages t ++ [what]) (skipped t) (cleanups t)).

Definition tFatalf {A} (what : string) : T A := fun t =>
  Ret (Goexit, mkT true (messages t ++ [what]) (skipped t) (cleanups t)).

Definition tSkipf {A} (what : string) : T A := fun t =>
  Ret (Goexit, mkT (failed t) (messages t ++ [what]) true (cleanups t)).

Definition tCleanup (c : prog E unit) : T unit := fun t =>
  Ret (Returned tt, mkT (failed t) (messages t) (skipped t) (c :: cleanups t)).

(** [defer d], for the rest of the function [m]. *)
Definition tdefer {A} (d : prog E unit) (m : T A) : T A := fun t =>
  bind (m t) (fun rt => bind d (fun _ => Ret rt)).

Definition twhen (b : bool) (m : T unit) : T unit := if b then m else tret tt.

(** [for _, x := range l] *)
Fixpoint tfor {X} (l : list X) (body : X -> T unit) : T unit :=
  match l with
  | [] => tret tt
  | x :: l => tbind (body x) (fun _ => tfor l body)
  end.

(** ** Running a test *)

Definition fresh : testT := mkT false [] false [].

Fixpoint runCleanups (cs : list (prog E unit)) : prog E unit :=
  match cs with
  | [] => Ret tt
  | c :: cs => bind c (fun _ => runCleanups cs)
  end.

(** A test function to its end; [true] if it panicked. *)
Definition tRunner (f : T unit) : prog E (bool * testT) :=
  bind (f fresh) (fun rt =>
    bind (runCleanups (cleanups (snd rt))) (fun _ =>
      Ret (match fst rt with Panicked => true | _ => false end, snd rt))).

Definition status_of (panicked : bool) (t : testT) : status :=
  if panicked || failed t then FAIL else if skipped t then SKIP else PASS.

(** How -run and -skip are asked for a name, and how a result is printed. *)
Variable selects : string -> E bool.
Variable report : string -> status -> E unit.

(** [t.Run(name, f)]: the state the subtest ended in, if it was run.  A failed
    subtest fails its parent, a panic ends the process. *)
Definition tRun (name : string) (f : T unit) : T (option testT) :=
  tbind (tdo (selects name)) (fun sel =>
    if negb sel then tret None
    else fun t =>
      bind (tRunner f) (fun pt =>
        let '(panicked, t') := pt in
        bind (call (report name (status_of panicked t'))) (fun _ =>
          if panicked then Ret (Panicked, t)
          else Ret (Returned (Some t'),
            mkT (failed t || failed t') (messages t) (skipped t) (cleanups t))))).

(** ** Invariants of a test

    [keeps J m]: an invariant [J] of the registered cleanups and the state of
    the other side survives [m], however it ends. *)
Section keeps.
Context {W : Type}.
Variable ok : forall X, E X -> W -> Prop.
Variable step : forall X, E X -> W -> X -> W -> Prop.
Variable J : list (prog E unit) -> W -> Prop.

Definition keeps {A} (m : T A) : Prop := forall t w,
  J (cleanups t) w -> wp ok step (m t) (fun rt w' => J (cleanups (snd rt)) w') w.

Lemma keeps_ret {A} (a : A) : keeps (tret a).
Proof. by intros t w HJ. Qed.

Lemma keeps_bind {A C} (m : T A) (f : A -> T C) :
  keeps m -> (forall a, keeps (f a)) -> keeps (tbind m f).
Proof.
  intros Hm Hf t w HJ. unfold tbind. apply wp_bind. eapply wp_mono; [|by apply Hm].
  intros [[a| |] t'] w' HJ'; [exact (Hf a t' w' HJ')|exact HJ'|exact HJ'].
Qed.

Lemma keeps_do {X} (e : E X) :
  (forall cs w, J cs w -> ok X e w /\ forall x w', step X e w x w' -> J cs w') -> keeps (tdo e).
Proof.
  intros He t w HJ. unfold tdo. cbn [bind call wp]. destruct (He _ _ HJ) as [Hok Hst]. split; [done|].
  intros x w' Hs. cbn. eauto.
Qed.

Lemma keeps_panic {A} : keeps (@tpanic A).
Proof. by intros t w HJ. Qed.
Lemma keeps_Errorf what : keeps (tErrorf what).
Proof. by intros t w HJ. Qed.
Lemma keeps_Fatalf {A} what : keeps (@tFatalf A what).
Proof. by intros t w HJ. Qed.
Lemma keeps_Skipf {A} what : keeps (@tSkipf A what).
Proof. by intros t w HJ. Qed.

Lemma keeps_Cleanup c : (forall cs w, J cs w -> J (c :: cs) w) -> keeps (tCleanup c).
Proof. intros Hc t w HJ. cbn. auto. Qed.

Lemma keeps_defer {A} d (m : T A) :
  (forall cs w, J cs w -> wp ok step d (fun _ w' => J cs w') w) -> keeps m -> keeps (tdefer d m).
Proof.
  intros Hd Hm t w HJ. unfold tdefer. apply wp_bind. eapply wp_mono; [|by apply Hm].
  intros rt w' HJ'. apply wp_bind. eapply wp_mono; [|exact (Hd _ _ HJ')]. intros u w'' HJ''. exact HJ''.
Qed.

Lemma keeps_when b m : keeps m -> keeps (twhen b m).
Proof. destruct b; [done|]. intros _. apply keeps_ret. Qed.

Lemma keeps_for {X} (l : list X) body : (forall x, keeps (body x)) -> keeps (tfor l body).
Proof.
  intros Hb. induction l as [|x l IH]; cbn [tfor]; [apply keeps_ret|]. by apply keeps_bind.
Qed.
End keeps.
End testing.

Arguments testT E : clear implicits.
Arguments T E A : clear implicits.
Arguments exit A : clear implicits.
Arguments Returned {A}.
Arguments Goexit {A}.
Arguments Panicked {A}.

Notation "x <~ m ;; k" := (tbind m (fun x => k))
  (at level 20, m at level 99, k at level 200) : go_scope.

(** Decompose a test, leaving its calls and cleanups. *)
Ltac keeps_step :=
  lazymatch goal with
  | |- keeps _ _ _ (tbind _ _) => apply keeps_bind; [|intros ?]
  | |- keeps _ _ _ (tret _) => apply keeps_ret
  | |- keeps _ _ _ tpanic => apply keeps_panic
  | |- keeps _ _ _ (tErrorf _) => apply keeps_Errorf
  | |- keeps _ _ _ (tFatalf _) => apply keeps_Fatalf
  | |- keeps _ _ _ (tSkipf _) => apply keeps_Skipf
  | |- keeps _ _ _ (twhen _ _) => apply keeps_when
  | |- keeps _ _ _ (tfor _ _) => apply keeps_for; intros ?
  | |- keeps _ _ _ (let x := _ in _) => cbv zeta
  | |- keeps _ _ _ (match ?x with _ => _ end) => destruct x
  end.
