(* ===== verification/Sandbox.v ===== *)
(** * pkg/sandbox: the contract's data and its validation

    The specification of a sandbox and the options that build one
    ([options.go]), commands and their validation, previews
    ([sandbox.go]). *)

From S2P Require Import Prelude GoErrors GoStrings GoFloat64 GoDuration GoTime.

(** [newInvalidError] *)
Definition newInvalidError (format : string) (args : list (arg error)) : error :=
  Errorf "%w: %s" [AWrap (Sentinel ErrInvalid); AErrText (Errorf format args)].

(** ** Specifications *)

(** [EgressPolicy] is an [int]; the two declared policies are 0 and 1. *)
Definition EgressNone : Z := 0.
Definition EgressUnrestricted : Z := 1.

Record Resources : Type := mkResources {
  CPUs : float64;
  MemoryBytes : Z;
  DiskBytes : Z;
  MaxProcesses : Z
}.

Record Lifetime : Type := mkLifetime {
  IdleTimeout : Z;
  MaxAge : Z
}.

(** [Labels] is a Go map; the nil map reads as the empty one. *)
Record Spec : Type := mkSpec {
  Image : string;
  Runtime : string;
  User : string;
  Res : Resources;
  Life : Lifetime;
  Egress : Z;
  Env : list string;
  Labels : gmap string string;
  DefaultTimeout : Z;
  MaxTimeout : Z
}.

Definition DefaultRuntime : string := "runsc".
Definition DefaultUser : string := "1000:1000".
Definition DefaultCPUs : float64 := f64_of_int 2.
Definition DefaultMemoryBytes : Z := Z.shiftl 2 30.
Definition DefaultDiskBytes : Z := Z.shiftl 1 30.
Definition DefaultMaxProcesses : Z := 256.
Definition DefaultIdleTimeout : Z := 15 * Minute.
Definition DefaultMaxAge : Z := 2 * Hour.
Definition DefaultCommandTimeout : Z := 60 * Second.
Definition MaxCommandTimeout : Z := 10 * Minute.

(** The specification [NewSpec] starts from. *)
Definition defaultSpec : Spec :=
  mkSpec "" DefaultRuntime DefaultUser
    (mkResources DefaultCPUs DefaultMemoryBytes DefaultDiskBytes DefaultMaxProcesses)
    (mkLifetime DefaultIdleTimeout DefaultMaxAge)
    EgressNone [] ∅ DefaultCommandTimeout MaxCommandTimeout.

(** An option is a function on the specification under construction. *)
Definition CreateOption : Type := Spec -> Spec.

(** [NewSpec(opts...)] *)
Definition NewSpec (opts : list CreateOption) : Spec :=
  fold_left (fun s opt => opt s) opts defaultSpec.

(** ** Options *)

Definition WithImage (ref : string) : CreateOption := fun s =>
  mkSpec ref (Runtime s) (User s) (Res s) (Life s) (Egress s) (Env s) (Labels s)
    (DefaultTimeout s) (MaxTimeout s).

Definition WithRuntime (name : string) : CreateOption := fun s =>
  mkSpec (Image s) name (User s) (Res s) (Life s) (Egress s) (Env s) (Labels s)
    (DefaultTimeout s) (MaxTimeout s).

Definition WithUser (user : string) : CreateOption := fun s =>
  mkSpec (Image s) (Runtime s) user (Res s) (Life s) (Egress s) (Env s) (Labels s)
    (DefaultTimeout s) (MaxTimeout s).

(** Fields that are not positive keep what the specification had. *)
Definition WithResources (r : Resources) : CreateOption := fun s =>
  let res := mkResources
    (if f64_ltb (f64_of_int 0) (CPUs r) then CPUs r else CPUs (Res s))
    (if MemoryBytes r >? 0 then MemoryBytes r else MemoryBytes (Res s))
    (if DiskBytes r >? 0 then DiskBytes r else DiskBytes (Res s))
    (if MaxProcesses r >? 0 then MaxProcesses r else MaxProcesses (Res s)) in
  mkSpec (Image s) (Runtime s) (User s) res (Life s) (Egress s) (Env s) (Labels s)
    (DefaultTimeout s) (MaxTimeout s).

Definition WithLifetime (l : Lifetime) : CreateOption := fun s =>
  let life := mkLifetime
    (if negb (IdleTimeout l =? 0) then IdleTimeout l else IdleTimeout (Life s))
    (if negb (MaxAge l =? 0) then MaxAge l else MaxAge (Life s)) in
  mkSpec (Image s) (Runtime s) (User s) (Res s) life (Egress s) (Env s) (Labels s)
    (DefaultTimeout s) (MaxTimeout s).

Definition WithEgress (p : Z) : CreateOption := fun s =>
  mkSpec (Image s) (Runtime s) (User s) (Res s) (Life s) p (Env s) (Labels s)
    (DefaultTimeout s) (MaxTimeout s).

Definition WithEnv (entries : list string) : CreateOption := fun s =>
  mkSpec (Image s) (Runtime s) (User s) (Res s) (Life s) (Egress s)
    (Env s ++ entries)%list (Labels s) (DefaultTimeout s) (MaxTimeout s).

Definition WithLabel (key value : string) : CreateOption := fun s =>
  mkSpec (Image s) (Runtime s) (User s) (Res s) (Life s) (Egress s) (Env s)
    (<[key := value]> (Labels s)) (DefaultTimeout s) (MaxTimeout s).

Definition WithCommandTimeouts (def ceiling : Z) : CreateOption := fun s =>
  mkSpec (Image s) (Runtime s) (User s) (Res s) (Life s) (Egress s) (Env s) (Labels s)
    (if def >? 0 then def else DefaultTimeout s)
    (if ceiling >? 0 then ceiling else MaxTimeout s).

(** ** Validation *)

Definition validateEgress (p : Z) : result unit :=
  if (p =? EgressNone) || (p =? EgressUnrestricted) then Ok tt
  else Err (newInvalidError "egress policy %d is not a known policy" [AInt p]).

(** The loop over the uid and the gid. *)
Fixpoint validateIds (user : string) (ids : list (string * string)) : result unit :=
  match ids with
  | [] => Ok tt
  | (what, v) :: ids =>
      match ParseUint v 31 with
      | None => Err (newInvalidError
          "user %q: %s %q is not numeric; names resolve inside the untrusted image"
          [AStr user; AStr what; AStr v])
      | Some n =>
          if n =? 0 then Err (newInvalidError
            "user %q: %s 0 is root; sandboxes must run unprivileged" [AStr user; AStr what])
          else validateIds user ids
      end
  end.

Definition validateUser (user : string) : result unit :=
  match Cut user ":"%char with
  | None => Err (newInvalidError
      "user %q: want numeric uid:gid; a bare uid takes its groups from the untrusted image"
      [AStr user])
  | Some (uid, gid) => validateIds user [("uid", uid); ("gid", gid)]
  end.

(** [Resources.Validate] *)
Definition Resources_Validate (r : Resources) : result unit :=
  if DiskBytes r >? MemoryBytes r then
    Err (newInvalidError
      "DiskBytes (%d) exceeds MemoryBytes (%d): scratch space is tmpfs and is drawn from the memory budget"
      [AInt (DiskBytes r); AInt (MemoryBytes r)])
  else Ok tt.

(** [Spec.Validate] *)
Definition Spec_Validate (s : Spec) : result unit :=
  try _ := validateUser (User s) in
  try _ := validateEgress (Egress s) in
  Resources_Validate (Res s).

(** ** Timeouts *)

(** The clamp shared by [Spec.ResolveTimeout] and the Docker handle's
    [resolveTimeout]: the same three statements over the two bounds. *)
Definition clampTimeout (def ceiling requested : Z) : Z :=
  let requested := if requested <=? 0 then def else requested in
  if (ceiling >? 0) && (requested >? ceiling) then ceiling else requested.

(** [Spec.ResolveTimeout] *)
Definition ResolveTimeout (s : Spec) (requested : Z) : Z :=
  clampTimeout (DefaultTimeout s) (MaxTimeout s) requested.

(** ** Commands *)

(** [Stdin] is an [io.Reader] or nil; the bytes it will deliver stand for it. *)
Record Command : Type := mkCommand {
  Argv : list string;
  CmdEnv : list string;
  Dir : string;
  Stdin : option string;
  Timeout : Z
}.

(** [isEnvEntry]: the loop over the byte index. *)
Fixpoint isEnvEntry_from (i : Z) (s : string) : bool :=
  match s with
  | "" => false
  | String c s' => if Ascii.eqb c "="%char then i >? 0 else isEnvEntry_from (i + 1) s'
  end.

Definition isEnvEntry (s : string) : bool := isEnvEntry_from 0 s.

Fixpoint validateEnv (env : list string) : result unit :=
  match env with
  | [] => Ok tt
  | e :: env =>
      if negb (isEnvEntry e) then
        Err (newInvalidError "environment entry %q is not KEY=value" [AStr e])
      else validateEnv env
  end.

(** [Command.Validate] *)
Definition Command_Validate (c : Command) : result unit :=
  match Argv c with
  | [] => Err (newInvalidError "command has no argv" [])
  | prog :: _ =>
      if String.eqb prog "" then Err (newInvalidError "command program is empty" [])
      else if Timeout c <? 0 then Err (newInvalidError "command timeout is negative" [])
      else validateEnv (CmdEnv c)
  end.

Record Result : Type := mkResult {
  Stdout : string;
  Stderr : string;
  ExitCode : Z;
  Truncated : bool;
  Stopped : bool;
  OOMKilled : bool
}.

Definition MaxOutputBytes : Z := Z.shiftl 16 20.

(** ** Handles *)

(** [State] is a string type with three declared values. *)
Definition StateRunning : string := "running".
Definition StateStopped : string := "stopped".
Definition StateError : string := "error".

Record Info : Type := mkInfo {
  InfoName : string;
  InfoID : string;
  InfoImage : string;
  InfoState : string;
  InfoCreatedAt : time;
  InfoLabels : gmap string string
}.

Record Preview : Type := mkPreview {
  PreviewURL : string;
  PreviewToken : string;
  PreviewPort : Z;
  PreviewExpiresAt : time
}.

(** [Preview.Expired] *)
Definition Expired (p : Preview) (now : time) : bool := negb (Before now (PreviewExpiresAt p)).

(** ** Properties *)

(** A decimal numeral naming a non-root id that fits 31 bits. *)
Definition unprivileged_id (s : string) : Prop :=
  s <> "" /\ all_bytes is_digit s = true /\ 0 < dec_val s 0 < 2 ^ 31.

Lemma validateIds_Ok user ids :
  validateIds user ids = Ok tt <-> Forall (fun id => unprivileged_id (snd id)) ids.
Proof.
  induction ids as [|[what v] ids IH]; cbn [validateIds]; [by split|].
  rewrite Forall_cons, <- IH. unfold unprivileged_id; cbn [snd].
  destruct (ParseUint v 31) as [n|] eqn:E.
  - apply ParseUint_Some in E as (Hne & Hd & -> & Hle); [|lia].
    pose proof (dec_val_mono v 0 Hd ltac:(lia)). zcase.
    + split; [done|]. intros [(_ & _ & ?) _]. lia.
    + split; [|tauto]. intros H'. split_and!; try done; lia.
  - split; [done|]. intros [(Hne & Hd & Hv) _].
    assert (ParseUint v 31 = Some (dec_val v 0)); [|congruence].
    apply ParseUint_Some; [lia|]. split_and!; try done; lia.
Qed.

Lemma validateUser_ok user :
  validateUser user = Ok tt <->
  exists uid gid, user = uid ++ ":" ++ gid /\ unprivileged_id uid /\ unprivileged_id gid.
Proof.
  unfold validateUser. destruct (Cut user ":"%char) as [[uid gid]|] eqn:E.
  - apply Cut_Some in E as [-> Hn]. rewrite validateIds_Ok, !Forall_cons. cbn [snd].
    split; [intros (? & ? & _); by exists uid, gid|].
    intros (uid' & gid' & Heq & Hu & Hg).
    assert (Cut (uid ++ String ":" gid) ":" = Cut (uid' ++ String ":" gid') ":") as Hc.
    { by rewrite Heq. }
    rewrite !Cut_app in Hc; [naive_solver| |done].
    apply all_bytes_not_has with is_digit; [done|apply Hu].
  - split; [done|]. intros (uid & gid & -> & Hu & _). apply Cut_None in E.
    rewrite has_byte_app in E. cbn in E. by rewrite orb_true_r in E.
Qed.

(** A user is accepted exactly when it is two decimal numerals joined by a
    colon, each naming an id from 1 to 2^31-1: no user name, no bare uid, and
    neither uid 0 nor gid 0 passes validation. *)
Theorem validateUser_iff user :
  validateUser user = Ok tt <->
  exists uid gid, user = uid ++ ":" ++ gid /\ unprivileged_id uid /\ unprivileged_id gid.
Proof. apply validateUser_ok. Qed.

Lemma newInvalidError_Is format args : Is (newInvalidError format args) ErrInvalid = true.
Proof. done. Qed.
#[export] Hint Resolve newInvalidError_Is : openblox.

Lemma validateUser_error user e : validateUser user = Err e -> Is e ErrInvalid = true.
Proof.
  unfold validateUser. cbn. repeat casesplit; intros [= <-]; done.
Qed.

Lemma Spec_Validate_ok s :
  (Spec_Validate s = Ok tt <->
    validateUser (User s) = Ok tt /\
    (Egress s = EgressNone \/ Egress s = EgressUnrestricted) /\
    DiskBytes (Res s) <= MemoryBytes (Res s)) /\
  (forall e, Spec_Validate s = Err e -> Is e ErrInvalid = true).
Proof.
  unfold Spec_Validate, validateEgress, Resources_Validate, EgressNone, EgressUnrestricted.
  destruct (validateUser (User s)) as [[]|e] eqn:Eu.
  - destruct (Z.eqb_spec (Egress s) 0); destruct (Z.eqb_spec (Egress s) 1); cbn [orb];
      repeat zcase; (split; [naive_solver lia|naive_solver]).
  - split; [naive_solver|]. intros e' [= <-]. by eapply validateUser_error.
Qed.

(** [Spec.Validate] accepts exactly the specifications with an unprivileged
    numeric user, a known egress policy and scratch space within the memory
    budget; every refusal is an [ErrInvalid]. *)
Theorem Spec_Validate_iff s :
  (Spec_Validate s = Ok tt <->
    validateUser (User s) = Ok tt /\
    (Egress s = EgressNone \/ Egress s = EgressUnrestricted) /\
    DiskBytes (Res s) <= MemoryBytes (Res s)) /\
  (forall e, Spec_Validate s = Err e -> Is e ErrInvalid = true).
Proof. apply Spec_Validate_ok. Qed.

Lemma clampTimeout_spec def ceiling requested :
  let t := clampTimeout def ceiling requested in
  (0 < ceiling -> t <= ceiling) /\
  (0 < def -> 0 < t) /\
  (0 < requested -> t <= requested) /\
  (0 < requested -> requested <= ceiling \/ ceiling <= 0 -> t = requested) /\
  (requested <= 0 -> def <= ceiling \/ ceiling <= 0 -> t = def).
Proof.
  unfold clampTimeout. destruct (Z.leb_spec requested 0);
    repeat (zcase; cbn [andb]); lia.
Qed.

(** Resolving a command timeout can only narrow: the result never exceeds
    the ceiling nor a positive request, it is positive when the default is, a
    request within the ceiling is granted as it is, and no request means the
    default. *)
Theorem ResolveTimeout_narrows s requested :
  let t := ResolveTimeout s requested in
  (0 < MaxTimeout s -> t <= MaxTimeout s) /\
  (0 < DefaultTimeout s -> 0 < t) /\
  (0 < requested -> t <= requested) /\
  (0 < requested -> requested <= MaxTimeout s \/ MaxTimeout s <= 0 -> t = requested) /\
  (requested <= 0 -> DefaultTimeout s <= MaxTimeout s \/ MaxTimeout s <= 0 ->
     t = DefaultTimeout s).
Proof. apply clampTimeout_spec. Qed.

(** An environment entry: a non-empty key, an equals sign, a value. *)
Definition env_entry (e : string) : Prop :=
  exists k v, e = k ++ "=" ++ v /\ k <> "" /\ has_byte "="%char k = false.

Lemma isEnvEntry_from_iff i s :
  0 <= i ->
  isEnvEntry_from i s = true <->
  exists k v, s = k ++ "=" ++ v /\ has_byte "="%char k = false /\ (0 < i \/ k <> "").
Proof.
  intros Hi. revert i Hi; induction s as [|c s IH]; intros i Hi; cbn [isEnvEntry_from].
  { split; [done|]. intros (k & v & H & _). by destruct k. }
  destruct (Ascii.eqb_spec c "="%char) as [->|Hc].
  - rewrite Z.gtb_ltb, Z.ltb_lt. split.
    + intros. exists "", s. auto.
    + intros (k & v & H & Hk & Hor). destruct k as [|d k]; [naive_solver|].
      injection H as <- _. by cbn in Hk.
  - rewrite IH by lia. split.
    + intros (k & v & -> & Hk & _). exists (String c k), v. split_and!; auto.
      cbn [has_byte]. rewrite Hk, orb_false_r. destruct (Ascii.eqb_spec "=" c); congruence.
    + intros (k & v & H & Hk & _). destruct k as [|d k]; [by injection H as -> _|].
      injection H as -> ->. exists k, v. cbn [has_byte] in Hk. apply orb_false_elim in Hk as [_ ?].
      split_and!; auto. lia.
Qed.

Lemma isEnvEntry_iff s : isEnvEntry s = true <-> env_entry s.
Proof.
  unfold isEnvEntry, env_entry. rewrite isEnvEntry_from_iff by lia.
  split; intros (k & v & ?); exists k, v; naive_solver lia.
Qed.

Lemma validateEnv_spec env :
  (validateEnv env = Ok tt <-> Forall env_entry env) /\
  (forall e, validateEnv env = Err e -> Is e ErrInvalid = true).
Proof.
  induction env as [|x env [IH1 IH2]]; cbn [validateEnv]; [naive_solver|].
  destruct (isEnvEntry x) eqn:E; cbn [negb].
  - apply isEnvEntry_iff in E. rewrite Forall_cons. naive_solver.
  - rewrite Forall_cons, <- isEnvEntry_iff, E. naive_solver.
Qed.

Lemma Command_Validate_ok c :
  (Command_Validate c = Ok tt <->
    (exists p args, Argv c = p :: args /\ p <> "") /\
    0 <= Timeout c /\ Forall env_entry (CmdEnv c)) /\
  (forall e, Command_Validate c = Err e -> Is e ErrInvalid = true).
Proof.
  unfold Command_Validate. destruct (validateEnv_spec (CmdEnv c)) as [H1 H2].
  destruct (Argv c) as [|p args]; [naive_solver|].
  destruct (String.eqb_spec p "") as [->|Hp]; [naive_solver|].
  zcase; [naive_solver lia|]. rewrite H1. naive_solver lia.
Qed.

(** [Command.Validate] accepts exactly the commands with a non-empty
    program, a non-negative timeout and environment entries of the form
    KEY=value with a non-empty key; every refusal is an [ErrInvalid]. *)
Theorem Command_Validate_iff c :
  (Command_Validate c = Ok tt <->
    (exists p args, Argv c = p :: args /\ p <> "") /\
    0 <= Timeout c /\ Forall env_entry (CmdEnv c)) /\
  (forall e, Command_Validate c = Err e -> Is e ErrInvalid = true).
Proof. apply Command_Validate_ok. Qed.
