(* ===== verification/BrokerApi.v ===== *)
(** * pkg/brokerapi: the wire types and the error kinds

    The requests and responses openbloxd and its client exchange
    ([types.go]), and the two classifications that carry an error across the
    wire ([errors.go]).  A body is modelled as the value it encodes, together with
    the JSON text of the requests and what the receiver's decoder makes of the
    value. *)

From S2P Require Import Prelude GoErrors GoStrings GoTime GoJson GoJsonText GoJsonDecode.

Definition UpgradeProto : string := "openblox-stream".

Record CreateRequest : Type := mkCreateRequest {
  ReqName : string;
  ReqProfile : string;
  ReqEnv : list string;
  ReqLabels : gmap string string
}.

Record WireInfo : Type := mkWireInfo {
  WName : string;
  WID : string;
  WImage : string;
  WState : string;
  WCreatedAt : time;
  WProfile : string;
  WLabels : gmap string string
}.

Record ExecRequest : Type := mkExecRequest {
  ExArgv : list string;
  ExEnv : list string;
  ExDir : string;
  ExTimeout : string
}.

Record ExecResponse : Type := mkExecResponse {
  RStdout : string;
  RStderr : string;
  RExitCode : Z;
  RTruncated : bool;
  RStopped : bool;
  ROOMKilled : bool
}.

Record ProcessRequest : Type := mkProcessRequest {
  PrName : string;
  PrArgv : list string;
  PrEnv : list string;
  PrDir : string
}.

Record ProfileInfo : Type := mkProfileInfo {
  PiName : string;
  PiIdleTimeout : string;
  PiMaxAge : string
}.

(** The message of an error body: a literal, or the text of an error. *)
Inductive text : Type := Lit (s : string) | ErrText (e : error).

Record WireError : Type := mkWireError {
  Message : text;
  Kind : string
}.

(** ** JSON

    [marshal...] is the text [json.Marshal] writes for a request; [sent...] is
    the value at the other end.  Byte slices travel as base64, times as
    RFC 3339 with nanoseconds, numbers and booleans as they are; only strings
    can change. *)

Definition omit_if (empty : bool) (field : string) : list string := if empty then [] else [field].

(** A nil slice is written as null. *)
Definition json_list (l : list string) : string := match l with [] => "null" | _ => json_array l end.
Definition is_nil {A} (l : list A) : bool := match l with [] => true | _ => false end.

Definition marshalCreate (r : CreateRequest) : string := json_object
  ([json_field "name" (json_quote (ReqName r)); json_field "profile" (json_quote (ReqProfile r))]
   ++ omit_if (is_nil (ReqEnv r)) (json_field "env" (json_array (ReqEnv r)))
   ++ omit_if (bool_decide (ReqLabels r = ∅)) (json_field "labels" (json_map (ReqLabels r))))%list.

Definition marshalExec (r : ExecRequest) : string := json_object
  ([json_field "argv" (json_list (ExArgv r))]
   ++ omit_if (is_nil (ExEnv r)) (json_field "env" (json_array (ExEnv r)))
   ++ omit_if (String.eqb (ExDir r) "") (json_field "dir" (json_quote (ExDir r)))
   ++ omit_if (String.eqb (ExTimeout r) "") (json_field "timeout" (json_quote (ExTimeout r))))%list.

Definition marshalProcess (r : ProcessRequest) : string := json_object
  ([json_field "name" (json_quote (PrName r)); json_field "argv" (json_list (PrArgv r))]
   ++ omit_if (is_nil (PrEnv r)) (json_field "env" (json_array (PrEnv r)))
   ++ omit_if (String.eqb (PrDir r) "") (json_field "dir" (json_quote (PrDir r))))%list.

Definition sentCreate (r : CreateRequest) : CreateRequest :=
  mkCreateRequest (json_text (ReqName r)) (json_text (ReqProfile r)) (map json_text (ReqEnv r))
    (json_text_map (ReqLabels r)).

Definition sentExec (r : ExecRequest) : ExecRequest :=
  mkExecRequest (map json_text (ExArgv r)) (map json_text (ExEnv r)) (json_text (ExDir r))
    (json_text (ExTimeout r)).

Definition sentProcess (r : ProcessRequest) : ProcessRequest :=
  mkProcessRequest (json_text (PrName r)) (map json_text (PrArgv r)) (map json_text (PrEnv r))
    (json_text (PrDir r)).

Definition sentInfo (i : WireInfo) : WireInfo :=
  mkWireInfo (json_text (WName i)) (json_text (WID i)) (json_text (WImage i)) (json_text (WState i))
    (WCreatedAt i) (json_text (WProfile i)) (json_text_map (WLabels i)).

Definition sentProfile (p : ProfileInfo) : ProfileInfo :=
  mkProfileInfo (json_text (PiName p)) (json_text (PiIdleTimeout p)) (json_text (PiMaxAge p)).

(** ** Decoding requests

    The fields of each request type, as the decoder sees them. *)

Definition createFields : fields :=
  [("name", CStr ""); ("profile", CStr ""); ("env", CStrs [] 0); ("labels", CMap ∅)].
Definition execFields : fields :=
  [("argv", CStrs [] 0); ("env", CStrs [] 0); ("dir", CStr ""); ("timeout", CStr "")].
Definition processFields : fields :=
  [("name", CStr ""); ("argv", CStrs [] 0); ("env", CStrs [] 0); ("dir", CStr "")].

Definition decodeCreate (v : json) : option CreateRequest :=
  fs ← decode_struct true createFields v;
  Some (mkCreateRequest (get_str fs "name") (get_str fs "profile") (get_strs fs "env")
    (get_map fs "labels")).
Definition decodeExec (v : json) : option ExecRequest :=
  fs ← decode_struct true execFields v;
  Some (mkExecRequest (get_strs fs "argv") (get_strs fs "env") (get_str fs "dir")
    (get_str fs "timeout")).
Definition decodeProcess (v : json) : option ProcessRequest :=
  fs ← decode_struct true processFields v;
  Some (mkProcessRequest (get_str fs "name") (get_strs fs "argv") (get_strs fs "env")
    (get_str fs "dir")).

(** ** Error kinds *)

Definition KindNotFound : string := "not_found".
Definition KindInvalid : string := "invalid".
Definition KindConflict : string := "conflict".
Definition KindStopped : string := "stopped".
Definition KindTimeout : string := "timeout".
Definition KindRuntimeUnavailable : string := "runtime_unavailable".
Definition KindImageUnavailable : string := "image_unavailable".
Definition KindAtCapacity : string := "at_capacity".
Definition KindInternal : string := "internal".

(** [KindOf]: the kind and the HTTP status of an error. *)
Definition KindOf (err : error) : string * Z :=
  if Is err ErrNotFound then (KindNotFound, 404)
  else if Is err ErrInvalid then (KindInvalid, 400)
  else if Is err ErrProfileConflict then (KindConflict, 409)
  else if Is err ErrStopped then (KindStopped, 409)
  else if Is err ErrAtCapacity then (KindAtCapacity, 429)
  else if Is err ErrTimeout then (KindTimeout, 504)
  else if Is err ErrRuntimeUnavailable then (KindRuntimeUnavailable, 503)
  else if Is err ErrImageUnavailable then (KindImageUnavailable, 503)
  else (KindInternal, 500).

(** [ErrorFor]: the sentinel a wire kind stands for. *)
Definition ErrorFor (kind : string) : sentinel :=
  if String.eqb kind KindNotFound then ErrNotFound
  else if String.eqb kind KindInvalid then ErrInvalid
  else if String.eqb kind KindConflict then ErrProfileConflict
  else if String.eqb kind KindStopped then ErrStopped
  else if String.eqb kind KindAtCapacity then ErrAtCapacity
  else if String.eqb kind KindTimeout then ErrTimeout
  else if String.eqb kind KindRuntimeUnavailable then ErrRuntimeUnavailable
  else if String.eqb kind KindImageUnavailable then ErrImageUnavailable
  else ErrInternal.

(** ** Requests survive the wire

    The text of a request is that of a JSON object; decoding the object gives
    the request back, its strings as [json_text] leaves them. *)

Definition strs (l : list string) : json := JArr (map JStr l).
Definition strs_or_null (l : list string) : json := match l with [] => JNull | _ => strs l end.
Definition member_if (absent : bool) (name : string) (v : json) : list (string * json) :=
  if absent then [] else [(name, v)].

Definition createJson (r : CreateRequest) : json := JObj
  ([("name", JStr (ReqName r)); ("profile", JStr (ReqProfile r))]
   ++ member_if (is_nil (ReqEnv r)) "env" (strs (ReqEnv r))
   ++ member_if (bool_decide (ReqLabels r = ∅)) "labels"
        (JObj (map (fun kv => (fst kv, JStr (snd kv))) (json_entries (ReqLabels r)))))%list.
Definition execJson (r : ExecRequest) : json := JObj
  ([("argv", strs_or_null (ExArgv r))]
   ++ member_if (is_nil (ExEnv r)) "env" (strs (ExEnv r))
   ++ member_if (String.eqb (ExDir r) "") "dir" (JStr (ExDir r))
   ++ member_if (String.eqb (ExTimeout r) "") "timeout" (JStr (ExTimeout r)))%list.
Definition processJson (r : ProcessRequest) : json := JObj
  ([("name", JStr (PrName r)); ("argv", strs_or_null (PrArgv r))]
   ++ member_if (is_nil (PrEnv r)) "env" (strs (PrEnv r))
   ++ member_if (String.eqb (PrDir r) "") "dir" (JStr (PrDir r)))%list.

Lemma print_strs l : json_print (strs l) = json_array l.
Proof. unfold strs, json_array. cbn [json_print]. by rewrite map_map. Qed.
Lemma print_strs_or_null l : json_print (strs_or_null l) = json_list l.
Proof. destruct l; [done|]. apply print_strs. Qed.

(** Omitted fields are omitted members. *)
Lemma print_members_app a b :
  map (fun kv => json_field (fst kv) (json_print (snd kv))) (a ++ b)%list
  = (map (fun kv => json_field (fst kv) (json_print (snd kv))) a
     ++ map (fun kv => json_field (fst kv) (json_print (snd kv))) b)%list.
Proof. apply map_app. Qed.
Lemma print_member_if absent name v t :
  json_print v = t ->
  map (fun kv => json_field (fst kv) (json_print (snd kv))) (member_if absent name v)
  = omit_if absent (json_field name t).
Proof. intros <-. by destruct absent. Qed.

Lemma json_map_print m :
  json_print (JObj (map (fun kv => (fst kv, JStr (snd kv))) (json_entries m))) = json_map m.
Proof.
  unfold json_map. cbn [json_print]. rewrite map_map. f_equal. apply map_ext. by intros [k v].
Qed.

Lemma marshalCreate_print r : marshalCreate r = json_print (createJson r).
Proof.
  unfold marshalCreate, createJson. cbn [json_print]. rewrite !print_members_app.
  rewrite (print_member_if _ _ _ _ (print_strs _)), (print_member_if _ _ _ _ (json_map_print _)). done.
Qed.
Lemma marshalExec_print r : marshalExec r = json_print (execJson r).
Proof.
  unfold marshalExec, execJson. cbn [json_print]. rewrite !print_members_app.
  rewrite (print_member_if _ _ _ _ (print_strs _)), !(print_member_if _ _ _ _ eq_refl).
  cbn [map fst snd]. by rewrite print_strs_or_null.
Qed.
Lemma marshalProcess_print r : marshalProcess r = json_print (processJson r).
Proof.
  unfold marshalProcess, processJson. cbn [json_print]. rewrite !print_members_app.
  rewrite (print_member_if _ _ _ _ (print_strs _)), !(print_member_if _ _ _ _ eq_refl).
  cbn [map fst snd]. by rewrite print_strs_or_null.
Qed.

Lemma json_norm_strs l : json_norm (strs l) = strs (map json_text l).
Proof. unfold strs. cbn [json_norm]. by rewrite !map_map. Qed.

Lemma decode_members_cons strict k v ms fs name c c' :
  find_field fs k = Some (name, c) -> decode_cell c v = Some c' ->
  decode_members strict ((k, v) :: ms) fs = decode_members strict ms (set_field fs name c').
Proof. intros Hf Hc. cbn [decode_members]. by rewrite Hf, Hc. Qed.

Lemma decode_cell_str old s : decode_cell (CStr old) (JStr s) = Some (CStr s).
Proof. done. Qed.

Lemma decode_cell_map m :
  decode_cell (CMap ∅) (json_norm (JObj (map (fun kv => (fst kv, JStr (snd kv))) (json_entries m))))
  = Some (CMap (json_text_map m)).
Proof.
  cbn [json_norm decode_cell]. rewrite map_map.
  transitivity (CMap <$> decode_entries (map (fun kv => (fst kv, JStr (snd kv)))
    (map (fun kv => (json_text (fst kv), json_text (snd kv))) (json_entries m))) ∅).
  { by rewrite map_map. }
  rewrite decode_entries_strs. unfold json_text_map. generalize (∅ : gmap string string).
  cbn. induction (json_entries m) as [|[k v] l IH]; intros out; [done|]. apply IH.
Qed.

Lemma take_map_length {A B} (f : A -> B) l : take (length (map f l)) (map f l) = map f l.
Proof. by apply take_ge. Qed.

(** One member after the other. *)
Ltac decode_step :=
  (erewrite decode_members_cons;
    [|reflexivity|first [apply decode_cell_str | rewrite json_norm_strs; apply decode_cell_strs
                        | apply decode_cell_map | reflexivity]]).
(** Read the fields off. *)
Ltac decode_done :=
  cbn -[json_text json_text_map take]; rewrite ?firstn_cons, ?take_map_length.

Lemma decodeCreate_sent r : decodeCreate (json_norm (createJson r)) = Some (sentCreate r).
Proof.
  unfold decodeCreate, createJson, sentCreate. cbn [json_norm decode_struct].
  destruct (ReqEnv r) as [|e env]; destruct (bool_decide_reflect (ReqLabels r = ∅)) as [Hm|Hm].
  all: cbn [is_nil member_if app map fst snd]. all: repeat decode_step.
  all: decode_done. all: by rewrite ?Hm.
Qed.

Lemma decodeExec_sent r : decodeExec (json_norm (execJson r)) = Some (sentExec r).
Proof.
  unfold decodeExec, execJson, sentExec. cbn [json_norm decode_struct].
  destruct (ExArgv r) as [|x argv], (ExEnv r) as [|e env], (String.eqb_spec (ExDir r) "") as [Hd|Hd],
    (String.eqb_spec (ExTimeout r) "") as [Ht|Ht].
  all: cbn [is_nil member_if app map fst snd strs_or_null]. all: repeat decode_step.
  all: decode_done. all: by rewrite ?Hd, ?Ht.
Qed.

Lemma decodeProcess_sent r : decodeProcess (json_norm (processJson r)) = Some (sentProcess r).
Proof.
  unfold decodeProcess, processJson, sentProcess. cbn [json_norm decode_struct].
  destruct (PrArgv r) as [|x argv], (PrEnv r) as [|e env], (String.eqb_spec (PrDir r) "") as [Hd|Hd].
  all: cbn [is_nil member_if app map fst snd strs_or_null]. all: repeat decode_step.
  all: decode_done. all: by rewrite ?Hd.
Qed.

(** Requests are shallow and hold no numbers. *)
Definition flat (v : json) : Prop := json_ints v /\ json_depth v <= 1.

Lemma flat_strs l : flat (strs l).
Proof.
  split; cbn [strs json_ints json_depth]; rewrite map_map.
  - by induction l.
  - assert (foldr Z.max 0 (map (fun s => json_depth (JStr s)) l) = 0); [|lia].
    induction l as [|x l IH]; [done|]. cbn in *. by rewrite IH.
Qed.
Lemma flat_map l : flat (JObj (map (fun kv => (fst kv, JStr (snd kv))) l)).
Proof.
  split; cbn [json_ints json_depth]; rewrite map_map.
  - by induction l.
  - match goal with |- 1 + ?d <= 1 => assert (d = 0); [|lia] end.
    induction l as [|x l IH]; [done|]. cbn in *. by rewrite IH.
Qed.
Lemma flat_member_if absent name v : flat v -> Forall (fun kv => flat (snd kv)) (member_if absent name v).
Proof. intros Hv. destruct absent; constructor; [done|constructor]. Qed.
Lemma flat_strs_or_null l : flat (strs_or_null l).
Proof. destruct l; [done|]. apply flat_strs. Qed.

Lemma flat_obj l :
  Forall (fun kv => flat (snd kv)) l -> json_ints (JObj l) /\ json_depth (JObj l) <= maxNestingDepth.
Proof.
  intros H. cbn [json_ints json_depth]. rewrite foldr_and. split.
  - eapply Forall_impl; [exact H|]. by intros kv [? _].
  - assert (foldr Z.max 0 (map (fun kv => json_depth (snd kv)) l) <= 1); [|unfold maxNestingDepth; lia].
    induction H as [|kv l [_ Hd] _ IH]; cbn; lia.
Qed.

#[local] Hint Resolve flat_strs flat_map flat_member_if flat_strs_or_null : core.
#[local] Hint Extern 3 (flat (JStr _)) => split; [done|discriminate] : core.

Ltac flat_request :=
  apply flat_obj; repeat first [apply Forall_app_2 | apply Forall_cons_2 | apply Forall_nil_2];
  cbn [snd]; auto.

Lemma createJson_flat r : json_ints (createJson r) /\ json_depth (createJson r) <= maxNestingDepth.
Proof. flat_request. Qed.
Lemma execJson_flat r : json_ints (execJson r) /\ json_depth (execJson r) <= maxNestingDepth.
Proof. flat_request. Qed.
Lemma processJson_flat r : json_ints (processJson r) /\ json_depth (processJson r) <= maxNestingDepth.
Proof. flat_request. Qed.

(** ** Properties *)

(** The sentinels the wire carries. *)
Definition wire_sentinels : list sentinel :=
  [ErrNotFound; ErrInvalid; ErrProfileConflict; ErrStopped; ErrAtCapacity; ErrTimeout;
   ErrRuntimeUnavailable; ErrImageUnavailable].

Ltac kindof_cases :=
  unfold KindOf; repeat match goal with |- context [if Is ?e ?s then _ else _] =>
    destruct (Is e s) eqn:? end.

Lemma KindOf_status e : 400 <= snd (KindOf e) < 600.
Proof. kindof_cases; cbn; lia. Qed.

(** The kind is that of a sentinel the error is, or [internal] with 500. *)
Lemma KindOf_sound e :
  (fst (KindOf e) <> KindInternal /\ Is e (ErrorFor (fst (KindOf e))) = true) \/
  (fst (KindOf e) = KindInternal /\ snd (KindOf e) = 500 /\
   forall t, t ∈ wire_sentinels -> Is e t = false).
Proof.
  kindof_cases.
  all: cbv [fst]; try match goal with |- context [ErrorFor ?k] =>
    let v := eval vm_compute in (ErrorFor k) in change (ErrorFor k) with v end.
  all: try (left; split; [done|done]).
  right. split_and!; try done. intros t Ht. unfold wire_sentinels in Ht. set_solver.
Qed.

Lemma KindOf_wire e :
  let s := ErrorFor (fst (KindOf e)) in
  (s ∈ wire_sentinels /\ Is e s = true) \/
  (s = ErrInternal /\ forall t, t ∈ wire_sentinels -> Is e t = false).
Proof.
  kindof_cases.
  all: cbv [fst]; match goal with |- context [ErrorFor ?k] =>
    let v := eval vm_compute in (ErrorFor k) in change (ErrorFor k) with v end.
  all: try (left; split; [set_solver|done]).
  right. split; [done|]. intros t Ht. unfold wire_sentinels in Ht. set_solver.
Qed.

(** An error survives the wire: the sentinel the client maps the kind back
    to is one the server's error really is, unless the error is none of the
    wire's sentinels, and only then it is [ErrInternal]. *)
Theorem KindOf_ErrorFor e :
  let s := ErrorFor (fst (KindOf e)) in
  (s ∈ wire_sentinels /\ Is e s = true) \/
  (s = ErrInternal /\ forall t, t ∈ wire_sentinels -> Is e t = false).
Proof. apply KindOf_wire. Qed.

(** Each of the wire's sentinels has a kind of its own that maps back to
    it, and a status of the 4xx or 5xx class, so the kind, and not the status,
    identifies the error. *)
Theorem KindOf_sentinel s :
  s ∈ wire_sentinels ->
  ErrorFor (fst (KindOf (Sentinel s))) = s /\
  fst (KindOf (Sentinel s)) <> KindInternal /\
  400 <= snd (KindOf (Sentinel s)) < 600 /\
  forall t, t ∈ wire_sentinels ->
    fst (KindOf (Sentinel t)) = fst (KindOf (Sentinel s)) -> t = s.
Proof.
  intros Hs. unfold wire_sentinels in *.
  assert (H : forall u, u ∈ wire_sentinels -> ErrorFor (fst (KindOf (Sentinel u))) = u).
  { intros u Hu. unfold wire_sentinels in Hu.
    repeat (apply elem_of_cons in Hu as [->|Hu]; [reflexivity|]). by apply not_elem_of_nil in Hu. }
  split; [auto|]. split; [|split].
  - intros Hk. specialize (H s Hs). rewrite Hk in H. cbn in H. subst s. set_solver.
  - repeat (apply elem_of_cons in Hs as [->|Hs]; [by vm_compute|]). by apply not_elem_of_nil in Hs.
  - intros t Ht Hk. rewrite <- (H t Ht), <- (H s Hs). by rewrite Hk.
Qed.

Lemma KindOf_sentinel_witness :
  ErrStopped ∈ wire_sentinels /\ ErrorFor (fst (KindOf (Sentinel ErrStopped))) = ErrStopped.
Proof.
  assert (Hin : ErrStopped ∈ wire_sentinels) by (unfold wire_sentinels; set_solver).
  split; [exact Hin|]. exact (proj1 (KindOf_sentinel ErrStopped Hin)).
Defined.
