(* ===== verification/DaemonConfig.v ===== *)
(** * internal/daemon/config.go: the daemon's policy

    The configuration a YAML file decodes to, its validation, and the options
    a profile renders to.  Decoding itself ([Load]'s file and YAML access) is
    the library's; the model starts from the decoded [Config]. *)

From S2P Require Import Prelude GoErrors GoStrings GoFloat64 GoDuration GoNet Sandbox.

Record RegistryAuth : Type := mkRegistryAuth { AuthUsername : string; AuthPassword : string }.

#[global] Instance RegistryAuth_eq_dec : EqDecision RegistryAuth.
Proof. solve_decision. Defined.

Record Profile : Type := mkProfile {
  PImage : string;
  PRuntime : string;
  PEgress : string;
  PUser : string;
  PCPUs : float64;
  PMemoryMB : Z;
  PDiskMB : Z;
  PMaxProcesses : Z;
  PMaxSandboxes : Z;
  PIdleTimeout : Z;
  PMaxAge : Z;
  PDefaultTimeout : Z;
  PMaxTimeout : Z;
  PRegistryAuth : option RegistryAuth
}.

Record TLSConfig : Type := mkTLSConfig {
  CertFile : string;
  KeyFile : string;
  ClientCAFile : string;
  AllowedClientCNs : list string
}.

Record ListenConfig : Type := mkListenConfig { Address : string; TLS : TLSConfig }.

Record Config : Type := mkConfig {
  Socket : string;
  SocketGroup : string;
  Listen : option ListenConfig;
  ReapInterval : Z;
  Profiles : gmap string Profile
}.

(** [x << 20] on an [int64]. *)
Definition shl20 (x : Z) : Z := wrap64 (Z.shiftl x 20).

(** [Profile.Options] *)
Definition Options (p : Profile) : list CreateOption :=
  ([WithImage (PImage p);
    WithResources (mkResources (PCPUs p) (shl20 (PMemoryMB p)) (shl20 (PDiskMB p))
      (PMaxProcesses p));
    WithLifetime (mkLifetime (PIdleTimeout p) (PMaxAge p));
    WithCommandTimeouts (PDefaultTimeout p) (PMaxTimeout p)]
   ++ (if negb (String.eqb (PRuntime p) "") then [WithRuntime (PRuntime p)] else [])
   ++ (if negb (String.eqb (PUser p) "") then [WithUser (PUser p)] else [])
   ++ (if String.eqb (PEgress p) "unrestricted" then [WithEgress EgressUnrestricted] else []))%list.

Definition invalid (format : string) (args : list (arg error)) : error :=
  Errorf format (AWrap (Sentinel ErrInvalid) :: args).

(** [Profile.validate] *)
Definition Profile_validate (p : Profile) (name : string) : result unit :=
  if String.eqb (PImage p) "" then Err (invalid "%w: profile %q has no image" [AStr name])
  else if negb (String.eqb (PEgress p) "" || String.eqb (PEgress p) "none"
                || String.eqb (PEgress p) "unrestricted") then
    Err (invalid "%w: profile %q has egress %q, want none or unrestricted"
      [AStr name; AStr (PEgress p)])
  else if f64_ltb (PCPUs p) (f64_of_int 0) then
    Err (invalid "%w: profile %q has negative cpus %v" [AStr name; AOther])
  else if PMemoryMB p <? 0 then
    Err (invalid "%w: profile %q has negative memory_mb %d" [AStr name; AInt (PMemoryMB p)])
  else if PDiskMB p <? 0 then
    Err (invalid "%w: profile %q has negative disk_mb %d" [AStr name; AInt (PDiskMB p)])
  else if PMaxProcesses p <? 0 then
    Err (invalid "%w: profile %q has negative max_processes %d" [AStr name; AInt (PMaxProcesses p)])
  else if PMaxSandboxes p <? 0 then
    Err (invalid "%w: profile %q has negative max_sandboxes %d; omit it for unlimited"
      [AStr name; AInt (PMaxSandboxes p)])
  else if PIdleTimeout p <? 0 then
    Err (invalid "%w: profile %q has negative idle_timeout %s, which silently disables reaping"
      [AStr name; AInt (PIdleTimeout p)])
  else if PMaxAge p <? 0 then
    Err (invalid "%w: profile %q has negative max_age %s, which silently disables reaping"
      [AStr name; AInt (PMaxAge p)])
  else if PDefaultTimeout p <? 0 then
    Err (invalid "%w: profile %q has negative default_timeout %s"
      [AStr name; AInt (PDefaultTimeout p)])
  else if PMaxTimeout p <? 0 then
    Err (invalid "%w: profile %q has negative max_timeout %s" [AStr name; AInt (PMaxTimeout p)])
  else if (PMaxTimeout p >? 0) && (PDefaultTimeout p >? PMaxTimeout p) then
    Err (invalid
      "%w: profile %q has default_timeout %s above max_timeout %s, so every command is clamped below its own default"
      [AStr name; AInt (PDefaultTimeout p); AInt (PMaxTimeout p)])
  else
    match Spec_Validate (NewSpec (Options p)) with
    | Err err => Err (Errorf "profile %q: %w" [AStr name; AWrap err])
    | Ok _ => Ok tt
    end.

(** The text of the error of [net.SplitHostPort]. *)
Definition addr_error_text (e : addr_error) : string :=
  match e with
  | MissingPort => "missing port in address"
  | TooManyColons => "too many colons in address"
  | MissingBracket => "missing ']' in address"
  | UnexpectedOpen => "unexpected '[' in address"
  | UnexpectedClose => "unexpected ']' in address"
  end.

(** [ListenConfig.validate] *)
Definition ListenConfig_validate (l : ListenConfig) : result unit :=
  if String.eqb (Address l) "" then
    Err (invalid "%w: listen.address is empty; a bind address has no default" [])
  else
    match SplitHostPort (Address l) with
    | inl err => Err (invalid "%w: listen.address %q is not host:port: %w"
        [AStr (Address l); AWrap (External ExtOther (addr_error_text err))])
    | inr (_, port) =>
        if String.eqb port "" || String.eqb port "0" then
          Err (invalid
            "%w: listen.address %q must name a fixed port; an omitted port or 0 makes the runtime choose one at random, which no caller can dial"
            [AStr (Address l)])
        else if String.eqb (CertFile (TLS l)) "" then
          Err (invalid "%w: listen.tls.cert_file is empty" [])
        else if String.eqb (KeyFile (TLS l)) "" then
          Err (invalid "%w: listen.tls.key_file is empty" [])
        else if String.eqb (ClientCAFile (TLS l)) "" then
          Err (invalid
            "%w: listen.tls.client_ca_file is empty; without it any client certificate would be accepted" [])
        else
          match AllowedClientCNs (TLS l) with
          | [] => Err (invalid
              "%w: listen.tls.allowed_client_cns is empty; the CA alone must not be the access control list" [])
          | cns =>
              if existsb (fun cn => String.eqb cn "") cns then
                Err (invalid
                  "%w: listen.tls.allowed_client_cns contains an empty name; it would admit every certificate the CA signs without a common name" [])
              else Ok tt
          end
    end.

(** The loop over the profiles: each is validated, and every registry
    credential must equal the first one met. *)
Fixpoint validate_profiles (ps : list (string * Profile)) (auth : option (string * RegistryAuth))
  : result unit :=
  match ps with
  | [] => Ok tt
  | (name, p) :: ps =>
      try _ := Profile_validate p name in
      match PRegistryAuth p with
      | None => validate_profiles ps auth
      | Some a =>
          match auth with
          | None => validate_profiles ps (Some (name, a))
          | Some (authName, a0) =>
              if bool_decide (a = a0) then validate_profiles ps auth
              else Err (invalid
                "%w: profiles %q and %q specify different registry_auth, but one Docker connection carries one credential"
                [AStr authName; AStr name])
          end
      end
  end.

Section validate.
Context `{MapRange Profile}.

(** [Config.validate]: the configuration with the reap interval defaulted, or
    the error. *)
Definition Config_validate (c : Config) : result Config :=
  if String.eqb (Socket c) "" && bool_decide (Listen c = None) then
    Err (invalid "%w: neither socket nor listen is set; the daemon would accept nothing" [])
  else
    try _ := match Listen c with Some l => ListenConfig_validate l | None => Ok tt end in
    if bool_decide (Profiles c = ∅) then
      Err (invalid "%w: no profiles configured; the daemon would accept nothing" [])
    else if ReapInterval c <? 0 then
      Err (invalid "%w: reap_interval %s is negative" [AInt (ReapInterval c)])
    else
      let c := mkConfig (Socket c) (SocketGroup c) (Listen c)
        (if ReapInterval c =? 0 then Minute else ReapInterval c) (Profiles c) in
      try _ := validate_profiles (range (Profiles c)) None in
      Ok c.
End validate.

(** ** The options of a profile *)

(** What a profile's options resolve to. *)
Lemma Options_spec p :
  let s := NewSpec (Options p) in
  Image s = PImage p /\
  Runtime s = (if String.eqb (PRuntime p) "" then DefaultRuntime else PRuntime p) /\
  User s = (if String.eqb (PUser p) "" then DefaultUser else PUser p) /\
  CPUs (Res s) = (if f64_ltb (f64_of_int 0) (PCPUs p) then PCPUs p else DefaultCPUs) /\
  MemoryBytes (Res s) =
    (if shl20 (PMemoryMB p) >? 0 then shl20 (PMemoryMB p) else DefaultMemoryBytes) /\
  DiskBytes (Res s) =
    (if shl20 (PDiskMB p) >? 0 then shl20 (PDiskMB p) else DefaultDiskBytes) /\
  MaxProcesses (Res s) =
    (if PMaxProcesses p >? 0 then PMaxProcesses p else DefaultMaxProcesses) /\
  IdleTimeout (Life s) =
    (if negb (PIdleTimeout p =? 0) then PIdleTimeout p else DefaultIdleTimeout) /\
  MaxAge (Life s) = (if negb (PMaxAge p =? 0) then PMaxAge p else DefaultMaxAge) /\
  DefaultTimeout s =
    (if PDefaultTimeout p >? 0 then PDefaultTimeout p else DefaultCommandTimeout) /\
  MaxTimeout s = (if PMaxTimeout p >? 0 then PMaxTimeout p else MaxCommandTimeout) /\
  Egress s =
    (if String.eqb (PEgress p) "unrestricted" then EgressUnrestricted else EgressNone) /\
  Env s = [] /\ Labels s = ∅.
Proof.
  unfold Options, NewSpec.
  destruct (String.eqb (PRuntime p) ""), (String.eqb (PUser p) ""),
    (String.eqb (PEgress p) "unrestricted"); by cbn.
Qed.

(** A profile every sandbox of which is bounded in every dimension. *)
Definition profile_bounded (p : Profile) : Prop :=
  let s := NewSpec (Options p) in
  Spec_Validate s = Ok tt /\ Image s <> "" /\
  f64_ltb (f64_of_int 0) (CPUs (Res s)) = true /\
  0 < DiskBytes (Res s) <= MemoryBytes (Res s) /\ 0 < MaxProcesses (Res s) /\
  0 < IdleTimeout (Life s) /\ 0 < MaxAge (Life s) /\
  0 < DefaultTimeout s /\ 0 < MaxTimeout s /\
  (Egress s = EgressUnrestricted <-> PEgress p = "unrestricted").

Lemma Profile_validate_bounded p name :
  Profile_validate p name = Ok tt -> profile_bounded p /\ 0 <= PMaxSandboxes p.
Proof.
  unfold Profile_validate. destruct (String.eqb_spec (PImage p) ""); [done|].
  destruct (negb _); [done|]. destruct (f64_ltb (PCPUs p) _); [done|].
  repeat (zcase; [done|]). destruct (_ && _); [done|].
  destruct (Spec_Validate _) as [[]|] eqn:Ev; [|done]. intros _. split; [|done].
  destruct (Options_spec p) as
    (Hi & _ & _ & Hc & Hm & Hd & Hp & Hid & Hma & Hdt & Hmt & He & _).
  pose proof (proj1 (proj1 (Spec_Validate_iff _)) Ev) as (_ & _ & Hle).
  unfold profile_bounded. rewrite Hi, Hc, Hp, Hid, Hma, Hdt, Hmt, He.
  split_and!; try done.
  - destruct (f64_ltb _ (PCPUs p)) eqn:E; done.
  - rewrite Hd. zcase; done.
  - zcase; done.
  - zcase; cbn [negb]; [done|lia].
  - zcase; cbn [negb]; [done|lia].
  - zcase; done.
  - zcase; done.
  - by destruct (String.eqb_spec (PEgress p) "unrestricted").
Qed.

(** The credentials of a list of profiles, starting from one already met. *)
Definition auths (ps : list (string * Profile)) : list RegistryAuth :=
  omap (fun np => PRegistryAuth (snd np)) ps.

Definition all_equal {A} (l : list A) : Prop := forall a b, a ∈ l -> b ∈ l -> a = b.

Lemma all_equal_dup {A} (a : A) l : all_equal (a :: a :: l) <-> all_equal (a :: l).
Proof.
  split; intros H x y Hx Hy; apply H; rewrite !elem_of_cons in *; tauto.
Qed.

Lemma validate_profiles_Ok ps auth :
  validate_profiles ps auth = Ok tt <->
  (forall name p, (name, p) ∈ ps -> Profile_validate p name = Ok tt) /\
  all_equal (option_list (snd <$> auth) ++ auths ps)%list.
Proof.
  revert auth; induction ps as [|[name p] ps IH]; intros auth; cbn [validate_profiles].
  { split; [|done]. intros _. split; [by intros ? ? ?%not_elem_of_nil|].
    destruct auth as [[n a]|]; intros x y Hx Hy; [|by apply not_elem_of_nil in Hx].
    apply list_elem_of_singleton in Hx, Hy. congruence. }
  destruct (Profile_validate p name) as [[]|e] eqn:Ep.
  2: { split; [done|]. intros [Hv _]. rewrite Hv in Ep; [done|by left]. }
  assert (Hval : (forall n q, (n, q) ∈ (name, p) :: ps -> Profile_validate q n = Ok tt) <->
                 (forall n q, (n, q) ∈ ps -> Profile_validate q n = Ok tt)).
  { split; [intros Hv n q Hin; apply Hv; by right|].
    intros Hv n q [[= -> ->]|Hin]%elem_of_cons; auto. }
  rewrite Hval. cbn [auths omap list_omap snd]. fold (auths ps).
  destruct (PRegistryAuth p) as [a|] eqn:Ea; [|apply IH].
  destruct auth as [[n0 a0]|].
  - case_bool_decide as Heq.
    + subst. rewrite IH. apply and_iff_compat_l. symmetry. apply all_equal_dup.
    + split; [done|]. intros [_ He]. exfalso. apply Heq.
      apply He; cbn; [by right; left|by left].
  - rewrite IH. done.
Qed.

Lemma all_equal_perm {A} (l k : list A) : l ≡ₚ k -> all_equal l -> all_equal k.
Proof. unfold all_equal. intros Hp H a b. rewrite <- Hp. auto. Qed.

Section config_theorems.
Context `{HR : MapRange Profile}.

Lemma auths_perm ps qs : ps ≡ₚ qs -> auths ps ≡ₚ auths qs.
Proof. unfold auths. by intros ->. Qed.

(** What validation accepts, independently of the order the map is visited in. *)
Lemma validate_range_Ok m :
  validate_profiles (range m) None = Ok tt <->
  (forall name p, m !! name = Some p -> Profile_validate p name = Ok tt) /\
  all_equal (auths (map_to_list m)).
Proof.
  rewrite validate_profiles_Ok. cbn [option_list fmap option_fmap option_map app].
  assert (Hr : range m ≡ₚ map_to_list m) by apply range_perm.
  split; intros [Hv Ha]; split.
  - intros name p Hp. apply Hv. by apply elem_of_range.
  - eapply all_equal_perm; [|exact Ha]. by apply auths_perm.
  - intros name p Hp. apply Hv. by apply elem_of_range.
  - eapply all_equal_perm; [|exact Ha]. by apply auths_perm.
Qed.

Lemma elem_of_auths m name p a :
  m !! name = Some p -> PRegistryAuth p = Some a -> a ∈ auths (map_to_list m).
Proof.
  intros Hp Ha. unfold auths. apply list_elem_of_omap.
  exists (name, p). split; [by apply elem_of_map_to_list|done].
Qed.

(** What an accepted configuration guarantees. *)
Lemma Config_validate_facts c c' :
  Config_validate c = Ok c' ->
  (Socket c' <> "" \/ Listen c' <> None) /\
  0 < ReapInterval c' /\
  Profiles c' = Profiles c /\ Profiles c' <> ∅ /\
  (forall name p, Profiles c' !! name = Some p -> profile_bounded p /\ 0 <= PMaxSandboxes p) /\
  (forall n1 p1 a1 n2 p2 a2,
     Profiles c' !! n1 = Some p1 -> Profiles c' !! n2 = Some p2 ->
     PRegistryAuth p1 = Some a1 -> PRegistryAuth p2 = Some a2 -> a1 = a2).
Proof.
  unfold Config_validate. destruct (_ && _) eqn:Es; [done|].
  destruct (match Listen c with Some _ => _ | None => _ end) as [[]|]; [|done].
  destruct (bool_decide_reflect (Profiles c = ∅)) as [|Hp]; [done|].
  destruct (Z.ltb_spec (ReapInterval c) 0) as [|Hr]; [done|].
  cbn [Profiles]. destruct (validate_profiles _ _) as [[]|] eqn:Ev; [|done].
  intros [= <-]. cbn [Socket Listen ReapInterval Profiles].
  apply validate_range_Ok in Ev as [Hv Ha]. split_and!; auto.
  - destruct (String.eqb_spec (Socket c) ""); [|by left].
    right. cbn [andb] in Es. by apply bool_decide_eq_false in Es.
  - destruct (Z.eqb_spec (ReapInterval c) 0); [done|lia].
  - intros name p Hin. eapply Profile_validate_bounded. eauto.
  - intros n1 p1 a1 n2 p2 a2 Hp1 Hp2 Ha1 Ha2.
    apply Ha; [by apply (elem_of_auths _ n1 p1)|by apply (elem_of_auths _ n2 p2)].
Qed.

Lemma Config_validate_socket c c' :
  Config_validate c = Ok c' -> Socket c' = Socket c.
Proof.
  unfold Config_validate. destruct (_ && _); [done|].
  destruct (match Listen c with Some _ => _ | None => _ end) as [[]|]; [|done].
  case_bool_decide; [done|]. destruct (_ <? _); [done|]. cbn [Profiles].
  destruct (validate_profiles _ _); [|done]. by intros [= <-].
Qed.

(** C34. A configuration the daemon accepts has a way to be reached, at least
    one profile and a positive reap interval; every profile bounds every
    resource and both lifetimes of its sandboxes, gives network access only
    where it says [unrestricted], and all registry credentials are one and the
    same. *)
Theorem Config_validate_sound c c' :
  Config_validate c = Ok c' ->
  (Socket c' <> "" \/ Listen c' <> None) /\
  0 < ReapInterval c' /\
  Profiles c' = Profiles c /\ Profiles c' <> ∅ /\
  (forall name p, Profiles c' !! name = Some p -> profile_bounded p /\ 0 <= PMaxSandboxes p) /\
  (forall n1 p1 a1 n2 p2 a2,
     Profiles c' !! n1 = Some p1 -> Profiles c' !! n2 = Some p2 ->
     PRegistryAuth p1 = Some a1 -> PRegistryAuth p2 = Some a2 -> a1 = a2).
Proof. apply Config_validate_facts. Qed.
End config_theorems.

(** Whether a configuration is accepted, and what it resolves to, does not
    depend on the order Go visits the profiles in. *)
Theorem Config_validate_order (R1 R2 : MapRange Profile) c c' :
  Config_validate (H := R1) c = Ok c' <-> Config_validate (H := R2) c = Ok c'.
Proof.
  unfold Config_validate. destruct (_ && _); [done|].
  destruct (match Listen c with Some _ => _ | None => _ end) as [[]|]; [|done].
  case_bool_decide; [done|]. destruct (_ <? _); [done|]. cbn [Profiles].
  pose proof (@validate_range_Ok R1 (Profiles c)) as H1.
  pose proof (@validate_range_Ok R2 (Profiles c)) as H2.
  destruct (validate_profiles (@range _ R1 _) _) as [[]|e1],
    (validate_profiles (@range _ R2 _) _) as [[]|e2]; try done.
  - assert (Err e2 = Ok tt) by (apply H2, H1; done). done.
  - assert (Err e1 = Ok tt) by (apply H1, H2; done). done.
Qed.

Lemma ListenConfig_validate_ok l :
  (ListenConfig_validate l = Ok tt <->
    exists host port, SplitHostPort (Address l) = inr (host, port) /\
      port <> "" /\ port <> "0" /\
      CertFile (TLS l) <> "" /\ KeyFile (TLS l) <> "" /\ ClientCAFile (TLS l) <> "" /\
      AllowedClientCNs (TLS l) <> [] /\ "" ∉ AllowedClientCNs (TLS l)) /\
  (forall e, ListenConfig_validate l = Err e -> Is e ErrInvalid = true).
Proof.
  unfold ListenConfig_validate.
  destruct (String.eqb_spec (Address l) "") as [->|Ha].
  { split; [split; [done|]|naive_solver]. cbn. naive_solver. }
  destruct (SplitHostPort (Address l)) as [err|[host port]] eqn:Es; [naive_solver|].
  assert (Hex : existsb (fun cn => String.eqb cn "") (AllowedClientCNs (TLS l)) = true <->
                "" ∈ AllowedClientCNs (TLS l)).
  { rewrite existsb_exists, list_elem_of_In. split.
    - intros (x & Hx & ->%String.eqb_eq). done.
    - intros Hx. exists "". done. }
  destruct (String.eqb_spec port ""); cbn [orb]; [naive_solver|].
  destruct (String.eqb_spec port "0"); [naive_solver|].
  destruct (String.eqb_spec (CertFile (TLS l)) ""); [naive_solver|].
  destruct (String.eqb_spec (KeyFile (TLS l)) ""); [naive_solver|].
  destruct (String.eqb_spec (ClientCAFile (TLS l)) ""); [naive_solver|].
  destruct (AllowedClientCNs (TLS l)) as [|cn cns]; [naive_solver|].
  destruct (existsb _ _) eqn:Ee.
  - split; [|naive_solver]. split; [done|]. intros (? & ? & ? & ? & ? & ? & ? & ? & ? & Hn).
    exfalso. by apply Hn, Hex.
  - split; [|naive_solver]. split; [|done]. intros _. exists host, port.
    split_and!; try done. rewrite <- Hex. done.
Qed.

(** The listener is never under-specified: a listen block is accepted
    exactly when its address splits into a host and a port that is neither empty
    nor [0], all three TLS files are named, and the allowlist is not empty and
    has no empty name; a refusal is an [ErrInvalid]. *)
Theorem ListenConfig_validate_iff l :
  (ListenConfig_validate l = Ok tt <->
    exists host port, SplitHostPort (Address l) = inr (host, port) /\
      port <> "" /\ port <> "0" /\
      CertFile (TLS l) <> "" /\ KeyFile (TLS l) <> "" /\ ClientCAFile (TLS l) <> "" /\
      AllowedClientCNs (TLS l) <> [] /\ "" ∉ AllowedClientCNs (TLS l)) /\
  (forall e, ListenConfig_validate l = Err e -> Is e ErrInvalid = true).
Proof. apply ListenConfig_validate_ok. Qed.

Lemma shl20_exact x : 0 <= x < 2 ^ 43 -> shl20 x = x * 2 ^ 20.
Proof.
  intros Hx. unfold shl20. rewrite Z.shiftl_mul_pow2 by lia. apply wrap64_id.
  unfold in_int64, min_int64, max_int64. lia.
Qed.

(** The memory and disk bounds of a profile are the configured megabytes
    exactly, for every amount below 2^43 MB; past that the shift overflows. *)
Theorem profile_memory_exact p :
  0 < PMemoryMB p < 2 ^ 43 -> 0 < PDiskMB p < 2 ^ 43 ->
  MemoryBytes (Res (NewSpec (Options p))) = PMemoryMB p * 2 ^ 20 /\
  DiskBytes (Res (NewSpec (Options p))) = PDiskMB p * 2 ^ 20.
Proof.
  intros Hm Hd. destruct (Options_spec p) as (_ & _ & _ & _ & -> & -> & _).
  rewrite !shl20_exact by lia. by repeat zcase.
Qed.

(** A profile in which only the fields under discussion are set. *)
Definition sample_profile (memory disk def : Z) : Profile :=
  mkProfile "img@sha256:0" "" "" "" (f64_of_int 0) memory disk 0 0 0 0 def 0 None.

Lemma profile_memory_exact_witness :
  MemoryBytes (Res (NewSpec (Options (sample_profile 512 256 0)))) = 512 * 2 ^ 20.
Proof.
  refine (proj1 (profile_memory_exact (sample_profile 512 256 0) _ _)); cbn; lia.
Defined.

(** A default timeout above the inherited maximum passes validation: a
    profile with [default_timeout] of twenty minutes and no [max_timeout] is
    accepted, and every command of it that asks for no timeout is clamped to
    ten minutes, below its own default. *)
Theorem default_timeout_above_inherited_max :
  exists p, Profile_validate p "p" = Ok tt /\
    PDefaultTimeout p = 20 * Minute /\
    ResolveTimeout (NewSpec (Options p)) 0 = 10 * Minute.
Proof. exists (sample_profile 0 0 (20 * Minute)). by vm_compute. Qed.

(** A port that means 0 without being spelled [0] passes validation: the
    runtime would choose a port at random. *)
Theorem listen_port_zero_respelled :
  exists l host port, ListenConfig_validate l = Ok tt /\
    SplitHostPort (Address l) = inr (host, port) /\ Atoi port = Some 0.
Proof.
  exists (mkListenConfig "127.0.0.1:00" (mkTLSConfig "cert" "key" "ca" ["client"])), "127.0.0.1", "00".
  by vm_compute.
Qed.

(** A memory bound of 2^44 MB passes validation and is not applied: the
    shift to bytes overflows to zero, which the options read as unset, so the
    sandbox gets the two-gigabyte default. *)
Theorem memory_mb_overflow_accepted :
  exists p, Profile_validate p "p" = Ok tt /\
    PMemoryMB p = 2 ^ 44 /\
    MemoryBytes (Res (NewSpec (Options p))) = DefaultMemoryBytes.
Proof. exists (sample_profile (2 ^ 44) 0 0). by vm_compute. Qed.

(** A configuration the daemon accepts. *)
Definition sample_config : Config :=
  mkConfig "/run/openbloxd.sock" "" None 0 {[ "p" := sample_profile 512 256 0 ]}.

Lemma Config_validate_sound_witness :
  Config_validate (H := map_range_default Profile) sample_config =
    Ok (mkConfig "/run/openbloxd.sock" "" None Minute {[ "p" := sample_profile 512 256 0 ]}) /\
  0 < Minute.
Proof.
  assert (Hok : Config_validate (H := map_range_default Profile) sample_config =
    Ok (mkConfig "/run/openbloxd.sock" "" None Minute {[ "p" := sample_profile 512 256 0 ]})).
  { vm_compute. reflexivity. }
  split; [exact Hok|].
  exact (proj1 (proj2 (Config_validate_sound (HR := map_range_default Profile) _ _ Hok))).
Defined.
