(* ===== verification/PreviewToken.v ===== *)
(** * pkg/preview/token.go: signed preview credentials

    Minting and checking the bearer tokens that authorise a port of a sandbox.
    A token is [ob1.<port>:<expiry>:<nonce>.<tag>], the tag an HMAC over a
    domain separator, the sandbox's name and the payload. *)

From S2P Require Import Prelude GoErrors GoStrings GoDuration GoTime GoEncoding Sha256.

Definition MinKeyBytes : Z := 32.
Definition MaxTTL : Z := 24 * Hour.
Definition tokenVersion : string := "ob1".
Definition domainSeparator : string := "openblox-preview-v1".

Record Signer : Type := mkSigner { key : string }.

Definition NewSigner (key : string) : result Signer :=
  if Z.of_nat (String.length key) <? MinKeyBytes then
    Err (Errorf "preview signing key is %d bytes, need at least %d"
      [AInt (Z.of_nat (String.length key)); AInt MinKeyBytes])
  else Ok (mkSigner key).

(** The byte written after every part of a signed message. *)
Definition nul : string := String (byte_of 0) "".

(** What [mac] writes into the hash: each part followed by a zero byte. *)
Definition mac_input (sandboxName payload : string) : string :=
  String.concat "" (map (fun part => part ++ nul) [domainSeparator; sandboxName; payload]).

Definition mac (s : Signer) (sandboxName payload : string) : string :=
  hmac_sha256 (key s) (mac_input sandboxName payload).

Definition encode (b : string) : string := b64_encode b.

(** [Sign]; [rnd] is what [rand.Read] put into the nonce, or its error. *)
Definition Sign (s : Signer) (rnd : result string) (sandboxName : string) (port : Z)
    (expiresAt : time) : result string :=
  if String.eqb sandboxName "" then
    Err (Errorf "preview token needs a sandbox name" [])
  else if (port <? 1) || (port >? 65535) then
    Err (Errorf "preview port %d is out of range" [AInt port])
  else
    match rnd with
    | Err err => Err (Errorf "generate preview nonce: %w" [AWrap err])
    | Ok nonce =>
        let payload := Itoa port ++ ":" ++ Itoa (UnixNano expiresAt) ++ ":" ++ encode nonce in
        Ok (tokenVersion ++ "." ++ payload ++ "." ++ encode (mac s sandboxName payload))
    end.

(** [split]: version, payload and tag *)
Definition split (token : string) : option (string * string * string) :=
  match Split token "."%char with
  | [version; payload; tag] =>
      match b64_decode tag with
      | None => None
      | Some m => Some (version, payload, m)
      end
  | _ => None
  end.

Definition parsePayload (payload : string) : result (Z * time) :=
  match Split payload ":"%char with
  | [f0; f1; _] =>
      match Atoi f0 with
      | None => Err (Sentinel ErrInvalidToken)
      | Some port =>
          match ParseInt64 f1 with
          | None => Err (Sentinel ErrInvalidToken)
          | Some nanos => Ok (port, Unix0 nanos)
          end
      end
  | _ => Err (Sentinel ErrInvalidToken)
  end.

Definition Verify (s : Signer) (token sandboxName : string) (port : Z) (now : time)
    : result unit :=
  match split token with
  | None => Err (Sentinel ErrInvalidToken)
  | Some (version, payload, m) =>
      if negb (String.eqb version tokenVersion) then Err (Sentinel ErrInvalidToken)
      else if negb (String.eqb m (mac s sandboxName payload)) then Err (Sentinel ErrInvalidToken)
      else
        match parsePayload payload with
        | Err _ => Err (Sentinel ErrInvalidToken)
        | Ok (tokenPort, expiresAt) =>
            if negb (tokenPort =? port) then Err (Sentinel ErrInvalidToken)
            else if negb (Before now expiresAt) then Err (Sentinel ErrInvalidToken)
            else Ok tt
        end
  end.

Definition ExpiresAt (token : string) : option time :=
  match split token with
  | None => None
  | Some (_, payload, _) =>
      match parsePayload payload with
      | Err _ => None
      | Ok (_, expiresAt) => Some expiresAt
      end
  end.

Definition ClampTTL (ttl fallback : Z) : Z :=
  let ttl := if ttl <=? 0 then fallback else ttl in
  if ttl >? MaxTTL then MaxTTL else ttl.

(** ** The shape of a token *)

Definition payload_of (port : Z) (expiresAt : time) (nonce : string) : string :=
  Itoa port ++ ":" ++ Itoa (UnixNano expiresAt) ++ ":" ++ encode nonce.

Definition is_int_byte (c : ascii) : bool := is_digit c || Ascii.eqb c "-"%char || Ascii.eqb c "+"%char.

Lemma Itoa_all z : all_bytes is_int_byte (Itoa z) = true.
Proof.
  assert (Hu : forall n, all_bytes is_int_byte (utoa n) = true).
  { intros n. apply all_bytes_weaken with is_digit; [|apply utoa_digits].
    intros c Hc. unfold is_int_byte. by rewrite Hc. }
  unfold Itoa. zcase; [cbn [String.append all_bytes]|]; by rewrite Hu.
Qed.

Lemma Itoa_has c z : is_int_byte c = false -> has_byte c (Itoa z) = false.
Proof. intros Hc. by apply all_bytes_not_has with is_int_byte, Itoa_all. Qed.

Lemma encode_has c b : is_b64 c = false -> has_byte c (encode b) = false.
Proof. intros Hc. by apply all_bytes_not_has with is_b64, b64_encode_all. Qed.

Lemma payload_has c port e nonce :
  is_int_byte c = false -> is_b64 c = false -> Ascii.eqb c ":"%char = false ->
  has_byte c (payload_of port e nonce) = false.
Proof.
  intros Hi Hb Hc. unfold payload_of. rewrite !has_byte_app. cbn [has_byte].
  by rewrite !Itoa_has, encode_has, Hc.
Qed.

Lemma Split3 a b d c :
  has_byte c a = false -> has_byte c b = false -> has_byte c d = false ->
  Split (a ++ String c "" ++ b ++ String c "" ++ d) c = [a; b; d].
Proof. intros. cbn [String.append]. by rewrite !Split_app, Split_none. Qed.

Lemma parsePayload_payload_of port e nonce :
  in_int64 port -> parsePayload (payload_of port e nonce) = Ok (port, UnixNano e).
Proof.
  intros Hp. unfold parsePayload, payload_of. rewrite (Split3 (Itoa port)) by
    (first [apply Itoa_has | apply encode_has]; done).
  unfold Atoi. by rewrite !ParseInt64_Itoa by (done || apply wrap64_in_int64).
Qed.

(** A token with this payload and tag. *)
Definition token_of (payload tag : string) : string :=
  tokenVersion ++ "." ++ payload ++ "." ++ tag.

Lemma split_token_of payload tag m :
  has_byte "."%char payload = false -> has_byte "."%char tag = false ->
  b64_decode tag = Some m ->
  split (token_of payload tag) = Some (tokenVersion, payload, m).
Proof.
  intros Hp Ht Hd. unfold split, token_of. rewrite (Split3 tokenVersion) by done. by rewrite Hd.
Qed.

Lemma split_Some token version payload m :
  split token = Some (version, payload, m) ->
  exists tag, token = version ++ "." ++ payload ++ "." ++ tag /\ b64_decode tag = Some m /\
    has_byte "."%char payload = false.
Proof.
  unfold split. destruct (Split token _) as [|v [|p [|t [|? ?]]]] eqn:E; try done.
  destruct (b64_decode t) as [b|] eqn:Eb; [|done]. intros [= -> -> ->].
  apply Split_three in E as (-> & ? & ? & ?). by exists t.
Qed.

Lemma Sign_Ok s rnd name port e tok :
  Sign s rnd name port e = Ok tok <->
  name <> "" /\ 1 <= port <= 65535 /\
  exists nonce, rnd = Ok nonce /\
    tok = token_of (payload_of port e nonce) (encode (mac s name (payload_of port e nonce))).
Proof.
  unfold Sign. destruct (String.eqb_spec name "") as [->|Hn].
  { split; [done|]. by intros [? _]. }
  destruct (Z.ltb_spec port 1); cbn [orb].
  { split; [done|]. intros (_ & ? & _). lia. }
  rewrite Z.gtb_ltb. destruct (Z.ltb_spec 65535 port).
  { split; [done|]. intros (_ & ? & _). lia. }
  destruct rnd as [nonce|err].
  - split.
    + intros H'. apply Ok_inj in H' as <-. split_and!; try done. by exists nonce.
    + by intros (_ & _ & nonce' & [= <-] & ->).
  - split; [done|]. by intros (_ & _ & nonce & ? & _).
Qed.

(** What acceptance means, in full. *)
Lemma Verify_Ok s token name port now :
  Verify s token name port now = Ok tt <->
  exists payload tag exp,
    token = token_of payload tag /\
    split token = Some (tokenVersion, payload, mac s name payload) /\
    parsePayload payload = Ok (port, exp) /\ now < exp.
Proof.
  unfold Verify. generalize (mac s name) as f. intros f.
  destruct (split token) as [[[v p] m]|] eqn:E.
  2: { split; [done|]. by intros (? & ? & ? & _ & ? & _). }
  destruct (String.eqb_spec v tokenVersion) as [->|Hv]; cbn [negb].
  2: { split; [done|]. by intros (? & ? & ? & _ & [= -> _ _] & _). }
  destruct (String.eqb_spec m (f p)) as [->|Hm]; cbn [negb].
  2: { split; [done|]. by intros (p' & ? & ? & _ & [= <- ->] & _). }
  destruct (parsePayload p) as [[tp e]|] eqn:Ep.
  2: { split; [done|]. intros (p' & ? & ? & _ & [= <-] & Hp & _). by rewrite Ep in Hp. }
  unfold Before. destruct (Z.eqb_spec tp port) as [->|]; cbn [negb].
  2: { split; [done|]. intros (p' & ? & ? & _ & [= <-] & Hp & _). rewrite Ep in Hp. congruence. }
  destruct (Z.ltb_spec now e); cbn [negb].
  - split; [intros _|done]. destruct (split_Some _ _ _ _ E) as (tag & Ht & _).
    exists p, tag, e. auto.
  - split; [done|]. intros (p' & tag & e' & _ & [= <-] & Hp & ?).
    rewrite Ep in Hp. injection Hp as <-. lia.
Qed.

Lemma Verify_error s token name port now e :
  Verify s token name port now = Err e -> e = Sentinel ErrInvalidToken.
Proof. unfold Verify. repeat casesplit; congruence. Qed.

(** ** The signed message determines what it was signed for *)

Lemma mac_input_eq name payload :
  mac_input name payload = domainSeparator ++ nul ++ name ++ nul ++ payload ++ nul.
Proof. unfold mac_input. cbn [map String.concat]. by rewrite !sapp_assoc. Qed.

Lemma sapp_cancel_r (a b t : string) : a ++ t = b ++ t -> a = b.
Proof.
  intros H. apply sapp_inj_length in H; [tauto|].
  apply (f_equal String.length) in H. rewrite !slength_app in H. lia.
Qed.

(** Two ways to read a string as a prefix, a separator and a rest: the rests
    are the same, or the longer one contains the separator before the other. *)
Lemma sep_align a b a' b' c :
  a ++ String c b = a' ++ String c b' ->
  (a = a' /\ b = b') \/ (exists x, b' = x ++ String c b) \/ (exists x, b = x ++ String c b').
Proof.
  revert a'; induction a as [|d a IH]; intros [|d' a'] H; cbn in H.
  - injection H as ->. auto.
  - injection H as -> ->. right; right. by exists a'.
  - injection H as -> <-. right; left. by exists a.
  - injection H as <- H. destruct (IH _ H) as [[-> ->]|?]; auto.
Qed.

Lemma ParseInt64_all s n : ParseInt64 s = Some n -> all_bytes is_int_byte s = true.
Proof.
  unfold ParseInt64. destruct s as [|c s]; [done|].
  assert (Hu : forall u m, ParseUint u 64 = Some m -> all_bytes is_int_byte u = true).
  { intros u m Hu. apply ParseUint_Some in Hu as (_ & Hd & _); [|lia].
    apply all_bytes_weaken with is_digit; [|done]. intros d Hd'. unfold is_int_byte. by rewrite Hd'. }
  destruct (Ascii.eqb_spec c "+") as [->|_]; [|destruct (Ascii.eqb_spec c "-") as [->|_]].
  1,2: destruct (ParseUint s 64) eqn:E; [|done]; intros _; cbn [all_bytes]; by rewrite (Hu _ _ E).
  destruct (ParseUint (String c s) 64) eqn:E; [|done]. intros _. by apply Hu in E.
Qed.

Lemma parsePayload_Ok payload port e :
  parsePayload payload = Ok (port, e) ->
  exists f0 f1 f2, payload = f0 ++ ":" ++ f1 ++ ":" ++ f2 /\
    Atoi f0 = Some port /\ ParseInt64 f1 = Some e /\ has_byte ":"%char f2 = false.
Proof.
  unfold parsePayload. destruct (Split payload _) as [|f0 [|f1 [|f2 [|? ?]]]] eqn:E; try done.
  apply Split_three in E as (-> & ? & ? & ?).
  destruct (Atoi f0) eqn:E0; [|done]. destruct (ParseInt64 f1) eqn:E1; [|done].
  unfold Unix0. intros [= -> <-]. by exists f0, f1, f2.
Qed.

(** ** Properties *)

(** Signed messages are unambiguous among payloads that parse: the zero byte
    needs no ban in sandbox names, since a name cannot be made to swallow the
    start of a well-formed payload. *)
Lemma mac_input_payload_of name name' port e nonce payload' v :
  mac_input name (payload_of port e nonce) = mac_input name' payload' ->
  parsePayload payload' = Ok v -> name = name' /\ payload_of port e nonce = payload'.
Proof.
  rewrite !mac_input_eq. intros H Hv. do 2 apply sapp_inj_l in H.
  rewrite <- !sapp_assoc in H. apply sapp_cancel_r in H. rewrite !sapp_assoc in H.
  change (nul ++ ?x) with (String (byte_of 0) x) in H.
  apply sep_align in H as [?|[[x ->]|[x Hx]]]; [done| |].
  - destruct v as [p' e']. apply parsePayload_Ok in Hv as (f0 & f1 & f2 & H & H0 & H1 & H2).
    exfalso. apply ParseInt64_all in H0, H1.
    assert (Hn : forall f, all_bytes is_int_byte f = true -> has_byte (byte_of 0) f = false).
    { intros f. by apply all_bytes_not_has. }
    assert (has_byte ":"%char (payload_of port e nonce) = true) as Hc.
    { unfold payload_of. rewrite has_byte_app. cbn. by rewrite orb_true_r. }
    assert (exists y, f2 = y ++ String (byte_of 0) (payload_of port e nonce)) as [y ->].
    { change (x ++ String (byte_of 0) (payload_of port e nonce) = f0 ++ String ":" (f1 ++ String ":" f2)) in H.
      revert x H. assert (Hs : forall f rest x t, has_byte (byte_of 0) f = false ->
        x ++ String (byte_of 0) t = f ++ String ":" rest ->
        exists y, rest = y ++ String (byte_of 0) t).
      { induction f as [|c f IH]; intros rest [|d x] t Hf Hx; cbn in Hx, Hf; try done.
        - injection Hx as -> <-. by exists x.
        - injection Hx as <- _. cbn in Hf. done.
        - injection Hx as -> Hx. apply orb_false_elim in Hf as [_ Hf]. eauto. }
      intros x H. apply Hs in H as [y Hy]; [|auto]. symmetry in Hy. apply Hs in Hy; auto. }
    rewrite has_byte_app in H2. cbn [has_byte] in H2. rewrite Hc, !orb_true_r in H2. done.
  - exfalso. assert (has_byte (byte_of 0) (payload_of port e nonce) = false) as Hz.
    { by apply payload_has. }
    rewrite Hx, has_byte_app in Hz. cbn in Hz. by rewrite orb_true_r in Hz.
Qed.

Lemma Sign_verifies s rnd name port e tok :
  Sign s rnd name port e = Ok tok -> in_int64 e ->
  (forall now, Verify s tok name port now =
     if now <? e then Ok tt else Err (Sentinel ErrInvalidToken)) /\
  (forall port' now, port' <> port ->
     Verify s tok name port' now = Err (Sentinel ErrInvalidToken)).
Proof.
  intros (_ & Hp & nonce & -> & ->)%Sign_Ok He.
  assert (Hs : split (token_of (payload_of port e nonce)
    (encode (mac s name (payload_of port e nonce)))) =
    Some (tokenVersion, payload_of port e nonce, mac s name (payload_of port e nonce))).
  { apply split_token_of; [by apply payload_has|by apply encode_has|apply b64_decode_encode]. }
  assert (Hpp : parsePayload (payload_of port e nonce) = Ok (port, e)).
  { rewrite parsePayload_payload_of by (unfold in_int64, min_int64, max_int64; lia).
    unfold UnixNano. by rewrite wrap64_id. }
  unfold Verify. rewrite Hs, Hpp, !String.eqb_refl. cbn [negb]. unfold Before. split.
  - intros now. rewrite Z.eqb_refl. cbn [negb]. by destruct (now <? e).
  - intros port' now Hne. apply not_eq_sym, Z.eqb_neq in Hne. by rewrite Hne.
Qed.

(** C3. A token does what it was issued for and nothing else: the token [Sign]
    returns for a sandbox and a port is accepted by [Verify] under the same key
    for that sandbox and that port exactly as long as the expiry lies ahead, and
    for no other port at any time; every refusal is the one [ErrInvalidToken]. *)
Theorem Verify_Sign s rnd name port e tok :
  Sign s rnd name port e = Ok tok -> in_int64 e ->
  (forall now, Verify s tok name port now =
     if now <? e then Ok tt else Err (Sentinel ErrInvalidToken)) /\
  (forall port' now, port' <> port ->
     Verify s tok name port' now = Err (Sentinel ErrInvalidToken)).
Proof. apply Sign_verifies. Qed.

Definition demo_signer : Signer := mkSigner "0123456789abcdef0123456789abcdef".

Lemma Verify_Sign_witness :
  exists tok, Sign demo_signer (Ok "0123456789abcdef") "web" 8080 1700000000000000000 = Ok tok /\
    Verify demo_signer tok "web" 8080 1699999999999999999 = Ok tt /\
    Verify demo_signer tok "web" 8081 1699999999999999999 = Err (Sentinel ErrInvalidToken).
Proof.
  destruct (Sign demo_signer (Ok "0123456789abcdef") "web" 8080 1700000000000000000)
    as [tok|e] eqn:E.
  2: { exfalso. revert E. unfold Sign. cbn [String.eqb]. discriminate. }
  assert (Hi : in_int64 1700000000000000000).
  { unfold in_int64, min_int64, max_int64. lia. }
  destruct (Verify_Sign _ _ _ _ _ _ E Hi) as [H1 H2].
  exists tok. split; [reflexivity|]. split; [exact (H1 _)|apply H2; discriminate].
Defined.

(** These two messages differ and have one tag. *)
Definition collide (s : Signer) (m m' : string) : Prop :=
  m <> m' /\ hmac_sha256 (key s) m = hmac_sha256 (key s) m'.

(** C10. A tag is worth only what it was issued for: a token [Verify] accepts
    whose tag is one that [Sign] issued carries the very payload it was issued
    with, names the same sandbox and the same port, and has not outlived the
    expiry it was issued with; the only way out is that the message the tag was
    issued for and the one this token claims, two given texts, differ and have
    one HMAC.  The payload around the tag and the sandbox's name are arbitrary,
    zero bytes and colons included. *)
Theorem Verify_only_issued s name' port' e' nonce' version payload token name port now :
  in_int64 e' -> 1 <= port' <= 65535 ->
  split token = Some (version, payload, mac s name' (payload_of port' e' nonce')) ->
  Verify s token name port now = Ok tt ->
  (payload = payload_of port' e' nonce' /\ name = name' /\ port = port' /\ now < e') \/
  collide s (mac_input name' (payload_of port' e' nonce')) (mac_input name payload).
Proof.
  intros He Hp Htag (payload' & tag' & exp & _ & Hs & Hpp & Hnow)%Verify_Ok.
  rewrite Hs in Htag.
  assert (Hmac : mac s name payload' = mac s name' (payload_of port' e' nonce')).
  { exact (f_equal (fun o => from_option snd "" o) Htag). }
  assert (payload = payload') as ->.
  { symmetry. exact (f_equal (fun o => from_option (fun x => snd (fst x)) "" o) Htag). }
  clear Hs Htag.
  destruct (decide (mac_input name' (payload_of port' e' nonce') = mac_input name payload'))
    as [Hm|Hm].
  - left. destruct (mac_input_payload_of _ _ _ _ _ _ _ Hm Hpp) as [-> <-].
    rewrite parsePayload_payload_of in Hpp by (unfold in_int64, min_int64, max_int64; lia).
    unfold UnixNano in Hpp. rewrite wrap64_id in Hpp by done. by injection Hpp as -> ->.
  - right. by split.
Qed.

Lemma Verify_only_issued_witness :
  exists tok, Sign demo_signer (Ok "0123456789abcdef") "web" 8080 1700000000000000000 = Ok tok /\
    let pl := payload_of 8080 1700000000000000000 "0123456789abcdef" in
    ((pl = pl /\ "web" = "web" /\ 8080 = 8080 /\ 1600000000000000000 < 1700000000000000000)
     \/ collide demo_signer (mac_input "web" pl) (mac_input "web" pl)).
Proof.
  set (pl := payload_of 8080 1700000000000000000 "0123456789abcdef").
  set (tok := token_of pl (encode (mac demo_signer "web" pl))).
  exists tok. split; [reflexivity|]. cbv zeta.
  apply (Verify_only_issued demo_signer "web" 8080 1700000000000000000 "0123456789abcdef"
    tokenVersion pl tok).
  - unfold in_int64, min_int64, max_int64. lia.
  - lia.
  - apply split_token_of; [reflexivity|by apply encode_has|apply b64_decode_encode].
  - apply Verify_Ok. exists pl, (encode (mac demo_signer "web" pl)), 1700000000000000000.
    split; [reflexivity|]. split; [|split; [reflexivity|lia]].
    apply split_token_of; [reflexivity|by apply encode_has|apply b64_decode_encode].
Defined.

(** ** Respelled tokens

    The decoder ignores the two spare bits of a tag's last character, so every
    token has other spellings. *)

(** The same bytes with the lowest spare bit of a two-byte last group set. *)
Fixpoint b64_respell (s : string) : string :=
  match s with
  | String a (String b "") =>
      let x := byte_val a in let y := byte_val b in
      String (b64_char (x / 4)) (String (b64_char (x mod 4 * 16 + y / 16))
        (String (b64_char (y mod 16 * 4 + 1)) ""))
  | String a (String b (String c s')) =>
      let x := byte_val a in let y := byte_val b in let z := byte_val c in
      String (b64_char (x / 4)) (String (b64_char (x mod 4 * 16 + y / 16))
        (String (b64_char (y mod 16 * 4 + z / 64)) (String (b64_char (z mod 64))
          (b64_respell s'))))
  | _ => b64_encode s
  end.

(** A spelling is a text of the alphabet that decodes to the same bytes. *)
Lemma b64_respell_spec s :
  b64_decode (b64_respell s) = Some s /\ all_bytes is_b64 (b64_respell s) = true.
Proof.
  unfold b64_decode.
  assert (Hc : forall v, 0 <= v < 64 -> is_b64 (b64_char v) = true).
  { intros v Hv. unfold is_b64. by rewrite (proj1 (b64_val_char v Hv)). }
  assert (Hd : forall c k m, 0 < k -> 256 = k * m -> 0 <= byte_val c / k < m).
  { intros c k m Hk Hm. apply div_bound; [done|]. rewrite <- Hm. apply byte_val_bound. }
  assert (M : forall c k, 0 < k -> 0 <= byte_val c mod k < k) by (intros; by apply Z.mod_pos_bound).
  assert (D : forall c k, 0 < k -> byte_val c = byte_val c / k * k + byte_val c mod k).
  { intros c k Hk. pose proof (Z.div_mod (byte_val c) k). lia. }
  induction s as [|a|a b|a b c s [IH1 IH2]] using string_ind3; cbn [b64_respell]; [done|..].
  - split; [apply (b64_decode_encode (String a ""))|apply (b64_encode_all (String a ""))].
  - pose proof (M a 4 eq_refl). pose proof (M b 16 eq_refl).
    pose proof (Hd a 4 64 eq_refl eq_refl). pose proof (Hd b 16 16 eq_refl eq_refl).
    split; [|cbn [all_bytes]; by rewrite !Hc by lia].
    rewrite !b64_vals_char by lia. cbn [b64_vals mbind option_bind b64_bytes].
    rewrite !join_div, join_mod by lia. rewrite <- !D by lia. by rewrite !byte_of_val.
  - pose proof (M a 4 eq_refl). pose proof (M b 16 eq_refl). pose proof (M c 64 eq_refl).
    pose proof (Hd a 4 64 eq_refl eq_refl). pose proof (Hd b 16 16 eq_refl eq_refl).
    pose proof (Hd c 64 4 eq_refl eq_refl).
    split; [|cbn [all_bytes]; by rewrite !Hc, IH2 by lia].
    rewrite !b64_vals_char by lia.
    destruct (b64_vals (b64_respell s)) as [vs|]; [|done].
    cbn [mbind option_bind b64_bytes] in IH1 |- *. rewrite IH1. cbn [mbind option_bind].
    rewrite !join_div, !join_mod by lia. rewrite <- !D by lia. by rewrite !byte_of_val.
Qed.

Lemma b64_respell_differs n s :
  String.length s = (3 * n + 2)%nat -> b64_respell s <> b64_encode s.
Proof.
  revert n; induction s as [|a|a b|a b c s IH] using string_ind3; intros n Hl; cbn in Hl; try lia.
  - cbn. intros [= Hc]. apply (f_equal b64_val) in Hc.
    pose proof (Z.mod_pos_bound (byte_val b) 16). rewrite !(fun v H => proj1 (b64_val_char v H)) in Hc by lia.
    injection Hc. lia.
  - destruct n as [|n]; [cbn in Hl; lia|]. cbn [b64_respell b64_encode]. intros [= H].
    by apply (IH n); [lia|].
Qed.

(** Every issued token has a second spelling that [Verify] treats alike. *)
Lemma Sign_respelled s rnd name port e tok :
  Sign s rnd name port e = Ok tok ->
  exists tok', tok' <> tok /\ split tok' = split tok /\
    all_bytes (fun c => is_int_byte c || is_b64 c || Ascii.eqb c ":" || Ascii.eqb c ".")%char
      tok' = true.
Proof.
  intros (_ & _ & nonce & _ & ->)%Sign_Ok.
  set (pl := payload_of port e nonce).
  assert (Hl : String.length (mac s name pl) = 32%nat) by apply hmac_length.
  revert Hl. generalize (mac s name pl) as m. intros m Hl.
  destruct (b64_respell_spec m) as [Hd Ha].
  assert (Hpl : has_byte "."%char pl = false) by (by apply payload_has).
  exists (token_of pl (b64_respell m)). split_and!.
  - unfold token_of. intros H. do 4 apply sapp_inj_l in H.
    by apply (b64_respell_differs 10) in H.
  - rewrite (split_token_of pl (b64_respell m) m), (split_token_of pl (encode m) m); try done.
    + by apply encode_has.
    + apply b64_decode_encode.
    + by apply all_bytes_not_has with is_b64.
  - assert (Hi : forall z, all_bytes (fun c => is_int_byte c || is_b64 c || Ascii.eqb c ":" || Ascii.eqb c ".")%char (Itoa z) = true).
    { intros z. apply all_bytes_weaken with is_int_byte; [|apply Itoa_all]. by intros c ->. }
    assert (Hb : forall b, all_bytes is_b64 b = true -> all_bytes (fun c => is_int_byte c || is_b64 c || Ascii.eqb c ":" || Ascii.eqb c ".")%char b = true).
    { intros b. apply all_bytes_weaken. intros c ->. by rewrite orb_true_r. }
    unfold token_of, pl, payload_of. rewrite !all_bytes_app, !Hi, (Hb _ Ha).
    unfold encode. by rewrite (Hb _ (b64_encode_all nonce)).
Qed.

Lemma ClampTTL_bounds ttl fallback :
  0 < fallback <= MaxTTL -> 0 < ClampTTL ttl fallback <= MaxTTL /\
  (0 < ttl -> ClampTTL ttl fallback <= ttl).
Proof. intros H. unfold ClampTTL. destruct (Z.leb_spec ttl 0); repeat zcase; lia. Qed.
