(* ===== verification/PreviewProxy.v ===== *)
(** * pkg/preview/proxy.go: the authenticating reverse proxy

    The handler's revocation set, the decision [ServeHTTP] takes on a request,
    the routes, and the dialer behind the transport's connection pool. *)

From S2P Require Import Prelude GoErrors GoStrings GoDuration GoTime GoNet GoEncoding GoHttp.
From S2P Require Import Sha256 PreviewToken.

Definition RoutePrefix : string := "/preview".

(** The handler: its signer and the tokens withdrawn before their expiry. *)
Record Handler : Type := mkHandler {
  signer : Signer;
  revoked : gmap string time
}.

Definition NewHandler (signer : Signer) : Handler := mkHandler signer ∅.

(** [Handler.Revoke]; [clock t] is what [time.Now] reads when the loop visits
    the entry of [t]. *)
Definition Revoke (h : Handler) (token : string) (clock : string -> time) : Handler :=
  match ExpiresAt token with
  | None => h
  | Some expiresAt =>
      mkHandler (signer h)
        (filter (fun '(t, exp) => After (clock t) exp = false)
          (<[token := expiresAt]> (revoked h)))
  end.

Definition isRevoked (h : Handler) (token : string) : bool :=
  match revoked h !! token with Some _ => true | None => false end.

(** [parseRoute]: name, port and the rest of the path *)
Definition parseRoute (path : string) : option (string * Z * string) :=
  match CutPrefix path (RoutePrefix ++ "/") with
  | None => None
  | Some trimmed =>
      let parts := SplitN trimmed "/"%char 2 in
      match parts with
      | p0 :: p1 :: ps =>
          match PathUnescape p0 with
          | None => None
          | Some name =>
              if String.eqb name "" then None
              else
                match Atoi p1 with
                | None => None
                | Some port =>
                    if (port <? 1) || (port >? 65535) then None
                    else Some (name, port, "/" ++ match ps with p2 :: _ => p2 | [] => "" end)
                end
          end
      | _ => None
      end
  end.

Definition URL (base sandboxName : string) (port : Z) : string :=
  TrimSuffix1 base "/"%char ++ RoutePrefix ++ "/" ++ PathEscape sandboxName ++ "/"
    ++ Itoa port ++ "/".

(** A request: the escaped path of its URL and its headers. *)
Record Request : Type := mkRequest {
  ReqEscapedPath : string;
  ReqHeader : Header
}.

Definition bearerToken (r : Request) : string :=
  match CutPrefix (HeaderGet (ReqHeader r) "Authorization") "Bearer " with
  | None => ""
  | Some token => TrimSpace token
  end.

(** The request handed to the reverse proxy: the route in its context, the
    path of its URL ([RawPath] is emptied), its headers. *)
Record Routed : Type := mkRouted {
  RouteName : string;
  RoutePort : Z;
  RoutedPath : string;
  RoutedHeader : Header
}.

Inductive Served : Type :=
  | NotFound404
  | Unauthorized401 (challenge : bool)
  | Forward (r : Routed).

Definition ServeHTTP (h : Handler) (r : Request) (now : time) : Served :=
  match parseRoute (ReqEscapedPath r) with
  | None => NotFound404
  | Some (name, port, rest) =>
      let token := bearerToken r in
      if String.eqb token "" then Unauthorized401 true
      else
        match Verify (signer h) token name port now with
        | Err _ => Unauthorized401 false
        | Ok _ =>
            if isRevoked h token then Unauthorized401 false
            else Forward (mkRouted name port rest (HeaderDel (ReqHeader r) "Authorization"))
        end
  end.

Definition upstreamHost (name : string) (port : Z) : string :=
  hex (stake 16 (sha256 name)) ++ "-" ++ Itoa port ++ ".sandbox.invalid".

(** What [rewrite] makes of a routed request. *)
Record Outgoing : Type := mkOutgoing {
  OutScheme : string;
  OutURLHost : string;
  OutHost : string;
  OutPath : string;
  OutHeader : Header
}.

Definition rewrite (r : Routed) : Outgoing :=
  mkOutgoing "http" (upstreamHost (RouteName r) (RoutePort r)) "localhost"
    (RoutedPath r) (HeaderDel (RoutedHeader r) "X-Forwarded-For").

Section dial.
(** What dialling gives, how it fails, and the handler's [Dialer]. *)
Context {Dialled : Type}.
Variable Fail : error -> Dialled.
Variable DialPort : string -> Z -> Dialled.

(** [Handler.dial]; [route] is what [routeFrom] finds in the context. *)
Definition dial (route : option (string * Z)) (addr : string) : Dialled :=
  match route with
  | None => Fail (Errorf "preview: request reached the dialer without a route" [])
  | Some (name, port) =>
      if negb (String.eqb addr (JoinHostPort (upstreamHost name port) "80")) then
        Fail (Errorf "preview: dial for %q does not match the authorised route" [AStr addr])
      else DialPort name port
  end.
End dial.

(** ** Routes *)

Lemma SplitN_route p0 p1 x :
  has_byte "/"%char p0 = false -> has_byte "/"%char p1 = false ->
  SplitN (p0 ++ "/" ++ p1 ++ "/" ++ x) "/"%char 2 = [p0; p1; x].
Proof.
  intros H0 H1. cbn [SplitN String.append]. rewrite Cut_app by done. cbn [SplitN].
  by rewrite Cut_app by done.
Qed.

Lemma PathEscape_nonempty s : PathEscape s = "" -> s = "".
Proof. destruct s as [|c s]; [done|]. cbn. by destruct (shouldEscape c). Qed.

Lemma URL_parses base name port x :
  name <> "" -> 1 <= port <= 65535 ->
  exists path, URL base name port = TrimSuffix1 base "/"%char ++ path /\
    parseRoute (path ++ x) = Some (name, port, "/" ++ x).
Proof.
  intros Hn Hp. unfold URL. eexists. split; [reflexivity|].
  unfold parseRoute. rewrite <- (sapp_assoc RoutePrefix), sapp_assoc, CutPrefix_app.
  rewrite !sapp_assoc. rewrite SplitN_route.
  - rewrite PathUnescape_Escape. destruct (String.eqb_spec name ""); [done|].
    unfold Atoi. rewrite ParseInt64_Itoa by (unfold in_int64, min_int64, max_int64; lia).
    by repeat (zcase; cbn [orb]).
  - by apply all_bytes_not_has with segment_byte, PathEscape_all.
  - by apply Itoa_has.
Qed.

(** Routes round-trip: the address [URL] renders for a non-empty sandbox
    name and a valid port, under any base, is the base (less one trailing
    slash) followed by a path which, whatever is appended to it, [parseRoute]
    reads back as that name and that port with the appended text as the rest. *)
Theorem parseRoute_URL base name port x :
  name <> "" -> 1 <= port <= 65535 ->
  exists path, URL base name port = TrimSuffix1 base "/"%char ++ path /\
    parseRoute (path ++ x) = Some (name, port, "/" ++ x).
Proof. apply URL_parses. Qed.

Lemma parseRoute_URL_witness :
  exists path, URL "https://example.test/" "tenant/acme user" 3000 =
      TrimSuffix1 "https://example.test/" "/"%char ++ path /\
    parseRoute (path ++ "index.html") = Some ("tenant/acme user", 3000, "/index.html").
Proof. apply (parseRoute_URL "https://example.test/" "tenant/acme user" 3000 "index.html"); [discriminate|lia]. Defined.

Example URL_ex :
  URL "https://example.test/" "tenant/acme user" 3000 =
  "https://example.test/preview/tenant%2Facme%20user/3000/".
Proof. reflexivity. Qed.

(** ** Authorisation *)

Lemma ServeHTTP_Forward h r now f :
  ServeHTTP h r now = Forward f <->
  exists name port rest,
    parseRoute (ReqEscapedPath r) = Some (name, port, rest) /\
    Verify (signer h) (bearerToken r) name port now = Ok tt /\
    isRevoked h (bearerToken r) = false /\
    f = mkRouted name port rest (HeaderDel (ReqHeader r) "Authorization").
Proof.
  unfold ServeHTTP. destruct (parseRoute _) as [[[name port] rest]|].
  2: { split; [done|]. by intros (? & ? & ? & ? & _). }
  destruct (String.eqb_spec (bearerToken r) "") as [He|He].
  { split; [done|]. intros (? & ? & ? & [= <- <- <-] & Hv & _).
    apply Verify_Ok in Hv as (? & ? & ? & Ht & _). by rewrite He in Ht. }
  destruct (Verify _ _ name port _) as [[]|e] eqn:Ev.
  2: { split; [done|]. intros (? & ? & ? & [= <- <- <-] & Hv & _). congruence. }
  destruct (isRevoked _ _) eqn:Er.
  { split; [done|]. by intros (? & ? & ? & _ & _ & ? & _). }
  split; [intros [= <-]; by exists name, port, rest|].
  by intros (? & ? & ? & [= <- <- <-] & _ & _ & ->).
Qed.

(** Only an authorised request is forwarded, and only where it is
    authorised to go: what the proxy forwards carries a bearer token that
    verifies, at this moment, for the sandbox and port of the request's own
    path and is not revoked; the forwarded request is routed to exactly that
    sandbox and port, under their own pool key, and carries neither the
    credential nor the client's address. *)
Theorem ServeHTTP_authorised h r now f :
  ServeHTTP h r now = Forward f ->
  (exists rest, parseRoute (ReqEscapedPath r) = Some (RouteName f, RoutePort f, rest)) /\
  Verify (signer h) (bearerToken r) (RouteName f) (RoutePort f) now = Ok tt /\
  isRevoked h (bearerToken r) = false /\
  OutURLHost (rewrite f) = upstreamHost (RouteName f) (RoutePort f) /\
  OutHeader (rewrite f) !! "Authorization" = None /\
  OutHeader (rewrite f) !! "X-Forwarded-For" = None.
Proof.
  intros (name & port & rest & Hr & Hv & Hn & ->)%ServeHTTP_Forward.
  unfold rewrite, HeaderDel. cbn [OutURLHost OutHeader RouteName RoutePort RoutedHeader].
  split_and!; eauto.
  - rewrite lookup_delete_ne by done. apply lookup_delete_eq.
  - apply lookup_delete_eq.
Qed.

Definition demo_token : string :=
  match Sign demo_signer (Ok "0123456789abcdef") "web" 8080 1700000000000000000 with
  | Ok t => t | Err _ => "" end.

Definition demo_request (token : string) : Request :=
  mkRequest "/preview/web/8080/index.html"
    {[ "Authorization" := ["Bearer " ++ token]; "X-Forwarded-For" := ["192.0.2.1"] ]}.

Definition forwarded (s : Served) : bool := match s with Forward _ => true | _ => false end.

Lemma demo_forwarded :
  ServeHTTP (NewHandler demo_signer) (demo_request demo_token) 1600000000000000000 =
  Forward (mkRouted "web" 8080 "/index.html"
    (HeaderDel (ReqHeader (demo_request demo_token)) "Authorization")).
Proof. vm_compute. reflexivity. Qed.

Lemma ServeHTTP_authorised_witness :
  exists f, ServeHTTP (NewHandler demo_signer) (demo_request demo_token) 1600000000000000000
      = Forward f /\
    OutHeader (rewrite f) !! "Authorization" = None.
Proof.
  eexists. split; [exact demo_forwarded|].
  exact (proj1 (proj2 (proj2 (proj2 (proj2 (ServeHTTP_authorised _ _ _ _ demo_forwarded)))))).
Defined.

(** The bytes of a token are visible ASCII, so trimming leaves it alone. *)
Lemma token_byte_visible c :
  (is_int_byte c || is_b64 c || Ascii.eqb c ":" || Ascii.eqb c ".")%char = true ->
  visible c = true.
Proof. destruct c as [[] [] [] [] [] [] [] []]; vm_compute; congruence. Qed.

(** ** Revocation *)

(** The handler after a sequence of revocations, each with its clock. *)
Definition revoke_all (h : Handler) (ops : list (string * (string -> time))) : Handler :=
  fold_left (fun h '(token, clock) => Revoke h token clock) ops h.

Lemma Revoke_signer h token clock : signer (Revoke h token clock) = signer h.
Proof. unfold Revoke. by destruct (ExpiresAt token). Qed.

(** A token is withdrawn at [now]: recorded with its expiry, or expired. *)
Definition withdrawn (h : Handler) (token : string) (now : time) : Prop :=
  match ExpiresAt token with
  | None => True
  | Some exp => revoked h !! token = Some exp \/ exp < now
  end.

Lemma Revoke_withdraws h token clock now :
  clock token <= now -> withdrawn (Revoke h token clock) token now.
Proof.
  intros Hc. unfold withdrawn, Revoke. destruct (ExpiresAt token) as [exp|]; [|done]. cbn [revoked].
  destruct (After (clock token) exp) eqn:E.
  - right. unfold After in E. zbool. lia.
  - left. apply map_lookup_filter_Some. split; [apply lookup_insert_eq|done].
Qed.

Lemma Revoke_keeps_withdrawn h token' clock token now :
  clock token <= now -> withdrawn h token now -> withdrawn (Revoke h token' clock) token now.
Proof.
  intros Hc. unfold withdrawn, Revoke. destruct (ExpiresAt token) as [exp|] eqn:E; [|done].
  intros [Hr|?]; [|by right]. destruct (ExpiresAt token') as [exp'|] eqn:E'; [|by left].
  cbn [revoked]. destruct (After (clock token) exp) eqn:Ea.
  - right. unfold After in Ea. zbool. lia.
  - left. apply map_lookup_filter_Some. split; [|done]. destruct (decide (token' = token)) as [->|?].
    + rewrite lookup_insert_eq. congruence.
    + by rewrite lookup_insert_ne.
Qed.

Lemma withdrawn_refused h token name port now :
  withdrawn h token now -> Verify (signer h) token name port now = Ok tt -> isRevoked h token = true.
Proof.
  intros Hw (payload & tag & exp & _ & Hs & Hp & Hn)%Verify_Ok.
  assert (He : ExpiresAt token = Some exp) by (unfold ExpiresAt; by rewrite Hs, Hp).
  unfold withdrawn in Hw. rewrite He in Hw. unfold isRevoked.
  destruct Hw as [-> | ?]; [done|lia].
Qed.

(** C40. Revocation is permanent for the token it names: once a handler has
    revoked a token, no request carrying that token is forwarded any more,
    through any number of further revocations (each of which also drops the
    entries it finds expired) and at any time that is not before the clock
    readings those took. *)
Theorem revoked_stays_refused h token clock ops r now :
  clock token <= now ->
  Forall (fun op : string * (string -> time) => snd op token <= now) ops ->
  bearerToken r = token ->
  forwarded (ServeHTTP (revoke_all (Revoke h token clock) ops) r now) = false.
Proof.
  intros Hc Hops Hr.
  assert (Hw : withdrawn (revoke_all (Revoke h token clock) ops) token now).
  { pose proof (Revoke_withdraws h token clock now Hc) as Hw. revert Hw.
    generalize (Revoke h token clock). unfold revoke_all.
    induction Hops as [|[t' c'] ops Ht _ IH]; intros h' Hw; cbn [fold_left]; [done|].
    apply IH. by apply Revoke_keeps_withdrawn. }
  destruct (ServeHTTP _ _ _) as [| |f] eqn:E; [done..|].
  apply ServeHTTP_Forward in E as (name & port & rest & _ & Hv & Hn & _).
  rewrite Hr in Hv, Hn. rewrite (withdrawn_refused _ _ _ _ _ Hw Hv) in Hn. done.
Qed.

Lemma revoked_stays_refused_witness :
  forwarded (ServeHTTP (NewHandler demo_signer) (demo_request demo_token) 1600000000000000000)
    = true /\
  forwarded (ServeHTTP (revoke_all
    (Revoke (NewHandler demo_signer) demo_token (fun _ => 1500000000000000000)) [])
    (demo_request demo_token) 1600000000000000000) = false.
Proof.
  split; [vm_compute; reflexivity|].
  apply (revoked_stays_refused (NewHandler demo_signer) demo_token (fun _ => 1500000000000000000) []);
    [lia|constructor|vm_compute; reflexivity].
Defined.

(** Revocation withdraws one spelling of a credential, not the credential:
    for every token [Sign] issues there is a different token that the handler
    accepts for the same sandbox and port until the same expiry, after the
    issued one was revoked.  The tag's last base64 character has two spare
    bits the decoder ignores, while the revocation set compares token texts. *)
Theorem revocation_misses_respelling h rnd name port e tok clock :
  Sign (signer h) rnd name port e = Ok tok -> revoked h = ∅ ->
  exists tok', tok' <> tok /\ forall r rest now,
    parseRoute (ReqEscapedPath r) = Some (name, port, rest) ->
    HeaderGet (ReqHeader r) "Authorization" = "Bearer " ++ tok' ->
    now < wrap64 e ->
    forwarded (ServeHTTP (Revoke h tok clock) r now) = true.
Proof.
  intros Hsign Hempty. destruct (Sign_respelled _ _ _ _ _ _ Hsign) as (tok' & Hne & Hsp & Hall).
  exists tok'. split; [done|]. intros r rest now Hroute Hauth Hnow.
  assert (Hb : bearerToken r = tok').
  { unfold bearerToken. rewrite Hauth, CutPrefix_app. apply TrimSpace_visible.
    eapply all_bytes_weaken; [|exact Hall]. intros c. apply token_byte_visible. }
  assert (Hv : Verify (signer h) tok' name port now = Ok tt).
  { unfold Verify. rewrite Hsp. apply Sign_Ok in Hsign as (_ & Hp & nonce & _ & ->).
    rewrite (split_token_of _ _ (mac (signer h) name (payload_of port e nonce)));
      [|by apply payload_has|by apply encode_has|apply b64_decode_encode].
    rewrite parsePayload_payload_of by (unfold in_int64, min_int64, max_int64; lia).
    rewrite !String.eqb_refl, Z.eqb_refl. unfold Before, UnixNano. cbn [negb].
    by apply Z.ltb_lt in Hnow as ->. }
  assert (Hr : isRevoked (Revoke h tok clock) tok' = false).
  { unfold isRevoked, Revoke. rewrite Hempty. destruct (ExpiresAt tok); [|by rewrite Hempty, lookup_empty].
    cbn [revoked]. destruct (filter _ _ !! tok') eqn:El; [|done].
    apply map_lookup_filter_Some in El as [El _]. by rewrite lookup_insert_ne in El. }
  destruct (ServeHTTP _ _ _) as [|c|f] eqn:E; [exfalso..|done]; revert E; unfold ServeHTTP.
  all: rewrite Hroute, Hb, Revoke_signer, Hv, Hr.
  all: destruct (String.eqb_spec tok' "") as [->|]; [|done].
  all: by apply Verify_Ok in Hv as (? & ? & ? & ? & _).
Qed.

Lemma revocation_misses_respelling_witness :
  exists tok', tok' <> demo_token /\
    forwarded (ServeHTTP (Revoke (NewHandler demo_signer) demo_token (fun _ => 0))
      (demo_request tok') 1600000000000000000) = true.
Proof.
  assert (Hs : Sign (signer (NewHandler demo_signer)) (Ok "0123456789abcdef") "web" 8080
    1700000000000000000 = Ok demo_token) by reflexivity.
  destruct (revocation_misses_respelling (NewHandler demo_signer) _ "web" 8080 _ _ (fun _ => 0)
    Hs eq_refl) as (tok' & Hne & H).
  exists tok'. split; [exact Hne|].
  apply (H _ "/index.html"); [reflexivity|reflexivity|vm_compute; reflexivity].
Defined.

(** ** The connection pool

    [net/http] keeps idle connections under the address they were dialled for
    and reuses one for any later request with the same address.  The address
    of an [http] URL whose host names no port is the host with port 80. *)

Definition pool_addr (f : Routed) : string := JoinHostPort (OutURLHost (rewrite f)) "80".

(** The pools that can arise: connections are dialled for forwarded requests
    through [dial] and may be dropped at any time.  A connection is the pair of
    arguments [DialPort] opened it with. *)
Inductive pool : list (string * (string * Z)) -> Prop :=
  | pool_nil : pool []
  | pool_dial conns h r now f c :
      pool conns -> ServeHTTP h r now = Forward f ->
      dial Err (fun n p => Ok (n, p)) (Some (RouteName f, RoutePort f)) (pool_addr f) = Ok c ->
      pool ((pool_addr f, c) :: conns)
  | pool_drop conns conns' : pool conns -> sublist conns' conns -> pool conns'.

Lemma parseRoute_port path name port rest :
  parseRoute path = Some (name, port, rest) -> 1 <= port <= 65535 /\ name <> "".
Proof.
  unfold parseRoute. destruct (CutPrefix _ _) as [t|]; [|done].
  destruct (SplitN t _ 2) as [|p0 [|p1 ps]]; try done.
  destruct (PathUnescape p0) as [n|]; [|done]. destruct (String.eqb_spec n ""); [done|].
  destruct (Atoi p1) as [p|]; [|done]. destruct (_ || _) eqn:E; [done|].
  intros [= <- <- <-]. zbool. split; [lia|done].
Qed.

Lemma Itoa_inj m n : in_int64 m -> in_int64 n -> Itoa m = Itoa n -> m = n.
Proof.
  intros Hm Hn H. pose proof (ParseInt64_Itoa m Hm) as H1. rewrite H, ParseInt64_Itoa in H1 by done.
  by injection H1.
Qed.

Lemma upstreamHost_inj n p n' p' :
  in_int64 p -> in_int64 p' -> upstreamHost n p = upstreamHost n' p' ->
  p = p' /\ stake 16 (sha256 n) = stake 16 (sha256 n').
Proof.
  intros Hp Hp' H. unfold upstreamHost in H.
  assert (Hl : forall x, String.length (stake 16 (sha256 x)) = 16%nat).
  { intros x. apply stake_length. rewrite sha256_length. lia. }
  apply sapp_inj_length in H as [H1 H2]; [|by rewrite !hex_length, !Hl].
  apply sapp_inj_l, sapp_cancel_r, Itoa_inj in H2; try done. split; [done|]. by apply hex_inj.
Qed.

Lemma upstreamHost_has c n p :
  is_hex c = false -> is_int_byte c = false -> has_byte c "-.sandbox.invalid" = false ->
  has_byte c (upstreamHost n p) = false.
Proof.
  intros Hh Hi Hs. unfold upstreamHost. rewrite !has_byte_app, (Itoa_has c) by done.
  rewrite (all_bytes_not_has is_hex c _ Hh (hex_all _)). cbn [has_byte] in Hs |- *.
  apply orb_false_elim in Hs as [-> Hs]. by rewrite Hs.
Qed.

Lemma JoinHostPort_upstream n p :
  JoinHostPort (upstreamHost n p) "80" = upstreamHost n p ++ ":80".
Proof. unfold JoinHostPort. by rewrite !upstreamHost_has. Qed.

(** A pooled connection never crosses routes: whichever connections the
    pool may hold, one that is found under the address of a forwarded request
    leads to the very port the request was authorised for, and to the very
    sandbox, unless two different names agree in the first half of their
    SHA-256. *)
Theorem pooled_connection_confined conns h r now f n p :
  pool conns -> ServeHTTP h r now = Forward f -> (pool_addr f, (n, p)) ∈ conns ->
  p = RoutePort f /\
  (n = RouteName f \/
   n <> RouteName f /\ stake 16 (sha256 n) = stake 16 (sha256 (RouteName f))).
Proof.
  intros Hpool Hf Hin.
  assert (Hport : forall h r now f, ServeHTTP h r now = Forward f -> in_int64 (RoutePort f)).
  { clear. intros h r now f (name & port & rest & Hr & _ & _ & ->)%ServeHTTP_Forward.
    apply parseRoute_port in Hr as [Hp _]. cbn. unfold in_int64, min_int64, max_int64. lia. }
  assert (Hinv : Forall (fun '(a, (n, p)) =>
    a = upstreamHost n p ++ ":80" /\ in_int64 p) conns).
  { clear Hin. induction Hpool as [|conns h' r' now' f' [n' p'] _ IH Hf' Hd|conns conns' _ IH Hs].
    - constructor.
    - constructor; [|done]. unfold dial in Hd. destruct (negb _) eqn:E; [done|].
      injection Hd as <- <-. apply negb_false_iff, String.eqb_eq in E.
      rewrite E, JoinHostPort_upstream. eauto.
    - rewrite Forall_forall in IH |- *. intros x Hx. apply IH. by eapply sublist_subseteq. }
  rewrite Forall_forall in Hinv. destruct (Hinv _ Hin) as [Ha Hp].
  unfold pool_addr, rewrite in Ha. cbn [OutURLHost] in Ha. rewrite JoinHostPort_upstream in Ha.
  apply sapp_cancel_r, upstreamHost_inj in Ha as [<- Hs]; eauto.
  split; [done|]. destruct (decide (n = RouteName f)); auto.
Qed.

Lemma pooled_connection_confined_witness :
  exists conns f, pool conns /\
    ServeHTTP (NewHandler demo_signer) (demo_request demo_token) 1600000000000000000 = Forward f /\
    (pool_addr f, ("web", 8080)) ∈ conns /\ 8080 = RoutePort f.
Proof.
  set (f := mkRouted "web" 8080 "/index.html"
    (HeaderDel (ReqHeader (demo_request demo_token)) "Authorization")).
  assert (Hp : pool [(pool_addr f, ("web", 8080))]).
  { eapply pool_dial; [constructor|exact demo_forwarded|].
    unfold dial, pool_addr, f, rewrite. cbn [OutURLHost RouteName RoutePort].
    rewrite String.eqb_refl. reflexivity. }
  exists [(pool_addr f, ("web", 8080))], f.
  assert (Hin : (pool_addr f, ("web", 8080)) ∈ [(pool_addr f, ("web", 8080))]).
  { apply elem_of_cons. by left. }
  split; [exact Hp|]. split; [exact demo_forwarded|]. split; [exact Hin|].
  exact (proj1 (pooled_connection_confined _ _ _ _ _ _ _ Hp demo_forwarded Hin)).
Defined.

(** ** The forwarded path *)

(** The request line's path is the escaping of the routed one. *)
Definition upstream_path (f : Routed) : string := EscapedPath (OutPath (rewrite f)).

(** The path the sandbox's server sees is the client's with its percent
    signs escaped again: a path whose bytes never need escaping arrives as it
    was sent, but the route is cut from the escaped path and stored as an
    unescaped one, so [%20] arrives as [%2520]. *)
Theorem forwarded_path_reescaped :
  (forall h r now f name port rest, ServeHTTP h r now = Forward f ->
     parseRoute (ReqEscapedPath r) = Some (name, port, rest) ->
     all_bytes (fun c => negb (path_escapes c)) rest = true -> upstream_path f = rest) /\
  parseRoute "/preview/web/8080/a%20b" = Some ("web", 8080, "/a%20b") /\
  forall hdr, upstream_path (mkRouted "web" 8080 "/a%20b" hdr) = "/a%2520b".
Proof.
  split; [|done].
  intros h r now f name port rest (? & ? & ? & Hr & _ & _ & ->)%ServeHTTP_Forward Hr' Hall.
  rewrite Hr in Hr'. injection Hr' as -> -> ->. unfold upstream_path, EscapedPath. cbn.
  destruct (String.eqb_spec rest "*") as [->|]; [done|]. by apply escape_path_id.
Qed.
