(* ===== verification/DockerApi.v ===== *)
(** * The Docker client as the program uses it

    The calls the program makes on the Docker engine, with the fields of their
    arguments and answers that it sets or reads, as an effect signature for
    [Effects.prog].  The engine itself is third-party code: nothing here says
    how it answers.  [DockerEngine] states, as a class, the documented
    behaviour some theorems rely on. *)

From S2P Require Import Prelude GoErrors GoFloat64 GoTime Sha256 Effects.

(** [container.Config], the fields [buildConfig] sets. *)
Record ContainerConfig : Type := mkContainerConfig {
  CfgImage : string;
  CfgLabels : gmap string string;
  CfgUser : string;
  CfgEnv : list string;
  CfgEntrypoint : list string;
  CfgCmd : list string;
  CfgWorkingDir : string
}.

(** [container.HostConfig]: the fields the program sets, and the ones whose
    zero values matter for containment. *)
Record HostConfig : Type := mkHostConfig {
  HRuntime : string;
  HReadonlyRootfs : bool;
  HCapDrop : list string;
  HSecurityOpt : list string;
  HTmpfs : gmap string string;
  HNanoCPUs : Z;
  HMemory : Z;
  HMemorySwap : Z;
  HPidsLimit : option Z;
  HRestartPolicy : string;
  HNetworkMode : string;
  HPrivileged : bool;
  HCapAdd : list string;
  HBinds : list string
}.

(** [container.State] *)
Record CState : Type := mkCState {
  Status : string;
  Running : bool;
  StateOOMKilled : bool
}.

(** [container.InspectResponse].  Its embedded base is never nil in an answer
    the client decoded, so the identifier is always there. *)
Record ContainerJSON : Type := mkContainerJSON {
  CjID : string;
  CjState : option CState;
  CjConfig : option (string * gmap string string)   (** image, labels *)
}.

(** [container.Summary] *)
Record Summary : Type := mkSummary {
  SumID : string;
  SumImage : string;
  SumState : string;
  SumLabels : gmap string string
}.

(** [container.ExecOptions] *)
Record ExecOptions : Type := mkExecOptions {
  ExCmd : list string;
  ExEnv : list string;
  ExWorkingDir : string;
  ExUser : string;
  ExAttachStdin : bool;
  ExAttachStdout : bool;
  ExAttachStderr : bool
}.

(** How waiting for an exec's output ended: the multiplexed stream was read to
    its end (each frame to stdout, [false], or stderr, [true]) or the context
    was done first, with its error. *)
Inductive StreamEnd : Type :=
  | CopyDone (frames : list (bool * string)) (err : option error)
  | CtxDone (err : error).

(** The calls that leave the process, and the reads of clock and entropy. *)
Inductive dockerE : Type -> Type :=
  | ContainerInspect (ref : string) : dockerE (result ContainerJSON)
  | ContainerCreate (cfg : ContainerConfig) (host : HostConfig) (name : string)
      : dockerE (result string)
  | ContainerStart (id : string) : dockerE (result unit)
  | ContainerStop (id : string) : dockerE (result unit)
  | ContainerRemove (ref : string) (force volumes : bool) : dockerE (result unit)
  | ContainerList (all : bool) (label : string) : dockerE (result (list Summary))
  | DaemonInfo : dockerE (result (list string))
  | ImageInspect (ref : string) : dockerE (result unit)
  | ImagePull (ref auth : string) : dockerE (result unit)
  | DrainPull : dockerE (result unit)
  | ContainerExecCreate (id : string) (opts : ExecOptions) : dockerE (result string)
  | ContainerExecAttach (exec : string) : dockerE (result unit)
  | PumpStdin (exec : string) (src : string) : dockerE unit
  | AwaitOutput (exec : string) (timeout : Z) : dockerE StreamEnd
  | ContainerExecInspect (exec : string) : dockerE (result Z)
  | ContainerWait (id : string) (timeout : Z) : dockerE bool
  | Sleep (interval : Z) : dockerE bool
  | GoTouch (id : string) : dockerE unit
  | Now : dockerE time
  | RandBytes (n : Z) : dockerE (result string).

(** Conversions of floats that do not fit an [int64] are the platform's. *)
Class FloatConv : Type := { int64_out_of_range : float64 -> Z }.

Definition f64_to_int64 `{FloatConv} (x : float64) : Z :=
  match f64_trunc x with
  | Some z => if (min_int64 <=? z) && (z <=? max_int64) then z else int64_out_of_range x
  | None => int64_out_of_range x
  end.

Definition float_conv_default : FloatConv := {| int64_out_of_range := fun _ => min_int64 |}.

(** ** Documented behaviour of the engine

    [step] relates a call in an engine state to an answer and the state after
    it; [view] is the part of the state that matters, the containers by name.
    The laws say what a call that succeeds has done and that a call that fails
    with a not-found or conflict error tells the truth, and that the engine's
    errors are not openblox's own sentinel; they allow every call to fail. *)
Record Container : Type := mkContainer {
  CtID : string;
  CtConfig : ContainerConfig;
  CtHost : HostConfig;
  CtStatus : string
}.

Definition container_json (c : Container) : ContainerJSON :=
  mkContainerJSON (CtID c)
    (Some (mkCState (CtStatus c) (String.eqb (CtStatus c) "running") false))
    (Some (CfgImage (CtConfig c), CfgLabels (CtConfig c))).

Definition with_status (c : Container) (s : string) : Container :=
  mkContainer (CtID c) (CtConfig c) (CtHost c) s.

(** A reference names a container or is its identifier. *)
Definition refers (ref name : string) (c : Container) : Prop := ref = name \/ ref = CtID c.

Class DockerEngine {W : Type} (view : W -> gmap string Container)
    (step : forall X, dockerE X -> W -> X -> W -> Prop) : Prop := {
  engine_inspect_ok : forall ref w j w',
    step _ (ContainerInspect ref) w (Ok j) w' ->
    view w' = view w /\
    exists name c, view w !! name = Some c /\ refers ref name c /\
      CjID j = CtID c /\ CjConfig j = CjConfig (container_json c) /\
      (Status <$> CjState j) = Some (CtStatus c);
  engine_inspect_err : forall ref w e w',
    step _ (ContainerInspect ref) w (Err e) w' ->
    view w' = view w /\ Is e ErrNotFound = false /\
    (IsNotFound e = true -> forall name c, view w !! name = Some c -> ~ refers ref name c);
  engine_create_ok : forall cfg host name w id w',
    step _ (ContainerCreate cfg host name) w (Ok id) w' ->
    view w !! name = None /\ all_bytes is_hex id = true /\
    (forall name' c, view w !! name' = Some c -> CtID c <> id /\ name' <> id) /\
    view w' = <[name := mkContainer id cfg host "created"]> (view w);
  engine_create_err : forall cfg host name w e w',
    step _ (ContainerCreate cfg host name) w (Err e) w' ->
    view w' = view w /\ (IsConflict e = true -> is_Some (view w !! name));
  engine_start : forall id w r w',
    step _ (ContainerStart id) w r w' ->
    match r with
    | Ok _ => exists name c, view w !! name = Some c /\ refers id name c /\
        view w' = <[name := with_status c "running"]> (view w)
    | Err _ => view w' = view w
    end;
  engine_remove : forall ref force vols w r w',
    step _ (ContainerRemove ref force vols) w r w' ->
    match r with
    | Ok _ => exists name c, view w !! name = Some c /\ refers ref name c /\
        view w' = delete name (view w)
    | Err e => view w' = view w /\
        (IsNotFound e = true -> forall name c, view w !! name = Some c -> ~ refers ref name c)
    end;
  engine_list : forall all label w r w',
    step _ (ContainerList all label) w r w' -> view w' = view w;
  engine_info : forall w r w', step _ DaemonInfo w r w' -> view w' = view w;
  engine_image_inspect : forall ref w r w', step _ (ImageInspect ref) w r w' -> view w' = view w;
  engine_pull : forall ref auth w r w', step _ (ImagePull ref auth) w r w' -> view w' = view w;
  engine_drain : forall w r w', step _ DrainPull w r w' -> view w' = view w;
  engine_now : forall w r w', step _ Now w r w' -> view w' = view w
}.
