(* ===== verification/DockerBackend.v ===== *)
(** * pkg/docker/backend.go and image.go: sandboxes as containers

    The labels that are the sandbox registry, the create payload, and the
    backend's operations as programs over the Docker client. *)

From S2P Require Import Prelude GoErrors GoStrings GoFloat64 GoDuration GoTime GoNet Sha256.
From S2P Require Import Effects Sandbox PreviewToken PreviewProxy DockerApi.

Definition labelManaged : string := "sh.openblox.managed".
Definition labelName : string := "sh.openblox.name".
Definition labelCreatedAt : string := "sh.openblox.created-at".
Definition labelIdle : string := "sh.openblox.idle-timeout".
Definition labelMaxAge : string := "sh.openblox.max-age".
Definition labelDefTmo : string := "sh.openblox.default-timeout".
Definition labelMaxTmo : string := "sh.openblox.max-timeout".
Definition labelUserPfx : string := "sh.openblox.user.".

Definition containerPrefix : string := "openblox-".
Definition scratchPaths : list string := ["/tmp"; "/workspace"].
Definition stateDir : string := "/run/openblox".
Definition lastUsedPath : string := stateDir ++ "/last-used".
Definition stateDirBytes : Z := Z.shiftl 64 10.

(** What [WithPreviews] configures; the handler's state is kept apart. *)
Record Previews : Type := mkPreviews {
  PvSigner : Signer;
  PvBaseURL : string
}.

Record Backend : Type := mkBackend {
  previews : option Previews;
  registryAuth : string
}.

(** [WithRegistryAuth]; [encode] is the Docker library's encoder. *)
Definition WithRegistryAuth (encode : string -> string -> result string)
    (username password : string) (b : Backend) : result Backend :=
  if String.eqb username "" then
    Err (Errorf "%w: registry username is empty" [AWrap (Sentinel ErrInvalid)])
  else
    match encode username password with
    | Err err => Err (Errorf "encode registry auth: %w" [AWrap err])
    | Ok blob => Ok (mkBackend (previews b) blob)
    end.

Definition WithPreviews (key baseURL : string) (b : Backend) : result Backend :=
  try signer := NewSigner key in
  if String.eqb baseURL "" then
    Err (Errorf "%w: preview base URL is empty" [AWrap (Sentinel ErrInvalid)])
  else Ok (mkBackend (Some (mkPreviews signer baseURL)) (registryAuth b)).

(** The options [New] applies, in order, to an empty backend. *)
Fixpoint New_opts (opts : list (Backend -> result Backend)) (b : Backend) : result Backend :=
  match opts with
  | [] => Ok b
  | opt :: opts => try b := opt b in New_opts opts b
  end.

(** [cli] is what connecting the Docker client answers. *)
Definition New (cli : result unit) (opts : list (Backend -> result Backend)) : result Backend :=
  match cli with
  | Err err => Err (Errorf "connect to docker: %w" [AWrap err])
  | Ok _ => New_opts opts (mkBackend None "")
  end.

(** A sandbox handle. *)
Record dockerSandbox : Type := mkDockerSandbox {
  ds_id : string;
  ds_info : Info;
  ds_defaultTimeout : Z;
  ds_maxTimeout : Z;
  ds_previews : option Previews
}.

(** ** Names and labels *)

Definition containerName (name : string) : string :=
  containerPrefix ++ stake 32 (hex (sha256 name)).

Definition stateFromStatus (status : string) : string :=
  if String.eqb status "running" || String.eqb status "restarting" then StateRunning
  else if String.eqb status "created" || String.eqb status "paused"
          || String.eqb status "exited" || String.eqb status "removing" then StateStopped
  else StateError.

Definition parseDurationLabel (v : string) (fallback : Z) : Z :=
  match ParseDuration v with
  | None => fallback
  | Some d => if d <=? 0 then fallback else d
  end.

Definition parseTimeLabel (v : string) : time :=
  match ParseRFC3339Nano v with None => zero_time | Some t => t end.

(** [labels[k]]: a missing key reads as the empty string. *)
Definition label (labels : gmap string string) (k : string) : string :=
  default "" (labels !! k).

Section labels.
Context `{MapRange string}.

Definition userLabels (labels : gmap string string) : gmap string string :=
  fold_left (fun out '(k, v) =>
    match CutPrefix k labelUserPfx with
    | Some name => <[name := v]> out
    | None => out
    end) (range labels) ∅.

Definition infoFrom (id : string) (labels : gmap string string) (image : string)
    (state : option CState) : Info :=
  let status := match state with Some s => Status s | None => "" end in
  mkInfo (label labels labelName) id image (stateFromStatus status)
    (parseTimeLabel (label labels labelCreatedAt)) (userLabels labels).

(** ** The create payload *)

Definition scratchMounts (diskBytes : Z) : gmap string string :=
  let per := Z.quot diskBytes (Z.of_nat (length scratchPaths)) in
  let out := fold_left (fun out p =>
    let mode := if negb (String.eqb p "/tmp") then "0777" else "1777" in
    <[p := "rw,nosuid,nodev,noexec,size=" ++ Itoa per ++ ",mode=" ++ mode]> out)
    scratchPaths ∅ in
  <[stateDir := "rw,nosuid,nodev,noexec,size=" ++ Itoa stateDirBytes ++ ",mode=0755"]> out.

Definition pidsLimit (n : Z) : option Z := if n <=? 0 then None else Some n.

Definition buildLabels (name : string) (spec : Spec) (now : time) : gmap string string :=
  fold_left (fun labels '(k, v) => <[labelUserPfx ++ k := v]> labels) (range (Labels spec))
    (list_to_map [(labelManaged, "true"); (labelName, name);
      (labelCreatedAt, FormatRFC3339Nano now);
      (labelIdle, DurationString (IdleTimeout (Life spec)));
      (labelMaxAge, DurationString (MaxAge (Life spec)));
      (labelDefTmo, DurationString (DefaultTimeout spec));
      (labelMaxTmo, DurationString (MaxTimeout spec))]).

Context `{FloatConv}.

(** [buildConfig]; [now] is what [time.Now] reads. *)
Definition buildConfig (name : string) (spec : Spec) (now : time)
    : ContainerConfig * HostConfig :=
  (mkContainerConfig (Image spec) (buildLabels name spec now) (User spec) (Env spec)
     ["/bin/sh"; "-c"; "while :; do sleep 3600; done"] [] "/workspace",
   mkHostConfig (Runtime spec) true ["ALL"] ["no-new-privileges"]
     (scratchMounts (DiskBytes (Res spec)))
     (f64_to_int64 (f64_mul (CPUs (Res spec)) (f64_of_int 1000000000)))
     (MemoryBytes (Res spec)) (MemoryBytes (Res spec))
     (pidsLimit (MaxProcesses (Res spec))) "no"
     (if Egress spec =? EgressNone then "none" else "")
     false [] []).

(** ** Operations *)

Section backend.
Variable b : Backend.

Definition Open (name : string) : prog dockerE (result dockerSandbox) :=
  r <- call (ContainerInspect (containerName name));;
  match r with
  | Err err =>
      if IsNotFound err then Ret (Err (Errorf "%w: %q" [AWrap (Sentinel ErrNotFound); AStr name]))
      else Ret (Err (Errorf "inspect sandbox %q: %w" [AStr name; AWrap err]))
  | Ok inspect =>
      match CjConfig inspect with
      | None => Ret (Err (Errorf "%w: %q exists but is not managed by openblox"
          [AWrap (Sentinel ErrInvalid); AStr name]))
      | Some (image, labels) =>
          if negb (String.eqb (label labels labelManaged) "true") then
            Ret (Err (Errorf "%w: %q exists but is not managed by openblox"
              [AWrap (Sentinel ErrInvalid); AStr name]))
          else Ret (Ok (mkDockerSandbox (CjID inspect)
            (infoFrom (CjID inspect) labels image (CjState inspect))
            (parseDurationLabel (label labels labelDefTmo) DefaultCommandTimeout)
            (parseDurationLabel (label labels labelMaxTmo) MaxCommandTimeout)
            (previews b)))
      end
  end.

Definition List : prog dockerE (result (list Info)) :=
  r <- call (ContainerList true (labelManaged ++ "=true"));;
  match r with
  | Err err => Ret (Err (Errorf "list sandboxes: %w" [AWrap err]))
  | Ok containers =>
      Ret (Ok (map (fun c => mkInfo (label (SumLabels c) labelName) (SumID c) (SumImage c)
        (stateFromStatus (SumState c)) (parseTimeLabel (label (SumLabels c) labelCreatedAt))
        (userLabels (SumLabels c))) containers))
  end.

Definition Destroy (name : string) : prog dockerE (result unit) :=
  r <- call (ContainerRemove (containerName name) true true);;
  match r with
  | Err err =>
      if negb (IsNotFound err) then
        Ret (Err (Errorf "destroy sandbox %q: %w" [AStr name; AWrap err]))
      else Ret (Ok tt)
  | Ok _ => Ret (Ok tt)
  end.

Definition halted (id : string) : prog dockerE (result bool) :=
  r <- call (ContainerInspect id);;
  match r with
  | Err err =>
      if IsNotFound err then Ret (Ok true)
      else Ret (Err (Errorf "inspect sandbox %q: %w" [AStr id; AWrap err]))
  | Ok inspect =>
      match CjState inspect with
      | None => Ret (Err (Errorf "inspect sandbox %q: the daemon reported no state" [AStr id]))
      | Some st => Ret (Ok (String.eqb (Status st) "exited" || String.eqb (Status st) "dead"))
      end
  end.

Definition assertRuntime (runtime : string) : prog dockerE (result unit) :=
  r <- call DaemonInfo;;
  match r with
  | Err err => Ret (Err (Errorf "inspect docker daemon: %w" [AWrap err]))
  | Ok runtimes =>
      if bool_decide (runtime ∈ runtimes) then Ret (Ok tt)
      else Ret (Err (Errorf "%w: runtime %q is not registered with the docker daemon"
        [AWrap (Sentinel ErrRuntimeUnavailable); AStr runtime]))
  end.

Definition ensureImage (ref : string) : prog dockerE (result unit) :=
  r <- call (ImageInspect ref);;
  match r with
  | Ok _ => Ret (Ok tt)
  | Err err =>
      if negb (IsNotFound err) then
        Ret (Err (Errorf "inspect image %q: %w" [AStr ref; AWrap err]))
      else
        p <- call (ImagePull ref (registryAuth b));;
        match p with
        | Err err => Ret (Err (Errorf "%w: pull image %q: %w"
            [AWrap (Sentinel ErrImageUnavailable); AStr ref; AWrap err]))
        | Ok _ =>
            d <- call DrainPull;;
            match d with
            | Err err => Ret (Err (Errorf "%w: pull image %q: %w"
                [AWrap (Sentinel ErrImageUnavailable); AStr ref; AWrap err]))
            | Ok _ =>
                i <- call (ImageInspect ref);;
                match i with
                | Err _ => Ret (Err (Errorf "%w: image %q is still absent after pulling"
                    [AWrap (Sentinel ErrImageUnavailable); AStr ref]))
                | Ok _ => Ret (Ok tt)
                end
            end
        end
  end.

(** The part of [Create] after the lookup: no usable sandbox is there. *)
Definition create_fresh (name : string) (spec : Spec) : prog dockerE (result dockerSandbox) :=
  _ <-? assertRuntime (Runtime spec);;
  _ <-? ensureImage (Image spec);;
  now <- call Now;;
  let '(cfg, hostCfg) := buildConfig name spec now in
  created <- call (ContainerCreate cfg hostCfg (containerName name));;
  match created with
  | Err err =>
      if IsConflict err then Open name
      else Ret (Err (Errorf "create sandbox %q: %w" [AStr name; AWrap err]))
  | Ok id =>
      st <- call (ContainerStart id);;
      match st with
      | Err err =>
          _ <- call (ContainerRemove id true false);;
          Ret (Err (Errorf "start sandbox %q: %w" [AStr name; AWrap err]))
      | Ok _ => Open name
      end
  end.

Definition Create (name : string) (opts : list CreateOption) : prog dockerE (result dockerSandbox) :=
  if String.eqb name "" then
    Ret (Err (Errorf "%w: sandbox name is empty" [AWrap (Sentinel ErrInvalid)]))
  else
    let spec := NewSpec opts in
    match Spec_Validate spec with
    | Err err => Ret (Err err)
    | Ok _ =>
        if String.eqb (Image spec) "" then
          Ret (Err (Errorf "%w: no image; pass WithImage" [AWrap (Sentinel ErrInvalid)]))
        else
          o <- Open name;;
          match o with
          | Ok sb =>
              stopped <-? halted (InfoID (ds_info sb));;
              if negb stopped then Ret (Ok sb)
              else
                _ <-? Destroy name;;
                create_fresh name spec
          | Err err =>
              if negb (Is err ErrNotFound) then Ret (Err err)
              else create_fresh name spec
          end
    end.
End backend.
End labels.

(** [IsDigestPinned] *)
Definition IsDigestPinned (ref : string) : bool :=
  match AfterLast ref "@"%char with
  | None => false
  | Some digest => HasPrefix digest "sha256:"
  end.

#[global] Arguments containerName : simpl never.
#[global] Arguments buildConfig : simpl never.
#[global] Arguments scratchMounts : simpl never.

(** ** Labels are the registry *)

Section label_facts.
Context `{MapRange string}.

Lemma pfx_inj x y : labelUserPfx ++ x = labelUserPfx ++ y -> x = y.
Proof. apply sapp_inj_l. Qed.

Definition own_labels (name : string) (spec : Spec) (now : time) : gmap string string :=
  list_to_map [(labelManaged, "true"); (labelName, name);
    (labelCreatedAt, FormatRFC3339Nano now);
    (labelIdle, DurationString (IdleTimeout (Life spec)));
    (labelMaxAge, DurationString (MaxAge (Life spec)));
    (labelDefTmo, DurationString (DefaultTimeout spec));
    (labelMaxTmo, DurationString (MaxTimeout spec))].

(** Looking a label up: the caller's under their prefix, else openblox's own. *)
Lemma buildLabels_lookup name spec now k :
  buildLabels name spec now !! k =
  match CutPrefix k labelUserPfx with
  | Some x => match Labels spec !! x with Some v => Some v | None => own_labels name spec now !! k end
  | None => own_labels name spec now !! k
  end.
Proof.
  unfold buildLabels. rewrite (fold_insert_lookup (fun k => labelUserPfx ++ k)) by
    (apply pfx_inj || apply range_NoDup_fst). fold (own_labels name spec now).
  destruct (list_find _ _) as [[i [x v]]|] eqn:E.
  - apply list_find_Some in E as (Hi & <- & _). rewrite CutPrefix_app.
    apply list_elem_of_lookup_2, elem_of_range in Hi. by rewrite Hi.
  - apply list_find_None in E. destruct (CutPrefix k _) as [x|] eqn:Ec; [|done].
    apply CutPrefix_Some in Ec as ->. destruct (Labels spec !! x) as [v|] eqn:Ev; [|done].
    apply elem_of_range in Ev. rewrite Forall_forall in E. by apply E in Ev.
Qed.

Lemma own_label name spec now k :
  CutPrefix k labelUserPfx = None ->
  label (buildLabels name spec now) k = label (own_labels name spec now) k.
Proof. intros Hk. unfold label. by rewrite buildLabels_lookup, Hk. Qed.

Lemma userLabels_lookup labels x :
  userLabels labels !! x = labels !! (labelUserPfx ++ x).
Proof.
  unfold userLabels.
  assert (Hfold : forall l (base : gmap string string), NoDup l.*1 ->
    (forall v, (labelUserPfx ++ x, v) ∈ l -> base !! x = None) ->
    fold_left (fun out '(k, v) =>
      match CutPrefix k labelUserPfx with Some name => <[name := v]> out | None => out end) l base !! x =
    match list_find (fun '(k, _) => k = labelUserPfx ++ x) l with
    | Some (_, (_, v)) => Some v
    | None => base !! x
    end).
  { induction l as [|[k v] l IH]; intros base Hnd Hb; cbn [fold_left]; [done|].
    cbn in Hnd. apply NoDup_cons in Hnd as [Hk Hnd]. cbn [list_find].
    assert (Hno : forall w, (k, w) ∉ l).
    { intros w Hw. apply Hk, list_elem_of_fmap. by exists (k, w). }
    destruct (CutPrefix k labelUserPfx) as [n|] eqn:Ec.
    - apply CutPrefix_Some in Ec as ->. rewrite IH; [| done |].
      + destruct (decide (labelUserPfx ++ n = labelUserPfx ++ x)) as [He|He].
        * apply pfx_inj in He as ->. destruct (list_find _ l) as [[i [y w]]|] eqn:E; cbn.
          -- apply list_find_Some in E as (Hi & -> & _). apply list_elem_of_lookup_2 in Hi. by apply Hno in Hi.
          -- by rewrite lookup_insert_eq.
        * destruct (list_find _ l) as [[i [y w]]|]; cbn; [done|].
          rewrite lookup_insert_ne; [done|congruence].
      + intros w Hw. destruct (decide (n = x)) as [->|]; [by apply Hno in Hw|].
        rewrite lookup_insert_ne by done. apply (Hb w). by right.
    - rewrite IH; [|done|intros w Hw; apply (Hb w); by right].
      destruct (decide (k = labelUserPfx ++ x)) as [->|].
      + by rewrite CutPrefix_app in Ec.
      + by destruct (list_find _ l) as [[i [y w]]|]. }
  rewrite Hfold; [|apply range_NoDup_fst|intros; apply lookup_empty].
  destruct (list_find _ _) as [[i [y w]]|] eqn:E.
  - apply list_find_Some in E as (Hi & -> & _). apply list_elem_of_lookup_2, elem_of_range in Hi. done.
  - apply list_find_None in E. rewrite lookup_empty. symmetry. apply eq_None_not_Some.
    intros [v Hv]. apply elem_of_range in Hv. rewrite Forall_forall in E. by apply E in Hv.
Qed.

Lemma userLabels_buildLabels name spec now :
  userLabels (buildLabels name spec now) = Labels spec.
Proof.
  apply map_eq. intros x. rewrite userLabels_lookup, buildLabels_lookup, CutPrefix_app.
  destruct (Labels spec !! x); [done|].
  unfold own_labels. apply not_elem_of_list_to_map_1. set_unfold. naive_solver.
Qed.

Lemma parseDurationLabel_String d fallback :
  in_int64 d -> 0 < d -> parseDurationLabel (DurationString d) fallback = d.
Proof.
  intros Hd Hp. unfold parseDurationLabel. rewrite ParseDuration_String by done.
  destruct (Z.leb_spec d 0); [lia|done].
Qed.

(** C36. The container's labels carry the whole handle: what [Open] and [List]
    read back from the labels [Create] writes is the sandbox's name, its
    creation time to the nanosecond, exactly the caller's own labels (none of
    openblox's), and the timeouts the specification asked for. *)
Theorem labels_round_trip name spec now id image st :
  four_digit_year now ->
  infoFrom id (buildLabels name spec now) image st =
    mkInfo name id image
      (stateFromStatus (match st with Some s => Status s | None => "" end)) now (Labels spec) /\
  (in_int64 (DefaultTimeout spec) -> 0 < DefaultTimeout spec ->
     parseDurationLabel (label (buildLabels name spec now) labelDefTmo) DefaultCommandTimeout
     = DefaultTimeout spec) /\
  (in_int64 (MaxTimeout spec) -> 0 < MaxTimeout spec ->
     parseDurationLabel (label (buildLabels name spec now) labelMaxTmo) MaxCommandTimeout
     = MaxTimeout spec).
Proof.
  intros Hy. unfold infoFrom. rewrite userLabels_buildLabels, !own_label by done.
  change (label (own_labels name spec now) labelName) with name.
  change (label (own_labels name spec now) labelCreatedAt) with (FormatRFC3339Nano now).
  change (label (own_labels name spec now) labelDefTmo) with (DurationString (DefaultTimeout spec)).
  change (label (own_labels name spec now) labelMaxTmo) with (DurationString (MaxTimeout spec)).
  unfold parseTimeLabel. rewrite ParseRFC3339Nano_Format by done.
  split; [done|]. split; intros; by apply parseDurationLabel_String.
Qed.
End label_facts.

Lemma labels_round_trip_witness :
  let spec := NewSpec [WithImage "img"; WithLabel "name" "x"; WithCommandTimeouts Second Minute] in
  InfoLabels (infoFrom (H := map_range_default string) "c1"
    (buildLabels (H := map_range_default string) "web" spec 1700000000123456789) "img" None)
  = Labels spec.
Proof.
  assert (Hy : four_digit_year 1700000000123456789) by (vm_compute; split; congruence).
  intros spec.
  rewrite (proj1 (labels_round_trip (H := map_range_default string) "web" spec _ "c1" "img" None Hy)).
  reflexivity.
Defined.

(** ** Containment of what is created *)

(** The controls of a container created for this name and specification. *)
Record hardened (name : string) (spec : Spec) (cfg : ContainerConfig) (host : HostConfig)
    : Prop := {
  hard_user : exists uid gid, CfgUser cfg = uid ++ ":" ++ gid /\
    unprivileged_id uid /\ unprivileged_id gid;
  hard_privileges : HPrivileged host = false /\ HCapDrop host = ["ALL"] /\ HCapAdd host = [] /\
    HSecurityOpt host = ["no-new-privileges"];
  hard_rootfs : HReadonlyRootfs host = true /\ HBinds host = [];
  hard_tmpfs : forall path opts, HTmpfs host !! path = Some opts ->
    HasPrefix opts "rw,nosuid,nodev,noexec,size=" = true;
  hard_network : HNetworkMode host = "none" \/ Egress spec = EgressUnrestricted;
  hard_image : CfgImage cfg = Image spec;
  hard_runtime : HRuntime host = Runtime spec;
  hard_memory : HMemory host = MemoryBytes (Res spec) /\ HMemorySwap host = HMemory host;
  hard_scratch : DiskBytes (Res spec) <= HMemory host;
  hard_pids : 0 < MaxProcesses (Res spec) -> HPidsLimit host = Some (MaxProcesses (Res spec));
  hard_restart : HRestartPolicy host = "no";
  hard_labels : label (CfgLabels cfg) labelManaged = "true" /\ label (CfgLabels cfg) labelName = name
}.

Section containment.
Context `{MapRange string} `{FloatConv}.

Lemma scratchMounts_noexec disk path opts :
  scratchMounts disk !! path = Some opts -> HasPrefix opts "rw,nosuid,nodev,noexec,size=" = true.
Proof.
  unfold scratchMounts. cbn [fold_left scratchPaths].
  rewrite !lookup_insert. repeat case_decide; try (intros Ho%(inj Some); subst opts; apply HasPrefix_app).
  by rewrite lookup_empty.
Qed.

Lemma buildConfig_hardened name spec now :
  Spec_Validate spec = Ok tt ->
  hardened name spec (fst (buildConfig name spec now)) (snd (buildConfig name spec now)).
Proof.
  intros (Hu & He & Hd)%(proj1 (Spec_Validate_ok spec)). unfold buildConfig. constructor; cbn [fst snd CfgImage CfgUser HPrivileged HCapDrop HCapAdd HSecurityOpt HReadonlyRootfs HBinds HTmpfs HNetworkMode HRuntime HMemory HMemorySwap HPidsLimit HRestartPolicy CfgLabels]; try done.
  - by apply validateUser_ok.
  - intros path opts. apply scratchMounts_noexec.
  - unfold EgressNone in *. destruct He as [->|?]; [by left|by right].
  - intros Hm. unfold pidsLimit. destruct (Z.leb_spec (MaxProcesses (Res spec)) 0); [lia|done].
  - split; [by rewrite own_label|by rewrite own_label].
Qed.

(** The calls [Create] may make on any container, image or daemon. *)
Definition create_calls (name : string) (spec : Spec) : forall X, dockerE X -> Prop :=
  fun X e => match e with
  | ContainerCreate cfg host cname => cname = containerName name /\ hardened name spec cfg host
  | ContainerExecCreate _ _ | ContainerStop _ => False
  | ContainerRemove _ force _ => force = true
  | ImagePull ref _ | ImageInspect ref => ref = Image spec
  | _ => True
  end.

Variable b : Backend.

Lemma Open_safe name (P : forall X, dockerE X -> Prop) (Q : result dockerSandbox -> Prop) :
  (forall ref, P _ (ContainerInspect ref)) -> (forall r, Q r) -> safe P (Open b name) Q.
Proof.
  intros HP HQ. unfold Open. cbn. split; [apply HP|]. intros r. repeat casesplit; cbn; auto.
Qed.

Lemma Create_safe name opts :
  safe (create_calls name (NewSpec opts)) (Create b name opts) (fun _ => True).
Proof.
  unfold Create. destruct (String.eqb name ""); [done|].
  destruct (Spec_Validate (NewSpec opts)) as [[]|] eqn:Ev; [|done].
  destruct (String.eqb (Image _) ""); [done|].
  assert (Hfresh : safe (create_calls name (NewSpec opts)) (create_fresh b name (NewSpec opts))
    (fun _ => True)).
  { unfold create_fresh. apply safe_bind with (fun _ => True).
    { cbn. split; [done|]. intros [rs|e]; [|done]. by case_bool_decide. }
    intros [[]|e] _; [|done]. apply safe_bind with (fun _ => True).
    { cbn. split; [done|]. intros [[]|e]; [done|]. destruct (negb (IsNotFound e)); [done|].
      split; [done|]. intros [[]|e']; [|done]. split; [done|]. intros [[]|e'']; [|done].
      split; [done|]. by intros [[]|e''']. }
    intros [[]|e] _; [|done]. cbn [bind call safe]. split; [done|]. intros now.
    pose proof (buildConfig_hardened name (NewSpec opts) now Ev) as Hh.
    destruct (buildConfig name (NewSpec opts) now) as [cfg host]. cbn [bind call safe].
    split; [by split|]. intros [id|e].
    - split; [done|]. intros [[]|e]; [by apply Open_safe|]. cbn. by split.
    - destruct (IsConflict e); [by apply Open_safe|done]. }
  apply safe_bind with (fun _ => True); [by apply Open_safe|]. intros [sb|e] _.
  - apply safe_bind with (fun _ => True).
    { cbn. split; [done|]. intros r. repeat casesplit; done. }
    intros [[]|e] _; [|done|done]. cbn [negb]. apply safe_bind with (fun _ => True).
    { cbn. split; [done|]. intros r. repeat casesplit; done. }
    by intros [[]|e] _.
  - by destruct (negb (Is e ErrNotFound)).
Qed.

(** C2. Every container [Create] creates is contained, whatever Docker answers
    and whoever else is using it: the only container creations an execution
    can perform use the name derived from the sandbox's and a payload that
    runs as an unprivileged numeric user, drops all capabilities, forbids new
    privileges, has a read-only root, only noexec tmpfs mounts, no bind mounts,
    no network unless egress was asked for, no swap, the requested runtime and
    process limit, and never restarts. *)
Theorem Create_hardened name opts :
  safe (create_calls name (NewSpec opts)) (Create b name opts) (fun _ => True).
Proof. apply Create_safe. Qed.

(** What the daemon has confirmed so far in an execution: that the runtime a
    specification asks for is registered, that its image is present. *)
Record confirmed : Type := mkConfirmed { runtime_ok : bool; image_ok : bool }.

Definition confirm (spec : Spec) {X} (e : dockerE X) : X -> confirmed -> confirmed :=
  match e in dockerE X return X -> confirmed -> confirmed with
  | DaemonInfo => fun r c =>
      match r with
      | Ok runtimes => mkConfirmed (bool_decide (Runtime spec ∈ runtimes)) (image_ok c)
      | Err _ => c
      end
  | ImageInspect ref => fun r c =>
      mkConfirmed (runtime_ok c) (String.eqb ref (Image spec) && is_ok r)
  | _ => fun _ c => c
  end.

Definition needs_confirmation (spec : Spec) : forall X, dockerE X -> confirmed -> Prop :=
  fun X e c => match e with
  | ContainerCreate _ host _ =>
      runtime_ok c = true /\ image_ok c = true /\ HRuntime host = Runtime spec
  | _ => True
  end.

Abbreviation confirming spec := (wp (needs_confirmation spec)
  (fun X (e : dockerE X) c x c' => c' = confirm spec e x c)).

Lemma Open_confirming spec name Q c : (forall r, Q r c) -> confirming spec (Open b name) Q c.
Proof.
  intros HQ. unfold Open. cbn. split; [done|]. intros r ? ->.
  destruct r as [j|e]; [|by destruct (IsNotFound e); cbn].
  destruct (CjConfig j) as [[image labels]|]; cbn; [|auto]. destruct (negb _); cbn; auto.
Qed.

Lemma halted_confirming spec id Q c : (forall r, Q r c) -> confirming spec (halted id) Q c.
Proof. intros HQ. unfold halted. cbn. split; [done|]. intros r ? ->. repeat casesplit; cbn; auto. Qed.

Lemma Destroy_confirming spec name Q c : (forall r, Q r c) -> confirming spec (Destroy name) Q c.
Proof. intros HQ. unfold Destroy. cbn. split; [done|]. intros r ? ->. repeat casesplit; cbn; auto. Qed.

Lemma assertRuntime_confirming spec c :
  confirming spec (assertRuntime (Runtime spec))
    (fun r c' => r = Ok tt -> runtime_ok c' = true) c.
Proof.
  unfold assertRuntime. cbn. split; [done|]. intros [rs|e] ? ->; [|done].
  by case_bool_decide.
Qed.

Lemma ensureImage_confirming spec c :
  confirming spec (ensureImage b (Image spec))
    (fun r c' => r = Ok tt -> runtime_ok c' = runtime_ok c /\ image_ok c' = true) c.
Proof.
  unfold ensureImage. cbn. split; [done|]. intros [[]|e] ? ->; cbn.
  { by rewrite String.eqb_refl. }
  destruct (negb (IsNotFound e)); cbn; [done|]. split; [done|]. intros [[]|e'] ? ->; [|done].
  split; [done|]. intros [[]|e'] ? ->; [|done]. split; [done|]. intros [[]|e'] ? ->; [|done].
  cbn. by rewrite String.eqb_refl.
Qed.

Lemma create_fresh_confirming name spec c :
  confirming spec (create_fresh b name spec) (fun _ _ => True) c.
Proof.
  unfold create_fresh. apply wp_bind. eapply wp_mono; [|apply assertRuntime_confirming].
  intros [[]|e] c1 Hrt; [|done]. apply wp_bind.
  eapply wp_mono; [|apply ensureImage_confirming]. intros [[]|e] c2 Himg; [|done].
  destruct (Himg eq_refl) as [H1 H2]. rewrite (Hrt eq_refl) in H1.
  cbn [bind call wp]. split; [done|]. intros now ? ->. unfold buildConfig. cbn [bind call wp].
  split; [done|]. intros [id|e] ? ->; cbn [bind call wp].
  - split; [done|]. intros [[]|e] ? ->; [by apply Open_confirming|]. cbn. by split.
  - destruct (IsConflict e); [by apply Open_confirming|done].
Qed.

(** C11. Isolation never falls back: in every execution of [Create], whatever
    Docker answers, a container is created only after the daemon has reported
    the runtime the specification asks for as registered and the image as
    present, and it is created with that very runtime. *)
Theorem Create_asserts_runtime name opts :
  confirming (NewSpec opts) (Create b name opts) (fun _ _ => True) (mkConfirmed false false).
Proof.
  unfold Create. destruct (String.eqb name ""); [done|].
  destruct (Spec_Validate (NewSpec opts)) as [[]|]; [|done].
  destruct (String.eqb (Image _) ""); [done|].
  apply wp_bind, Open_confirming. intros [sb|e].
  - apply wp_bind, halted_confirming. intros [[]|e]; [|done|done]. cbn [negb].
    apply wp_bind, Destroy_confirming. intros [[]|e]; [|done]. apply create_fresh_confirming.
  - destruct (negb (Is e ErrNotFound)); [done|]. apply create_fresh_confirming.
Qed.
End containment.
