(* ===== verification/DockerLifecycle.v ===== *)
(** * The life of a container under an engine that keeps its contract

    What [Create] and [Destroy] of pkg/docker/backend.go do to the set of
    containers when nobody else changes it meanwhile, for every engine that
    satisfies [DockerEngine] (in which every call may still fail), and a small
    reference engine that shows the contract can be met. *)

From S2P Require Import Prelude GoErrors GoStrings GoFloat64 GoTime GoNet Sha256 Effects.
From S2P Require Import Sandbox DockerApi DockerBackend.

(** Identifiers are hexadecimal and refer to one container each. *)
Definition ids_ok (m : gmap string Container) : Prop :=
  forall n c, m !! n = Some c -> all_bytes is_hex (CtID c) = true /\
    forall n' c', m !! n' = Some c' -> refers (CtID c) n' c' -> n' = n.

Lemma containerName_dash name : has_byte "-"%char (containerName name) = true.
Proof. unfold containerName. rewrite has_byte_app. done. Qed.

Lemma hex_not_name id name : all_bytes is_hex id = true -> id <> containerName name.
Proof.
  intros Hid ->. pose proof (containerName_dash name) as Hd.
  by rewrite (all_bytes_not_has is_hex "-"%char _ eq_refl Hid) in Hd.
Qed.

(** A sandbox's container name refers to the container of that name only. *)
Lemma refers_containerName m name n c :
  ids_ok m -> m !! n = Some c -> refers (containerName name) n c -> n = containerName name.
Proof.
  intros Hok Hn [?|Hid]; [done|]. destruct (Hok n c Hn) as [Hhex _]. rewrite <- Hid in Hhex.
  by apply hex_not_name with (name := name) in Hhex.
Qed.

Lemma ids_ok_with_status m n c s :
  ids_ok m -> m !! n = Some c -> ids_ok (<[n := with_status c s]> m).
Proof.
  intros Hok Hn.
  assert (Hold : forall k d, <[n := with_status c s]> m !! k = Some d ->
    exists d', m !! k = Some d' /\ CtID d = CtID d').
  { intros k d. destruct (decide (n = k)) as [<-|]; [rewrite lookup_insert_eq|rewrite lookup_insert_ne by done].
    - intros [= <-]. by exists c.
    - intros. by exists d. }
  intros k d Hk. destruct (Hold k d Hk) as (d' & Hd' & Hid). destruct (Hok k d' Hd') as [Hhex Huniq].
  rewrite Hid. split; [done|]. intros k2 d2 Hk2 Hr. destruct (Hold k2 d2 Hk2) as (d2' & Hd2' & Hid2).
  apply (Huniq k2 d2' Hd2'). unfold refers in *. by rewrite <- Hid2.
Qed.

Lemma ids_ok_delete m n : ids_ok m -> ids_ok (delete n m).
Proof.
  intros Hok k c [_ Hk]%lookup_delete_Some. destruct (Hok k c Hk) as [Hh Hu]. split; [done|].
  intros k' c' [_ Hk']%lookup_delete_Some. by apply Hu.
Qed.

Lemma ids_ok_create m name id cfg host :
  ids_ok m -> all_bytes is_hex id = true ->
  (forall n c, m !! n = Some c -> CtID c <> id /\ n <> id) ->
  ids_ok (<[containerName name := mkContainer id cfg host "created"]> m).
Proof.
  intros Hok Hhex Hfresh k c Hk.
  destruct (decide (containerName name = k)) as [<-|Hne].
  - rewrite lookup_insert_eq in Hk. injection Hk as <-. split; [done|]. intros k' c' Hk' Hr.
    destruct (decide (containerName name = k')) as [|Hne']; [done|].
    rewrite lookup_insert_ne in Hk' by done. destruct (Hfresh _ _ Hk') as [? ?].
    unfold refers in Hr. cbn in Hr. naive_solver.
  - rewrite lookup_insert_ne in Hk by done. destruct (Hok k c Hk) as [Hh Hu]. split; [done|].
    intros k' c' Hk' Hr. destruct (decide (containerName name = k')) as [<-|Hne'].
    + rewrite lookup_insert_eq in Hk'. injection Hk' as <-. destruct (Hfresh _ _ Hk) as [? _].
      destruct Hr as [Hr|Hr]; [by apply hex_not_name with (name := name) in Hh|done].
    + rewrite lookup_insert_ne in Hk' by done. eauto.
Qed.

Section lifecycle.
Context `{MapRange string} `{FloatConv}.
Context {W : Type} (view : W -> gmap string Container)
  (step : forall X, dockerE X -> W -> X -> W -> Prop) `{!DockerEngine view step}.
Variable b : Backend.

Abbreviation runs := (wp (fun _ _ _ => True) step).

Definition halted_status (s : string) : Prop := s = "exited" \/ s = "dead".

(** [Open] reads: an answer is the container of the sandbox's name. *)
Lemma Open_spec name w :
  ids_ok (view w) ->
  runs (Open b name) (fun r w' => view w' = view w /\
    match r with
    | Ok sb => exists c, view w !! containerName name = Some c /\ CtID c = ds_id sb /\
        InfoID (ds_info sb) = CtID c /\ label (CfgLabels (CtConfig c)) labelManaged = "true"
    | Err e => Is e ErrNotFound = true -> view w !! containerName name = None
    end) w.
Proof.
  intros Hok. unfold Open. cbn [bind call wp]. split; [done|]. intros [j|e] w1 Hs.
  - apply engine_inspect_ok in Hs as (Hv & n & c & Hn & Hr & Hid & Hcfg & _).
    apply (refers_containerName _ _ _ _ Hok Hn) in Hr as ->.
    rewrite Hcfg. cbn [container_json CjConfig].
    destruct (String.eqb_spec (label (CfgLabels (CtConfig c)) labelManaged) "true"); cbn [negb wp].
    + split; [done|]. exists c. by cbn [ds_id ds_info infoFrom InfoID].
    + split; [done|]. by cbn.
  - apply engine_inspect_err in Hs as (Hv & Hne & Hnf). destruct (IsNotFound e) eqn:E; cbn [wp].
    + split; [done|]. intros _. apply eq_None_not_Some. intros [c Hc].
      by apply (Hnf eq_refl _ _ Hc); left.
    + split; [done|]. intros Hi. cbn in Hi. rewrite Hne in Hi. done.
Qed.

Lemma assertRuntime_quiet rt w : runs (assertRuntime rt) (fun _ w' => view w' = view w) w.
Proof.
  unfold assertRuntime. cbn [bind call wp]. split; [done|]. intros r w1 Hs.
  apply engine_info in Hs. by repeat casesplit.
Qed.

Lemma ensureImage_quiet ref w : runs (ensureImage b ref) (fun _ w' => view w' = view w) w.
Proof.
  unfold ensureImage. cbn [bind call wp]. split; [done|]. intros r w1 H1%engine_image_inspect.
  destruct r as [[]|e]; [done|]. destruct (negb _); [done|]. cbn [bind call wp].
  split; [done|]. intros r w2 H2%engine_pull. destruct r as [[]|]; [|cbn; congruence].
  cbn [bind call wp]. split; [done|]. intros r w3 H3%engine_drain. destruct r as [[]|]; [|cbn; congruence].
  cbn [bind call wp]. split; [done|]. intros r w4 H4%engine_image_inspect.
  destruct r as [[]|]; cbn; congruence.
Qed.

(** What a successful or failed [create_fresh] leaves behind. *)
Definition others_kept (name : string) (w w' : W) : Prop :=
  forall n, n <> containerName name -> view w' !! n = view w !! n.

Lemma Destroy_spec name w :
  ids_ok (view w) ->
  runs (Destroy name) (fun r w' => others_kept name w w' /\
    (r = Ok tt -> view w' !! containerName name = None /\ ids_ok (view w'))) w.
Proof.
  intros Hok. unfold Destroy. cbn [bind call wp]. split; [done|]. intros r w1 Hs%engine_remove.
  destruct r as [[]|e].
  - destruct Hs as (n & c & Hn & Hr & V1). apply (refers_containerName _ _ _ _ Hok Hn) in Hr as ->.
    cbn [wp]. split; [intros n Hne; by rewrite V1, lookup_delete_ne|]. intros _. rewrite V1.
    split; [apply lookup_delete_eq|by apply ids_ok_delete].
  - destruct Hs as [V1 Hnf]. destruct (IsNotFound e); cbn [negb wp].
    + split; [intros n _; by rewrite V1|]. intros _. rewrite V1. split; [|done].
      apply eq_None_not_Some. intros [c Hc]. by apply (Hnf eq_refl _ _ Hc); left.
    + split; [intros n _; by rewrite V1|done].
Qed.

Lemma create_fresh_spec name spec w :
  ids_ok (view w) -> view w !! containerName name = None ->
  runs (create_fresh b name spec) (fun r w' => others_kept name w w' /\
    match r with
    | Ok sb => exists c now, view w' !! containerName name = Some c /\ CtID c = ds_id sb /\
        CtStatus c = "running" /\ (CtConfig c, CtHost c) = buildConfig name spec now /\
        ids_ok (view w')
    | Err _ => True
    end) w.
Proof.
  intros Hok Hnone. unfold create_fresh. apply wp_bind.
  eapply wp_mono; [|apply assertRuntime_quiet]. intros [[]|e] w1 V1; [|split; [intros n; by rewrite V1|done]].
  apply wp_bind. eapply wp_mono; [|apply ensureImage_quiet].
  intros [[]|e] w2 V2; [|split; [intros n; by rewrite V2, V1|done]].
  cbn [bind call wp]. split; [done|]. intros now w3 V3%engine_now.
  destruct (buildConfig name spec now) as [cfg host] eqn:Eb. cbn [bind call wp].
  split; [done|]. intros [id|e] w4 Hs; cbn [bind call wp].
  2: { apply engine_create_err in Hs as [V4 Hc]. destruct (IsConflict e).
    - destruct (Hc eq_refl) as [c Hc']. rewrite V3, V2, V1 in Hc'. congruence.
    - split; [intros n; by rewrite V4, V3, V2, V1|done]. }
  apply engine_create_ok in Hs as (_ & Hhex & Hfresh & V4). rewrite V3, V2, V1 in Hfresh, V4.
  split; [done|]. intros r w5 Hs%engine_start. 
  assert (Hid4 : ids_ok (view w4)) by (rewrite V4; by apply ids_ok_create).
  assert (Hthe : forall n c, view w4 !! n = Some c -> refers id n c -> n = containerName name /\
    c = mkContainer id cfg host "created").
  { intros n c Hn Hr. destruct (Hid4 (containerName name) (mkContainer id cfg host "created")) as [_ Hu].
    { rewrite V4. apply lookup_insert_eq. }
    assert (n = containerName name) as -> by by apply (Hu n c).
    rewrite V4, lookup_insert_eq in Hn. by injection Hn as <-. }
  destruct r as [[]|e].
  - destruct Hs as (n & c & Hn & Hr & V5). destruct (Hthe n c Hn Hr) as [-> ->].
    assert (Hid5 : ids_ok (view w5)).
    { rewrite V5. apply ids_ok_with_status; [done|]. rewrite V4. apply lookup_insert_eq. }
    eapply wp_mono; [|by apply Open_spec]. intros r w6 [V6 HQ]. split.
    { intros n Hne. rewrite V6, V5, V4. by rewrite !lookup_insert_ne by done. }
    destruct r as [sb|]; [|done]. destruct HQ as (c & Hc & Hid & _ & _).
    pose proof Hc as Hc'. rewrite V5, lookup_insert_eq in Hc'. injection Hc' as <-.
    exists (with_status (mkContainer id cfg host "created") "running"), now.
    rewrite V6, Eb. by split_and!.
  - cbn [bind call wp]. split; [done|]. intros r w6 Hs6%engine_remove. split; [|done].
    intros n Hne. destruct r as [[]|e'].
    + destruct Hs6 as (n' & c' & Hn' & Hr & V6). rewrite Hs in Hn'.
      destruct (Hthe n' c' Hn' Hr) as [-> _]. rewrite V6, lookup_delete_ne, Hs, V4, lookup_insert_ne by done.
      done.
    + destruct Hs6 as [V6 _]. by rewrite V6, Hs, V4, lookup_insert_ne.
Qed.

(** A handle to a container under the sandbox's name: the one that was there,
    not halted, or a fresh one, running, where there was none or a halted one. *)
Definition handle_to (name : string) (opts : list CreateOption) (w : W) (sb : dockerSandbox) (w' : W) : Prop :=
  ids_ok (view w') /\
  exists c, view w' !! containerName name = Some c /\ CtID c = ds_id sb /\
    ((view w !! containerName name = Some c /\ ~ halted_status (CtStatus c)) \/
     ((forall c0, view w !! containerName name = Some c0 -> halted_status (CtStatus c0)) /\
      CtStatus c = "running" /\
      exists now, (CtConfig c, CtHost c) = buildConfig name (NewSpec opts) now)).

(** Removing a halted container and creating its successor. *)
Lemma replace_halted name opts w w2 c :
  ids_ok (view w) -> view w2 = view w -> view w !! containerName name = Some c ->
  halted_status (CtStatus c) ->
  runs (_ <-? Destroy name;; create_fresh b name (NewSpec opts)) (fun r w' =>
    others_kept name w w' /\
    match r with Ok sb => handle_to name opts w sb w' | Err _ => True end) w2.
Proof.
  intros Hok V2 Hc Hh. apply wp_bind. eapply wp_mono; [|apply Destroy_spec; by rewrite V2].
  intros [[]|e] w3 [Hk Hd]; [|split; [intros n Hne; by rewrite Hk, V2 by done|done]].
  destruct (Hd eq_refl) as [Hnone Hok3].
  eapply wp_mono; [|by apply create_fresh_spec]. intros r w4 [Hk' HQ]. split.
  { intros n Hne. by rewrite Hk', Hk, V2 by done. }
  destruct r as [sb|]; [|done]. destruct HQ as (c' & now & Hc' & Hid & Hst & Hb & Hok4). split; [done|].
  exists c'. split_and!; try done. right. split_and!; eauto. intros c0 Hc0. congruence.
Qed.

Lemma Create_spec name opts w :
  ids_ok (view w) ->
  runs (Create b name opts) (fun r w' => others_kept name w w' /\
    match r with Ok sb => handle_to name opts w sb w' | Err _ => True end) w.
Proof.
  intros Hok. unfold Create.
  destruct (String.eqb name ""); [done|].
  destruct (Spec_Validate (NewSpec opts)) as [[]|]; [|done].
  destruct (String.eqb (Image _) ""); [done|].
  apply wp_bind. eapply wp_mono; [|by apply Open_spec].
  intros [sb|e] w1 [V1 Hsb].
  - destruct Hsb as (c & Hc & Hid & Hinfo & _). apply wp_bind.
    unfold halted at 1. cbn [bind call wp]. split; [done|]. intros r w2 Hs.
    assert (Hthe : forall n c', view w1 !! n = Some c' -> refers (InfoID (ds_info sb)) n c' ->
      n = containerName name /\ c' = c).
    { intros n c' Hn Hr. rewrite V1 in Hn. rewrite Hinfo in Hr.
      assert (n = containerName name) as -> by by apply (proj2 (Hok _ _ Hc) n c').
      split; [done|]. congruence. }
    destruct r as [j|e].
    + apply engine_inspect_ok in Hs as (V2 & n & c' & Hn & Hr & _ & _ & Hst).
      destruct (Hthe n c' Hn Hr) as [-> ->].
      destruct (CjState j) as [st|]; [|split; [intros k; by rewrite V2, V1|done]].
      cbn in Hst. injection Hst as Hst. cbn [wp bind]. rewrite Hst.
      destruct (String.eqb_spec (CtStatus c) "exited") as [Hh|Hx].
      2: destruct (String.eqb_spec (CtStatus c) "dead") as [Hh|Hd].
      3: { cbn [orb negb wp]. split; [intros k; by rewrite V2, V1|].
           split; [by rewrite V2, V1|]. exists c. rewrite V2, V1. split_and!; try done. left. split; [done|].
           intros [?|?]; contradiction. }
      all: cbn [orb negb]; eapply (replace_halted name opts w w2 c); try done.
      all: rewrite ?V2, ?V1; try done; (by left) || (by right).
    + apply engine_inspect_err in Hs as (V2 & _ & Hnf). destruct (IsNotFound e).
      * exfalso. rewrite V1 in Hnf. apply (Hnf eq_refl _ _ Hc). right. by rewrite Hinfo.
      * split; [intros k; by rewrite V2, V1|done].
  - destruct (Is e ErrNotFound); cbn [negb]; [|split; [intros k; by rewrite V1|done]].
    specialize (Hsb eq_refl). rewrite <- V1 in Hsb.
    eapply wp_mono; [|apply create_fresh_spec; by rewrite ?V1 in *].
    intros r w2 [Hk HQ]. split; [intros k Hne; by rewrite Hk, V1 by done|].
    destruct r as [sb|]; [|done]. destruct HQ as (c & now & Hc & Hid & Hst & Hb & Hok2).
    split; [done|]. exists c. split_and!; try done. right. split_and!; eauto. intros c0 Hc0. rewrite V1 in Hsb. congruence.
Qed.

(** C12. [Create] does what it promises when nobody interferes: it leaves every
    other container alone, and a handle it returns names a container that is
    there under the sandbox's name: either the one that was there before,
    unchanged and not halted, or, when there was none or a halted one, a fresh
    one, running, created from exactly the configuration of the requested
    specification. *)
Theorem Create_contract name opts w :
  ids_ok (view w) ->
  runs (Create b name opts) (fun r w' => others_kept name w w' /\
    match r with
    | Ok sb => exists c, view w' !! containerName name = Some c /\ CtID c = ds_id sb /\
        ((view w !! containerName name = Some c /\ ~ halted_status (CtStatus c)) \/
         ((forall c0, view w !! containerName name = Some c0 -> halted_status (CtStatus c0)) /\
          CtStatus c = "running" /\
          exists now, (CtConfig c, CtHost c) = buildConfig name (NewSpec opts) now))
    | Err _ => True
    end) w.
Proof.
  intros Hok. eapply wp_mono; [|by apply Create_spec]. intros [sb|e] w' [Hk Hr]; [|done].
  split; [done|]. by destruct Hr.
Qed.
End lifecycle.

(** ** A reference engine

    Containers by name; an identifier longer than everything known is fresh. *)

Fixpoint letters (n : nat) : string :=
  match n with O => "" | S n' => String "a" (letters n') end.

Definition longest (m : gmap string Container) : nat :=
  map_fold (fun n c acc => Nat.max (Nat.max (String.length n) (String.length (CtID c))) acc) O m.

Definition find_ref (m : gmap string Container) (ref : string) : option (string * Container) :=
  snd <$> list_find (fun '(n, c) => ref = n \/ ref = CtID c) (map_to_list m).

Definition no_such : error := External ExtNotFound "No such container".

(** Every container runs until stopped, every image is present, and the one
    registered runtime is gVisor's. *)
Definition ref_engine (X : Type) (e : dockerE X) : gmap string Container -> X * gmap string Container :=
  match e in dockerE X return gmap string Container -> X * gmap string Container with
  | ContainerInspect ref => fun m =>
      match find_ref m ref with
      | Some (_, c) => (Ok (container_json c), m)
      | None => (Err no_such, m)
      end
  | ContainerCreate cfg host name => fun m =>
      match m !! name with
      | Some _ => (Err (External ExtConflict "name in use"), m)
      | None => let id := letters (S (longest m)) in
          (Ok id, <[name := mkContainer id cfg host "created"]> m)
      end
  | ContainerStart id => fun m =>
      match find_ref m id with
      | Some (n, c) => (Ok tt, <[n := with_status c "running"]> m)
      | None => (Err no_such, m)
      end
  | ContainerStop id => fun m =>
      match find_ref m id with
      | Some (n, c) => (Ok tt, <[n := with_status c "exited"]> m)
      | None => (Err no_such, m)
      end
  | ContainerRemove ref force _ => fun m =>
      match find_ref m ref with
      | Some (n, c) =>
          if negb force && String.eqb (CtStatus c) "running"
          then (Err (External ExtConflict "container is running"), m) else (Ok tt, delete n m)
      | None => (Err no_such, m)
      end
  | ContainerList _ _ => fun m =>
      (Ok (map (fun '(_, c) => mkSummary (CtID c) (CfgImage (CtConfig c)) (CtStatus c)
         (CfgLabels (CtConfig c))) (map_to_list m)), m)
  | DaemonInfo => fun m => (Ok ["runsc"], m)
  | ImageInspect _ => fun m => (Ok tt, m)
  | ImagePull _ _ => fun m => (Ok tt, m)
  | DrainPull => fun m => (Ok tt, m)
  | ContainerExecCreate _ _ => fun m => (Ok "exec", m)
  | ContainerExecAttach _ => fun m => (Ok tt, m)
  | PumpStdin _ _ => fun m => (tt, m)
  | AwaitOutput _ _ => fun m => (CopyDone [] None, m)
  | ContainerExecInspect _ => fun m => (Ok 0, m)
  | ContainerWait _ _ => fun m => (false, m)
  | Sleep _ => fun m => (true, m)
  | GoTouch _ => fun m => (tt, m)
  | Now => fun m => (1700000000000000000, m)
  | RandBytes n => fun m => (Ok (letters (Z.to_nat n)), m)
  end.

Lemma find_ref_Some m ref n c :
  find_ref m ref = Some (n, c) -> m !! n = Some c /\ refers ref n c.
Proof.
  unfold find_ref. destruct (list_find _ _) as [[i [n' c']]|] eqn:E; [|done].
  intros [= -> ->]. apply list_find_Some in E as (Hi & Hr & _).
  apply list_elem_of_lookup_2, elem_of_map_to_list in Hi. done.
Qed.

Lemma find_ref_None m ref n c : find_ref m ref = None -> m !! n = Some c -> ~ refers ref n c.
Proof.
  unfold find_ref. destruct (list_find _ _) as [[i [n' c']]|] eqn:E; [done|]. intros _ Hn Hr.
  apply list_find_None in E. rewrite Forall_forall in E.
  by apply (E (n, c)); [apply elem_of_map_to_list|].
Qed.

Lemma longest_spec m n c :
  m !! n = Some c -> (String.length n <= longest m)%nat /\ (String.length (CtID c) <= longest m)%nat.
Proof.
  unfold longest. revert n c. apply (map_fold_weak_ind (fun acc m => forall n c, m !! n = Some c ->
    (String.length n <= acc)%nat /\ (String.length (CtID c) <= acc)%nat)); [done|].
  intros i x m' r _ IH n c. destruct (decide (i = n)) as [->|].
  - rewrite lookup_insert_eq. intros [= <-]. lia.
  - rewrite lookup_insert_ne by done. intros H'. apply IH in H'. lia.
Qed.

Lemma letters_spec n : String.length (letters n) = n /\ all_bytes is_hex (letters n) = true.
Proof. induction n as [|n [IH1 IH2]]; cbn; [done|]. split; [by rewrite IH1|done]. Qed.

#[global] Instance ref_engine_ok :
  DockerEngine (fun m => m) (fun X e m x m' => ref_engine X e m = (x, m')).
Proof.
  split; intros; cbn [ref_engine] in *; try congruence.
  - destruct (find_ref w ref) as [[n c]|] eqn:E; [|done]. injection H as <- <-.
    apply find_ref_Some in E as [? ?]. split; [done|]. by exists n, c.
  - destruct (find_ref w ref) as [[n c]|] eqn:E; [done|]. injection H as <- <-.
    split_and!; try done. intros _ n c. by apply find_ref_None.
  - destruct (w !! name) eqn:E; [done|]. apply pair_equal_spec in H as [H <-].
    apply Ok_inj in H as <-.
    destruct (letters_spec (S (longest w))) as [Hl Hh]. split_and!; try done.
    intros n c Hn. apply longest_spec in Hn. split; intros Heq; rewrite Heq, Hl in Hn; lia.
  - destruct (w !! name) eqn:E; [|done]. by injection H as <- <-.
  - destruct (find_ref w id) as [[n c]|] eqn:E; injection H as <- <-; [|done].
    apply find_ref_Some in E as [? ?]. by exists n, c.
  - destruct (find_ref w ref) as [[n c]|] eqn:E; [destruct (negb force && _)|]; injection H as <- <-.
    + done.
    + apply find_ref_Some in E as [? ?]. by exists n, c.
    + split; [done|]. intros _ n c. by apply find_ref_None.
Qed.

Definition demo_create : prog dockerE (result dockerSandbox) :=
  Create (H := map_range_default string) (H0 := float_conv_default)
    (mkBackend None "") "web" [WithImage "img"].

Lemma demo_create_ok : is_ok (fst (run ref_engine demo_create ∅)) = true.
Proof. vm_compute. reflexivity. Qed.

Lemma Create_contract_witness :
  ids_ok ∅ /\
  exists sb m', run ref_engine demo_create ∅ = (Ok sb, m') /\
    exists c, m' !! containerName "web" = Some c /\ CtID c = ds_id sb.
Proof.
  assert (Hok : ids_ok ∅) by (intros n c Hn; by rewrite lookup_empty in Hn).
  split; [exact Hok|].
  pose proof (Create_contract (H := map_range_default string) (H0 := float_conv_default)
    (fun m => m) (fun X e m x m' => ref_engine X e m = (x, m')) (mkBackend None "") "web"
    [WithImage "img"] ∅ Hok) as Hc.
  apply wp_run in Hc. fold demo_create in Hc. pose proof demo_create_ok as Hd.
  destruct (run ref_engine demo_create ∅) as [r m']. cbn [fst] in Hd.
  destruct r as [sb|e]; [|discriminate Hd].
  exists sb, m'. split; [reflexivity|]. destruct (proj2 Hc) as (c & H1 & H2 & _). by exists c.
Defined.
