(* ===== verification/DockerExec.v ===== *)
(** * pkg/docker: running things inside a sandbox

    [sandbox.go] (exec and its kill path, output capture, files),
    [process.go], [activity.go], [dial.go] and [expose.go], as programs over
    the Docker client. *)

From S2P Require Import Prelude GoErrors GoStrings GoFloat64 GoDuration GoTime GoNet GoPath.
From S2P Require Import GoHttp Sha256 Effects Sandbox PreviewToken PreviewProxy DockerApi.
From S2P Require Import DockerBackend GoText.

(** ** Output capture *)

Record cappedBuffer : Type := mkCapped { buf : string; limit : Z; truncated : bool }.

Definition slen (s : string) : Z := Z.of_nat (String.length s).

(** [cappedBuffer.Write]: the buffer after it, and the count it reports. *)
Definition Write (b : cappedBuffer) (p : string) : cappedBuffer * Z :=
  let room := limit b - slen (buf b) in
  if slen p >? room then
    (mkCapped (buf b ++ stake (Z.to_nat (Z.max room 0)) p) (limit b) true, slen p)
  else (mkCapped (buf b ++ p) (limit b) (truncated b), slen p).

(** [stdcopy.StdCopy] hands each frame's payload to its stream's writer. *)
Fixpoint StdCopy (frames : list (bool * string)) (out err : cappedBuffer)
    : cappedBuffer * cappedBuffer :=
  match frames with
  | [] => (out, err)
  | (isErr, p) :: frames =>
      if isErr then StdCopy frames out (fst (Write err p))
      else StdCopy frames (fst (Write out p)) err
  end.

(** ** Constants *)

Definition rootUser : string := "0:0".
Definition procDir : string := "/tmp/.openblox/proc".
Definition touchTimeout : Z := 10 * Second.
Definition stopSettle : Z := 2 * Second.
Definition killTimeout : Z := 10 * Second.
Definition killRecordWait : Z := 2 * Second.
Definition killRetryInterval : Z := 50 * Millisecond.
Definition killNoRecord : Z := 1.
Definition exitLostWait : Z := 128.
Definition exitKilled : Z := 137.
Definition DefaultPreviewTTL : Z := 10 * Minute.

(** [groupScript] *)
Definition groupScript : string :=
  "f=" ++ dq ++ "$1" ++ dq ++ "; shift; echo $$ >" ++ dq ++ "$f" ++ dq
  ++ " 2>/dev/null; (exec " ++ dq ++ "$@" ++ dq ++ "); s=$?; rm -f " ++ dq ++ "$f" ++ dq
  ++ "; exit $s".

(** [killScript] *)
Definition killScript : string :=
  "read -r p <" ++ dq ++ "$1" ++ dq ++ " 2>/dev/null; case " ++ dq ++ "$p" ++ dq ++ " in "
  ++ dq ++ dq ++ ") exit 1;; esac; rm -f " ++ dq ++ "$1" ++ dq ++ "; case " ++ dq ++ "$p" ++ dq
  ++ " in *[!0-9]*|1) exit 0;; esac; kill -9 -" ++ dq ++ "$p" ++ dq
  ++ " 2>/dev/null || kill -9 " ++ dq ++ "$p" ++ dq ++ " 2>/dev/null; exit 0".

(** [startProcessScript] *)
Definition startProcessScript : string :=
  nl ++ "dir=" ++ dq ++ "$1" ++ dq ++ "; shift" ++ nl
  ++ "if [ -r " ++ dq ++ "$dir/pid" ++ dq ++ " ] && kill -0 " ++ dq ++ "$(cat " ++ dq ++ "$dir/pid"
  ++ dq ++ ")" ++ dq ++ " 2>/dev/null; then exit 0; fi" ++ nl
  ++ "mkdir -p " ++ dq ++ "$dir" ++ dq ++ " || exit 1" ++ nl
  ++ dq ++ "$@" ++ dq ++ " </dev/null >" ++ dq ++ "$dir/log" ++ dq ++ " 2>&1 &" ++ nl
  ++ "echo $! > " ++ dq ++ "$dir/pid" ++ dq ++ nl.

(** [relayScript] *)
Definition relayScript : string :=
  nl
  ++ "if command -v nc >/dev/null 2>&1; then exec nc 127.0.0.1 " ++ dq ++ "$1" ++ dq ++ "; fi" ++ nl
  ++ "if command -v python3 >/dev/null 2>&1; then exec python3 -c '" ++ nl
  ++ "import socket, sys, threading" ++ nl
  ++ "sock = socket.create_connection((" ++ dq ++ "127.0.0.1" ++ dq ++ ", int(sys.argv[1])))" ++ nl
  ++ "def upstream():" ++ nl
  ++ "    try:" ++ nl
  ++ "        while True:" ++ nl
  ++ "            chunk = sys.stdin.buffer.read1(65536)" ++ nl
  ++ "            if not chunk:" ++ nl
  ++ "                break" ++ nl
  ++ "            sock.sendall(chunk)" ++ nl
  ++ "    except Exception:" ++ nl
  ++ "        pass" ++ nl
  ++ "    try:" ++ nl
  ++ "        sock.shutdown(socket.SHUT_WR)" ++ nl
  ++ "    except Exception:" ++ nl
  ++ "        pass" ++ nl
  ++ "threading.Thread(target=upstream, daemon=True).start()" ++ nl
  ++ "try:" ++ nl
  ++ "    while True:" ++ nl
  ++ "        chunk = sock.recv(65536)" ++ nl
  ++ "        if not chunk:" ++ nl
  ++ "            break" ++ nl
  ++ "        sys.stdout.buffer.write(chunk)" ++ nl
  ++ "        sys.stdout.buffer.flush()" ++ nl
  ++ "except Exception:" ++ nl
  ++ "    pass" ++ nl
  ++ "' " ++ dq ++ "$1" ++ dq ++ "; fi" ++ nl
  ++ "echo " ++ dq ++ "openblox: sandbox image has neither nc nor python3; cannot reach port $1" ++ dq ++ " >&2" ++ nl
  ++ "exit 127" ++ nl.

(** The script of [WriteFile], and that of [touch]. *)
Definition writeScript : string := "cat > " ++ dq ++ "$0" ++ dq.
Definition touchScript : string := "echo " ++ dq ++ "$0" ++ dq ++ " > " ++ lastUsedPath.

(** [Perm]: the permission bits of a mode *)
Definition Perm (mode : Z) : Z := Z.land mode 511.

Definition mayHaveDied (exitCode : Z) : bool :=
  (exitCode =? exitLostWait) || (exitCode =? exitKilled).

(** [resolveTimeout] of a handle *)
Definition resolveTimeout (s : dockerSandbox) (requested : Z) : Z :=
  clampTimeout (ds_defaultTimeout s) (ds_maxTimeout s) requested.

Section exec.
Variable s : dockerSandbox.

Definition the_name : string := InfoName (ds_info s).

Definition Stop : prog dockerE (result unit) :=
  r <- call (ContainerStop (ds_id s));;
  match r with
  | Err err => Ret (Err (Errorf "stop sandbox %q: %w" [AStr the_name; AWrap err]))
  | Ok _ => Ret (Ok tt)
  end.

Definition classifyAttach (attachErr : error) : prog dockerE error :=
  r <- call (ContainerInspect (ds_id s));;
  match r with
  | Err err =>
      if IsNotFound err then Ret (Errorf "%w: %q" [AWrap (Sentinel ErrNotFound); AStr the_name])
      else Ret (Errorf "exec attach in %q: %w" [AStr the_name; AWrap attachErr])
  | Ok inspect =>
      match CjState inspect with
      | Some st =>
          if negb (Running st) then Ret (Errorf "%w: %q" [AWrap (Sentinel ErrStopped); AStr the_name])
          else Ret (Errorf "exec attach in %q: %w" [AStr the_name; AWrap attachErr])
      | None => Ret (Errorf "exec attach in %q: %w" [AStr the_name; AWrap attachErr])
      end
  end.

Definition attach (cmd : Command) (user : string) : prog dockerE (result string) :=
  created <- call (ContainerExecCreate (ds_id s) (mkExecOptions (Argv cmd) (CmdEnv cmd) (Dir cmd)
    user (match Stdin cmd with Some _ => true | None => false end) true true));;
  match created with
  | Err err =>
      if IsConflict err then
        Ret (Err (Errorf "%w: %q" [AWrap (Sentinel ErrStopped); AStr the_name]))
      else if IsNotFound err then
        Ret (Err (Errorf "%w: %q" [AWrap (Sentinel ErrNotFound); AStr the_name]))
      else Ret (Err (Errorf "exec create in %q: %w" [AStr the_name; AWrap err]))
  | Ok execID =>
      attached <- call (ContainerExecAttach execID);;
      match attached with
      | Err err => e <- classifyAttach err;; Ret (Err e)
      | Ok _ => Ret (Ok execID)
      end
  end.

Definition diedUnder : prog dockerE (bool * bool) :=
  w <- call (ContainerWait (ds_id s) stopSettle);;
  if negb w then Ret (false, false)
  else
    r <- call (ContainerInspect (ds_id s));;
    match r with
    | Err _ => Ret (false, false)
    | Ok j =>
        match CjState j with
        | None => Ret (false, false)
        | Some st => if Running st then Ret (false, false) else Ret (true, StateOOMKilled st)
        end
    end.

(** [exec], with the kill it runs when a wrapped command is cut short. *)
Definition exec_with (kill : prog dockerE unit) (cmd : Command) (user pidFile : string)
    : prog dockerE (result Result) :=
  match Command_Validate cmd with
  | Err err => Ret (Err err)
  | Ok _ =>
      let timeout := resolveTimeout s (Timeout cmd) in
      let cmd := if negb (String.eqb pidFile "")
        then mkCommand (["sh"; "-c"; groupScript; "sh"; pidFile] ++ Argv cmd)%list (CmdEnv cmd)
               (Dir cmd) (Stdin cmd) (Timeout cmd)
        else cmd in
      execID <-? attach cmd user;;
      _ <- match Stdin cmd with Some src => call (PumpStdin execID src) | None => Ret tt end;;
      finished <- call (AwaitOutput execID timeout);;
      match finished with
      | CopyDone frames err =>
          match err with
          | Some err => Ret (Err (Errorf "read exec output in %q: %w" [AStr the_name; AWrap err]))
          | None =>
              let '(stdout, stderr) :=
                StdCopy frames (mkCapped "" MaxOutputBytes false) (mkCapped "" MaxOutputBytes false) in
              inspect <- call (ContainerExecInspect execID);;
              match inspect with
              | Err err => Ret (Err (Errorf "inspect exec in %q: %w" [AStr the_name; AWrap err]))
              | Ok exitCode =>
                  ' (stopped, oomKilled) <-
                    (if mayHaveDied exitCode then diedUnder else Ret (false, false));;
                  Ret (Ok (mkResult (buf stdout) (buf stderr) exitCode
                    (truncated stdout || truncated stderr) stopped oomKilled))
              end
          end
      | CtxDone err =>
          _ <- (if negb (String.eqb pidFile "") then kill else Ret tt);;
          if negb (Is err DeadlineExceeded) then
            Ret (Err (Errorf "command in %q: %w" [AStr the_name; AWrap err]))
          else Ret (Err (Errorf "%w: command in %q exceeded %s"
            [AWrap (Sentinel ErrTimeout); AStr the_name; AInt timeout]))
      end
  end.

(** [exec] of a command that is not wrapped: nothing to kill. *)
Definition exec_plain (cmd : Command) (user : string) : prog dockerE (result Result) :=
  exec_with (Ret tt) cmd user "".

(** The loop of [killGroup]; [false] when [fuel] ran out. *)
Fixpoint killLoop (fuel : nat) (pidFile : string) (deadline : time) : prog dockerE bool :=
  match fuel with
  | O => Ret false
  | S fuel =>
      r <- exec_plain (mkCommand ["sh"; "-c"; killScript; "sh"; pidFile] [] "" None killTimeout) "";;
      match r with
      | Err _ => Ret true
      | Ok res =>
          if negb (ExitCode res =? killNoRecord) then Ret true
          else
            now <- call Now;;
            if After now deadline then Ret true
            else
              slept <- call (Sleep killRetryInterval);;
              if (slept : bool) then killLoop fuel pidFile deadline else Ret true
      end
  end.

(** The record wait over the retry interval, and one for each end. *)
Definition killFuel : nat := 42.

Definition killGroup (pidFile : string) : prog dockerE unit :=
  start <- call Now;;
  _ <- killLoop killFuel pidFile (start + killRecordWait);;
  Ret tt.

Definition exec (cmd : Command) (user pidFile : string) : prog dockerE (result Result) :=
  exec_with (killGroup pidFile) cmd user pidFile.

(** Eight random bytes; a failed read leaves the buffer zero. *)
Definition newPIDFile : prog dockerE string :=
  r <- call (RandBytes 8);;
  Ret ("/tmp/.openblox-exec-" ++ hex (match r with
    | Ok b => b
    | Err _ => Sha256.string_of (repeat 0 8)
    end)).

(** [touch] runs in a goroutine of its own: [GoTouch] starts it, this is its
    body. *)
Definition touch : prog dockerE unit :=
  now <- call Now;;
  _ <- exec (mkCommand ["sh"; "-c"; touchScript; FormatRFC3339Nano now] [] "" None touchTimeout)
         rootUser "";;
  Ret tt.

Definition Exec (cmd : Command) : prog dockerE (result Result) :=
  pidFile <- newPIDFile;;
  res <- exec cmd "" pidFile;;
  _ <- call (GoTouch (ds_id s));;
  Ret res.

Definition lastUsed : prog dockerE time :=
  r <- exec (mkCommand ["cat"; lastUsedPath] [] "" None 0) "" "";;
  match r with
  | Err _ => Ret zero_time
  | Ok res =>
      if negb (ExitCode res =? 0) then Ret zero_time
      else match ParseRFC3339Nano (TrimSpace (Stdout res)) with
           | None => Ret zero_time
           | Some t => Ret t
           end
  end.

(** [run] *)
Definition run_cmd (what : string) (argv : list string) : prog dockerE (result unit) :=
  r <- Exec (mkCommand argv [] "" None 0);;
  match r with
  | Err err => Ret (Err (Errorf "%s in %q: %w" [AStr what; AStr the_name; AWrap err]))
  | Ok res =>
      if negb (ExitCode res =? 0) then
        Ret (Err (Errorf "%s in %q: exit %d: %s"
          [AStr what; AStr the_name; AInt (ExitCode res); AStr (TrimSpace (Stderr res))]))
      else Ret (Ok tt)
  end.

Definition WriteFile (dest : string) (mode : Z) (src : string) : prog dockerE (result unit) :=
  if negb (IsAbs dest) then
    Ret (Err (Errorf "%w: path %q is not absolute" [AWrap (Sentinel ErrInvalid); AStr dest]))
  else
    _ <-? run_cmd "create directory" ["mkdir"; "-p"; PathDir dest];;
    r <- Exec (mkCommand ["sh"; "-c"; writeScript; dest] [] "" (Some src) 0);;
    match r with
    | Err err => Ret (Err (Errorf "write %q in %q: %w" [AStr dest; AStr the_name; AWrap err]))
    | Ok res =>
        if negb (ExitCode res =? 0) then
          Ret (Err (Errorf "write %q in %q: exit %d: %s"
            [AStr dest; AStr the_name; AInt (ExitCode res); AStr (TrimSpace (Stderr res))]))
        else run_cmd "set mode" ["chmod"; octal4 (Perm mode); dest]
    end.

(** [ReadFile]: the exec whose output the returned reader streams. *)
Definition ReadFile (src : string) : prog dockerE (result string) :=
  if negb (IsAbs src) then
    Ret (Err (Errorf "%w: path %q is not absolute" [AWrap (Sentinel ErrInvalid); AStr src]))
  else
    probe <- Exec (mkCommand ["test"; "-f"; src] [] "" None 0);;
    match probe with
    | Err err => Ret (Err (Errorf "stat %q in %q: %w" [AStr src; AStr the_name; AWrap err]))
    | Ok probe =>
        if negb (ExitCode probe =? 0) then
          Ret (Err (Errorf "%w: %q in sandbox %q"
            [AWrap (Sentinel ErrNotFound); AStr src; AStr the_name]))
        else attach (mkCommand ["cat"; "--"; src] [] "" None 0) ""
    end.

(** One byte of a process name; a byte of a multi-byte rune is none of them. *)
Definition is_process_char (c : ascii) : bool :=
  let b := byte_val c in
  ((97 <=? b) && (b <=? 122)) || ((65 <=? b) && (b <=? 90)) || ((48 <=? b) && (b <=? 57))
  || Ascii.eqb c "-" || Ascii.eqb c "_" || Ascii.eqb c ".".

Definition validateProcessName (name : string) : result unit :=
  if String.eqb name "" then
    Err (Errorf "%w: process name is empty" [AWrap (Sentinel ErrInvalid)])
  else if HasPrefix name "." then
    Err (Errorf "%w: process name %q starts with a dot" [AWrap (Sentinel ErrInvalid); AStr name])
  else if negb (all_bytes is_process_char name) then
    Err (Errorf "%w: process name %q contains %q; use letters, digits, dot, dash or underscore"
      [AWrap (Sentinel ErrInvalid); AStr name; AOther])
  else Ok tt.

Definition StartProcess (name : string) (cmd : Command) : prog dockerE (result unit) :=
  match validateProcessName name with
  | Err err => Ret (Err err)
  | Ok _ =>
      match Command_Validate cmd with
      | Err err => Ret (Err err)
      | Ok _ =>
          let argv := (["sh"; "-c"; startProcessScript; "openblox"; Join2 procDir name]
                       ++ Argv cmd)%list in
          r <- Exec (mkCommand argv (CmdEnv cmd) (Dir cmd) None 0);;
          match r with
          | Err err => Ret (Err (Errorf "start process %q in %q: %w"
              [AStr name; AStr the_name; AWrap err]))
          | Ok res =>
              if negb (ExitCode res =? 0) then
                Ret (Err (Errorf "start process %q in %q: exit %d: %s"
                  [AStr name; AStr the_name; AInt (ExitCode res); AStr (TrimSpace (Stderr res))]))
              else Ret (Ok tt)
          end
      end
  end.

(** [dialPortWith]: the exec whose streams carry the connection. *)
Definition dialPortWith (port : Z) (script : string) : prog dockerE (result string) :=
  r <- attach (mkCommand ["sh"; "-c"; script; "openblox"; Itoa port] [] "" (Some "") 0) "";;
  match r with
  | Err err => Ret (Err (Errorf "dial port %d in %q: %w" [AInt port; AStr the_name; AWrap err]))
  | Ok execID => Ret (Ok execID)
  end.

Definition dialPort (port : Z) : prog dockerE (result string) := dialPortWith port relayScript.
End exec.

(** [Backend.DialPort] *)
Definition DialPort `{MapRange string} (b : Backend) (name : string) (port : Z)
    : prog dockerE (result string) :=
  if (port <? 1) || (port >? 65535) then
    Ret (Err (Errorf "%w: port %d is out of range" [AWrap (Sentinel ErrInvalid); AInt port]))
  else
    sb <-? Open b name;;
    dialPort sb port.

(** [Expose]; the nonce [Sign] draws is read with the clock. *)
Definition Expose (s : dockerSandbox) (port ttl : Z) : prog dockerE (result Preview) :=
  match ds_previews s with
  | None => Ret (Err (Errorf "%w: previews are not configured; pass docker.WithPreviews to New"
      [AWrap (Sentinel ErrInvalid)]))
  | Some pv =>
      if (port <? 1) || (port >? 65535) then
        Ret (Err (Errorf "%w: port %d is out of range" [AWrap (Sentinel ErrInvalid); AInt port]))
      else
        now <- call Now;;
        let expiresAt := now + ClampTTL ttl DefaultPreviewTTL in
        rnd <- call (RandBytes 16);;
        match Sign (PvSigner pv) rnd (the_name s) port expiresAt with
        | Err err => Ret (Err (Errorf "%w: %w" [AWrap (Sentinel ErrInvalid); AWrap err]))
        | Ok token =>
            Ret (Ok (mkPreview (PreviewProxy.URL (PvBaseURL pv) (the_name s) port) token port expiresAt))
        end
  end.

(** [dockerSandbox.Revoke]: the preview handler after it. *)
Definition RevokePreview (s : dockerSandbox) (h : Handler) (port : Z) (token : string)
    (now : time) (clock : string -> time) : result Handler :=
  match ds_previews s with
  | None => Err (Errorf "%w: previews are not configured" [AWrap (Sentinel ErrInvalid)])
  | Some pv =>
      match Verify (PvSigner pv) token (the_name s) port now with
      | Err err => Err (Errorf "%w: %w" [AWrap (Sentinel ErrInvalid); AWrap err])
      | Ok _ => Ok (Revoke h token clock)
      end
  end.

#[global] Arguments groupScript : simpl never.
#[global] Arguments killScript : simpl never.
#[global] Arguments relayScript : simpl never.
#[global] Arguments startProcessScript : simpl never.
#[global] Arguments touchScript : simpl never.
#[global] Arguments writeScript : simpl never.

(** ** Output is capped *)

Lemma stake_le n s : (String.length s <= n)%nat -> stake n s = s.
Proof.
  unfold stake. revert n; induction s as [|c s IH]; intros [|n] Hl; cbn in *; try done; try lia.
  by rewrite IH by lia.
Qed.

Lemma stake_app_split n s t :
  stake n (s ++ t) = stake n s ++ stake (n - String.length s) t.
Proof.
  unfold stake. revert n; induction s as [|c s IH]; intros n; cbn [String.append String.length].
  - rewrite Nat.sub_0_r. by destruct n.
  - destruct n as [|n]; cbn; [by destruct t|]. by rewrite IH.
Qed.

Lemma stake_len n s : String.length (stake n s) = Nat.min n (String.length s).
Proof.
  unfold stake. revert n; induction s as [|c s IH]; intros [|n]; cbn; [done..|]. by rewrite IH.
Qed.

(** A buffer that has been given [all] holds the first [limit] bytes of it. *)
Definition holds (b : cappedBuffer) (lim : Z) (all : string) : Prop :=
  limit b = lim /\ buf b = stake (Z.to_nat lim) all /\ truncated b = (slen all >? lim).

Lemma Write_holds b lim all p :
  0 <= lim -> holds b lim all -> holds (fst (Write b p)) lim (all ++ p) /\ snd (Write b p) = slen p.
Proof.
  intros Hl (Hlim & Hbuf & Htr). unfold Write. rewrite Hlim, Hbuf.
  assert (Hlen : slen (stake (Z.to_nat lim) all) = Z.min lim (slen all)).
  { unfold slen. rewrite stake_len. lia. }
  assert (Happ : slen (all ++ p) = slen all + slen p) by (unfold slen; rewrite slength_app; lia).
  assert (Hpos : 0 <= slen all /\ 0 <= slen p) by (unfold slen; lia).
  rewrite Hlen, !Z.gtb_ltb. destruct (Z.ltb_spec (lim - Z.min lim (slen all)) (slen p)); cbn [fst snd].
  - split; [|done]. split_and!; [done| |].
    + cbn [buf]. rewrite stake_app_split. f_equal. f_equal. unfold slen in *. lia.
    + cbn [truncated]. rewrite Happ, Z.gtb_ltb. symmetry. apply Z.ltb_lt. lia.
  - split; [|done]. split_and!; [done| |].
    + cbn [buf]. rewrite stake_app_split. f_equal. symmetry. apply stake_le. unfold slen in *. lia.
    + cbn [truncated]. rewrite Htr, Happ, !Z.gtb_ltb. repeat zcase; done.
Qed.

(** Everything written to one stream. *)
Fixpoint stream_of (which : bool) (frames : list (bool * string)) : string :=
  match frames with
  | [] => ""
  | (k, p) :: frames => (if Bool.eqb k which then p else "") ++ stream_of which frames
  end.

Lemma StdCopy_holds frames lim out err allo alle :
  0 <= lim -> holds out lim allo -> holds err lim alle ->
  let r := StdCopy frames out err in
  holds (fst r) lim (allo ++ stream_of false frames) /\
  holds (snd r) lim (alle ++ stream_of true frames).
Proof.
  intros Hl. revert out err allo alle.
  induction frames as [|[k p] frames IH]; intros out err allo alle Ho He; cbn [StdCopy stream_of].
  { by rewrite !sapp_nil_r. }
  destruct k; cbn [Bool.eqb].
  - destruct (Write_holds err lim alle p Hl He) as [He' _].
    destruct (IH out _ allo _ Ho He') as [H1 H2]. by rewrite sapp_assoc in H2.
  - destruct (Write_holds out lim allo p Hl Ho) as [Ho' _].
    destruct (IH _ err _ alle Ho' He) as [H1 H2]. by rewrite sapp_assoc in H1.
Qed.

(** C27. Whatever a command prints, and however the runtime cuts it into frames,
    the captured output of each stream is its first 16 MiB, byte for byte, and
    the buffer says it was truncated exactly when there was more; no write
    reports less than it was given, so the guest is never blocked. *)
Theorem output_capped frames :
  let empty := mkCapped "" MaxOutputBytes false in
  let '(out, err) := StdCopy frames empty empty in
  buf out = stake (Z.to_nat MaxOutputBytes) (stream_of false frames) /\
  truncated out = (slen (stream_of false frames) >? MaxOutputBytes) /\
  buf err = stake (Z.to_nat MaxOutputBytes) (stream_of true frames) /\
  truncated err = (slen (stream_of true frames) >? MaxOutputBytes) /\
  forall b p, 0 <= limit b -> snd (Write b p) = slen p.
Proof.
  intros empty. assert (H0 : 0 <= MaxOutputBytes) by done.
  assert (He : holds empty MaxOutputBytes "").
  { unfold empty. by split_and!. }
  pose proof (StdCopy_holds frames _ _ _ _ _ H0 He He) as [H1 H2].
  destruct (StdCopy frames empty empty) as [out err]. cbn [fst snd] in *.
  destruct H1 as (_ & ? & ?), H2 as (_ & ? & ?). split_and!; try done.
  intros b p _. unfold Write. cbv zeta. destruct (slen p >? _); reflexivity.
Qed.

(** ** What may reach the runtime *)

(** The exec [attach] creates for a command. *)
Definition exec_options (cmd : Command) (user : string) : ExecOptions :=
  mkExecOptions (Argv cmd) (CmdEnv cmd) (Dir cmd) user
    (match Stdin cmd with Some _ => true | None => false end) true true.

(** A command behind the script that records its process group in [pid], and
    the command that kills the group recorded there. *)
Definition grouped (pid : string) (cmd : Command) : Command :=
  mkCommand (["sh"; "-c"; groupScript; "sh"; pid] ++ Argv cmd)%list (CmdEnv cmd) (Dir cmd) (Stdin cmd)
    (Timeout cmd).
Definition killing (pid : string) : Command :=
  mkCommand ["sh"; "-c"; killScript; "sh"; pid] [] "" None killTimeout.
Definition pid_file (pid : string) : Prop := exists bytes, pid = "/tmp/.openblox-exec-" ++ hex bytes.

(** The execs of an operation that runs [cmds] in groups of their own and
    [plain] as they are, each as the sandbox's user. *)
Definition running (cmds plain : list Command) (o : ExecOptions) : Prop :=
  (exists pid cmd, pid_file pid /\ cmd ∈ cmds /\
     (o = exec_options (grouped pid cmd) "" \/ o = exec_options (killing pid) "")) \/
  exists cmd, cmd ∈ plain /\ o = exec_options cmd "".

(** The calls of the goroutine that records activity: its one exec is as root,
    with a fixed script and the host clock's reading as its only argument, and
    no environment, directory or input of anybody's. *)
Definition touch_call (id : string) : forall X, dockerE X -> Prop :=
  fun X e => match e with
  | ContainerExecCreate id' o => id' = id /\ exists now,
      o = mkExecOptions ["sh"; "-c"; touchScript; FormatRFC3339Nano now] [] "" rootUser false true true
  | ContainerInspect id' | ContainerWait id' _ => id' = id
  | ContainerExecAttach _ | AwaitOutput _ _ | ContainerExecInspect _ | Now => True
  | _ => False
  end.

(** The calls an operation on a sandbox may make on behalf of a caller, the
    goroutine it starts included. *)
Definition guest_call (s : dockerSandbox) (cmds plain : list Command) : forall X, dockerE X -> Prop :=
  fun X e => match e with
  | ContainerExecCreate id o => id = ds_id s /\ running cmds plain o
  | PumpStdin _ src => exists cmd, cmd ∈ cmds /\ Stdin cmd = Some src
  | ContainerInspect id | ContainerWait id _ => id = ds_id s
  | GoTouch id => id = ds_id s /\ cmds <> [] /\ safe (touch_call id) (touch s) (fun _ => True)
  | AwaitOutput _ t => 0 < ds_maxTimeout s -> t <= ds_maxTimeout s
  | ContainerCreate _ _ _ | ContainerStart _ | ContainerStop _ | ContainerRemove _ _ _
  | ContainerList _ _ | DaemonInfo | ImageInspect _ | ImagePull _ _ | DrainPull => False
  | _ => True
  end.

Lemma touch_safe s : safe (touch_call (ds_id s)) (touch s) (fun _ => True).
Proof.
  unfold touch. cbn [bind call safe]. split; [done|]. intros now.
  apply safe_bind with (fun _ => True); [|done]. unfold exec, exec_with.
  change (Command_Validate _) with (Ok tt). cbn [String.eqb negb Stdin].
  apply safe_bind with (fun _ => True).
  { unfold attach. cbn [bind call safe]. split; [split; [done|by exists now]|]. intros [id|e].
    - cbn [bind call safe]. split; [done|]. intros [[]|e]; [done|].
      apply safe_bind with (fun _ => True); [|done]. unfold classifyAttach. cbn [bind call safe].
      split; [done|]. intros r. repeat casesplit; done.
    - repeat casesplit; done. }
  intros [execID|] _; [|done]. cbn [bind call safe]. split; [done|].
  intros [frames [err|]|err]; [done| |by destruct (negb _)].
  destruct (StdCopy _ _ _) as [out er]; cbn [bind call safe]. split; [done|]. intros [code|]; [|done].
  apply safe_bind with (fun _ => True); [|by intros [? ?] _]. destruct (mayHaveDied code); [|done].
  unfold diedUnder. cbn [bind call safe]. split; [done|]. intros []; cbn; [|done].
  split; [done|]. intros r. repeat casesplit; done.
Qed.

Section guest.
Variables (s : dockerSandbox) (cmds plain : list Command).

Abbreviation guest p := (safe (guest_call s cmds plain) p (fun _ => True)).

Lemma classifyAttach_guest e : guest (classifyAttach s e).
Proof. unfold classifyAttach. cbn. split; [done|]. intros r. repeat casesplit; done. Qed.

Lemma attach_guest cmd : running cmds plain (exec_options cmd "") -> guest (attach s cmd "").
Proof.
  intros Hf. unfold attach. cbn [bind call safe]. split; [by split|]. intros [id|e].
  - cbn [bind call safe]. split; [done|]. intros [[]|e]; [done|].
    apply safe_bind with (fun _ => True); [apply classifyAttach_guest|done].
  - repeat casesplit; done.
Qed.

Lemma diedUnder_guest : guest (diedUnder s).
Proof.
  unfold diedUnder. cbn. split; [done|]. intros []; cbn; [|done].
  split; [done|]. intros r. repeat casesplit; done.
Qed.

Lemma resolveTimeout_bound requested :
  0 < ds_maxTimeout s -> resolveTimeout s requested <= ds_maxTimeout s.
Proof. apply (clampTimeout_spec (ds_defaultTimeout s) (ds_maxTimeout s) requested). Qed.

(** Waiting for an exec that was attached. *)
Lemma exec_with_guest kill cmd pidFile :
  (pidFile <> "" -> guest kill) ->
  running cmds plain (exec_options (if negb (String.eqb pidFile "") then grouped pidFile cmd else cmd) "") ->
  (forall src, Stdin cmd = Some src -> cmd ∈ cmds) ->
  guest (exec_with s kill cmd "" pidFile).
Proof.
  intros Hk Hf Hin. unfold exec_with. destruct (Command_Validate cmd) as [[]|]; [|done]. cbv zeta.
  apply safe_bind with (fun _ => True).
  { apply attach_guest. revert Hf. by destruct (negb _). }
  intros [execID|] _; [|done]. apply safe_bind with (fun _ => True).
  { assert (Hi : Stdin (if negb (String.eqb pidFile "") then grouped pidFile cmd else cmd) = Stdin cmd)
      by (by destruct (negb _)).
    unfold grouped in Hi. rewrite Hi. destruct (Stdin cmd) as [src|] eqn:Es; [|done]. cbn. split; [|done].
    exists cmd. by eauto. }
  intros _ _. cbn [bind call safe]. split; [exact (resolveTimeout_bound _)|].
  intros [frames [err|]|err]; [done| |].
  - destruct (StdCopy _ _ _) as [out er]; cbn [bind call safe]; split; [done|].
    intros [code|]; [|done]; apply safe_bind with (fun _ => True);
    [by destruct (mayHaveDied code); [apply diedUnder_guest|]|by intros [? ?] _].
  - apply safe_bind with (fun _ => True); [|intros _ _; repeat casesplit; done].
    destruct (String.eqb_spec pidFile ""); [done|by apply Hk].
Qed.

Lemma killGroup_guest pidFile cmd : pid_file pidFile -> cmd ∈ cmds -> guest (killGroup s pidFile).
Proof.
  intros Hp Hc. unfold killGroup. cbn [bind call safe]. split; [done|]. intros start.
  apply safe_bind with (fun _ => True); [|done]. generalize (start + killRecordWait) as deadline.
  intros deadline. induction killFuel as [|fuel IH]; cbn [killLoop]; [done|].
  apply safe_bind with (fun _ => True).
  { apply exec_with_guest; [done| |done]. left. exists pidFile, cmd. by auto. }
  intros [res|] _; [|done]. destruct (negb _); [done|]. cbn [bind call safe]. split; [done|].
  intros now. destruct (After now deadline); [done|]. cbn [bind call safe]. split; [done|].
  by intros [].
Qed.

Lemma Exec_guest cmd : cmd ∈ cmds -> guest (Exec s cmd).
Proof.
  intros Hc. unfold Exec, newPIDFile. cbn [bind call safe]. split; [done|]. intros r.
  set (pid := "/tmp/.openblox-exec-" ++ _). assert (Hp : pid_file pid) by (by eexists).
  apply safe_bind with (fun _ => True).
  - unfold exec. apply exec_with_guest; [intros _; by eapply killGroup_guest| |done].
    change (negb (String.eqb pid "")) with true. cbv iota. left. exists pid, cmd. by auto.
  - intros res _. cbn. split; [|done]. split; [done|]. split; [|apply touch_safe].
    intros E. rewrite E in Hc. set_solver.
Qed.

Lemma run_cmd_guest what argv : mkCommand argv [] "" None 0 ∈ cmds -> guest (run_cmd s what argv).
Proof.
  intros Hc. apply safe_bind with (fun _ => True); [by apply Exec_guest|].
  intros [res|] _; [by destruct (negb _)|done].
Qed.
End guest.

(** ** What each operation runs *)

Definition write_commands (dest : string) (mode : Z) (src : string) : list Command :=
  [mkCommand ["mkdir"; "-p"; PathDir dest] [] "" None 0;
   mkCommand ["sh"; "-c"; writeScript; dest] [] "" (Some src) 0;
   mkCommand ["chmod"; octal4 (Perm mode); dest] [] "" None 0].
Definition start_command (name : string) (cmd : Command) : Command :=
  mkCommand (["sh"; "-c"; startProcessScript; "openblox"; Join2 procDir name] ++ Argv cmd)%list
    (CmdEnv cmd) (Dir cmd) None 0.
Definition dial_command (port : Z) : Command :=
  mkCommand ["sh"; "-c"; relayScript; "openblox"; Itoa port] [] "" (Some "") 0.

(** Every call of [p] is one of an operation that runs these commands. *)
Definition runs_only {A} (s : dockerSandbox) (p : prog dockerE A) (cmds plain : list Command) : Prop :=
  safe (guest_call s cmds plain) p (fun _ => True).

Lemma guest_lastUsed s : runs_only s (lastUsed s) [] [mkCommand ["cat"; lastUsedPath] [] "" None 0].
Proof.
  unfold runs_only, lastUsed. apply safe_bind with (fun _ => True).
  - apply exec_with_guest; [done| |done]. right. eexists. split; [by apply list_elem_of_singleton|done].
  - intros [res|] _; [|done]. repeat casesplit; done.
Qed.

Lemma guest_WriteFile s dest mode src :
  runs_only s (WriteFile s dest mode src) (write_commands dest mode src) [].
Proof.
  unfold runs_only, WriteFile. destruct (negb _); [done|].
  apply safe_bind with (fun _ => True); [apply run_cmd_guest; unfold write_commands; set_solver|].
  intros [[]|] _; [|done].
  apply safe_bind with (fun _ => True); [apply Exec_guest; unfold write_commands; set_solver|].
  intros [res|] _; [|done]. destruct (negb _); [done|]. apply run_cmd_guest. unfold write_commands. set_solver.
Qed.

Lemma guest_ReadFile s path :
  runs_only s (ReadFile s path) [mkCommand ["test"; "-f"; path] [] "" None 0]
    [mkCommand ["cat"; "--"; path] [] "" None 0].
Proof.
  unfold runs_only, ReadFile. destruct (negb _); [done|].
  apply safe_bind with (fun _ => True); [apply Exec_guest; set_solver|]. intros [res|] _; [|done].
  destruct (negb _); [done|]. apply attach_guest. right. eexists. split; [by apply list_elem_of_singleton|done].
Qed.

Lemma guest_StartProcess s name cmd : runs_only s (StartProcess s name cmd) [start_command name cmd] [].
Proof.
  unfold runs_only, StartProcess. destruct (validateProcessName name); [|done].
  destruct (Command_Validate cmd); [|done].
  apply safe_bind with (fun _ => True); [apply Exec_guest; set_solver|].
  intros [res|] _; [by destruct (negb _)|done].
Qed.

Lemma guest_dialPort s port : runs_only s (dialPort s port) [] [dial_command port].
Proof.
  unfold runs_only, dialPort, dialPortWith. apply safe_bind with (fun _ => True); [|by intros [] _].
  apply attach_guest. right. eexists. split; [by apply list_elem_of_singleton|done].
Qed.

(** C28. Caller input never gains privilege and is never parsed as shell code.
    Whatever Docker answers, every exec that [Exec], [WriteFile], [ReadFile],
    [StartProcess], a port dial or an activity read creates is in this
    sandbox's container, as the sandbox's own user, and is one of the commands
    listed for the operation, down to its argument vector, environment and
    directory: the caller's own command for [Exec], and for the others a program
    or one of the fixed scripts, with path, mode, name and port as separate
    arguments.  Each runs behind the fixed script that records its process
    group, or is the kill of such a group; a reader's [cat], a dial's relay and
    the activity read run as they are.  Input comes from the listed command, no
    exec is awaited past the sandbox's timeout ceiling, and no container or image
    is touched otherwise.  The one exec as root is that of the goroutine which
    records activity, started only by operations that run a command of the
    caller's: the fixed script, with the host's clock as its only argument. *)
Theorem guest_operations_confined s cmd dest mode src path name port :
  runs_only s (Exec s cmd) [cmd] [] /\
  runs_only s (WriteFile s dest mode src) (write_commands dest mode src) [] /\
  runs_only s (ReadFile s path) [mkCommand ["test"; "-f"; path] [] "" None 0]
    [mkCommand ["cat"; "--"; path] [] "" None 0] /\
  runs_only s (StartProcess s name cmd) [start_command name cmd] [] /\
  runs_only s (dialPort s port) [] [dial_command port] /\
  runs_only s (lastUsed s) [] [mkCommand ["cat"; lastUsedPath] [] "" None 0].
Proof.
  split_and!; [by apply Exec_guest, list_elem_of_singleton|apply guest_WriteFile|apply guest_ReadFile
    |apply guest_StartProcess|apply guest_dialPort|apply guest_lastUsed].
Qed.

(** ** The kill loop ends *)

(** A clock: it never runs backwards, [Now] reads it, and a completed sleep
    lasts at least its interval. *)
Definition clock_step (X : Type) (e : dockerE X) (t : time) (x : X) (t' : time) : Prop :=
  t <= t' /\
  match e in dockerE X return X -> Prop with
  | Now => fun x => x = t'
  | Sleep d => fun b => b = true -> t + d <= t'
  | _ => fun _ => True
  end x.

Lemma clock_monotone {A} (p : prog dockerE A) t :
  wp (fun _ _ _ => True) clock_step p (fun _ t' => t <= t') t.
Proof.
  revert t; induction p as [a|X e k IH]; intros t; cbn; [lia|]. split; [done|].
  intros x t1 [Ht _]. eapply wp_mono; [|apply IH]. cbn. lia.
Qed.

Lemma killLoop_ends s fuel pidFile deadline t :
  deadline < t + (Z.of_nat fuel - 1) * killRetryInterval ->
  (0 < fuel)%nat ->
  wp (fun _ _ _ => True) clock_step (killLoop s fuel pidFile deadline) (fun r _ => r = true) t.
Proof.
  revert t; induction fuel as [|fuel IH]; intros t Hd Hf; [lia|]. cbn [killLoop].
  apply wp_bind. eapply wp_mono; [|apply clock_monotone]. intros [res|] t1 Ht1; [|done].
  destruct (negb _); [done|]. cbn [bind call wp]. split; [done|]. intros now t2 [Ht2 ->].
  unfold After. destruct (Z.ltb_spec deadline t2); [done|]. cbn [bind call wp]. split; [done|].
  intros slept t3 [Ht3 Hs]. destruct slept; [|done]. specialize (Hs eq_refl).
  assert (Hpos : killRetryInterval = 50000000) by done.
  apply IH; [|destruct fuel; [exfalso|]; lia]. rewrite Nat2Z.inj_succ in Hd. lia.
Qed.

(** C38. Killing a timed-out command cannot hang: with a clock that does not run
    backwards and sleeps that last their interval, the retry loop stops by
    itself within 42 rounds, so the kill always returns. *)
Theorem killGroup_terminates s pidFile t :
  wp (fun _ _ _ => True) clock_step
    (start <- call Now;; killLoop s killFuel pidFile (start + killRecordWait))
    (fun finished _ => finished = true) t.
Proof.
  cbn [bind call wp]. split; [done|]. intros start t' [_ ->]. apply killLoop_ends.
  - change (killRecordWait) with 2000000000. change killRetryInterval with 50000000.
    unfold killFuel. lia.
  - unfold killFuel. lia.
Qed.

(** ** What a result says *)

Lemma stake_bound n s : 0 <= n -> slen (stake (Z.to_nat n) s) <= n.
Proof. intros Hn. unfold slen. rewrite stake_len. lia. Qed.

Lemma output_bounded frames :
  let r := StdCopy frames (mkCapped "" MaxOutputBytes false) (mkCapped "" MaxOutputBytes false) in
  slen (buf (fst r)) <= MaxOutputBytes /\ slen (buf (snd r)) <= MaxOutputBytes.
Proof.
  assert (He : holds (mkCapped "" MaxOutputBytes false) MaxOutputBytes "") by (by split_and!).
  destruct (StdCopy_holds frames MaxOutputBytes _ _ _ _ ltac:(done) He He) as [(_ & H1 & _) (_ & H2 & _)].
  intros r. unfold r. rewrite H1, H2. split; by apply stake_bound.
Qed.

(** A result is truthful about the sandbox's death: in every execution of
    [Exec] that yields a result, each stream holds at most 16 MiB, the
    out-of-memory flag is only ever set together with the stopped flag, and
    the stopped flag only for the two exit statuses a dying sandbox hands out;
    and a command that is invalid is refused before anything runs. *)
Theorem Exec_result s cmd :
  safe (fun _ e => is_ok (Command_Validate cmd) = true \/
      match e with ContainerExecCreate _ _ | AwaitOutput _ _ => False | _ => True end)
    (Exec s cmd)
    (fun r => match r with
     | Ok res => slen (Stdout res) <= MaxOutputBytes /\ slen (Stderr res) <= MaxOutputBytes /\
         (OOMKilled res = true -> Stopped res = true) /\
         (Stopped res = true -> ExitCode res = 128 \/ ExitCode res = 137)
     | Err e => is_ok (Command_Validate cmd) = false -> Is e ErrInvalid = true
     end).
Proof.
  unfold Exec. apply safe_bind with (fun _ => True).
  { unfold newPIDFile. cbn. split; [by right|done]. }
  intros pidFile _. eapply safe_bind; [|intros res Hres; cbn; split; [by right|intros _; exact Hres]].
  unfold exec, exec_with. destruct (Command_Validate cmd) as [[]|e] eqn:Ev.
  2: { cbn. intros _. by apply (proj2 (Command_Validate_ok cmd)). }
  apply safe_bind with (fun _ => True); [apply safe_any; by left|]. intros [execID|err] _; [|by intros].
  apply safe_bind with (fun _ => True); [apply safe_any; by left|]. intros _ _. cbn [bind call safe].
  split; [by left|]. intros [frames [err|]|err]; [by intros| |].
  - pose proof (output_bounded frames) as Hb.
    destruct (StdCopy _ _ _) as [out er]. cbn [fst snd] in Hb. cbn [bind call safe].
    split; [by left|]. intros [code|]; [|by intros].
    apply safe_bind with (fun '(st, oom) => (oom = true -> st = true) /\
      (st = true -> code = 128 \/ code = 137)).
    + destruct (mayHaveDied code) eqn:Ed; [|by cbn].
      assert (Hc : code = 128 \/ code = 137).
      { unfold mayHaveDied, exitLostWait, exitKilled in Ed. apply orb_prop in Ed as [Ed|Ed]; zbool; auto. }
      unfold diedUnder. cbn. split; [by left|]. intros []; cbn; [|done]. split; [by left|].
      intros r. repeat casesplit; done.
    + intros [st oom] [H1 H2]. cbn. split_and!; tauto.
  - apply safe_bind with (fun _ => True); [apply safe_any; by left|]. intros _ _. by destruct (negb _); intros.
Qed.

(** ** Dead sandboxes are recognisable *)

(** A caller can tell a dead sandbox from a broken daemon: when the runtime
    refuses to create or start an exec, the error of every operation that goes
    through [attach] is [ErrStopped] for a container that conflicts or is not
    running, [ErrNotFound] for one that is gone, and neither otherwise;
    whatever the engine and its state. *)
Theorem attach_classifies {W} (h : forall X, dockerE X -> W -> X * W) s cmd user w :
  let opts := mkExecOptions (Argv cmd) (CmdEnv cmd) (Dir cmd) user
    (match Stdin cmd with Some _ => true | None => false end) true true in
  match h _ (ContainerExecCreate (ds_id s) opts) w with
  | (Err e, _) =>
      exists e', fst (run h (attach s cmd user) w) = Err e' /\
        (IsConflict e = true -> Is e' ErrStopped = true) /\
        (IsConflict e = false -> IsNotFound e = true -> Is e' ErrNotFound = true) /\
        (IsConflict e = false -> IsNotFound e = false -> forall t, Is e' t = Is e t)
  | (Ok id, w1) =>
      match h _ (ContainerExecAttach id) w1 with
      | (Ok _, w2) => run h (attach s cmd user) w = (Ok id, w2)
      | (Err e, w2) =>
          exists e', fst (run h (attach s cmd user) w) = Err e' /\
            match fst (h _ (ContainerInspect (ds_id s)) w2) with
            | Err ei => if IsNotFound ei then Is e' ErrNotFound = true
                        else forall t, Is e' t = Is e t
            | Ok j => match CjState j with
                      | Some st => if Running st then forall t, Is e' t = Is e t
                                   else Is e' ErrStopped = true
                      | None => forall t, Is e' t = Is e t
                      end
            end
      end
  end.
Proof.
  intros opts. unfold attach. cbn [bind call run]. fold opts.
  destruct (h _ (ContainerExecCreate (ds_id s) opts) w) as [[id|e] w1]; cbn [run bind call].
  - destruct (h _ (ContainerExecAttach id) w1) as [[[]|e] w2]; [done|].
    unfold classifyAttach. cbn [bind call run].
    destruct (h _ (ContainerInspect (ds_id s)) w2) as [[j|ei] w3]; cbn [fst].
    + destruct (CjState j) as [st|]; [destruct (Running st)|]; cbn [negb bind run fst];
        eexists; (split; [reflexivity|]); try done; intros t; cbn; by rewrite orb_false_r.
    + destruct (IsNotFound ei); cbn [bind run fst]; eexists; (split; [reflexivity|]); try done.
      intros t; cbn; by rewrite orb_false_r.
  - destruct (IsConflict e); [|destruct (IsNotFound e)]; cbn [run fst]; eexists;
      (split; [reflexivity|]); try done.
    split_and!; try done. intros _ _ t; cbn; by rewrite orb_false_r.
Qed.

(** ** Process bookkeeping stays in its directory *)

(** A process name is one path segment: an accepted name holds only
    letters, digits, dots, dashes and underscores and does not start with a
    dot, and the directory [StartProcess] keeps for it is exactly that name
    below the process directory, so no name reaches outside it and different
    names have different directories. *)
Theorem validateProcessName_confines name :
  (validateProcessName name = Ok tt <->
     name <> "" /\ HasPrefix name "." = false /\ all_bytes is_process_char name = true) /\
  (validateProcessName name = Ok tt -> Join2 procDir name = procDir ++ "/" ++ name) /\
  (forall e, validateProcessName name = Err e -> Is e ErrInvalid = true).
Proof.
  assert (Hiff : validateProcessName name = Ok tt <->
     name <> "" /\ HasPrefix name "." = false /\ all_bytes is_process_char name = true).
  { unfold validateProcessName. destruct (String.eqb_spec name ""); [naive_solver|].
    destruct (HasPrefix name "."); [naive_solver|].
    destruct (all_bytes is_process_char name); cbn [negb]; naive_solver. }
  split; [exact Hiff|]. split.
  - intros (Hne & Hdot & Hall)%Hiff.
    assert (Hs : has_byte "/"%char name = false) by by apply all_bytes_not_has with is_process_char.
    assert (Hp : plain_segment name = true).
    { unfold plain_segment. rewrite Hs. destruct (String.eqb_spec name ""); [done|].
      destruct (String.eqb_spec name ".") as [->|]; [done|].
      destruct (String.eqb_spec name "..") as [->|]; done. }
    unfold Join2. apply String.eqb_neq in Hne as Hne'. rewrite Hne'. cbn [String.eqb procDir].
    assert (Hsplit : Split (procDir ++ "/" ++ name) "/"%char = [""; "tmp"; ".openblox"; "proc"; name]).
    { cbn. by rewrite (Split_none name) by done. }
    assert (Hclean : clean_segs true [""; "tmp"; ".openblox"; "proc"; name] [] =
      [name; "proc"; ".openblox"; "tmp"]).
    { change (clean_segs true ["tmp"; ".openblox"; "proc"; name] [] =
        [name; "proc"; ".openblox"; "tmp"]).
      rewrite clean_segs_plain; [done|]. cbn. by rewrite Hp. }
    unfold Clean. rewrite Hsplit. change (HasPrefix (procDir ++ "/" ++ name) "/") with true.
    rewrite Hclean. reflexivity.
  - unfold validateProcessName. repeat casesplit; intros e [= <-]; done.
Qed.

(** ** Previews *)

(** C39. What [Expose] hands out works, and only as long as it says: the token
    of a preview verifies for the sandbox and port it was asked for at exactly
    the times at which the preview has not expired, the expiry lies within
    twenty-four hours of the call, and the URL's path routes back to that
    sandbox and port. *)
Theorem Expose_usable {W} (h : forall X, dockerE X -> W -> X * W) s pv port ttl w p :
  ds_previews s = Some pv ->
  0 <= fst (h _ Now w) <= max_int64 - MaxTTL ->
  fst (run h (Expose s port ttl) w) = Ok p ->
  (forall t, Verify (PvSigner pv) (PreviewToken p) (the_name s) port t = Ok tt <-> Expired p t = false) /\
  fst (h _ Now w) < PreviewExpiresAt p <= fst (h _ Now w) + MaxTTL /\
  PreviewPort p = port /\
  exists path, PreviewURL p = TrimSuffix1 (PvBaseURL pv) "/"%char ++ path /\
    parseRoute path = Some (the_name s, port, "/").
Proof.
  intros Hpv Hnow. unfold Expose. rewrite Hpv. destruct (_ || _) eqn:Ep; [done|].
  cbn [bind call run]. destruct (h _ Now w) as [now w1]. cbn [fst] in *. cbn [run bind call].
  destruct (h _ (RandBytes 16) w1) as [rnd w2]. cbn [run].
  destruct (ClampTTL_bounds ttl DefaultPreviewTTL) as [Hc _]; [by vm_compute|].
  set (e := now + ClampTTL ttl DefaultPreviewTTL) in *.
  destruct (Sign (PvSigner pv) rnd (the_name s) port e) as [tok|err] eqn:Es; [|done].
  cbn [run fst]. intros Hp%Ok_inj. subst p. cbn [PreviewToken PreviewExpiresAt PreviewPort PreviewURL].
  assert (He : in_int64 e) by (unfold in_int64, min_int64; unfold e; lia).
  destruct (Sign_verifies _ _ _ _ _ _ Es He) as [Hv _].
  apply Sign_Ok in Es as (Hne & Hport & _).
  split_and!; [|unfold e; lia|unfold e; lia|done|].
  - intros t. rewrite Hv. unfold Expired, Before. cbn [PreviewExpiresAt].
    destruct (t <? e); naive_solver.
  - destruct (URL_parses (PvBaseURL pv) (the_name s) port "" Hne Hport) as (path & H1 & H2).
    exists path. rewrite sapp_nil_r in H2. done.
Qed.

Definition demo_sandbox : dockerSandbox :=
  mkDockerSandbox "c1" (mkInfo "web" "c1" "img" StateRunning 0 ∅) Second Minute
    (Some (mkPreviews demo_signer "https://example.test")).

Definition demo_clock (X : Type) (e : dockerE X) : unit -> X * unit :=
  match e in dockerE X return unit -> X * unit with
  | ContainerInspect _ => fun w => (Err (External ExtOther ""), w)
  | ContainerCreate _ _ _ => fun w => (Err (External ExtOther ""), w)
  | ContainerStart _ => fun w => (Ok tt, w)
  | ContainerStop _ => fun w => (Ok tt, w)
  | ContainerRemove _ _ _ => fun w => (Ok tt, w)
  | ContainerList _ _ => fun w => (Ok [], w)
  | DaemonInfo => fun w => (Ok [], w)
  | ImageInspect _ => fun w => (Ok tt, w)
  | ImagePull _ _ => fun w => (Ok tt, w)
  | DrainPull => fun w => (Ok tt, w)
  | ContainerExecCreate _ _ => fun w => (Ok "exec", w)
  | ContainerExecAttach _ => fun w => (Ok tt, w)
  | PumpStdin _ _ => fun w => (tt, w)
  | AwaitOutput _ _ => fun w => (CopyDone [] None, w)
  | ContainerExecInspect _ => fun w => (Ok 0, w)
  | ContainerWait _ _ => fun w => (false, w)
  | Sleep _ => fun w => (true, w)
  | GoTouch _ => fun w => (tt, w)
  | Now => fun w => (1700000000000000000, w)
  | RandBytes _ => fun w => (Ok "0123456789abcdef", w)
  end.

Lemma Expose_usable_witness :
  exists p, fst (run demo_clock (Expose demo_sandbox 8080 0) tt) = Ok p /\ PreviewPort p = 8080.
Proof.
  assert (Hok : is_ok (fst (run demo_clock (Expose demo_sandbox 8080 0) tt)) = true)
    by (vm_compute; reflexivity).
  destruct (fst (run demo_clock (Expose demo_sandbox 8080 0) tt)) as [p|e] eqn:E; [|discriminate Hok].
  exists p. split; [reflexivity|].
  assert (Hn : 0 <= fst (demo_clock _ Now tt) <= max_int64 - MaxTTL) by (vm_compute; split; discriminate).
  exact (proj1 (proj2 (proj2 (Expose_usable demo_clock demo_sandbox _ 8080 0 tt p eq_refl Hn E)))).
Defined.
