(* ===== verification/PreviewPool.v ===== *)
(** * pkg/preview/proxy.go: a handler serving any number of requests

    [Handler.ServeHTTP] with what its reverse proxy does, over any [Dialer]: the
    decision of [PreviewProxy.ServeHTTP], the transport with its pool of idle
    connections and [Handler.dial], as one program per request; and the process
    as a system in which any number of requests are served at once, one call at
    a time, against one pool, while tokens are revoked and idle connections
    dropped.  What a dialer promises is a class; the Docker backend
    ([PreviewDocker]) and the broker's client ([PreviewBroker]) are its two
    instances, as they are the two implementations of the interface. *)

From S2P Require Import Goroutines Prelude GoErrors GoStrings GoDuration GoTime GoNet GoText GoEncoding GoHttp.
From S2P Require Import Sha256 Effects PreviewToken PreviewProxy.

(** ** What a dialer promises *)

(** [Known]: what the other side's answers have told so far.  [leads k x name
    port]: they have told that connection [x] leads to [port] of sandbox [name];
    [dial_call]: the calls a dial may make.  Answers only add to what is known,
    and a dial that succeeds returns a connection that leads where it was asked
    to, whatever else becomes known meanwhile. *)
Class Dialer {E : Type -> Type} (Known : Type) (DialPort : string -> Z -> prog E (result string)) : Type := {
  learn : forall X, E X -> X -> Known -> Known;
  below : Known -> Known -> Prop;
  leads : Known -> string -> string -> Z -> Prop;
  dial_call : string -> Z -> forall X, E X -> Known -> Prop;
  below_preorder :: PreOrder below;
  learn_below : forall X (e : E X) x k, below k (learn X e x k);
  leads_below : forall k k' x name port, below k k' -> leads k x name port -> leads k' x name port;
  dial_call_below : forall name port X (e : E X) k k',
    below k k' -> dial_call name port X e k -> dial_call name port X e k';
  dial_leads : forall name port k,
    wp (dial_call name port)
      (fun X (e : E X) k x k' => exists k1, below k k1 /\ k' = learn X e x k1)
      (DialPort name port)
      (fun r k' => match r with Ok x => leads k' x name port | Err _ => True end) k
}.

(** ** The calls that leave a request *)

Inductive Trip : Type :=
  | Answered (response : string)
  | Retry (err : error)           (** the connection was stale: the request may be sent again *)
  | Failed (err : error).

Inductive previewE (E : Type -> Type) : Type -> Type :=
  | Dialing {X : Type} (e : E X) : previewE E X
  | TakeIdle (addr : string) : previewE E (option string)
  | Hand (addr conn : string) : previewE E string
  | RoundTrip (conn : string) (out : Outgoing) : previewE E Trip
  | PutIdle (addr conn : string) : previewE E unit.
Arguments Dialing {E X}.
Arguments TakeIdle {E}.
Arguments Hand {E}.
Arguments RoundTrip {E}.
Arguments PutIdle {E}.

Fixpoint within {E A} (p : prog E A) : prog (previewE E) A :=
  match p with Ret a => Ret a | Vis e k => Vis (Dialing e) (fun x => within (k x)) end.

(** What the client sees. *)
Inductive Reply : Type :=
  | HttpError (status : Z) (authenticate : option string) (text : string)
  | Proxied (response : string).

Definition proxyError (err : error) : Reply := HttpError 502 None "preview unavailable".

Section serve.
Context {E : Type -> Type}.
Variable DialPort : string -> Z -> prog E (result string).

(** [Handler.dial], its dialer's answer and all. *)
Definition dialRoute (f : Routed) : prog (previewE E) (result string) :=
  dial (fun err => Ret (Err err)) (fun name port => within (DialPort name port))
    (Some (RouteName f, RoutePort f)) (pool_addr f).

(** [http.Transport.RoundTrip]: an idle connection of the address, or a dialled
    one; a dialled connection joins those of its address, and the request is
    handed one of them.  A stale connection is replaced, [retries] times at
    most. *)
Fixpoint transport (retries : nat) (f : Routed) : prog (previewE E) (result string) :=
  idle <- call (TakeIdle (pool_addr f));;
  conn <- match idle with
          | Some conn => Ret (Ok conn)
          | None =>
              dialled <- dialRoute f;;
              match dialled with
              | Err err => Ret (Err err)
              | Ok fresh => conn <- call (Hand (pool_addr f) fresh);; Ret (Ok conn)
              end
          end;;
  match conn with
  | Err err => Ret (Err err)
  | Ok conn =>
      trip <- call (RoundTrip conn (rewrite f));;
      match trip with
      | Answered response => _ <- call (PutIdle (pool_addr f) conn);; Ret (Ok response)
      | Failed err => Ret (Err err)
      | Retry err => match retries with O => Ret (Err err) | S retries => transport retries f end
      end
  end.

(** [Handler.ServeHTTP] with what its proxy does. *)
Definition serve_preview (retries : nat) (h : Handler) (r : Request) (now : time)
    : prog (previewE E) Reply :=
  match ServeHTTP h r now with
  | NotFound404 => Ret (HttpError 404 None "not found")
  | Unauthorized401 challenge =>
      Ret (HttpError 401 (if challenge then Some ("Bearer realm=" ++ dq ++ "openblox preview" ++ dq) else None)
        "unauthorized")
  | Forward f =>
      res <- transport retries f;;
      match res with Err err => Ret (proxyError err) | Ok response => Ret (Proxied response) end
  end.
End serve.

(** ** The process *)

Section process.
Context {E : Type -> Type} {Known : Type}.
Variable DialPort : string -> Z -> prog E (result string).
Context {D : Dialer Known DialPort}.

(** What is known of the dialer's side, and the idle connections by address. *)
Record world : Type := mkWorld { known : Known; idle : list (string * string) }.

(** The dialer's side may answer anything; the pool hands out what it holds
    under the address it is asked for, each connection once, and keeps what it
    is given, or not. *)
Definition world_step (X : Type) (e : previewE E X) (w : world) : X -> world -> Prop :=
  match e in previewE _ X return X -> world -> Prop with
  | Dialing e => fun x w' => w' = mkWorld (learn _ e x (known w)) (idle w)
  | TakeIdle a => fun r w' =>
      match r with
      | None => w' = w
      | Some x => exists pre post,
          idle w = (pre ++ (a, x) :: post)%list /\ w' = mkWorld (known w) (pre ++ post)
      end
  | Hand a x => fun y w' =>
      y = x /\ w' = w \/
      exists pre post, idle w = (pre ++ (a, y) :: post)%list /\
        w' = mkWorld (known w) ((a, x) :: pre ++ post)
  | RoundTrip _ _ => fun _ w' => w' = w
  | PutIdle a x => fun _ w' => w' = mkWorld (known w) ((a, x) :: idle w) \/ w' = w
  end.

Record thread : Type := mkThread {
  request : Request;
  accepted_by : Handler;        (** the handler, as it was when the request was looked at *)
  accepted_at : time;
  code : prog (previewE E) Reply
}.

Record process : Type := mkProcess {
  handler : Handler;
  threads : list thread;
  outside : world
}.

Inductive pstep : process -> process -> Prop :=
  | arrives s r now retries :
      pstep s (mkProcess (handler s)
        (threads s ++ [mkThread r (handler s) now (serve_preview DialPort retries (handler s) r now)])
        (outside s))
  | calls s pre post r h now X (e : previewE E X) k x w' :
      threads s = (pre ++ mkThread r h now (Vis e k) :: post)%list ->
      world_step X e (outside s) x w' ->
      pstep s (mkProcess (handler s) (pre ++ mkThread r h now (k x) :: post) w')
  | revokes s token clock :
      pstep s (mkProcess (Revoke (handler s) token clock) (threads s) (outside s))
  | drops s l :
      sublist l (idle (outside s)) ->
      pstep s (mkProcess (handler s) (threads s) (mkWorld (known (outside s)) l)).

Definition started (h : Handler) (k : Known) : process := mkProcess h [] (mkWorld k []).

(** ** Where a connection leads *)

(** The connection is one to the route's port, in the route's own sandbox,
    unless another name agrees with it in the first half of its SHA-256. *)
Definition reaches (k : Known) (f : Routed) (x : string) : Prop :=
  exists name, leads k x name (RoutePort f) /\
    (name = RouteName f \/
     name <> RouteName f /\ stake 16 (sha256 name) = stake 16 (sha256 (RouteName f))).

(** The calls a request routed to [f] may make. *)
Definition routed_call (f : Routed) (X : Type) (e : previewE E X) (w : world) : Prop :=
  match e with
  | Dialing e => dial_call (RouteName f) (RoutePort f) _ e (known w)
  | TakeIdle a => a = pool_addr f
  | Hand a x | PutIdle a x => a = pool_addr f /\ reaches (known w) f x
  | RoundTrip x out => reaches (known w) f x /\ out = rewrite f
  end.

Lemma reaches_below k k' f x : below k k' -> reaches k f x -> reaches k' f x.
Proof. intros Hb (name & Hl & He). exists name. split; [by eapply leads_below|done]. Qed.

Lemma routed_call_below f X (e : previewE E X) w w' :
  below (known w) (known w') -> routed_call f X e w -> routed_call f X e w'.
Proof.
  intros Hb. destruct e as [X e|a|a x|x out|a x]; cbn; try done.
  - by apply dial_call_below.
  - intros []. eauto using reaches_below.
  - intros []. eauto using reaches_below.
  - intros []. eauto using reaches_below.
Qed.

(** An idle connection leads where the address it is kept under says. *)
Definition sound (w : world) : Prop :=
  Forall (fun '(a, x) => exists name port, a = upstreamHost name port ++ ":80" /\ in_int64 port /\
    leads (known w) x name port) (idle w).

Lemma pool_addr_host f : pool_addr f = upstreamHost (RouteName f) (RoutePort f) ++ ":80".
Proof. unfold pool_addr, rewrite. cbn [OutURLHost]. by rewrite JoinHostPort_upstream. Qed.

(** Found under a route's address, a connection reaches the route. *)
Lemma pooled_reaches w f pre post x :
  sound w -> in_int64 (RoutePort f) -> idle w = (pre ++ (pool_addr f, x) :: post)%list ->
  reaches (known w) f x.
Proof.
  intros Hs Hp Hi. unfold sound in Hs. rewrite Hi, Forall_app, Forall_cons in Hs.
  destruct Hs as (_ & (n & p & Ha & Hp' & Hl) & _). rewrite pool_addr_host in Ha.
  apply sapp_cancel_r, upstreamHost_inj in Ha as [<- Hh]; [|done|done]. exists n. split; [done|].
  destruct (decide (n = RouteName f)); auto.
Qed.

(** Keeping a connection that reaches the route under the route's address. *)
Lemma kept_sound k f x l :
  reaches k f x -> in_int64 (RoutePort f) -> sound (mkWorld k l) ->
  sound (mkWorld k ((pool_addr f, x) :: l)).
Proof.
  intros (n & Hl & Hn) Hp Hs. constructor; [|exact Hs]. exists n, (RoutePort f).
  split; [|by split]. rewrite pool_addr_host. f_equal. unfold upstreamHost.
  by destruct Hn as [->|[_ ->]].
Qed.

Lemma sound_sublist w l : sublist l (idle w) -> sound w -> sound (mkWorld (known w) l).
Proof.
  intros Hl Hs. unfold sound in *. cbn. rewrite Forall_forall in Hs |- *. intros x Hx. apply Hs.
  by eapply sublist_subseteq.
Qed.

(** A call of a routed request keeps the pool sound. *)
Lemma world_step_sound f X (e : previewE E X) w x w' :
  in_int64 (RoutePort f) -> routed_call f X e w -> sound w -> world_step X e w x w' ->
  sound w' /\ below (known w) (known w').
Proof.
  intros Hp Hok Hs. assert (Hcut : forall pre post y, idle w = (pre ++ y :: post)%list ->
    sound (mkWorld (known w) (pre ++ post))).
  { intros pre post y Hi. apply sound_sublist; [|done]. rewrite Hi. apply sublist_app; [done|by constructor]. }
  destruct e as [X e|a|a c|c out|a c]; cbn [world_step routed_call] in *.
  - intros ->. pose proof (learn_below _ e x (known w)) as Hb. split; [|done].
    eapply Forall_impl; [exact Hs|]. intros [a c] (n & p & ? & ? & ?). exists n, p. eauto using leads_below.
  - destruct x as [x|]; [|by intros ->]. intros (pre & post & Hi & ->). split; [by eapply Hcut|done].
  - destruct Hok as [-> Hr]. intros [[-> ->]|(pre & post & Hi & ->)]; [done|]. split; [|done].
    apply kept_sound; [done|done|by eapply Hcut].
  - by intros ->.
  - destruct Hok as [-> Hr]. intros [->| ->]; [|done]. split; [|done]. destruct w. by apply kept_sound.
Qed.

(** ** One request, against whatever the others do *)

(** Between two calls of a request others move: answers add up, and the pool
    stays sound. *)
Definition rely_step (X : Type) (e : previewE E X) (w : world) (x : X) (w' : world) : Prop :=
  exists w1, below (known w) (known w1) /\ sound w1 /\ world_step X e w1 x w'.

Section routed.
Variable f : Routed.
Hypothesis Hport : in_int64 (RoutePort f).

Abbreviation routed p Q w := (wp (routed_call f) rely_step p Q w).

Lemma routed_below {A} (p : prog (previewE E) A) (Q : A -> world -> Prop) w w' :
  (forall a w w', below (known w) (known w') -> Q a w -> Q a w') ->
  below (known w) (known w') -> routed p Q w -> routed p Q w'.
Proof.
  intros HQ Hb. destruct p as [a|X e k]; cbn; [by apply HQ|]. intros [Hok Hk]. split.
  - by eapply routed_call_below.
  - intros x w2 (w1 & H1 & H2 & H3). apply Hk. exists w1. by split; [etrans|].
Qed.

(** A step taken under the rely only adds to what is known. *)
Lemma rely_below X (e : previewE E X) w x w' : rely_step X e w x w' -> below (known w) (known w').
Proof.
  intros (w1 & Hb & _ & Hst). etrans; [exact Hb|].
  destruct e as [X e|a|a c|c out|a c]; cbn [world_step] in Hst.
  - subst w'. apply learn_below.
  - destruct x as [x|]; [|by subst]. by destruct Hst as (pre & post & _ & ->).
  - by destruct Hst as [[_ ->]|(pre & post & _ & ->)].
  - by subst.
  - by destruct Hst as [->| ->].
Qed.

(** A dial within a request is the dialer's. *)
Lemma within_routed {A} (p : prog E A) (Q : A -> Known -> Prop) w :
  wp (dial_call (RouteName f) (RoutePort f))
    (fun X (e : E X) k x k' => exists k1, below k k1 /\ k' = learn X e x k1) p Q (known w) ->
  routed (within p) (fun a w' => Q a (known w')) w.
Proof.
  revert w; induction p as [a|X e k IH]; intros w; cbn [within wp]; [done|]. intros [Hok Hk].
  split; [done|]. intros x w' (w1 & Hb & _ & Hst). cbn in Hst. subst w'. apply IH, Hk. by exists (known w1).
Qed.

Lemma dialRoute_leads w :
  routed (dialRoute DialPort f)
    (fun r w' => match r with Ok x => leads (known w') x (RouteName f) (RoutePort f) | Err _ => True end) w.
Proof.
  unfold dialRoute, dial, pool_addr, rewrite. cbn [OutURLHost]. rewrite String.eqb_refl. cbn [negb].
  apply (within_routed _ (fun r k => match r with
    | Ok x => leads k x (RouteName f) (RoutePort f) | Err _ => True end)), dial_leads.
Qed.

(** The connection a request is given reaches its route. *)
Lemma taken_reaches w0 w idle0 :
  sound w0 -> world_step _ (TakeIdle (pool_addr f)) w0 idle0 w ->
  routed (match idle0 with
          | Some conn => Ret (Ok conn)
          | None =>
              dialled <- dialRoute DialPort f;;
              match dialled with
              | Err err => Ret (Err err)
              | Ok fresh => conn <- call (Hand (pool_addr f) fresh);; Ret (Ok conn)
              end
          end)
    (fun r w' => match r with Ok x => reaches (known w') f x | Err _ => True end) w.
Proof.
  intros Hs Hst. destruct idle0 as [x|].
  - destruct Hst as (pre & post & Hi & ->). cbn [wp known]. by eapply pooled_reaches.
  - rewrite wp_bind. eapply wp_mono; [|apply dialRoute_leads]. intros [fresh|err] w1 Hl; [|done].
    assert (Hr : reaches (known w1) f fresh) by (exists (RouteName f); auto).
    cbn [bind call wp]. split; [done|]. intros y w2 (w3 & Hb & Hs3 & [[-> ->]|(pre & post & Hi & ->)]).
    + by eapply reaches_below.
    + cbn [known]. by eapply pooled_reaches.
Qed.

Lemma transport_routed retries w : routed (transport DialPort retries f) (fun _ _ => True) w.
Proof.
  revert w; induction retries as [|retries IH]; intros w.
  all: cbn [transport bind call wp]; split; [done|].
  all: intros idle0 w1 (w0 & Hb & Hs & Hst); rewrite wp_bind.
  all: apply wp_mono with (Q := fun r w' => match r with Ok x => reaches (known w') f x | Err _ => True end).
  1, 3: intros [x|err] w2 Hr; [|done]; cbn [bind call wp]; split; [done|].
  1, 2: intros [resp|err|err] w3 Hst3; cbn [bind call wp]; [|by try apply IH|done].
  1, 2: split; [|done]; split; [done|]; exact (reaches_below _ _ _ _ (rely_below _ _ _ _ _ Hst3) Hr).
  all: by apply taken_reaches with (w0 := w0).
Qed.
End routed.

(** ** All requests *)

(** A request that was not let through is answered without a call; one that was
    makes the calls of its route. *)
Definition thread_ok (w : world) (t : thread) : Prop :=
  match ServeHTTP (accepted_by t) (request t) (accepted_at t) with
  | Forward f => in_int64 (RoutePort f) /\ wp (routed_call f) rely_step (code t) (fun _ _ => True) w
  | _ => exists reply, code t = Ret reply
  end.

Definition process_ok (key : Signer) (s : process) : Prop :=
  sound (outside s) /\ signer (handler s) = key /\
  Forall (fun t => signer (accepted_by t) = key /\ thread_ok (outside s) t) (threads s).

Lemma thread_ok_below w w' t : below (known w) (known w') -> thread_ok w t -> thread_ok w' t.
Proof.
  unfold thread_ok. intros Hb. destruct (ServeHTTP _ _ _) as [| |f]; [done..|].
  intros [Hp Ht]. split; [done|]. by eapply routed_below.
Qed.

Lemma forwarded_port h r now f : ServeHTTP h r now = Forward f -> in_int64 (RoutePort f).
Proof.
  intros (name & port & rest & Hr & _ & _ & ->)%ServeHTTP_Forward.
  apply parseRoute_port in Hr as [Hp _]. cbn. unfold in_int64, min_int64, max_int64. lia.
Qed.

Lemma serve_preview_ok retries h r now w :
  thread_ok w (mkThread r h now (serve_preview DialPort retries h r now)).
Proof.
  unfold thread_ok, serve_preview. cbn [request accepted_by accepted_at code].
  destruct (ServeHTTP h r now) as [| |f] eqn:E0; [by eexists..|].
  pose proof (forwarded_port _ _ _ _ E0) as Hp. split; [done|]. rewrite wp_bind.
  eapply wp_mono; [|by apply transport_routed]. by intros [] ? _.
Qed.

Lemma process_ok_step key s s' : process_ok key s -> pstep s s' -> process_ok key s'.
Proof.
  intros (Hs & Hkey & Ht) Hst.
  assert (Hmono : forall w l, below (known (outside s)) (known w) ->
    Forall (fun t => signer (accepted_by t) = key /\ thread_ok (outside s) t) l ->
    Forall (fun t => signer (accepted_by t) = key /\ thread_ok w t) l).
  { intros w l Hb Hl. eapply Forall_impl; [exact Hl|]. intros t []. eauto using thread_ok_below. }
  destruct Hst as [s r now retries|s pre post r h now X e k x w' Heq Hw|s token clock|s l Hl].
  - split; [done|]. split; [done|]. cbn. apply Forall_app. split; [done|].
    constructor; [split; [done|apply serve_preview_ok]|done].
  - rewrite Heq, Forall_app, Forall_cons in Ht. destruct Ht as (Hpre & [Hsg Hme] & Hpost).
    unfold thread_ok in Hme. cbn in Hme. destruct (ServeHTTP h r now) as [| |f] eqn:E0.
    1, 2: by destruct Hme.
    destruct Hme as (Hp & Hok & Hk). destruct (world_step_sound f _ _ _ _ _ Hp Hok Hs Hw) as [Hs' Hb].
    split; [done|]. split; [done|]. cbn. rewrite Forall_app, Forall_cons.
    split_and!; [by apply Hmono|done| |by apply Hmono].
    unfold thread_ok. cbn. rewrite E0. split; [done|]. apply Hk. exists (outside s). by split_and!.
  - split; [done|]. split; [|done]. cbn. by rewrite Revoke_signer.
  - split; [by apply sound_sublist|]. split; [done|]. by apply Hmono.
Qed.

(** The next call of any request in flight, in any reachable state, is one of
    the route its token was verified for. *)
Lemma next_call_routed h k0 s t X (e : previewE E X) k :
  rtc pstep (started h k0) s -> t ∈ threads s -> code t = Vis e k ->
  exists f,
    ServeHTTP (accepted_by t) (request t) (accepted_at t) = Forward f /\
    (exists rest, parseRoute (ReqEscapedPath (request t)) = Some (RouteName f, RoutePort f, rest)) /\
    Verify (signer h) (bearerToken (request t)) (RouteName f) (RoutePort f) (accepted_at t) = Ok tt /\
    isRevoked (accepted_by t) (bearerToken (request t)) = false /\
    routed_call f X e (outside s) /\
    OutHeader (rewrite f) !! "Authorization" = None /\
    OutHeader (rewrite f) !! "X-Forwarded-For" = None.
Proof.
  intros Hr Hin Hc. assert (HI : process_ok (signer h) s).
  { eapply rtc_preserves; [apply process_ok_step| |exact Hr]. split; [constructor|split; [done|constructor]]. }
  destruct HI as (_ & _ & Ht). rewrite Forall_forall in Ht. destruct (Ht t Hin) as [Hsg Hme].
  unfold thread_ok in Hme. rewrite Hc in Hme. destruct (ServeHTTP _ _ _) as [| |f] eqn:E0.
  1, 2: by destruct Hme.
  destruct Hme as (_ & Hok & _). exists f. split; [done|].
  apply ServeHTTP_Forward in E0 as (name & port & rest & Hp & Hv & Hn & ->). rewrite Hsg in Hv.
  split_and!; [by exists rest|done|done|done| |].
  - unfold rewrite, HeaderDel. cbn [OutHeader RoutedHeader]. rewrite lookup_delete_ne by done.
    apply lookup_delete_eq.
  - apply lookup_delete_eq.
Qed.

(** The one thread of a process makes its call and gets [x]. *)
Lemma one_call h r now X (e : previewE E X) k x w w' s :
  world_step X e w x w' ->
  rtc pstep (mkProcess h [mkThread r h now (k x)] w') s ->
  rtc pstep (mkProcess h [mkThread r h now (Vis e k)] w) s.
Proof.
  intros Hw Hr. eapply rtc_l; [|exact Hr].
  exact (calls (mkProcess h [mkThread r h now (Vis e k)] w) [] [] r h now X e k x w' eq_refl Hw).
Qed.

(** The dialer's check of its address passes for a routed request. *)
Lemma dialRoute_checked f : dialRoute DialPort f = within (DialPort (RouteName f) (RoutePort f)).
Proof.
  unfold dialRoute, dial, pool_addr, rewrite. cbn [OutURLHost]. by rewrite String.eqb_refl.
Qed.
End process.
