(* ===== verification/PreviewDocker.v ===== *)
(** * Previews on Docker

    The Docker backend as the [Dialer] of a preview handler: [Backend.DialPort]
    keeps the promise of [PreviewPool.Dialer], a connection being the exec that
    carries it, so what a preview reaches can be told in terms of the calls made
    to the runtime. *)

From S2P Require Import Goroutines Prelude GoErrors GoStrings GoDuration GoTime GoNet GoEncoding GoHttp.
From S2P Require Import Sha256 Effects Sandbox PreviewToken PreviewProxy DockerApi DockerBackend DockerExec PreviewPool.

(** What the runtime has answered, by reference inspected and by exec created. *)
Record told : Type := mkTold {
  inspected : list (string * ContainerJSON);
  execs : list (string * (string * ExecOptions))
}.

Definition untold : told := mkTold [] [].

Definition note {X} (e : dockerE X) : X -> told -> told :=
  match e in dockerE X return X -> told -> told with
  | ContainerInspect ref => fun r w =>
      match r with Ok j => mkTold ((ref, j) :: inspected w) (execs w) | Err _ => w end
  | ContainerExecCreate id opts => fun r w =>
      match r with Ok x => mkTold (inspected w) ((x, (id, opts)) :: execs w) | Err _ => w end
  | _ => fun _ w => w
  end.

(** The exec that carries a connection to [port]: the fixed relay script, as the
    container's own user, with the port as an argument. *)
Definition relay_exec (port : Z) : ExecOptions :=
  mkExecOptions ["sh"; "-c"; relayScript; "openblox"; Itoa port] [] "" "" true true true.

(** The runtime reported [j] for the container of sandbox [name], and it is
    managed by openblox. *)
Definition found (w : told) (name : string) (j : ContainerJSON) : Prop :=
  (containerName name, j) ∈ inspected w /\
  exists image labels, CjConfig j = Some (image, labels) /\ label labels labelManaged = "true".

Definition relay_in (w : told) (x name : string) (port : Z) : Prop :=
  exists j, found w name j /\ (x, (CjID j, relay_exec port)) ∈ execs w.

(** The calls a dial of [port] in [name] may make. *)
Definition docker_dial (name : string) (port : Z) (X : Type) (e : dockerE X) (w : told) : Prop :=
  match e with
  | ContainerInspect ref => ref = containerName name \/ exists j, found w name j /\ ref = CjID j
  | ContainerExecCreate id opts => (exists j, found w name j /\ id = CjID j) /\ opts = relay_exec port
  | ContainerExecAttach x => relay_in w x name port
  | _ => False
  end.

Definition told_below (w w' : told) : Prop := inspected w ⊆ inspected w' /\ execs w ⊆ execs w'.

#[local] Instance told_below_preorder : PreOrder told_below.
Proof. split; [by split|]. intros x y z [] []. split; by etrans. Qed.

Lemma found_below w w' name j : told_below w w' -> found w name j -> found w' name j.
Proof. intros [H1 _] [Hi Hc]. split; [by apply H1|done]. Qed.

Lemma relay_in_below w w' x name port :
  told_below w w' -> relay_in w x name port -> relay_in w' x name port.
Proof. intros Hb (j & Hj & Hx). exists j. split; [by eapply found_below|by apply Hb]. Qed.

Lemma docker_dial_below name port X (e : dockerE X) w w' :
  told_below w w' -> docker_dial name port X e w -> docker_dial name port X e w'.
Proof.
  intros Hb. destruct e; cbn; try done.
  - intros [?|(j & ? & ?)]; [by left|right]. exists j. eauto using found_below.
  - intros [(j & ? & ?) ?]. split; [|done]. exists j. eauto using found_below.
  - by apply relay_in_below.
Qed.

Lemma note_below {X} (e : dockerE X) x w : told_below w (note e x w).
Proof.
  destruct e; cbn; try done; destruct x; cbn; try done; split; cbn; try done; by apply list_subseteq_cons.
Qed.

Section dialer.
Context {RS : MapRange string}.
Variable b : Backend.

Abbreviation dials name port := (wp (docker_dial name port)
  (fun X (e : dockerE X) k x k' => exists k1, told_below k k1 /\ k' = note e x k1)).

Lemma note_after X (e : dockerE X) k x k' :
  (exists k1, told_below k k1 /\ k' = note e x k1) -> told_below k k'.
Proof. intros (k1 & Hb & ->). etrans; [exact Hb|apply note_below]. Qed.

Lemma Open_found name port w :
  dials name port (Open b name)
    (fun r w' => match r with Ok sb => exists j, found w' name j /\ ds_id sb = CjID j | Err _ => True end) w.
Proof.
  unfold Open. cbn [bind call wp]. split; [by left|].
  intros [j|err] w' (w1 & Hb & ->); [|casesplit; done]. cbn [note].
  destruct (CjConfig j) as [[image labels]|] eqn:Ec; [|done].
  destruct (String.eqb_spec (label labels labelManaged) "true") as [Em|]; cbn [negb wp]; [|done].
  exists j. split; [|done]. split; [by left|]. by exists image, labels.
Qed.

Lemma dialPort_leads name port sb w :
  (exists j, found w name j /\ ds_id sb = CjID j) ->
  dials name port (dialPort sb port)
    (fun r w' => match r with Ok x => relay_in w' x name port | Err _ => True end) w.
Proof.
  intros (j & Hj & Hid). unfold dialPort, dialPortWith. rewrite wp_bind.
  eapply wp_mono with (Q := fun r w' => match r with
    | Ok x => relay_in w' x name port | Err _ => True end); [by intros []|].
  unfold attach. cbn [bind call wp Argv CmdEnv Dir Stdin]. split.
  { split; [by exists j|done]. }
  intros [x|err] w' Hst; [|repeat casesplit; done].
  pose proof (found_below _ _ _ _ (note_after _ _ _ _ _ Hst) Hj) as Hj'.
  destruct Hst as (w1 & _ & ->). cbn [note bind call wp].
  assert (Hl : relay_in (mkTold (inspected w1) ((x, (ds_id sb, relay_exec port)) :: execs w1)) x name port).
  { exists j. split; [done|]. rewrite Hid. by left. }
  split; [exact Hl|]. intros [[]|err] w2 Hst2.
  - cbn. eapply relay_in_below; [exact (note_after _ (ContainerExecAttach x) _ (Ok tt) _ Hst2)|exact Hl].
  - rewrite wp_bind. unfold classifyAttach. cbn [bind call wp]. split.
    + right. exists j. split; [|done]. eapply found_below; [exact (note_after _ (ContainerExecAttach x) _ (Err err) _ Hst2)|exact Hj'].
    + intros r w3 _. repeat casesplit; done.
Qed.

Lemma DialPort_leads name port w :
  dials name port (DialPort b name port)
    (fun r w' => match r with Ok x => relay_in w' x name port | Err _ => True end) w.
Proof.
  unfold DialPort. destruct (_ || _); [done|]. rewrite wp_bind.
  eapply wp_mono; [|apply Open_found]. intros [sb|err] w' H; [by apply dialPort_leads|done].
Qed.

#[global] Instance docker_dialer : Dialer told (DialPort b) := {|
  learn := @note;
  below := told_below;
  leads := relay_in;
  dial_call := docker_dial;
  learn_below := @note_below;
  leads_below := relay_in_below;
  dial_call_below := docker_dial_below;
  dial_leads := DialPort_leads
|}.

(** C5. A preview reaches only what its token was signed for, however requests
    interleave.  In every reachable state of a preview handler on Docker (any
    number of requests in flight, moving one call at a time, with one pool of
    idle connections between them, any answers of the runtime, any revocations
    and any connections dropped), the next call of any request that makes one
    at all is made for a request whose bearer token verified for the sandbox
    and port of its own path and was not revoked when it was looked at; and the
    call is: an inspection of that sandbox's container; the creation of one
    exec, in a container the runtime reported for that sandbox and as managed,
    of the fixed relay script as the container's own user with that very port;
    the attachment to such an exec; a use of the pool under the route's own
    address; or the sending of the rewritten request, without the credential
    and the client's address, over a connection to that port, in that sandbox
    (unless another sandbox's name agrees with its in the first half of its
    SHA-256).  No other call to the runtime is ever made. *)
Theorem previews_confined h s t X (e : previewE dockerE X) k :
  rtc (pstep (DialPort b)) (started h untold) s -> t ∈ threads s -> code t = Vis e k ->
  exists f,
    ServeHTTP (accepted_by t) (request t) (accepted_at t) = Forward f /\
    (exists rest, parseRoute (ReqEscapedPath (request t)) = Some (RouteName f, RoutePort f, rest)) /\
    Verify (signer h) (bearerToken (request t)) (RouteName f) (RoutePort f) (accepted_at t) = Ok tt /\
    isRevoked (accepted_by t) (bearerToken (request t)) = false /\
    routed_call (DialPort b) f X e (outside s) /\
    OutHeader (rewrite f) !! "Authorization" = None /\
    OutHeader (rewrite f) !! "X-Forwarded-For" = None.
Proof. apply next_call_routed. Qed.
End dialer.

(** ** A request on its way *)

Definition demo_route : Routed :=
  mkRouted "web" 8080 "/index.html" (HeaderDel (ReqHeader (demo_request demo_token)) "Authorization").

Definition demo_json : ContainerJSON :=
  mkContainerJSON "c1" None (Some ("img", {[ labelManaged := "true" ]})).

#[local] Instance preview_strings : MapRange string := map_range_default string.

Definition demo_docker : Backend := mkBackend None "".

Lemma demo_dials h r now (K : result string -> prog (previewE dockerE) Reply) w :
  exists k w', rtc (pstep (DialPort demo_docker))
    (mkProcess h [mkThread r h now (bind (transport (DialPort demo_docker) 0 demo_route) K)] w)
    (mkProcess h [mkThread r h now (Vis (RoundTrip "x1" (rewrite demo_route)) k)] w').
Proof.
  eexists _, _. cbn [transport bind call].
  eapply (one_call _ _ _ _ _ _ _ None); [reflexivity|]. cbv beta iota. rewrite dialRoute_checked.
  unfold DialPort. change ((RoutePort demo_route <? 1) || (RoutePort demo_route >? 65535)) with false.
  cbn [within bind call Open].
  eapply (one_call _ _ _ _ _ _ _ (Ok demo_json)); [reflexivity|].
  cbn [CjConfig demo_json]. unfold label. rewrite (lookup_singleton_eq labelManaged "true").
  cbn [default id String.eqb Ascii.eqb Bool.eqb negb within bind call dialPort dialPortWith attach].
  eapply (one_call _ _ _ _ _ _ _ (Ok "x1")); [reflexivity|]. cbn [within bind call].
  eapply (one_call _ _ _ _ _ _ _ (Ok tt)); [reflexivity|]. cbn [within bind call].
  eapply (one_call _ _ _ _ _ _ _ "x1"); [by left|]. cbn [within bind call].
  apply rtc_refl.
Qed.

Lemma previews_confined_witness :
  exists s t k, rtc (pstep (DialPort demo_docker)) (started (NewHandler demo_signer) untold) s /\
    t ∈ threads s /\ code t = Vis (RoundTrip "x1" (rewrite demo_route)) k /\
    reaches (DialPort demo_docker) (known (outside s)) demo_route "x1".
Proof.
  set (h := NewHandler demo_signer). set (r := demo_request demo_token). set (now := 1600000000000000000).
  destruct (demo_dials h r now (fun res => match res with Err err => Ret (proxyError err)
    | Ok response => Ret (Proxied response) end) (mkWorld untold [])) as (k & w & Hr).
  assert (Hrun : rtc (pstep (DialPort demo_docker)) (started h untold)
    (mkProcess h [mkThread r h now (Vis (RoundTrip "x1" (rewrite demo_route)) k)] w)).
  { eapply rtc_l; [apply (arrives (DialPort demo_docker) (started h untold) r now 0)|].
    cbn [started handler threads outside app]. unfold serve_preview, h, r, now. rewrite demo_forwarded. exact Hr. }
  eexists _, _, k. split; [exact Hrun|]. split; [by left|]. split; [reflexivity|].
  destruct (previews_confined demo_docker h _ _ _ _ _ Hrun (list_elem_of_here _ _) eq_refl)
    as (f & Hf & _ & _ & _ & Hc & _). cbn [request accepted_by accepted_at] in Hf.
  unfold h, r, now in Hf. rewrite demo_forwarded in Hf. injection Hf as <-. exact (proj1 Hc).
Defined.
