(* ===== verification/DockerStream.v ===== *)
(** * pkg/docker: streaming out of a sandbox

    The stream behind [ReadFile]'s reader and behind a dialled port: a
    goroutine that takes the exec's framed output apart ([stdcopy.StdCopy]) and
    writes its standard output into an [io.Pipe], a consumer that reads the
    pipe, and [Close].  A pipe has no buffer: a write waits until it has been
    read, or until the reading end is closed. *)

From S2P Require Import Goroutines Prelude GoErrors GoNet Effects Sandbox DockerApi DockerBackend DockerExec.

(** The goroutine: reading the attached stream, waiting in a pipe write with
    what is left of it, done with the error it closed the pipe with. *)
Inductive demux : Type :=
  | Reading
  | Writing (p : string)
  | Gone (err : option error).

Record stream : Type := mkStream {
  output : list (bool * string);     (** all frames the exec has sent, so far *)
  frames : list (bool * string);     (** those not yet taken apart *)
  finished : bool;                   (** the exec's output has ended *)
  attachedClosed : bool;             (** the hijacked connection is closed *)
  pipeClosed : bool;                 (** the reading end of the pipe is closed *)
  goroutine : demux;
  got : string                       (** what the consumer has read *)
}.

Definition set_goroutine (s : stream) (g : demux) : stream :=
  mkStream (output s) (frames s) (finished s) (attachedClosed s) (pipeClosed s) g (got s).

(** The goroutine: frames of standard error are discarded, a frame of standard
    output is written to the pipe; it ends with the output, on a failed read of
    a connection closed under it, or on a write to a pipe nobody reads. *)
Inductive step : stream -> stream -> Prop :=
  | demux_stderr s p rest :
      goroutine s = Reading -> frames s = (true, p) :: rest ->
      step s (mkStream (output s) rest (finished s) (attachedClosed s) (pipeClosed s) Reading (got s))
  | demux_stdout s p rest :
      goroutine s = Reading -> frames s = (false, p) :: rest ->
      step s (mkStream (output s) rest (finished s) (attachedClosed s) (pipeClosed s) (Writing p) (got s))
  | demux_end s :
      goroutine s = Reading -> frames s = [] -> finished s = true -> step s (set_goroutine s (Gone None))
  | demux_read_fails s err :
      goroutine s = Reading -> attachedClosed s = true -> step s (set_goroutine s (Gone (Some err)))
  | demux_write_fails s p err :
      goroutine s = Writing p -> pipeClosed s = true -> step s (set_goroutine s (Gone (Some err))).

(** The exec sends a frame or ends; the consumer, until it closes, reads some
    of a waiting write. *)
Inductive event : stream -> stream -> Prop :=
  | exec_sends s f :
      finished s = false ->
      event s (mkStream (output s ++ [f]) (frames s ++ [f]) false (attachedClosed s) (pipeClosed s)
        (goroutine s) (got s))
  | exec_ends s :
      event s (mkStream (output s) (frames s) true (attachedClosed s) (pipeClosed s) (goroutine s) (got s))
  | consumer_reads s chunk rest :
      goroutine s = Writing (chunk ++ rest) -> pipeClosed s = false -> attachedClosed s = false ->
      event s (mkStream (output s) (frames s) (finished s) (attachedClosed s) (pipeClosed s)
        (if String.eqb rest "" then Reading else Writing rest) (got s ++ chunk)).

(** [execConn.Close]: the hijacked connection, then the pipe. *)
Definition execConn_Close (s : stream) : stream :=
  mkStream (output s) (frames s) (finished s) true true (goroutine s) (got s).

(** [execStream.Close]: the hijacked connection. *)
Definition execStream_Close (s : stream) : stream :=
  mkStream (output s) (frames s) (finished s) true (pipeClosed s) (goroutine s) (got s).

Definition opened : stream := mkStream [] [] false false false Reading "".

Section stream.
(** How the consumer closes it. *)
Variable Close : stream -> stream.

Definition any_step (s s' : stream) : Prop := step s s' \/ event s s' \/ s' = Close s.

(** What is on its way to the consumer. *)
Definition in_flight (s : stream) : string :=
  match goroutine s with
  | Reading => stream_of false (frames s)
  | Writing p => p ++ stream_of false (frames s)
  | Gone _ => ""
  end.
End stream.

Lemma stream_of_app which l l' :
  stream_of which (l ++ l')%list = stream_of which l ++ stream_of which l'.
Proof.
  induction l as [|[k p] l IH]; cbn [stream_of app]; [done|]. by rewrite IH, sapp_assoc.
Qed.

(** Until the goroutine is gone, what was read and what is on its way is the
    standard output; after it, what was read is the beginning of it. *)
Definition delivered (s : stream) : Prop :=
  exists rest, stream_of false (output s) = got s ++ rest /\
    match goroutine s with
    | Gone None => rest = "" /\ finished s = true
    | Gone (Some _) => True
    | _ => rest = in_flight s
    end.

Lemma delivered_step s s' : delivered s -> step s s' -> delivered s'.
Proof.
  intros (rest & Hs & Hr) Hst. unfold delivered, in_flight in *.
  destruct Hst as [s p fr Hg Hf|s p fr Hg Hf|s Hg Hf He|s err Hg Hc|s p err Hg Hc]; rewrite Hg in Hr;
    cbn [output goroutine got frames finished set_goroutine].
  - exists rest. split; [done|]. by rewrite Hr, Hf.
  - exists rest. split; [done|]. by rewrite Hr, Hf.
  - exists rest. split; [done|]. by rewrite Hr, Hf.
  - by exists rest.
  - by exists rest.
Qed.

Lemma delivered_event s s' : delivered s -> event s s' -> delivered s'.
Proof.
  intros (rest & Hs & Hr) Hev. unfold delivered, in_flight in *.
  destruct Hev as [s f Hf|s|s chunk more Hg Hp Ha]; cbn [output goroutine got frames finished].
  - exists (rest ++ stream_of false [f]). rewrite stream_of_app, Hs, sapp_assoc. split; [done|].
    destruct (goroutine s) as [|p|[err|]]; rewrite ?Hr, ?stream_of_app, ?sapp_assoc; try done.
    by destruct Hr as [_ Hr]; rewrite Hr in Hf.
  - exists rest. split; [done|]. by destruct (goroutine s) as [|p|[err|]]; try (by destruct Hr).
  - rewrite Hg in Hr. exists (more ++ stream_of false (frames s)).
    rewrite Hs, Hr, !sapp_assoc. split; [done|]. destruct (String.eqb_spec more "") as [->|]; done.
Qed.

(** The goroutine's own steps: at most one per frame, one to write and one to
    end. *)
Definition measure (s : stream) : nat :=
  2 * length (frames s) +
  match goroutine s with Reading => 1 | Writing _ => 2 | Gone _ => 0 end.

Lemma stream_step_measure s s' : step s s' -> (measure s' < measure s)%nat.
Proof.
  unfold measure. destruct 1 as [s p fr Hg Hf|s p fr Hg Hf|s Hg Hf He|s err Hg Hc|s p err Hg Hc];
    cbn [frames goroutine set_goroutine]; rewrite Hg, ?Hf; cbn; lia.
Qed.

(** With both ends closed the goroutine can always move until it is gone. *)
Lemma closed_moves s :
  attachedClosed s = true -> pipeClosed s = true ->
  red step s \/ exists err, goroutine s = Gone err.
Proof.
  intros Ha Hp. destruct (goroutine s) as [|p|err] eqn:Eg; [left|left|right; by exists err].
  - eexists. by apply (demux_read_fails s (External ExtOther "use of closed network connection")).
  - eexists. by apply (demux_write_fails s p (External ExtOther "io: read/write on closed pipe")).
Qed.

(** C6. A dialled port's stream is faithful and closing it ends it.  Whatever the
    relay prints and however it is framed, what the consumer reads is a
    beginning of the relay's standard output, and all of it when the stream
    ends by itself; and once [execConn.Close] has been called, wherever the
    goroutine was, it cannot run on forever and is never stuck until it is
    gone. *)
Theorem dialled_stream_closes s :
  rtc (any_step execConn_Close) opened s ->
  (exists rest, stream_of false (output s) = got s ++ rest) /\
  (goroutine s = Gone None -> got s = stream_of false (output s)) /\
  (attachedClosed s = true -> sn step s /\
     forall s', rtc step s s' -> red step s' \/ exists err, goroutine s' = Gone err).
Proof.
  intros Hr.
  assert (HI : delivered s /\ attachedClosed s = pipeClosed s).
  { apply (rtc_preserves (any_step execConn_Close)
      (fun s => delivered s /\ attachedClosed s = pipeClosed s) opened s);
      [|split; [exists ""; split|]; reflexivity|exact Hr].
    intros x y [Hd Hc] [Hs|[He| ->]]; [| |exact (conj Hd eq_refl)].
    - split; [exact (delivered_step _ _ Hd Hs)|]. destruct Hs; exact Hc.
    - split; [exact (delivered_event _ _ Hd He)|]. destruct He; exact Hc. }
  destruct HI as [(rest & Hs & Hg) Hc]. split_and!.
  - by exists rest.
  - intros E. rewrite E in Hg. destruct Hg as [-> _]. by rewrite Hs, sapp_nil_r.
  - intros Ha. split.
    + apply (sn_measure _ (fun _ => True) measure); [|done]. intros x y _ Hxy.
      split; [done|by apply stream_step_measure].
    + intros s' Hs'.
      assert (HI' : attachedClosed s' = true /\ pipeClosed s' = true).
      { eapply (rtc_preserves step (fun s => attachedClosed s = true /\ pipeClosed s = true));
          [|by split; [|rewrite <- Hc]|exact Hs'].
        intros x y [H1 H2] Hxy. by destruct Hxy. }
      exact (closed_moves s' (proj1 HI') (proj2 HI')).
Qed.

(** A file reader closed with output in flight leaks its goroutine.  The reader
    [ReadFile] returns closes the connection but not the pipe: a caller that
    stops reading while the goroutine is handing it a chunk (a client that
    disconnects in the middle of a download) and closes the reader leaves the
    goroutine blocked in that write, and nothing that can happen afterwards,
    the exec's end included, ever releases it. *)
Theorem readFile_close_leaks p :
  exists s, rtc (any_step execStream_Close) opened s /\ attachedClosed s = true /\
    goroutine s = Writing p /\
    forall s', rtc (any_step execStream_Close) s s' -> goroutine s' = Writing p /\ nf step s'.
Proof.
  exists (mkStream [(false, p)] [] false true false (Writing p) "").
  split_and!; [|done|done|].
  - eapply rtc_l; [right; left; apply (exec_sends opened (false, p)); reflexivity|]. cbn.
    eapply rtc_l; [left; eapply demux_stdout; reflexivity|]. cbn.
    eapply rtc_l; [right; right; reflexivity|]. apply rtc_refl.
  - intros s' Hs'.
    assert (HI : attachedClosed s' = true /\ pipeClosed s' = false /\ goroutine s' = Writing p).
    { apply (rtc_preserves (any_step execStream_Close)
        (fun s => attachedClosed s = true /\ pipeClosed s = false /\ goroutine s = Writing p)
        (mkStream [(false, p)] [] false true false (Writing p) "") s');
        [|split_and!; reflexivity|exact Hs'].
      intros x y (H1 & H2 & H3) [Hs|[He| ->]]; [| |split_and!; [reflexivity|exact H2|exact H3]].
      - destruct Hs; congruence.
      - destruct He; try done; congruence. }
    destruct HI as (H1 & H2 & H3). split; [done|]. intros [y Hy]. destruct Hy; congruence.
Qed.

(** A relay prints, the consumer reads part of it and closes. *)
Lemma dialled_stream_closes_witness :
  exists s, rtc (any_step execConn_Close) opened s /\ attachedClosed s = true /\ got s = "SSH-" /\
    goroutine s = Writing "2.0" /\ sn step s.
Proof.
  assert (Hr : exists s, rtc (any_step execConn_Close) opened s /\ attachedClosed s = true /\
    got s = "SSH-" /\ goroutine s = Writing "2.0").
  { eexists. split.
    { eapply rtc_l; [right; left; apply (exec_sends opened (false, "SSH-2.0")); reflexivity|]; cbn.
      eapply rtc_l; [left; eapply demux_stdout; reflexivity|]; cbn.
      eapply rtc_l; [right; left; apply (consumer_reads _ "SSH-" "2.0"); reflexivity|]; cbn.
      eapply rtc_l; [right; right; reflexivity|]. apply rtc_refl. }
    split_and!; reflexivity. }
  destruct Hr as (s & Hr & H1 & H2 & H3). exists s.
  split; [exact Hr|]. split; [exact H1|]. split; [exact H2|]. split; [exact H3|].
  exact (proj1 (proj2 (proj2 (dialled_stream_closes s Hr)) H1)).
Defined.
