(* ===== verification/DockerSession.v ===== *)
(** * pkg/docker: the goroutines of one exec

    [exec] of [sandbox.go] between attaching to a command and having its
    outcome, as a system: [pumpStdin]'s goroutine feeding the command's
    standard input, the goroutine that takes its output apart
    ([stdcopy.StdCopy]), and [exec] itself, selecting between the output's end
    and its context.  What [DockerApi.AwaitOutput] answers is what this system
    arrives at. *)

From S2P Require Import Goroutines Prelude GoErrors Effects Sandbox DockerApi.

(** ** Standard input *)

(** How the caller's reader stands. *)
Inductive reader : Set := More | AtEOF | Broken.

(** What [io.Copy] returns, and [pumpStdin] discards. *)
Inductive copyErr : Set := ReadFailed | WriteFailed.

(** The goroutine: reading the source, writing a chunk to the connection, past
    the copy and about to half-close, gone. *)
Inductive pumpStage : Type :=
  | PumpReading
  | PumpWriting (p : string)
  | PumpCopied (err : option copyErr)
  | PumpGone (err : option copyErr).

Record stdin : Type := mkStdin {
  given : string;          (** all the caller's reader has given so far *)
  pending : string;        (** the part not yet read *)
  src : reader;
  fed : string;            (** what the command's input was given *)
  eof : bool;              (** the command's input was half-closed *)
  pump : pumpStage
}.

Definition set_pump (i : stdin) (p : pumpStage) : stdin :=
  mkStdin (given i) (pending i) (src i) (fed i) (eof i) p.

(** [pumpStdin]; [closed] once the hijacked connection is. *)
Inductive pumpStdin (closed : bool) : stdin -> stdin -> Prop :=
  | pump_reads i chunk rest :
      pump i = PumpReading -> pending i = chunk ++ rest -> chunk <> "" ->
      pumpStdin closed i (mkStdin (given i) rest (src i) (fed i) (eof i) (PumpWriting chunk))
  | pump_ends i :
      pump i = PumpReading -> pending i = "" -> src i = AtEOF ->
      pumpStdin closed i (set_pump i (PumpCopied None))
  | pump_read_fails i :
      pump i = PumpReading -> pending i = "" -> src i = Broken ->
      pumpStdin closed i (set_pump i (PumpCopied (Some ReadFailed)))
  | pump_write_fails i p :
      pump i = PumpWriting p -> closed = true ->
      pumpStdin closed i (set_pump i (PumpCopied (Some WriteFailed)))
  | pump_closes i err :
      pump i = PumpCopied err ->
      pumpStdin closed i
        (mkStdin (given i) (pending i) (src i) (fed i) (eof i || negb closed) (PumpGone err)).

(** The caller's reader gives more, ends or fails; the connection takes some of
    what is being written, when the command reads, or refuses it, when the
    command has closed its input. *)
Inductive stdin_event (closed : bool) : stdin -> stdin -> Prop :=
  | src_gives i chunk :
      src i = More ->
      stdin_event closed i (mkStdin (given i ++ chunk) (pending i ++ chunk) More (fed i) (eof i) (pump i))
  | src_ends i :
      src i = More ->
      stdin_event closed i (mkStdin (given i) (pending i) AtEOF (fed i) (eof i) (pump i))
  | src_breaks i :
      src i = More ->
      stdin_event closed i (mkStdin (given i) (pending i) Broken (fed i) (eof i) (pump i))
  | guest_reads i chunk rest :
      pump i = PumpWriting (chunk ++ rest) -> closed = false ->
      stdin_event closed i (mkStdin (given i) (pending i) (src i) (fed i ++ chunk) (eof i)
        (if String.eqb rest "" then PumpReading else PumpWriting rest))
  | guest_refuses i p :
      pump i = PumpWriting p ->
      stdin_event closed i (set_pump i (PumpCopied (Some WriteFailed))).

(** ** Standard output and error *)

Inductive copyStage : Type :=
  | CopyReading
  | CopyGone (err : option error).       (** its result is in [copyDone] *)

Record stdout : Type := mkStdout {
  printed : list (bool * string);        (** all frames the command's output was sent as *)
  unread : list (bool * string);
  exited : bool;                         (** the output has ended *)
  taken : list (bool * string);          (** the frames [StdCopy] took apart *)
  copier : copyStage
}.

(** [stdcopy.StdCopy] into the capped buffers, which never block. *)
Inductive copyOut (closed : bool) : stdout -> stdout -> Prop :=
  | copy_frame o f rest :
      copier o = CopyReading -> unread o = f :: rest ->
      copyOut closed o (mkStdout (printed o) rest (exited o) (taken o ++ [f]) CopyReading)
  | copy_ends o :
      copier o = CopyReading -> unread o = [] -> exited o = true ->
      copyOut closed o (mkStdout (printed o) [] true (taken o) (CopyGone None))
  | copy_read_fails o err :
      copier o = CopyReading -> closed = true ->
      copyOut closed o (mkStdout (printed o) (unread o) (exited o) (taken o) (CopyGone (Some err))).

(** The command prints or exits, or the stream breaks. *)
Inductive stdout_event : stdout -> stdout -> Prop :=
  | guest_prints o f :
      exited o = false ->
      stdout_event o (mkStdout (printed o ++ [f]) (unread o ++ [f]) false (taken o) (copier o))
  | guest_exits o :
      stdout_event o (mkStdout (printed o) (unread o) true (taken o) (copier o))
  | stream_breaks o err :
      copier o = CopyReading ->
      stdout_event o (mkStdout (printed o) (unread o) (exited o) (taken o) (CopyGone (Some err))).

(** ** [exec] *)

(** In the [select]; past [ctx.Done], waiting for [copyDone]; with its outcome,
    the deferred [attached.Close] still to run; returned. *)
Inductive execStage : Type :=
  | Selecting
  | Draining (err : error)
  | Holding (r : StreamEnd)
  | Returned (r : StreamEnd).

Record session : Type := mkSession {
  input : stdin;
  out : stdout;
  ctx : option error;            (** the context's error, once it is done *)
  closed : bool;                 (** [attached.Close] was called *)
  main : execStage
}.

Inductive step : session -> session -> Prop :=
  | step_pump s i : pumpStdin (closed s) (input s) i ->
      step s (mkSession i (out s) (ctx s) (closed s) (main s))
  | step_copy s o : copyOut (closed s) (out s) o ->
      step s (mkSession (input s) o (ctx s) (closed s) (main s))
  | step_copyDone s err : main s = Selecting -> copier (out s) = CopyGone err ->
      step s (mkSession (input s) (out s) (ctx s) (closed s) (Holding (CopyDone (taken (out s)) err)))
  | step_ctxDone s err : main s = Selecting -> ctx s = Some err ->
      step s (mkSession (input s) (out s) (ctx s) true (Draining err))
  | step_drained s err e : main s = Draining err -> copier (out s) = CopyGone e ->
      step s (mkSession (input s) (out s) (ctx s) (closed s) (Holding (CtxDone err)))
  | step_returns s r : main s = Holding r ->
      step s (mkSession (input s) (out s) (ctx s) true (Returned r)).

Inductive event : session -> session -> Prop :=
  | event_stdin s i : stdin_event (closed s) (input s) i ->
      event s (mkSession i (out s) (ctx s) (closed s) (main s))
  | event_stdout s o : stdout_event (out s) o ->
      event s (mkSession (input s) o (ctx s) (closed s) (main s))
  | event_ctx s err : ctx s = None ->
      event s (mkSession (input s) (out s) (Some err) (closed s) (main s)).

Definition any_step (s s' : session) : Prop := step s s' \/ event s s'.

(** As it starts; a command without standard input has no pump. *)
Definition attached (hasStdin : bool) : session :=
  mkSession
    (if hasStdin then mkStdin "" "" More "" false PumpReading else mkStdin "" "" AtEOF "" false (PumpGone None))
    (mkStdout [] [] false [] CopyReading) None false Selecting.

(** ** What holds in every state *)

Definition pump_ok (i : stdin) : Prop :=
  match pump i with
  | PumpReading => given i = fed i ++ pending i
  | PumpWriting p => given i = fed i ++ p ++ pending i
  | PumpCopied None | PumpGone None => given i = fed i /\ pending i = "" /\ src i = AtEOF
  | PumpCopied (Some ReadFailed) | PumpGone (Some ReadFailed) => given i = fed i /\ src i = Broken
  | PumpCopied (Some WriteFailed) | PumpGone (Some WriteFailed) => exists lost, given i = fed i ++ lost
  end.

Lemma pump_ok_beginning i : pump_ok i -> exists lost, given i = fed i ++ lost.
Proof.
  unfold pump_ok. destruct (pump i) as [|p|[[]|]|[[]|]]; intros Hp; destruct_and?; try done;
    first [by exists "" ; rewrite sapp_nil_r|eexists; eassumption].
Qed.

Definition stdin_ok (i : stdin) : Prop :=
  pump_ok i /\ (eof i = true -> exists err, pump i = PumpGone err).

Lemma stdin_ok_pump c i i' : stdin_ok i -> pumpStdin c i i' -> stdin_ok i'.
Proof.
  intros [Hi He] Hs. unfold pump_ok in Hi.
  destruct Hs as [i chunk rest Hp Hu Hne|i Hp Hu Ha|i Hp Hu Ha|i p Hp Hc|i err Hp]; rewrite Hp in Hi, He;
    (split; [unfold pump_ok; cbn|cbn; intros E; try (destruct (He E); discriminate)]).
  - by rewrite Hi, Hu.
  - by rewrite Hi, Hu, sapp_nil_r.
  - by rewrite Hi, Hu, sapp_nil_r.
  - by eexists.
  - destruct err as [[]|]; done.
  - by exists err.
Qed.

Lemma stdin_ok_event c i i' : stdin_ok i -> stdin_event c i i' -> stdin_ok i'.
Proof.
  intros [Hi He] Hs. unfold pump_ok in Hi.
  destruct Hs as [i chunk Hm|i Hm|i Hm|i chunk rest Hp Hc|i p Hp]; try rewrite Hp in Hi, He;
    (split; [unfold pump_ok; cbn|cbn; try exact He; intros E; destruct (He E); discriminate]).
  - destruct (pump i) as [|p|[[]|]|[[]|]]; destruct_and?; try congruence;
      try match type of Hi with exists _, _ => destruct Hi as [lost ->]; exists (lost ++ chunk) end;
      rewrite ?Hi, !sapp_assoc; done.
  - destruct (pump i) as [|p|[[]|]|[[]|]]; destruct_and?; try congruence; done.
  - destruct (pump i) as [|p|[[]|]|[[]|]]; destruct_and?; try congruence; done.
  - destruct (String.eqb_spec rest "") as [->|]; rewrite Hi, ?sapp_nil_r, !sapp_assoc; done.
  - by eexists.
Qed.

Definition stdout_ok (o : stdout) : Prop :=
  printed o = (taken o ++ unread o)%list /\ (copier o = CopyGone None -> unread o = [] /\ exited o = true).

Lemma stdout_ok_copy c o o' : stdout_ok o -> copyOut c o o' -> stdout_ok o'.
Proof.
  intros [Hp Hg] Hs. destruct Hs as [o f rest Hc Hu|o Hc Hu Hx|o err Hc Hcl]; split; cbn; try done.
  - by rewrite Hp, Hu, <- app_assoc.
  - by rewrite Hp, Hu.
Qed.

Lemma stdout_ok_event o o' : stdout_ok o -> stdout_event o o' -> stdout_ok o'.
Proof.
  intros [Hp Hg] Hs. destruct Hs as [o f Hx|o|o err Hc]; split; cbn; try done.
  - by rewrite Hp, app_assoc.
  - intros Hc. destruct (Hg Hc). congruence.
  - intros Hc. by destruct (Hg Hc).
Qed.

(** What [exec] holds is what its goroutines or its context reported. *)
Definition outcome_ok (s : session) (r : StreamEnd) : Prop :=
  match r with
  | CopyDone frames err => copier (out s) = CopyGone err /\ frames = taken (out s)
  | CtxDone err => ctx s = Some err
  end.

Definition main_ok (s : session) : Prop :=
  match main s with
  | Selecting => True
  | Draining err => ctx s = Some err /\ closed s = true
  | Holding r => outcome_ok s r
  | Returned r => outcome_ok s r /\ closed s = true
  end.

Definition Inv (s : session) : Prop := stdin_ok (input s) /\ stdout_ok (out s) /\ main_ok s.

(** Once the copying goroutine is done, its record does not change. *)
Lemma copyOut_gone c o o' err : copier o = CopyGone err -> copyOut c o o' -> False.
Proof. intros H Hs. destruct Hs; congruence. Qed.

Lemma stdout_event_gone o o' err :
  copier o = CopyGone err -> stdout_event o o' -> copier o' = CopyGone err /\ taken o' = taken o.
Proof. intros H Hs. by destruct Hs; try congruence. Qed.

Lemma main_ok_out s o :
  main_ok s -> (forall err, copier (out s) = CopyGone err -> copier o = CopyGone err /\ taken o = taken (out s)) ->
  main_ok (mkSession (input s) o (ctx s) (closed s) (main s)).
Proof.
  unfold main_ok. cbn. intros Hm Ho. destruct (main s) as [|e|r|r]; try done.
  - destruct r as [fr err|]; [|done]. destruct Hm as [Hm ->]. destruct (Ho err Hm). by split.
  - destruct Hm as [Hm Hc]. split; [|done]. destruct r as [fr err|]; [|done].
    destruct Hm as [Hm ->]. destruct (Ho err Hm). by split.
Qed.

Lemma session_Inv_step s s' : Inv s -> step s s' -> Inv s'.
Proof.
  intros (Hi & Ho & Hm) Hs. destruct Hs as [s i Hp|s o Hp|s err Hsel Hg|s err Hsel Hx|s err e Hd Hg|s r Hh];
    (split; [cbn; try exact Hi; by eapply stdin_ok_pump|]);
    (split; [cbn; try exact Ho; by eapply stdout_ok_copy|]).
  - exact Hm.
  - apply main_ok_out; [done|]. intros err He. by destruct (copyOut_gone _ _ _ _ He Hp).
  - by cbn.
  - by cbn.
  - unfold main_ok in Hm. rewrite Hd in Hm. by destruct Hm.
  - unfold main_ok in Hm. rewrite Hh in Hm. by cbn.
Qed.

Lemma session_Inv_event s s' : Inv s -> event s s' -> Inv s'.
Proof.
  intros (Hi & Ho & Hm) Hs. destruct Hs as [s i Hp|s o Hp|s err Hc];
    (split; [cbn; try exact Hi; by eapply stdin_ok_event|]);
    (split; [cbn; try exact Ho; by eapply stdout_ok_event|]).
  - exact Hm.
  - apply main_ok_out; [done|]. intros err He. by apply (stdout_event_gone _ _ _ He).
  - unfold main_ok, outcome_ok in *. cbn. destruct (main s) as [|e|[]|[]]; try done;
      destruct_and?; congruence.
Qed.

Lemma session_Inv_reachable hasStdin s : rtc any_step (attached hasStdin) s -> Inv s.
Proof.
  apply rtc_preserves; [intros x y Hx [Hs|He]; [by eapply session_Inv_step|by eapply session_Inv_event]|].
  destruct hasStdin; (split; [|split]); cbn; try done.
Qed.

(** ** No schedule runs on forever *)

Definition pump_measure (i : stdin) : nat :=
  4 * String.length (pending i) +
  match pump i with PumpReading | PumpWriting _ => 3 | PumpCopied _ => 1 | PumpGone _ => 0 end.
Definition copy_measure (o : stdout) : nat :=
  2 * length (unread o) + match copier o with CopyReading => 1 | CopyGone _ => 0 end.
Definition main_measure (s : session) : nat :=
  match main s with Selecting => 3 | Draining _ => 2 | Holding _ => 1 | Returned _ => 0 end.
Definition measure (s : session) : nat := pump_measure (input s) + copy_measure (out s) + main_measure s.

Lemma pump_decreases c i i' : pumpStdin c i i' -> (pump_measure i' < pump_measure i)%nat.
Proof.
  unfold pump_measure. destruct 1 as [i chunk rest Hp Hu Hne|i Hp Hu _|i Hp Hu _|i p Hp _|i err Hp]; cbn;
    rewrite Hp, ?Hu, ?slength_app; try lia. destruct chunk; [done|]. cbn. lia.
Qed.

Lemma copy_decreases c o o' : copyOut c o o' -> (copy_measure o' < copy_measure o)%nat.
Proof. unfold copy_measure. destruct 1 as [o f rest Hc Hu|o Hc Hu _|o err Hc _]; cbn; rewrite Hc, ?Hu; cbn; lia. Qed.

Lemma session_decreases s s' : step s s' -> (measure s' < measure s)%nat.
Proof.
  unfold measure, main_measure. destruct 1 as [s i Hp|s o Hp|s err Hm _|s err Hm _|s err e Hm _|s r Hm];
    cbn [input out main]; try (rewrite Hm; lia).
  - apply pump_decreases in Hp. lia.
  - apply copy_decreases in Hp. lia.
Qed.

(** ** What a stuck session waits for *)

(** The pump is gone, or in a [Read] of the caller's that has not returned. *)
Definition pump_parked (i : stdin) : Prop :=
  (exists err, pump i = PumpGone err) \/ (pump i = PumpReading /\ pending i = "" /\ src i = More).

Lemma pump_stuck s : nf step s -> closed s = true -> pump_parked (input s).
Proof.
  intros Hn Hc. unfold pump_parked.
  assert (Hp : forall i, ~ pumpStdin (closed s) (input s) i).
  { intros i Hi. apply Hn. eexists. by apply step_pump. }
  destruct (pump (input s)) as [|p|err|err] eqn:E.
  - destruct (pending (input s)) as [|c r] eqn:Eu.
    + destruct (src (input s)) eqn:Es; [by right|exfalso..]; eapply Hp; [by apply pump_ends|by apply pump_read_fails].
    + exfalso. eapply Hp, (pump_reads _ _ (String c "") r); done.
  - exfalso. eapply Hp. by eapply pump_write_fails.
  - exfalso. eapply Hp. by apply pump_closes.
  - by left; exists err.
Qed.

Lemma copy_stuck s : nf step s -> closed s = true \/ exited (out s) = true -> exists err, copier (out s) = CopyGone err.
Proof.
  intros Hn Hc. destruct (copier (out s)) as [|err] eqn:E; [exfalso|by exists err]. apply Hn.
  destruct (unread (out s)) as [|f rest] eqn:Eu.
  - destruct Hc as [Hc|Hx]; eexists; apply step_copy.
    + by apply (copy_read_fails _ _ (External ExtOther "use of closed network connection")).
    + by apply copy_ends.
  - eexists. apply step_copy. by eapply copy_frame.
Qed.

Lemma main_stuck s :
  Inv s -> nf step s -> ctx s <> None \/ exited (out s) = true -> exists r, main s = Returned r /\ closed s = true.
Proof.
  intros (_ & _ & Hm) Hn Hd. unfold main_ok in Hm. destruct (main s) as [|err|r|r] eqn:E.
  - exfalso. destruct (ctx s) as [err|] eqn:Ec; [apply Hn; eexists; by apply step_ctxDone|].
    destruct Hd as [Hd|Hd]; [done|]. destruct (copy_stuck s Hn) as [err He]; [by right|].
    apply Hn. eexists. by apply (step_copyDone s err).
  - exfalso. destruct Hm as [_ Hc]. destruct (copy_stuck s Hn) as [e He]; [by left|].
    apply Hn. eexists. by apply (step_drained s err e).
  - exfalso. apply Hn. eexists. by apply (step_returns s r).
  - exists r. by destruct Hm.
Qed.

(** C22. One command, from attaching to its outcome, whatever the command prints
    and reads, however slow the caller's reader is, and whenever the context
    ends.  What the command is given as input is a beginning of what the reader
    gave, and all of it when the copy ended well; output reported without an
    error is the command's whole output; a timeout is reported only once the
    context is done.  The goroutines cannot run on forever, and when the
    context is done or the command has exited they are stuck only with [exec]
    returned and the connection closed, with none left but at most the pump in
    a [Read] of the caller's reader. *)
Theorem exec_session_ends hasStdin s :
  rtc any_step (attached hasStdin) s ->
  (exists lost, given (input s) = fed (input s) ++ lost) /\
  (pump (input s) = PumpGone None -> fed (input s) = given (input s) /\ src (input s) = AtEOF) /\
  (forall frames, main s = Returned (CopyDone frames None) ->
     frames = printed (out s) /\ exited (out s) = true) /\
  (forall err, main s = Returned (CtxDone err) -> ctx s = Some err) /\
  sn step s /\
  (nf step s -> ctx s <> None \/ exited (out s) = true ->
     (exists r, main s = Returned r) /\ closed s = true /\ pump_parked (input s)).
Proof.
  intros Hr. pose proof (session_Inv_reachable hasStdin s Hr) as HI.
  pose proof HI as ([Hp _] & [Hpr Hg] & Hm). unfold main_ok in Hm. split_and!.
  - by apply pump_ok_beginning.
  - intros E. unfold pump_ok in Hp. rewrite E in Hp. by destruct Hp as (-> & _ & ->).
  - intros frames E. rewrite E in Hm. destruct Hm as [[Hc ->] _]. destruct (Hg Hc) as [Hu Hx].
    by rewrite Hpr, Hu, List.app_nil_r.
  - intros err E. rewrite E in Hm. by destruct Hm.
  - apply (sn_measure _ (fun _ => True) measure); [|done]. intros x y _ Hxy.
    split; [done|by apply session_decreases].
  - intros Hn Hd. destruct (main_stuck s HI Hn Hd) as (r & Hr' & Hc). split_and!; [by exists r|done|].
    by apply pump_stuck.
Qed.

(** ** Schedules *)

(** The runs of a command that reads its input to the end and exits without a
    word: the reader gives [part] and then ends or breaks. *)
Definition silent_end (last : reader) (err : option copyErr) (part : string) : session :=
  mkSession (mkStdin part "" last part true (PumpGone err))
    (mkStdout [] [] true [] (CopyGone None)) None true (Returned (CopyDone [] None)).

Ltac sched := cbn; eapply rtc_l.

Lemma exits_silently i :
  rtc any_step (mkSession i (mkStdout [] [] false [] CopyReading) None false Selecting)
    (mkSession i (mkStdout [] [] true [] (CopyGone None)) None true (Returned (CopyDone [] None))).
Proof.
  sched. { right. apply event_stdout, guest_exits. }
  sched. { left. apply step_copy, copy_ends; reflexivity. }
  sched. { left. apply (step_copyDone _ None); reflexivity. }
  sched. { left. apply step_returns; reflexivity. }
  apply rtc_refl.
Qed.

Lemma silent_end_reachable last part :
  last <> More -> part <> "" ->
  rtc any_step (attached true)
    (silent_end last (match last with Broken => Some ReadFailed | _ => None end) part).
Proof.
  intros Hl Hp. sched. { right. apply event_stdin, (src_gives _ _ part). done. }
  sched. { left. apply step_pump, (pump_reads _ _ part ""); cbn; [done|by rewrite sapp_nil_r|done]. }
  sched. { right. apply event_stdin, (guest_reads _ _ part ""); [cbn; by rewrite sapp_nil_r|done]. }
  destruct last; [done| |].
  - sched. { right. apply event_stdin. by apply src_ends. }
    sched. { left. apply step_pump. by apply pump_ends. }
    sched. { left. apply step_pump. by apply pump_closes. }
    apply exits_silently.
  - sched. { right. apply event_stdin. by apply src_breaks. }
    sched. { left. apply step_pump. by apply pump_read_fails. }
    sched. { left. apply step_pump. by apply pump_closes. }
    apply exits_silently.
Qed.

(** A reader that fails half-way is not reported.  [pumpStdin] discards what
    [io.Copy] returns and half-closes the command's input all the same: the
    command sees the end of its input after the part that was read, and [exec]
    arrives at the same outcome as for a reader that gave that part and ended.
    [WriteFile] then reports success for a truncated file. *)
Theorem broken_reader_unreported part :
  part <> "" ->
  exists s s', rtc any_step (attached true) s /\ rtc any_step (attached true) s' /\
    src (input s) = Broken /\ src (input s') = AtEOF /\
    eof (input s) = true /\ fed (input s) = fed (input s') /\
    main s = Returned (CopyDone [] None) /\ main s' = main s.
Proof.
  intros Hp. exists (silent_end Broken (Some ReadFailed) part), (silent_end AtEOF None part).
  split_and!; try done; [by apply (silent_end_reachable Broken)|by apply (silent_end_reachable AtEOF)].
Qed.

(** A command that ignores its input is cut off by its timeout: the pump is in
    a write nobody reads, [exec] returns, and the pump with it. *)
Definition stalled : session :=
  mkSession (mkStdin "data" "" More "" false (PumpGone (Some WriteFailed)))
    (mkStdout [] [] false [] (CopyGone (Some (Sentinel DeadlineExceeded)))) (Some (Sentinel DeadlineExceeded)) true
    (Returned (CtxDone (Sentinel DeadlineExceeded))).

Lemma stalled_reachable : rtc any_step (attached true) stalled.
Proof.
  sched. { right. apply event_stdin, (src_gives _ _ "data"); reflexivity. }
  sched. { left. apply step_pump, (pump_reads _ _ "data" ""); [reflexivity|reflexivity|discriminate]. }
  sched. { right. apply (event_ctx _ (Sentinel DeadlineExceeded)); reflexivity. }
  sched. { left. apply (step_ctxDone _ (Sentinel DeadlineExceeded)); reflexivity. }
  sched. { left. apply step_copy, (copy_read_fails _ _ (Sentinel DeadlineExceeded)); reflexivity. }
  sched. { left. eapply step_drained; reflexivity. }
  sched. { left. apply step_returns; reflexivity. }
  sched. { left. apply step_pump. eapply pump_write_fails; reflexivity. }
  sched. { left. apply step_pump. eapply pump_closes; reflexivity. }
  apply rtc_refl.
Qed.

Lemma exec_session_ends_witness :
  rtc any_step (attached true) stalled /\ ctx stalled = Some (Sentinel DeadlineExceeded) /\ sn step stalled.
Proof.
  destruct (exec_session_ends true stalled stalled_reachable) as (_ & _ & _ & Hc & Hsn & _).
  split; [exact stalled_reachable|]. split; [exact (Hc _ eq_refl)|exact Hsn].
Defined.
