(* ===== verification/DockerReap.v ===== *)
(** * pkg/docker/reap.go: reclaiming sandboxes past their bounds *)

From S2P Require Import Prelude GoErrors GoStrings GoFloat64 GoDuration GoTime Effects Sandbox.
From S2P Require Import DockerApi DockerBackend DockerExec.

Definition parseSignedDurationLabel (v : string) (fallback : Z) : Z :=
  match ParseDuration v with None => fallback | Some d => d end.

(** The handle [lastUsedOf] makes for a container it knows only by its ID. *)
Definition lastUsedOf (id : string) : prog dockerE time :=
  lastUsed (mkDockerSandbox id (mkInfo "" "" "" "" zero_time ∅) DefaultCommandTimeout
    MaxCommandTimeout None).

Definition expired (c : Summary) (now : time) : prog dockerE bool :=
  let created := parseTimeLabel (label (SumLabels c) labelCreatedAt) in
  if IsZero created then Ret false
  else
    let maxAge := parseSignedDurationLabel (label (SumLabels c) labelMaxAge) DefaultMaxAge in
    if (maxAge >? 0) && (Sub now created >? maxAge) then Ret true
    else
      let idle := parseSignedDurationLabel (label (SumLabels c) labelIdle) DefaultIdleTimeout in
      if idle <=? 0 then Ret false
      else
        since <- (if String.eqb (stateFromStatus (SumState c)) StateRunning then
                    last <- lastUsedOf (SumID c);;
                    Ret (if negb (IsZero last) then last else created)
                  else Ret created);;
        Ret (Sub now since >? idle).

(** The loop of [Reap] over the listed containers. *)
Fixpoint reapLoop (now : time) (containers : list Summary) (reaped : list string)
    (errs : list error) : prog dockerE (list string * list error) :=
  match containers with
  | [] => Ret (reaped, errs)
  | c :: containers =>
      let name := label (SumLabels c) labelName in
      exp <- expired c now;;
      if negb exp then reapLoop now containers reaped errs
      else
        r <- call (ContainerRemove (SumID c) true true);;
        match r with
        | Err err =>
            if negb (IsNotFound err) then
              reapLoop now containers reaped
                (errs ++ [Errorf "reap sandbox %q: %w" [AStr name; AWrap err]])%list
            else reapLoop now containers (reaped ++ [name])%list errs
        | Ok _ => reapLoop now containers (reaped ++ [name])%list errs
        end
  end.

(** [Reap]: the names reclaimed, and the error of [errors.Join] (nil when there
    was none). *)
Definition Reap : prog dockerE (list string * option error) :=
  r <- call (ContainerList true (labelManaged ++ "=true"));;
  match r with
  | Err err => Ret ([], Some (Errorf "list sandboxes to reap: %w" [AWrap err]))
  | Ok containers =>
      now <- call Now;;
      ' (reaped, errs) <- reapLoop now containers [] [];;
      Ret (reaped, match errs with [] => None | _ => Some (Join errs) end)
  end.

(** ** Properties *)

(** A container whose age bound has passed. *)
Definition over_age (c : Summary) (now : time) : Prop :=
  let created := parseTimeLabel (label (SumLabels c) labelCreatedAt) in
  let maxAge := parseSignedDurationLabel (label (SumLabels c) labelMaxAge) DefaultMaxAge in
  created <> zero_time /\ 0 < maxAge /\ maxAge < Sub now created.

(** A container whose idle bound may have passed: it is armed, and for a
    container that does not run it has passed since creation. *)
Definition may_idle (c : Summary) (now : time) : Prop :=
  let created := parseTimeLabel (label (SumLabels c) labelCreatedAt) in
  let idle := parseSignedDurationLabel (label (SumLabels c) labelIdle) DefaultIdleTimeout in
  created <> zero_time /\ 0 < idle /\
  (stateFromStatus (SumState c) <> StateRunning -> idle < Sub now created).

Lemma expired_over_age c now : over_age c now -> expired c now = Ret true.
Proof.
  intros (Hz & Hm & Hs). unfold expired, IsZero. apply Z.eqb_neq in Hz as ->.
  rewrite !Z.gtb_ltb. apply Z.ltb_lt in Hm, Hs. by rewrite Hm, Hs.
Qed.

(** What the sweep has seen and tried. *)
Record sweep : Type := mkSweep { listed : list Summary; swept_at : time; tried : list string }.

Definition sweep_next {X} (e : dockerE X) : X -> sweep -> sweep :=
  match e in dockerE X return X -> sweep -> sweep with
  | ContainerList _ _ => fun r w =>
      match r with Ok cs => mkSweep cs (swept_at w) (tried w) | Err _ => w end
  | ContainerRemove id _ _ => fun _ w => mkSweep (listed w) (swept_at w) (id :: tried w)
  | _ => fun _ w => w
  end.

Abbreviation sweeping ok := (wp ok (fun X (e : dockerE X) w x w' => w' = sweep_next e x w)).

(** Anything but a list or a removal leaves the sweep as it is. *)
Lemma sweeping_quiet ok {A} (p : prog dockerE A) (P : forall X, dockerE X -> Prop) w :
  safe P p (fun _ => True) ->
  (forall X (e : dockerE X) x v, P X e -> ok X e v /\ sweep_next e x v = v) ->
  (forall X (e : dockerE X) v, P X e -> ok X e v) ->
  sweeping ok p (fun _ w' => w' = w) w.
Proof.
  intros Hs Hq Hok. induction p as [a|X e k IH]; [done|]. destruct Hs as [HP Hk].
  split; [by apply Hok|]. intros x w' ->. rewrite (proj2 (Hq _ _ _ _ HP)). by apply IH.
Qed.

(** Only containers past a bound may be removed. *)
Definition removes_expired (now : time) (cs : list Summary) : forall X, dockerE X -> sweep -> Prop :=
  fun X e w => match e with
  | ContainerRemove id _ _ =>
      exists c, c ∈ cs /\ SumID c = id /\ (over_age c now \/ may_idle c now)
  | ContainerCreate _ _ _ | ContainerStart _ | ContainerStop _ => False
  | _ => True
  end.

Lemma lastUsed_sweeping now cs s w :
  sweeping (removes_expired now cs) (lastUsed s) (fun _ w' => w' = w) w.
Proof.
  apply sweeping_quiet with (guest_call s [] [mkCommand ["cat"; lastUsedPath] [] "" None 0]).
  - apply guest_lastUsed.
  - intros X e x v HP. destruct e; cbn in *; try done; by split.
  - intros X e v HP. by destruct e.
Qed.

Lemma expired_sweeping now cs c w :
  sweeping (removes_expired now cs) (expired c now) (fun r w' => w' = w /\
    (r = true -> over_age c now \/ may_idle c now) /\ (over_age c now -> r = true)) w.
Proof.
  unfold expired, IsZero.
  set (created := parseTimeLabel (label (SumLabels c) labelCreatedAt)).
  set (maxAge := parseSignedDurationLabel (label (SumLabels c) labelMaxAge) DefaultMaxAge).
  set (idle := parseSignedDurationLabel (label (SumLabels c) labelIdle) DefaultIdleTimeout).
  assert (Hover : over_age c now <-> created <> zero_time /\ 0 < maxAge /\ maxAge < Sub now created)
    by done.
  assert (Hidle : may_idle c now <-> created <> zero_time /\ 0 < idle /\
    (stateFromStatus (SumState c) <> StateRunning -> idle < Sub now created)) by done.
  rewrite !Z.gtb_ltb.
  destruct (Z.eqb_spec created zero_time); [split_and!; try done; tauto|].
  destruct (Z.ltb_spec 0 maxAge); cbn [andb].
  1: destruct (Z.ltb_spec maxAge (Sub now created)); [split_and!; try done; tauto|].
  all: assert (Hno : ~ over_age c now) by (rewrite Hover; lia).
  all: destruct (Z.leb_spec idle 0); [split_and!; try done; by intros|].
  all: destruct (String.eqb_spec (stateFromStatus (SumState c)) StateRunning) as [Hr|Hr]; cbn [bind].
  all: try (apply wp_bind, wp_bind; eapply wp_mono; [|apply lastUsed_sweeping];
            intros last w' ->; cbn [wp bind]).
  all: cbn [wp]; split_and!; try done; try by intros.
  all: intros Hs; right; apply Hidle; split_and!; try done; try by intros.
  all: intros _; rewrite Z.gtb_ltb in Hs; by apply Z.ltb_lt in Hs.
Qed.

Lemma reapLoop_sweeping now all cs reaped errs w :
  cs ⊆ all ->
  sweeping (removes_expired now all) (reapLoop now cs reaped errs) (fun r w' =>
    (forall id, id ∈ tried w -> id ∈ tried w') /\
    (forall c, c ∈ cs -> over_age c now -> SumID c ∈ tried w') /\
    (length (fst r) + length (snd r) + length (tried w)
     = length reaped + length errs + length (tried w'))%nat) w.
Proof.
  revert reaped errs w; induction cs as [|c cs IH]; intros reaped errs w Hsub; cbn [reapLoop].
  { cbn. split_and!; [done|set_solver|lia]. }
  apply wp_bind. eapply wp_mono; [|apply expired_sweeping].
  intros exp w1 (-> & Hexp & Hover). destruct exp; cbn [negb].
  - cbn [bind call wp]. split.
    { exists c. split_and!; try done; [set_solver|by apply Hexp]. }
    intros r w2 ->.
    assert (Hrest : forall reaped' errs',
      (length reaped' + length errs' = length reaped + length errs + 1)%nat ->
      sweeping (removes_expired now all) (reapLoop now cs reaped' errs') (fun r w' =>
        (forall id, id ∈ tried w -> id ∈ tried w') /\
        (forall c', c' ∈ c :: cs -> over_age c' now -> SumID c' ∈ tried w') /\
        (length (fst r) + length (snd r) + length (tried w)
         = length reaped + length errs + length (tried w'))%nat)
        (sweep_next (ContainerRemove (SumID c) true true) r w)).
    { intros reaped' errs' Hlen. eapply wp_mono; [|apply IH; set_solver].
      intros [r1 r2] w' (H1 & H2 & H3). cbn in H1, H3. cbn [fst snd] in *. split_and!.
      - set_solver.
      - intros c' [->|Hc']%elem_of_cons Ho; [set_solver|by apply H2].
      - lia. }
    destruct r as [[]|err]; [|destruct (negb _)]; apply Hrest; rewrite length_app; cbn; lia.
  - eapply wp_mono; [|apply IH; set_solver]. intros [r1 r2] w' (H1 & H2 & H3). split_and!; try done.
    intros c' [->|Hc']%elem_of_cons Ho; [by specialize (Hover Ho)|by apply H2].
Qed.

(** C19. A sweep is safe and complete: whatever Docker answers, the only removals
    are of listed containers that carry a readable creation time and are past
    their age bound or subject to an armed idle bound (which for a container
    that is not running has passed since its creation); every listed container
    past its age bound is tried, however busy it keeps itself and whatever
    errors came before; and every removal tried is accounted for, as a
    reclaimed name or as an error. *)
Theorem reap_sweep now cs :
  sweeping (removes_expired now cs) (reapLoop now cs [] []) (fun r w' =>
    (forall c, c ∈ cs -> over_age c now -> SumID c ∈ tried w') /\
    (length (fst r) + length (snd r) = length (tried w'))%nat) (mkSweep cs now []).
Proof.
  eapply wp_mono; [|by apply (reapLoop_sweeping now cs)].
  intros r w' (_ & H2 & H3). cbn in H3. split; [done|lia].
Qed.

Lemma parseSignedDurationLabel_String d fallback :
  in_int64 d -> parseSignedDurationLabel (DurationString d) fallback = d.
Proof. intros Hd. unfold parseSignedDurationLabel. by rewrite ParseDuration_String. Qed.

(** C20. The bounds a sandbox was created with are the ones it is reclaimed by:
    for a container labelled by [buildConfig], the sweep decides without asking
    the sandbox as soon as its age exceeds the specification's [MaxAge]; with
    both bounds disabled (zero or negative) it never expires; and a stopped one
    expires exactly when one of the enabled bounds has passed since creation. *)
Theorem expired_bounds `{MapRange string} name spec created now id image status :
  four_digit_year created -> created <> zero_time ->
  in_int64 (MaxAge (Life spec)) -> in_int64 (IdleTimeout (Life spec)) ->
  let c := mkSummary id image status (buildLabels name spec created) in
  let maxAge := MaxAge (Life spec) in
  let idle := IdleTimeout (Life spec) in
  (0 < maxAge -> maxAge < Sub now created -> expired c now = Ret true) /\
  (maxAge <= 0 -> idle <= 0 -> expired c now = Ret false) /\
  (stateFromStatus status <> StateRunning ->
     exists r, expired c now = Ret r /\
       (r = true <-> (0 < maxAge /\ maxAge < Sub now created) \/
                     (0 < idle /\ idle < Sub now created))).
Proof.
  intros Hy Hz Hm Hi c maxAge idle. unfold expired. cbn [SumLabels SumState SumID c].
  rewrite !own_label by done.
  change (label (own_labels name spec created) labelCreatedAt) with (FormatRFC3339Nano created).
  change (label (own_labels name spec created) labelMaxAge) with (DurationString maxAge).
  change (label (own_labels name spec created) labelIdle) with (DurationString idle).
  rewrite !parseSignedDurationLabel_String by done.
  unfold parseTimeLabel. rewrite ParseRFC3339Nano_Format by done.
  unfold IsZero. apply Z.eqb_neq in Hz as ->. rewrite !Z.gtb_ltb.
  destruct (Z.ltb_spec 0 maxAge); cbn [andb].
  1: destruct (Z.ltb_spec maxAge (Sub now created)).
  all: destruct (Z.leb_spec idle 0).
  all: split_and!; try done; try lia; intros Hr; apply String.eqb_neq in Hr; rewrite ?Hr.
  all: eexists; (split; [reflexivity|]).
  all: rewrite ?Z.gtb_ltb, ?Z.ltb_lt; naive_solver lia.
Qed.

Lemma expired_bounds_witness :
  let spec := NewSpec [WithLifetime (mkLifetime (-1) Hour)] in
  expired (mkSummary "c1" "img" "running"
    (buildLabels (H := map_range_default string) "web" spec 1700000000000000000))
    (1700000000000000000 + 2 * Hour) = Ret true.
Proof.
  intros spec.
  refine (proj1 (expired_bounds (H := map_range_default string) "web" spec 1700000000000000000
    (1700000000000000000 + 2 * Hour) "c1" "img" "running" _ _ _ _) _ _).
  - vm_compute. split; congruence.
  - vm_compute. congruence.
  - vm_compute. split; congruence.
  - vm_compute. split; congruence.
  - vm_compute. reflexivity.
  - vm_compute. reflexivity.
Defined.
