(* ===== verification/DaemonServer.v ===== *)
(** * internal/daemon: the broker's request handlers

    The route handlers of [server.go], [sandboxes.go], [exec.go] and [dial.go],
    the capacity reservation of [capacity.go], the caller record of [caller.go]
    and the second TLS gate of [listener_tls.go].  A handler is a program over
    the backend the daemon serves and over the capacity's lock and table, with
    the decoded request as its argument and the response as its result. *)

From stdpp Require Import sorting.
From S2P Require Import Prelude GoErrors GoStrings GoFloat64 GoDuration GoTime Effects Sandbox.
From S2P Require Import GoNet GoHttp GoJson GoJsonText GoJsonDecode BrokerApi DaemonConfig.

(** ** The calls a handler makes *)

(** A sandbox handle is known to the daemon by its [Info]. *)
Inductive daemonE : Type -> Type :=
  | BOpen (name : string) : daemonE (result Info)
  | BList : daemonE (result (list Info))
  | BCreate (name : string) (opts : list CreateOption) : daemonE (result Info)
  | BDestroy (name : string) : daemonE (result unit)
  | BStop (sb : Info) : daemonE (result unit)
  | BExec (sb : Info) (cmd : Command) : daemonE (result Result)
  | BWriteFile (sb : Info) (dest : string) (mode : Z) (src : string) : daemonE (result unit)
  | BReadFile (sb : Info) (src : string) : daemonE (result (string * option error))
  | BStartProcess (sb : Info) (name : string) (cmd : Command) : daemonE (result unit)
  | BDialPort (name : string) (port : Z) : daemonE (result string)
  | CapLock : daemonE unit
  | CapUnlock : daemonE unit
  | CapGet (profile : string) : daemonE Z
  | CapSet (profile : string) (n : Z) : daemonE unit
  | CapDelete (profile : string) : daemonE unit.

(** ** Responses *)

Inductive Body : Type :=
  | NoBody
  | BodyInfo (i : WireInfo)
  | BodyInfos (infos : list WireInfo)
  | BodyExec (r : ExecResponse)
  | BodyProfiles (ps : list ProfileInfo)
  | BodyBytes (content : string)
  | BodyStream (conn : string)
  | BodyRedirect (location : string)
  | BodyError (e : WireError).

(** A response, or a connection dropped in the middle of one. *)
Inductive Response : Type :=
  | Respond (status : Z) (body : Body)
  | Aborted (status : Z) (sent : string).

Definition fail (err : error) : Response :=
  let '(kind, status) := KindOf err in
  let message := if String.eqb kind KindInternal then Lit "internal error" else ErrText err in
  Respond status (BodyError (mkWireError message kind)).

(** [decode], given what the JSON decoder makes of the body's first value, of
    what follows it, and of the value read strictly into the request type. *)
Definition decode {T} (first : result string) (ended : bool) (strict : string -> result T)
    : result T :=
  match first with
  | Err err => Err (Errorf "%w: %s" [AWrap (Sentinel ErrInvalid); AErrText err])
  | Ok raw =>
      if String.eqb (TrimSpace raw) "null" then
        Err (Errorf "%w: body is null, want a JSON object" [AWrap (Sentinel ErrInvalid)])
      else if negb ended then
        Err (Errorf "%w: body has trailing data after the JSON value" [AWrap (Sentinel ErrInvalid)])
      else
        match strict raw with
        | Err err => Err (Errorf "%w: %s" [AWrap (Sentinel ErrInvalid); AErrText err])
        | Ok v => Ok v
        end
  end.

(** The limit [decode] reads a body under. *)
Definition MaxBodyBytes : Z := Z.shiftl 1 20.

(** [decode] of the body of a request: the first value of what
    [MaxBytesReader] lets through, that nothing but space follows it, and the
    value stored into the request's type by [store]. *)
Definition decodeBody {T} (store : json -> option T) (body : string) : result T :=
  let bad := External ExtOther "json" in
  let eof := Z.of_nat (String.length body) <=? MaxBodyBytes in
  let data := if eof then body else stake (Z.to_nat MaxBodyBytes) body in
  let first := first_value data eof in
  decode (match first with Some (raw, _) => Ok raw | None => Err bad end)
    (eof && match first with Some (_, rest) => String.eqb (skip_ws rest) "" | None => false end)
    (fun raw => match ' (v, _) ← json_parse raw; store v with Some t => Ok t | None => Err bad end).

(** ** Labels *)

Definition labelProfile : string := "openbloxd.profile".

Definition label_of (labels : gmap string string) (k : string) : string :=
  default "" (labels !! k).

Section handlers.
Context `{MapRange string}.

Definition callerLabels (labels : gmap string string) : gmap string string :=
  match labels !! labelProfile with
  | None => labels
  | Some _ =>
      fold_left (fun out '(k, v) => if negb (String.eqb k labelProfile) then <[k := v]> out else out)
        (range labels) ∅
  end.

Definition infoOf (i : Info) (profile : string) : WireInfo :=
  mkWireInfo (InfoName i) (InfoID i) (InfoImage i) (InfoState i) (InfoCreatedAt i) profile
    (callerLabels (InfoLabels i)).

(** ** Capacity *)

Definition countLive (profile : string) : prog daemonE (result Z) :=
  r <- call BList;;
  match r with
  | Err err => Ret (Err err)
  | Ok all =>
      Ret (Ok (fold_left (fun n i =>
        if String.eqb (label_of (InfoLabels i) labelProfile) profile then n + 1 else n) all 0))
  end.

(** [capacity.reserve]: whether a slot was taken, to be given back by
    [release]. *)
Definition reserve (profile : string) (limit : Z) : prog daemonE (result bool) :=
  if limit <=? 0 then Ret (Ok false)
  else
    _ <- call CapLock;;
    r <- countLive profile;;
    match r with
    | Err err => _ <- call CapUnlock;; Ret (Err err)
    | Ok live =>
        pending <- call (CapGet profile);;
        if live + pending >=? limit then
          _ <- call CapUnlock;;
          Ret (Err (Errorf "%w: profile %q holds %d of %d sandboxes"
            [AWrap (Sentinel ErrAtCapacity); AStr profile; AInt (live + pending); AInt limit]))
        else
          _ <- call (CapSet profile (pending + 1));;
          _ <- call CapUnlock;;
          Ret (Ok true)
    end.

(** The function [reserve] returns. *)
Definition release (profile : string) (taken : bool) : prog daemonE unit :=
  if negb taken then Ret tt
  else
    _ <- call CapLock;;
    pending <- call (CapGet profile);;
    _ <- call (CapSet profile (pending - 1));;
    _ <- (if pending - 1 <=? 0 then call (CapDelete profile) else Ret tt);;
    call CapUnlock.

(** ** Handlers *)

Variable cfg : Config.

(** The loop over the caller's labels: the options, or the refusal. *)
Fixpoint labelOptions (labels : list (string * string)) (opts : list CreateOption)
    : result (list CreateOption) :=
  match labels with
  | [] => Ok opts
  | (k, v) :: labels =>
      if String.eqb k labelProfile then
        Err (Errorf "%w: label %q is reserved" [AWrap (Sentinel ErrInvalid); AStr labelProfile])
      else labelOptions labels (opts ++ [WithLabel k v])%list
  end.

Definition createOptions (profile : Profile) (req : CreateRequest) : result (list CreateOption) :=
  let opts := (Options profile ++ [WithLabel labelProfile (ReqProfile req)])%list in
  let opts := match ReqEnv req with [] => opts | env => (opts ++ [WithEnv env])%list end in
  labelOptions (range (ReqLabels req)) opts.

Definition profileConflict (name got want : string) : error :=
  Errorf "%w: %q exists under profile %q, requested %q"
    [AWrap (Sentinel ErrProfileConflict); AStr name; AStr got; AStr want].

(** [handleCreate] after the reservation. *)
Definition create_reserved (profile : Profile) (req : CreateRequest) : prog daemonE Response :=
  match createOptions profile req with
  | Err err => Ret (fail err)
  | Ok opts =>
      r <- call (BCreate (ReqName req) opts);;
      match r with
      | Err err => Ret (fail err)
      | Ok info =>
          let got := label_of (InfoLabels info) labelProfile in
          if negb (String.eqb got (ReqProfile req)) then
            Ret (fail (profileConflict (ReqName req) got (ReqProfile req)))
          else Ret (Respond 201 (BodyInfo (infoOf info got)))
      end
  end.

Definition handleCreate (body : result CreateRequest) : prog daemonE Response :=
  match body with
  | Err err => Ret (fail err)
  | Ok req =>
      if String.eqb (ReqName req) "" then
        Ret (fail (Errorf "%w: name is empty" [AWrap (Sentinel ErrInvalid)]))
      else
        match Profiles cfg !! ReqProfile req with
        | None => Ret (fail (Errorf "%w: no profile named %q"
            [AWrap (Sentinel ErrInvalid); AStr (ReqProfile req)]))
        | Some profile =>
            o <- call (BOpen (ReqName req));;
            match o with
            | Ok existing =>
                let got := label_of (InfoLabels existing) labelProfile in
                if negb (String.eqb got (ReqProfile req)) then
                  Ret (fail (profileConflict (ReqName req) got (ReqProfile req)))
                else create_reserved profile req
            | Err err =>
                if negb (Is err ErrNotFound) then Ret (fail err)
                else
                  taken <- reserve (ReqProfile req) (PMaxSandboxes profile);;
                  match taken with
                  | Err err => Ret (fail err)
                  | Ok taken =>
                      resp <- create_reserved profile req;;
                      _ <- release (ReqProfile req) taken;;
                      Ret resp
                  end
            end
        end
  end.

Definition handleGet (name : string) : prog daemonE Response :=
  r <- call (BOpen name);;
  match r with
  | Err err => Ret (fail err)
  | Ok info => Ret (Respond 200 (BodyInfo (infoOf info (label_of (InfoLabels info) labelProfile))))
  end.

Definition handleList : prog daemonE Response :=
  r <- call BList;;
  match r with
  | Err err => Ret (fail err)
  | Ok all => Ret (Respond 200 (BodyInfos
      (map (fun i => infoOf i (label_of (InfoLabels i) labelProfile)) all)))
  end.

Definition handleDestroy (name : string) : prog daemonE Response :=
  r <- call (BDestroy name);;
  match r with
  | Err err => Ret (fail err)
  | Ok _ => Ret (Respond 204 NoBody)
  end.

Definition handleStop (name : string) : prog daemonE Response :=
  r <- call (BOpen name);;
  match r with
  | Err err => Ret (fail err)
  | Ok sb =>
      s <- call (BStop sb);;
      match s with
      | Err err => Ret (fail err)
      | Ok _ => Ret (Respond 204 NoBody)
      end
  end.

Definition handleExec (name : string) (body : result ExecRequest) : prog daemonE Response :=
  match body with
  | Err err => Ret (fail err)
  | Ok req =>
      let timeout :=
        if negb (String.eqb (ExTimeout req) "") then
          match ParseDuration (ExTimeout req) with
          | None => Err (Errorf "%w: timeout %q: %w" [AWrap (Sentinel ErrInvalid);
              AStr (ExTimeout req); AWrap (External ExtOther "time: invalid duration")])
          | Some d => Ok d
          end
        else Ok 0 in
      match timeout with
      | Err err => Ret (fail err)
      | Ok timeout =>
          r <- call (BOpen name);;
          match r with
          | Err err => Ret (fail err)
          | Ok sb =>
              x <- call (BExec sb (mkCommand (ExArgv req) (ExEnv req) (ExDir req) None timeout));;
              match x with
              | Err err => Ret (fail err)
              | Ok res => Ret (Respond 200 (BodyExec (mkExecResponse (Stdout res) (Stderr res)
                  (ExitCode res) (Truncated res) (Stopped res) (OOMKilled res))))
              end
          end
      end
  end.

(** [filePerm] is 0644. *)
Definition filePerm : Z := 420.

Definition filePath (p : string) : result string :=
  if negb (IsAbs p) then
    Err (Errorf "%w: path %q is not absolute" [AWrap (Sentinel ErrInvalid); AStr p])
  else Ok p.

Definition handleWriteFile (name path content : string) : prog daemonE Response :=
  r <- call (BOpen name);;
  match r with
  | Err err => Ret (fail err)
  | Ok sb =>
      match filePath path with
      | Err err => Ret (fail err)
      | Ok dest =>
          x <- call (BWriteFile sb dest filePerm content);;
          match x with
          | Err err => Ret (fail err)
          | Ok _ => Ret (Respond 204 NoBody)
          end
      end
  end.

Definition handleReadFile (name path : string) : prog daemonE Response :=
  r <- call (BOpen name);;
  match r with
  | Err err => Ret (fail err)
  | Ok sb =>
      match filePath path with
      | Err err => Ret (fail err)
      | Ok dest =>
          x <- call (BReadFile sb dest);;
          match x with
          | Err err => Ret (fail err)
          | Ok (content, None) => Ret (Respond 200 (BodyBytes content))
          | Ok (content, Some _) => Ret (Aborted 200 content)
          end
      end
  end.

Definition handleStartProcess (name : string) (body : result ProcessRequest) : prog daemonE Response :=
  match body with
  | Err err => Ret (fail err)
  | Ok req =>
      r <- call (BOpen name);;
      match r with
      | Err err => Ret (fail err)
      | Ok sb =>
          x <- call (BStartProcess sb (PrName req)
                 (mkCommand (PrArgv req) (PrEnv req) (PrDir req) None 0));;
          match x with
          | Err err => Ret (fail err)
          | Ok _ => Ret (Respond 204 NoBody)
          end
      end
  end.

(** [handleDial] up to the switch of protocols, after which the two streams
    are copied into each other. *)
Definition handleDial (name port : string) (hijack : option error) : prog daemonE Response :=
  let bad := Errorf "%w: port %q is not in 1-65535" [AWrap (Sentinel ErrInvalid); AStr port] in
  match Atoi port with
  | None => Ret (fail bad)
  | Some p =>
      if (p <? 1) || (p >? 65535) then Ret (fail bad)
      else
        r <- call (BDialPort name p);;
        match r with
        | Err err => Ret (fail err)
        | Ok upstream =>
            match hijack with
            | Some err => Ret (fail (Errorf "%w: connection cannot be hijacked: %w"
                [AWrap (Sentinel ErrInvalid); AWrap err]))
            | None => Ret (Respond 101 (BodyStream upstream))
            end
        end
  end.
End handlers.

Section profiles.
Context `{MapRange Profile}.

Definition profile_le (a b : ProfileInfo) : Prop := String.leb (PiName a) (PiName b) = true.

#[global] Instance profile_le_dec : RelDecision profile_le.
Proof. intros a b. unfold profile_le. apply _. Defined.

Definition handleProfiles (cfg : Config) : Response :=
  Respond 200 (BodyProfiles (merge_sort profile_le
    (map (fun '(name, p) => mkProfileInfo name (DurationString (PIdleTimeout p))
       (DurationString (PMaxAge p))) (range (Profiles cfg))))).
End profiles.

(** ** Callers *)

Definition TransportUnix : string := "unix".
Definition TransportTLS : string := "tls".

Record Caller : Type := mkCaller { Transport : string; CallerName : string }.

(** The line [WithCaller] logs for a request from the network. *)
Record RequestLog : Type := mkRequestLog { LogCaller : string; LogMethod : string; LogPath : string }.

(** [WithCaller]: what it logs and the caller it puts into the request's
    context; [tls] holds the common names of the peer's certificates when the
    request came over TLS. *)
Definition WithCaller (tls : option (list string)) (method path : string) : list RequestLog * Caller :=
  match tls with
  | None => ([], mkCaller TransportUnix "")
  | Some peers =>
      let name := match peers with cn :: _ => cn | [] => "" end in
      ([mkRequestLog name method path], mkCaller TransportTLS name)
  end.

(** [checkAllowedClientCN]; a chain is the list of its certificates' common
    names, leaf first. *)
Definition checkAllowedClientCN (allowed : gset string) (chains : list (list string)) : result unit :=
  match chains with
  | (cn :: _) :: _ =>
      if bool_decide (cn ∈ allowed) then Ok tt
      else Err (Errorf "client certificate common name %q is not allowed" [AStr cn])
  | _ => Err (Errorf "no verified client certificate chain" [])
  end.

(** The allowlist [tlsConfigFor] builds. *)
Definition allowedCNs (cfg : ListenConfig) : gset string :=
  fold_left (fun s cn => {[cn]} ∪ s) (AllowedClientCNs (TLS cfg)) ∅.

(** ** What a create request can and cannot influence *)

Section create_facts.
Context `{MapRange string}.

Lemma NewSpec_app opts o : NewSpec (opts ++ [o])%list = o (NewSpec opts).
Proof. unfold NewSpec. by rewrite fold_left_app. Qed.

(** The policy of a specification: everything but environment and labels. *)
Definition policy (s : Spec) :=
  (Image s, Runtime s, User s, Res s, Life s, Egress s, DefaultTimeout s, MaxTimeout s).

Lemma labelOptions_spec labels opts opts' :
  labelOptions labels opts = Ok opts' ->
  policy (NewSpec opts') = policy (NewSpec opts) /\
  Env (NewSpec opts') = Env (NewSpec opts) /\
  Labels (NewSpec opts') =
    fold_left (fun m '(k, v) => <[k := v]> m) labels (Labels (NewSpec opts)) /\
  Forall (fun kv => fst kv <> labelProfile) labels.
Proof.
  revert opts; induction labels as [|[k v] labels IH]; intros opts Ho; cbn [labelOptions] in Ho.
  { injection Ho as <-. by split_and!. }
  destruct (String.eqb_spec k labelProfile); [done|].
  apply IH in Ho as (H1 & H2 & H3 & H4). rewrite NewSpec_app in H1, H2, H3.
  split_and!; [by rewrite H1|by rewrite H2|by rewrite H3|by constructor].
Qed.

Lemma labelOptions_err labels opts e :
  labelOptions labels opts = Err e ->
  Is e ErrInvalid = true /\ exists v, (labelProfile, v) ∈ labels.
Proof.
  revert opts; induction labels as [|[k v] labels IH]; intros opts Ho; cbn [labelOptions] in Ho; [done|].
  destruct (String.eqb_spec k labelProfile) as [->|].
  - injection Ho as <-. split; [done|]. exists v. by left.
  - apply IH in Ho as [Hi [v' Hv']]. split; [done|]. exists v'. by right.
Qed.

(** What [createOptions] makes of a request: the profile's policy, the
    caller's environment, and the caller's labels with the profile's. *)
Definition request_spec (profile : Profile) (req : CreateRequest) (opts : list CreateOption) : Prop :=
  policy (NewSpec opts) = policy (NewSpec (Options profile)) /\
  Env (NewSpec opts) = ReqEnv req /\
  Labels (NewSpec opts) = <[labelProfile := ReqProfile req]> (ReqLabels req) /\
  ReqLabels req !! labelProfile = None.

Lemma createOptions_spec profile req :
  match createOptions profile req with
  | Ok opts => request_spec profile req opts
  | Err e => Is e ErrInvalid = true /\ is_Some (ReqLabels req !! labelProfile)
  end.
Proof.
  unfold createOptions.
  set (opts1 := (Options profile ++ [WithLabel labelProfile (ReqProfile req)])%list).
  set (opts2 := match ReqEnv req with [] => opts1 | _ => _ end).
  destruct (Options_spec profile) as (_ & _ & _ & _ & _ & _ & _ & _ & _ & _ & _ & _ & Henv & Hlab).
  assert (H2 : policy (NewSpec opts2) = policy (NewSpec (Options profile)) /\
    Env (NewSpec opts2) = ReqEnv req /\
    Labels (NewSpec opts2) = {[ labelProfile := ReqProfile req ]}).
  { unfold opts2, opts1. destruct (ReqEnv req) as [|e env]; rewrite !NewSpec_app; cbn [WithEnv WithLabel
      Env Labels policy Image Runtime User Res Life Egress DefaultTimeout MaxTimeout];
      rewrite Henv, Hlab; done. }
  destruct (labelOptions _ opts2) as [opts|e] eqn:E.
  - apply labelOptions_spec in E as (P1 & P2 & P3 & P4). destruct H2 as (Q1 & Q2 & Q3).
    unfold request_spec. rewrite P1, P2, P3, Q1, Q2, Q3.
    assert (Hno : ReqLabels req !! labelProfile = None).
    { apply eq_None_not_Some. intros [v Hv]. apply elem_of_range in Hv.
      rewrite Forall_forall in P4. by apply P4 in Hv. }
    split_and!; try done. apply map_eq. intros k.
    rewrite (fold_insert_lookup (fun k => k)) by (done || apply range_NoDup_fst).
    destruct (list_find _ _) as [[i [x v]]|] eqn:Ef.
    + apply list_find_Some in Ef as (Hi & -> & _). apply list_elem_of_lookup_2, elem_of_range in Hi.
      rewrite lookup_insert_ne; [done|]. congruence.
    + apply list_find_None in Ef. destruct (decide (labelProfile = k)) as [<-|Hne].
      * by rewrite lookup_singleton_eq, lookup_insert_eq.
      * rewrite lookup_singleton_ne, lookup_insert_ne by done. symmetry. apply eq_None_not_Some.
        intros [v Hv]. apply elem_of_range in Hv. rewrite Forall_forall in Ef. by apply Ef in Hv.
  - apply labelOptions_err in E as [Hi [v Hv]]. split; [done|]. apply elem_of_range in Hv. by exists v.
Qed.

Lemma fail_status err : exists st b, fail err = Respond st b /\ 400 <= st.
Proof.
  unfold fail. pose proof (KindOf_status err) as Hs. destruct (KindOf err) as [k st].
  eexists st, _. split; [reflexivity|]. cbn in Hs. lia.
Qed.

(** The creations a request may cause, and what success reports. *)
Definition create_request_calls (cfg : Config) (req : CreateRequest) : forall X, daemonE X -> Prop :=
  fun X e => match e with
  | BCreate name opts => name = ReqName req /\ exists profile,
      Profiles cfg !! ReqProfile req = Some profile /\ request_spec profile req opts
  | BOpen name => name = ReqName req
  | CapGet p | CapSet p _ | CapDelete p => p = ReqProfile req
  | BList | CapLock | CapUnlock => True
  | _ => False
  end.

Lemma create_reserved_safe cfg profile req :
  Profiles cfg !! ReqProfile req = Some profile ->
  safe (create_request_calls cfg req) (create_reserved profile req) (fun resp =>
    forall b, resp = Respond 201 b -> exists i, b = BodyInfo i /\ WProfile i = ReqProfile req).
Proof.
  intros Hp. unfold create_reserved. pose proof (createOptions_spec profile req) as Hs.
  assert (Hf : forall e b, fail e = Respond 201 b -> False).
  { intros e b Hb. destruct (fail_status e) as (st & b' & Hf & Hst). rewrite Hf in Hb.
    injection Hb as -> _. lia. }
  destruct (createOptions profile req) as [opts|e]; [|by cbn; intros b Hb%Hf].
  cbn [bind call safe]. split; [split; [done|by exists profile]|].
  intros [info|e]; [|by cbn; intros b Hb%Hf].
  destruct (String.eqb_spec (label_of (InfoLabels info) labelProfile) (ReqProfile req)) as [He|];
    cbn [negb safe]; [|by intros b Hb%Hf].
  intros b [= <-]. by eexists.
Qed.

Lemma handleCreate_safe cfg req :
  safe (create_request_calls cfg req) (handleCreate cfg (Ok req)) (fun resp =>
    forall b, resp = Respond 201 b -> exists i, b = BodyInfo i /\ WProfile i = ReqProfile req).
Proof.
  assert (Hf : forall e b, fail e = Respond 201 b -> False).
  { intros e b Hb. destruct (fail_status e) as (st & b' & Hf & Hst). rewrite Hf in Hb.
    injection Hb as -> _. lia. }
  unfold handleCreate. destruct (String.eqb _ ""); [by cbn; intros b Hb%Hf|].
  destruct (Profiles cfg !! _) as [profile|] eqn:Hp; [|by cbn; intros b Hb%Hf].
  cbn [bind call safe]. split; [done|]. intros [info|e].
  - destruct (negb _); [by cbn; intros b Hb%Hf|]. by apply create_reserved_safe.
  - destruct (negb _); [by cbn; intros b Hb%Hf|]. apply safe_bind with (fun _ => True).
    { unfold reserve, countLive. destruct (_ <=? 0); [done|]. cbn [bind call safe]. split; [done|].
      intros _. split; [done|]. intros [all|e']; cbn [bind call safe]; [|by split].
      split; [done|]. intros pending. destruct (_ >=? _); cbn [bind call safe]; [by split|].
      split; [done|]. intros _. by split. }
    intros [taken|e'] _; [|by cbn; intros b Hb%Hf].
    eapply safe_bind; [by apply create_reserved_safe|]. intros resp Hresp.
    apply safe_bind with (fun _ => True); [|intros _ _; exact Hresp].
    unfold release. destruct (negb taken); [done|]. cbn [bind call safe]. split; [done|].
    intros _. split; [done|]. intros pending. split; [done|]. intros _.
    destruct (_ <=? 0); cbn [bind call safe]; [split; [done|]; intros _|]; by split.
Qed.

(** C7. A request chooses a profile and nothing else that matters: in every
    execution of [handleCreate], whatever the backend answers, a sandbox is
    created only under the requested name, with exactly the policy of the
    requested profile (image, runtime, user, resources, lifetime, egress,
    timeouts), the caller's environment, and the caller's labels plus the
    daemon's own profile label, which the caller cannot set; and a reported
    success always describes a sandbox of the requested profile. *)
Theorem handleCreate_confined cfg req :
  safe (create_request_calls cfg req) (handleCreate cfg (Ok req)) (fun resp =>
    forall b, resp = Respond 201 b -> exists i, b = BodyInfo i /\ WProfile i = ReqProfile req).
Proof. apply handleCreate_safe. Qed.
End create_facts.

(** ** Responses *)

Lemma decode_raw {T} raw (strict : string -> result T) :
  HasPrefix raw "{" = true ->
  decode (Ok raw) true strict = match strict raw with
    | Err err => Err (Errorf "%w: %s" [AWrap (Sentinel ErrInvalid); AErrText err])
    | Ok v => Ok v
    end.
Proof.
  intros Hp. unfold decode. destruct raw as [|c raw]; [done|]. cbn [HasPrefix] in Hp.
  apply andb_prop in Hp as [Hp _]. apply Ascii.eqb_eq in Hp as <-.
  destruct (TrimSpace_head "{"%char raw eq_refl) as [t Ht].
  destruct (String.eqb_spec (TrimSpace (String "{" raw)) "null") as [He|]; [|done].
  rewrite He in Ht. discriminate Ht.
Qed.

(** A body that is the text of an object is read as that object, if it is
    short enough. *)
Lemma decodeBody_print {T} (store : json -> option T) v t :
  json_ints v /\ json_depth v <= maxNestingDepth -> HasPrefix (json_print v) "{" = true ->
  store (json_norm v) = Some t ->
  Z.of_nat (String.length (json_print v)) <= MaxBodyBytes -> decodeBody store (json_print v) = Ok t.
Proof.
  intros [Hi Hd] Hp Hs Hl. unfold decodeBody. cbv zeta. apply Z.leb_le in Hl. rewrite Hl. cbv iota.
  rewrite first_value_print by done. rewrite decode_raw by done.
  pose proof (json_parse_print v "" Hi Hd eq_refl) as H. rewrite sapp_nil_r in H. rewrite H. cbn.
  by rewrite Hs.
Qed.

(** A body over the limit is refused as invalid, whatever it holds. *)
Lemma decodeBody_large {T} (store : json -> option T) body :
  MaxBodyBytes < Z.of_nat (String.length body) ->
  exists e, decodeBody store body = Err e /\ KindOf e = (KindInvalid, 400).
Proof.
  intros Hl. unfold decodeBody. cbv zeta. apply Z.leb_gt in Hl. rewrite Hl. cbn [andb]. unfold decode.
  destruct (first_value _ false) as [[raw rest]|]; [|by eexists].
  destruct (String.eqb _ "null"); by eexists.
Qed.

(** Errors cross the socket without the host's internals: a response to an
    error that is one of the wire's sentinels carries that sentinel's kind and
    the error's own text; a response to any other error carries the kind
    [internal], status 500 and a fixed text that says nothing about it. *)
Theorem fail_hides_internals err :
  exists status message kind,
    fail err = Respond status (BodyError (mkWireError message kind)) /\
    400 <= status < 600 /\
    ((Is err (ErrorFor kind) = true /\ message = ErrText err) \/
     ((forall s, s ∈ wire_sentinels -> Is err s = false) /\
      kind = KindInternal /\ status = 500 /\ message = Lit "internal error")).
Proof.
  unfold fail. pose proof (KindOf_status err) as Hs. pose proof (KindOf_sound err) as Hk.
  destruct (KindOf err) as [kind status]. cbn [fst snd] in *.
  eexists status, _, kind. split; [reflexivity|]. split; [done|].
  destruct Hk as [(Hne & His)|(Heq & Hst & Hno)].
  - left. split; [done|]. by apply String.eqb_neq in Hne as ->.
  - right. subst kind. by rewrite String.eqb_refl.
Qed.

Section wire.
Context `{MapRange string}.

Lemma callerLabels_delete labels : callerLabels labels = delete labelProfile labels.
Proof.
  unfold callerLabels. destruct (labels !! labelProfile) as [p|] eqn:Ep.
  2: { symmetry. by apply delete_id. }
  assert (Hfold : forall l (base : gmap string string),
    fold_left (fun out '(k, v) => if negb (String.eqb k labelProfile) then <[k := v]> out else out) l base =
    fold_left (fun m '(k, v) => <[k := v]> m)
      (filter (fun '(k, _) => k <> labelProfile) l) base).
  { induction l as [|[k v] l IH]; intros base; [done|]. cbn [fold_left].
    rewrite filter_cons. destruct (String.eqb_spec k labelProfile) as [->|Hk]; cbn [negb].
    - rewrite decide_False by tauto. apply IH.
    - rewrite decide_True by done. apply IH. }
  rewrite Hfold. apply map_eq. intros k.
  rewrite (fold_insert_lookup (fun k => k)); [|done|].
  2: { eapply sublist_NoDup; [apply (range_NoDup_fst labels)|]. apply fmap_sublist, sublist_filter. }
  destruct (list_find _ _) as [[i [x v]]|] eqn:Ef.
  - apply list_find_Some in Ef as (Hi & -> & _).
    apply list_elem_of_lookup_2, list_elem_of_filter in Hi as [Hne Hin%elem_of_range].
    by rewrite lookup_delete_ne.
  - apply list_find_None in Ef. rewrite lookup_empty. symmetry.
    destruct (decide (labelProfile = k)) as [<-|Hne]; [apply lookup_delete_eq|].
    rewrite lookup_delete_ne by done. apply eq_None_not_Some. intros [v Hv].
    rewrite Forall_forall in Ef. apply (Ef (k, v)); [|done].
    apply list_elem_of_filter. split; [done|]. by apply elem_of_range.
Qed.

(** A caller reads back exactly its own labels: for every accepted request,
    a sandbox that carries the labels it was created with is reported under
    the requested profile, with the caller's labels and nothing of the
    daemon's bookkeeping among them. *)
Theorem infoOf_round_trip profile req opts i :
  createOptions profile req = Ok opts -> InfoLabels i = Labels (NewSpec opts) ->
  let w := infoOf i (label_of (InfoLabels i) labelProfile) in
  WProfile w = ReqProfile req /\ WLabels w = ReqLabels req.
Proof.
  intros Ho Hi. pose proof (createOptions_spec profile req) as Hs. rewrite Ho in Hs.
  destruct Hs as (_ & _ & Hl & Hn). unfold infoOf. cbn [WProfile WLabels].
  rewrite callerLabels_delete, Hi, Hl. unfold label_of. rewrite lookup_insert_eq.
  split; [done|]. by apply delete_insert_id.
Qed.
End wire.

Definition demo_create_request : CreateRequest :=
  mkCreateRequest "web" "p" ["A=1"] {[ "team" := "blue" ]}.

Lemma infoOf_round_trip_witness :
  exists opts, createOptions (H := map_range_default string) (sample_profile 512 256 0)
      demo_create_request = Ok opts /\
    WLabels (infoOf (H := map_range_default string)
      (mkInfo "web" "c1" "img" StateRunning 0 (Labels (NewSpec opts)))
      (label_of (Labels (NewSpec opts)) labelProfile)) = ReqLabels demo_create_request.
Proof.
  eexists. split; [vm_compute; reflexivity|].
  refine (proj2 (infoOf_round_trip (H := map_range_default string) (sample_profile 512 256 0)
    demo_create_request _ (mkInfo "web" "c1" "img" StateRunning 0 (Labels (NewSpec _))) _ eq_refl)).
  reflexivity.
Defined.

(** ** Files, ports, certificates, profiles *)

(** Requests reach the sandbox's interface only in range: a file handler
    calls the backend for no path that is not absolute (and writes with mode
    0644), the dial handler for no port outside 1 to 65535, and the exec handler
    passes the command through unchanged with the parsed timeout, or zero when
    none was given. *)
Theorem handlers_in_range name path content port hijack req :
  let calls : forall X, daemonE X -> Prop := fun X e => match e with
    | BOpen n => n = name
    | BWriteFile _ p m c => HasPrefix p "/" = true /\ p = path /\ m = filePerm /\ c = content
    | BReadFile _ p => HasPrefix p "/" = true /\ p = path
    | BDialPort n p => n = name /\ 1 <= p <= 65535 /\ Atoi port = Some p
    | BExec _ c => Argv c = ExArgv req /\ CmdEnv c = ExEnv req /\ Dir c = ExDir req /\
        Stdin c = None /\
        ((ExTimeout req = "" /\ Timeout c = 0) \/
         (ExTimeout req <> "" /\ ParseDuration (ExTimeout req) = Some (Timeout c)))
    | _ => False
    end in
  safe calls (handleWriteFile name path content) (fun _ => True) /\
  safe calls (handleReadFile name path) (fun _ => True) /\
  safe calls (handleDial name port hijack) (fun _ => True) /\
  safe calls (handleExec name (Ok req)) (fun _ => True).
Proof.
  intros calls. split_and!.
  - unfold handleWriteFile. cbn [bind call safe]. split; [done|]. intros [sb|]; [|done].
    unfold filePath, IsAbs. destruct (HasPrefix path "/") eqn:Ep; cbn [negb]; [|done].
    cbn [bind call safe]. split; [done|]. by intros [[]|].
  - unfold handleReadFile. cbn [bind call safe]. split; [done|]. intros [sb|]; [|done].
    unfold filePath, IsAbs. destruct (HasPrefix path "/") eqn:Ep; cbn [negb]; [|done].
    cbn [bind call safe]. split; [done|]. by intros [[? []]|].
  - unfold handleDial. destruct (Atoi port) as [p|] eqn:Ep; [|done].
    destruct (_ || _) eqn:Er; [done|]. cbn [bind call safe]. zbool.
    split; [cbn; split_and!; done || lia|]. intros [u|]; [|done]. by destruct hijack.
  - unfold handleExec. destruct (String.eqb_spec (ExTimeout req) "") as [He|He]; cbn [negb].
    + cbn [bind call safe]. split; [done|]. intros [sb|]; [|done]. cbn [bind call safe].
      split; [cbn; split_and!; auto|]. by intros [].
    + destruct (ParseDuration (ExTimeout req)) as [d|] eqn:Ed; [|done].
      cbn [bind call safe]. split; [done|]. intros [sb|]; [|done]. cbn [bind call safe].
      split; [cbn; split_and!; auto|]. by intros [].
Qed.

(** The certificate authority is not the access list: a connection passes
    the second gate exactly when the leaf of its first verified chain carries
    a common name that is on the configured allowlist; with a configuration
    that validates, a certificate without a common name never passes. *)
Theorem checkAllowedClientCN_iff cfg chains :
  (checkAllowedClientCN (allowedCNs cfg) chains = Ok tt <->
     exists cn certs rest, chains = (cn :: certs) :: rest /\ cn ∈ AllowedClientCNs (TLS cfg)) /\
  (ListenConfig_validate cfg = Ok tt ->
     forall certs rest, checkAllowedClientCN (allowedCNs cfg) (("" :: certs) :: rest) <> Ok tt).
Proof.
  assert (Hin : forall cn, cn ∈ allowedCNs cfg <-> cn ∈ AllowedClientCNs (TLS cfg)).
  { intros cn. unfold allowedCNs.
    assert (Hf : forall l (s : gset string),
      cn ∈ fold_left (fun s cn => {[cn]} ∪ s) l s <-> cn ∈ l \/ cn ∈ s).
    { induction l as [|x l IH]; intros s; cbn [fold_left]; [set_solver|]. rewrite IH. set_solver. }
    rewrite Hf. set_solver. }
  assert (Hiff : forall chains, checkAllowedClientCN (allowedCNs cfg) chains = Ok tt <->
     exists cn certs rest, chains = (cn :: certs) :: rest /\ cn ∈ AllowedClientCNs (TLS cfg)).
  { intros [|[|cn certs] rest]; cbn; [naive_solver..|]. case_bool_decide as Hc; rewrite Hin in Hc.
    - split; [intros _; by exists cn, certs, rest|done].
    - split; [done|]. intros (cn' & certs' & rest' & [= <- <- <-] & ?). done. }
  split; [apply Hiff|]. intros (host & port & _ & _ & _ & _ & _ & _ & _ & Hno)%(proj1 (ListenConfig_validate_ok cfg)).
  intros certs rest (cn & ? & ? & [= <- <- <-] & Hcn)%Hiff. done.
Qed.

#[global] Instance profile_le_total : Total profile_le.
Proof. intros a b. unfold profile_le. apply String.leb_total. Qed.

Lemma string_compare_trans a b c :
  String.compare a b <> Gt -> String.compare b c <> Gt -> String.compare a c <> Gt.
Proof.
  revert b c; induction a as [|x a IH]; intros [|y b] [|z c]; cbn; try done.
  unfold Ascii.compare. repeat match goal with |- context [N.compare ?p ?q] =>
    destruct (N.compare_spec p q) end; try done; try lia; intros; eauto.
Qed.

#[global] Instance profile_le_trans : Transitive profile_le.
Proof.
  intros a b c. unfold profile_le, String.leb. intros H1 H2.
  pose proof (string_compare_trans (PiName a) (PiName b) (PiName c)) as Ht.
  destruct (String.compare (PiName a) (PiName b)), (String.compare (PiName b) (PiName c)),
    (String.compare (PiName a) (PiName c)); try done; exfalso; by apply Ht.
Qed.

(** The profile listing does not depend on map order: it is sorted by name,
    lists every configured profile once with its configured bounds, and any
    two iteration orders give the same answer. *)
Theorem handleProfiles_stable (R1 R2 : MapRange Profile) cfg :
  handleProfiles (H := R1) cfg = handleProfiles (H := R2) cfg /\
  exists ps, handleProfiles (H := R1) cfg = Respond 200 (BodyProfiles ps) /\
    Sorted profile_le ps /\
    forall name idle age, mkProfileInfo name idle age ∈ ps <->
      exists p, Profiles cfg !! name = Some p /\ idle = DurationString (PIdleTimeout p) /\
        age = DurationString (PMaxAge p).
Proof.
  unfold handleProfiles.
  set (mk := fun '(name, p) => mkProfileInfo name (DurationString (PIdleTimeout p)) (DurationString (PMaxAge p))).
  assert (Hmk : forall (R : MapRange Profile) x, x ∈ map mk (@range _ R (Profiles cfg)) <->
    exists name p, x = mk (name, p) /\ Profiles cfg !! name = Some p).
  { intros R x. rewrite list_elem_of_fmap. split.
    - intros ([name p] & -> & Hin%elem_of_range). by exists name, p.
    - intros (name & p & -> & Hin). exists (name, p). split; [done|]. by apply elem_of_range. }
  split.
  - f_equal. f_equal. apply Sorted_unique_strong with profile_le.
    + apply _.
    + intros x y Hx Hy Hxy Hyx.
      rewrite merge_sort_Permutation in Hx, Hy. apply Hmk in Hx as (nx & px & -> & Hx), Hy as (ny & py & -> & Hy).
      unfold profile_le in Hxy, Hyx. cbn in Hxy, Hyx.
      pose proof (String.leb_antisym _ _ Hxy Hyx). subst ny. congruence.
    + apply Sorted_merge_sort, _.
    + apply Sorted_merge_sort, _.
    + rewrite !merge_sort_Permutation. apply Permutation_map. by rewrite !range_perm.
  - eexists. split; [reflexivity|]. split; [apply Sorted_merge_sort, _|].
    intros name idle age. rewrite merge_sort_Permutation, Hmk. split.
    + intros (n & p & [= -> -> ->] & Hp). by exists p.
    + intros (p & Hp & -> & ->). by exists name, p.
Qed.

(** The listing reports configured bounds, not the ones in force: a profile
    that leaves both lifetime bounds out validates and is listed with [0s] for
    each, while its sandboxes are reclaimed after fifteen idle minutes and at
    two hours of age. *)
Theorem handleProfiles_omits_defaults (R : MapRange Profile) :
  exists cfg p, Profiles cfg = {[ "p" := p ]} /\ Profile_validate p "p" = Ok tt /\
    handleProfiles (H := R) cfg = Respond 200 (BodyProfiles [mkProfileInfo "p" "0s" "0s"]) /\
    IdleTimeout (Life (NewSpec (Options p))) = 15 * Minute /\
    MaxAge (Life (NewSpec (Options p))) = 2 * Hour.
Proof.
  exists sample_config, (sample_profile 512 256 0). split; [done|]. split; [by vm_compute|].
  split; [|by vm_compute]. unfold handleProfiles.
  assert (Hr : range (Profiles sample_config) = [("p", sample_profile 512 256 0)]).
  { apply Permutation_singleton_r. rewrite range_perm. unfold sample_config. cbn [Profiles].
    by rewrite map_to_list_singleton. }
  rewrite Hr. vm_compute. done.
Qed.
