(* ===== verification/DaemonDecode.v ===== *)
(** * internal/daemon: request bodies

    What [decode] (server.go) accepts of a request body, down to its bytes: a
    single JSON object with no field the request type does not have, and
    everything the client's marshaller writes. *)

From S2P Require Import Prelude GoErrors GoStrings GoTime GoNet GoBase64 GoHttp GoJson GoJsonText GoJsonDecode.
From S2P Require Import BrokerApi DaemonConfig DaemonServer.

(** ** A body is one object of the request's type *)

Definition str_or_null (v : json) : Prop := v = JNull \/ exists s, v = JStr s.

(** The values a field takes. *)
Definition fits (c : cell) (v : json) : Prop :=
  match c, v with
  | _, JNull => True
  | (CStr _ | CTime _ | CBytes _), JStr _ => True
  | CInt _, JNum _ => True
  | CBool _, JBool _ => True
  | CStrs _ _, JArr l => Forall str_or_null l
  | CMap _, JObj l => Forall (fun kv => str_or_null (snd kv)) l
  | _, _ => False
  end.

(** [body] is, between blanks, the text [raw] of one object and of nothing more,
    within the limit, and each of its keys names one of the fields [fs], and has
    a value of the field's type. *)
Definition strict_object (fs : fields) (body : string) : Prop :=
  Z.of_nat (String.length body) <= MaxBodyBytes /\
  exists lead raw rest members,
    body = lead ++ raw ++ rest /\ skip_ws lead = "" /\ skip_ws rest = "" /\
    json_parse raw = Some (JObj members, "") /\
    Forall (fun kv => exists name c, (name, c) ∈ fs /\ fold_name name = fold_name (fst kv) /\
      fits c (snd kv)) members.

(** Cells of one type. *)
Definition same_type (c c' : cell) : Prop :=
  match c, c' with
  | CStr _, CStr _ | CInt _, CInt _ | CBool _, CBool _ | CTime _, CTime _ | CBytes _, CBytes _
  | CStrs _ _, CStrs _ _ | CMap _, CMap _ => True
  | _, _ => False
  end.

Lemma same_type_refl c : same_type c c.
Proof. by destruct c. Qed.
Lemma same_type_trans a b c : same_type a b -> same_type b c -> same_type a c.
Proof. by destruct a, b, c. Qed.
Lemma fits_same_type c c' v : same_type c c' -> fits c' v -> fits c v.
Proof. by destruct c, c'. Qed.

Lemma decode_str_fits old v s : decode_str old v = Some s -> str_or_null v.
Proof. destruct v; try done; [by left|by right; eexists]. Qed.

Lemma decode_elems_fits l w w' : decode_elems l w = Some w' -> Forall str_or_null l.
Proof.
  revert w w'; induction l as [|v l IH]; intros w w' H; [constructor|]. cbn [decode_elems] in H.
  destruct (decode_str _ v) as [x|] eqn:Ev; [|done]. destruct (decode_elems l _) as [xs|] eqn:El; [|done].
  constructor; [by eapply decode_str_fits|by eapply IH].
Qed.

Lemma decode_entries_fits l m m' :
  decode_entries l m = Some m' -> Forall (fun kv => str_or_null (snd kv)) l.
Proof.
  revert m; induction l as [|[k v] l IH]; intros m H; [constructor|]. cbn [decode_entries] in H.
  destruct (decode_str _ v) as [x|] eqn:Ev; [|done].
  constructor; [by eapply decode_str_fits|by eapply IH].
Qed.

Lemma decode_cell_fits c v c' : decode_cell c v = Some c' -> fits c v /\ same_type c c'.
Proof.
  intros H. destruct c; cbn [decode_cell] in H.
  - destruct v; try done; by injection H as <-.
  - destruct v; try done; [by injection H as <-|]. by destruct (ParseInt64 _); [injection H as <-|].
  - destruct v; try done; by injection H as <-.
  - destruct v; try done; [by injection H as <-|]. by destruct (ParseRFC3339Nano _); [injection H as <-|].
  - destruct v; try done; [by injection H as <-|]. by destruct (std_decode _); [injection H as <-|].
  - destruct v as [| | | |l|]; try done; [by injection H as <-|].
    destruct l as [|v l]; [by injection H as <-; split; [constructor|]|].
    destruct (decode_elems (v :: l) written) as [w'|] eqn:E; [|done]. injection H as <-.
    split; [by eapply decode_elems_fits|done].
  - destruct v as [| | | | |l]; try done; [by injection H as <-|].
    destruct (decode_entries l m) as [m'|] eqn:E; [|done]. injection H as <-.
    split; [by eapply decode_entries_fits|done].
Qed.

Lemma find_field_in fs key name c :
  find_field fs key = Some (name, c) -> (name, c) ∈ fs /\ fold_name name = fold_name key.
Proof.
  unfold find_field. destruct (find _ fs) as [[n c']|] eqn:E.
  - intros [= <- <-]. apply find_some in E as [Hin He]. apply String.eqb_eq in He. cbn in He. subst.
    split; [|done]. by apply list_elem_of_In.
  - intros [Hin He]%find_some. apply String.eqb_eq in He. split; [|done]. by apply list_elem_of_In.
Qed.

(** Decoding leaves the names and types of the fields as they are. *)
Definition same_fields (fs fs' : fields) : Prop :=
  Forall2 (fun f f' => fst f = fst f' /\ same_type (snd f) (snd f')) fs fs'.

Lemma same_fields_refl fs : same_fields fs fs.
Proof. induction fs as [|f fs IH]; constructor; [|done]. split; [done|apply same_type_refl]. Qed.

Lemma same_fields_elem fs fs' name c' :
  same_fields fs fs' -> (name, c') ∈ fs' -> exists c, (name, c) ∈ fs /\ same_type c c'.
Proof.
  intros H Hin. apply list_elem_of_lookup_1 in Hin as [i Hi].
  destruct (Forall2_lookup_r _ _ _ _ _ H Hi) as ([n c] & Hi' & Hn & Ht). cbn in Hn, Ht. subst.
  exists c. split; [by eapply list_elem_of_lookup_2|done].
Qed.

Lemma same_fields_set fs fs' name c c' :
  NoDup fs.*1 -> same_fields fs fs' -> (name, c) ∈ fs -> same_type c c' ->
  same_fields fs (set_field fs' name c').
Proof.
  intros Hnd H Hin Ht. unfold same_fields, set_field. induction H as [|[n d] [n' d'] fs fs' [Hn Hd] H IH]; [constructor|].
  cbn in Hn, Hd, Hnd. subst n'. apply NoDup_cons in Hnd as [Hnot Hnd]. cbn [map fst].
  apply elem_of_cons in Hin as [[= -> ->]|Hin].
  - rewrite String.eqb_refl. constructor; [done|].
    replace (map _ fs') with fs'; [done|]. rewrite <- (map_id fs') at 1. apply map_ext_in.
    intros [n' e'] He. cbn [fst]. destruct (String.eqb_spec n' n) as [->|]; [|done]. exfalso. apply Hnot.
    apply list_elem_of_In in He. destruct (same_fields_elem _ _ _ _ H He) as (e & He' & _).
    by apply list_elem_of_fmap; exists (n, e).
  - constructor; [|by apply IH]. destruct (String.eqb_spec n name) as [->|]; [|done].
    exfalso. apply Hnot. by apply list_elem_of_fmap; exists (name, c).
Qed.

Lemma decode_members_typed fs members fs1 fs2 :
  NoDup fs.*1 -> same_fields fs fs1 -> decode_members true members fs1 = Some fs2 ->
  Forall (fun kv => exists name c, (name, c) ∈ fs /\ fold_name name = fold_name (fst kv) /\
    fits c (snd kv)) members.
Proof.
  intros Hnd. revert fs1; induction members as [|[k v] members IH]; intros fs1 Hs H; [constructor|].
  cbn [decode_members] in H. destruct (find_field fs1 k) as [[name c1]|] eqn:Ef; [|done].
  destruct (decode_cell c1 v) as [c2|] eqn:Ec; [|done]. cbn [mbind option_bind] in H.
  apply find_field_in in Ef as [Hin Hf]. destruct (same_fields_elem _ _ _ _ Hs Hin) as (c & Hin' & Ht).
  apply decode_cell_fits in Ec as [Hfit Ht2]. constructor.
  - exists name, c. split_and!; [done|done|by eapply fits_same_type].
  - eapply (IH (set_field fs1 name c2)); [|done].
    eapply same_fields_set; [done..|by eapply same_type_trans].
Qed.

Lemma stake_prefix t r : stake (String.length (t ++ r) - String.length r) (t ++ r) = t.
Proof.
  rewrite slength_app, Nat.add_sub. unfold stake. induction t as [|c t IH]; cbn; [by destruct r|].
  by rewrite IH.
Qed.

(** What the first value of a stream is. *)
Lemma first_value_split data eof raw rest :
  first_value data eof = Some (raw, rest) ->
  exists lead, data = lead ++ raw ++ rest /\ skip_ws lead = "".
Proof.
  unfold first_value, json_parse. destruct (parse_value _ _ _) as [[v r]|] eqn:Ep; [|done].
  destruct (_ || _ || _); [|done]. intros [= <- <-].
  destruct (parse_value_suffix _ _ _ _ _ Ep) as [t Ht].
  rewrite Ht, stake_prefix, <- Ht. clear. induction data as [|c data IH]; [by exists ""|]. cbn [skip_ws].
  destruct (is_space c) eqn:Hc; [|by exists ""]. destruct IH as (lead & Hd & Hl).
  exists (String c lead). rewrite Hd at 1. split; [done|]. cbn [skip_ws]. by rewrite Hc.
Qed.

Lemma decode_Ok {T} first ended (strict : string -> result T) v :
  decode first ended strict = Ok v ->
  exists raw, first = Ok raw /\ ended = true /\ TrimSpace raw <> "null" /\ strict raw = Ok v.
Proof.
  unfold decode. destruct first as [raw|]; [|done].
  destruct (String.eqb_spec (TrimSpace raw) "null"); [done|]. destruct ended; cbn [negb]; [|done].
  destruct (strict raw) eqn:Es; [|done]. intros [= <-]. by exists raw.
Qed.

(** The text of [null] is what the parser reads as [null]. *)
Lemma parse_null fuel depth s r : parse_value fuel depth s = Some (JNull, r) -> s = "null" ++ r.
Proof.
  destruct fuel as [|fuel]; [done|]. destruct s as [|c s]; [done|]. cbn [parse_value]. intros H.
  repeat match type of H with
    | context [if ?b then _ else _] => destruct b
    | context [match CutPrefix ?x ?y with _ => _ end] => destruct (CutPrefix x y) eqn:Hc
    | context [match ?x with _ => _ end] => destruct x
    end; try discriminate H.
  injection H as <-. by apply CutPrefix_Some in Hc.
Qed.

Lemma skip_ws_head data c s : skip_ws data = String c s -> is_space c = false.
Proof.
  induction data as [|d data IH]; [done|]. cbn [skip_ws]. destruct (is_space d) eqn:Hd; [done|].
  by intros [= <- <-].
Qed.

(** The first value of a stream, read again from its own text, leaves nothing. *)
Lemma first_value_exact data eof raw rest v tail :
  first_value data eof = Some (raw, rest) -> json_parse raw = Some (v, tail) -> (forall l, v <> JNum l) ->
  tail = "" /\ skip_ws raw = raw.
Proof.
  unfold first_value, json_parse. destruct (parse_value _ 0 (skip_ws data)) as [[w r]|] eqn:Ep; [|done].
  destruct (_ || _ || _); [|done]. intros [= <- <-].
  destruct (parse_value_suffix _ _ _ _ _ Ep) as [t Ht].
  rewrite Ht, stake_prefix. rewrite Ht in Ep. destruct t as [|c t]; [done|].
  assert (Hs : skip_ws (String c t) = String c t).
  { cbn [skip_ws]. by rewrite (skip_ws_head _ _ _ Ht). }
  rewrite Hs. intros Hv Hn. split; [|done].
  apply (parse_value_app _ (String.length (String c t ++ r)) _ _ _ _ r) in Hv;
    [|rewrite slength_app; lia|by right].
  rewrite Hv in Ep. injection Ep as _ Htail. apply (f_equal String.length) in Htail.
  rewrite slength_app in Htail. destruct tail; [done|]. cbn in Htail. lia.
Qed.

(** A first value that reads as [null] is the text [null]. *)
Lemma first_value_null data eof raw rest tail :
  first_value data eof = Some (raw, rest) -> json_parse raw = Some (JNull, tail) -> raw = "null".
Proof.
  intros Hf Hp. destruct (first_value_exact _ _ _ _ _ _ Hf Hp) as [-> Hs]; [done|].
  unfold json_parse in Hp. rewrite Hs in Hp. by apply parse_null in Hp.
Qed.

Lemma decodeBody_strict {T} (store : json -> option T) fs body t :
  NoDup fs.*1 ->
  (forall v t, store v = Some t -> exists fs', decode_struct true fs v = Some fs') ->
  decodeBody store body = Ok t -> strict_object fs body.
Proof.
  intros Hnd Hstore. unfold decodeBody. cbv zeta.
  destruct (Z.leb_spec (Z.of_nat (String.length body)) MaxBodyBytes) as [Hl|Hl]; cbv iota;
    intros (raw & Hf & He & Hnull & Hs)%decode_Ok; [|done].
  destruct (first_value body true) as [[raw' rest]|] eqn:Ef; [|done]. injection Hf as ->.
  cbn [andb] in He. apply String.eqb_eq in He.
  destruct (json_parse raw) as [[v tail]|] eqn:Ej; cbn in Hs; [|done].
  destruct (store v) as [t'|] eqn:Est; [|done].
  destruct (Hstore _ _ Est) as [fs' Hd]. split; [done|].
  destruct (first_value_split _ _ _ _ Ef) as (lead & Hb & Hlead).
  destruct v as [| | | | |members]; try done.
  - by rewrite (first_value_null _ _ _ _ _ Ef Ej) in Hnull.
  - destruct (first_value_exact _ _ _ _ _ _ Ef Ej) as [-> _]; [done|].
    exists lead, raw, rest, members. split_and!; try done.
    eapply decode_members_typed; [done|apply same_fields_refl|exact Hd].
Qed.

(** C23. Every accepted body has the type of its request: it is no longer than a
    mebibyte and, between blanks, a single JSON object all of whose keys are
    field names of the request, up to case, each with [null] or a value of the
    field's type; [null], a second value, trailing data, any unknown field and
    any value of another type are refused. *)
Theorem accepted_bodies_are_typed body :
  (forall r, decodeBody decodeCreate body = Ok r -> strict_object createFields body) /\
  (forall r, decodeBody decodeExec body = Ok r -> strict_object execFields body) /\
  (forall r, decodeBody decodeProcess body = Ok r -> strict_object processFields body).
Proof.
  split_and!; intros r; (apply decodeBody_strict; [by apply (bool_decide_unpack _); vm_compute|]); intros v t.
  - unfold decodeCreate. destruct (decode_struct _ _ v) as [fs|]; [by eexists|done].
  - unfold decodeExec. destruct (decode_struct _ _ v) as [fs|]; [by eexists|done].
  - unfold decodeProcess. destruct (decode_struct _ _ v) as [fs|]; [by eexists|done].
Qed.

Definition demo_body : string :=
  " {" ++ json_quote "Name" ++ " : " ++ json_quote "a" ++ "," ++ json_quote "profile" ++ ":"
  ++ json_quote "p" ++ "} ".
Definition smuggled_body : string :=
  "{" ++ json_quote "name" ++ ":" ++ json_quote "a" ++ "," ++ json_quote "runtime" ++ ":"
  ++ json_quote "runc" ++ "}".

Example smuggled_refused : is_ok (decodeBody decodeCreate smuggled_body) = false.
Proof. vm_compute. reflexivity. Qed.
Example trailing_refused : is_ok (decodeBody decodeCreate (demo_body ++ demo_body)) = false.
Proof. vm_compute. reflexivity. Qed.

Lemma skip_ws_blank lead s : skip_ws lead = "" -> skip_ws (lead ++ s) = skip_ws s.
Proof. induction lead as [|c lead IH]; [done|]. cbn [skip_ws String.append]. by destruct (is_space c). Qed.

(** Read from its front, such a body is an object with only blanks behind it. *)
Lemma strict_object_parse fs body :
  strict_object fs body ->
  exists members rest, json_parse body = Some (JObj members, rest) /\ skip_ws rest = "".
Proof.
  intros (_ & lead & raw & rest & members & -> & Hl & Hr & Hp & _). exists members, rest. split; [|done].
  unfold json_parse in *. rewrite skip_ws_blank by done. destruct (skip_ws raw) as [|c s] eqn:Es; [done|].
  rewrite (skip_ws_app _ _ _ rest Es). change (String c (s ++ rest)) with (String c s ++ rest).
  apply (parse_value_app (String.length (String c s)) _ 0 (String c s) _ ""); [|done|by right].
  rewrite slength_app. lia.
Qed.

(** A body followed by a second value is not one object. *)
Example trailing_not_strict : ~ strict_object createFields (demo_body ++ demo_body).
Proof.
  intros (members & rest & Hp & Hr)%strict_object_parse.
  assert (E : json_parse (demo_body ++ demo_body) = Some (JObj [("Name", JStr "a"); ("profile", JStr "p")], " " ++ demo_body))
    by (vm_compute; reflexivity).
  rewrite E in Hp. injection Hp as _ <-. discriminate Hr.
Qed.

Lemma accepted_bodies_are_typed_witness :
  decodeBody decodeCreate demo_body = Ok (mkCreateRequest "a" "p" [] ∅) /\
  strict_object createFields demo_body.
Proof.
  assert (H : decodeBody decodeCreate demo_body = Ok (mkCreateRequest "a" "p" [] ∅))
    by (vm_compute; reflexivity).
  split; [exact H|]. exact (proj1 (accepted_bodies_are_typed demo_body) _ H).
Defined.

(** ** What the client writes is what the daemon reads *)

Lemma decodeBody_marshalCreate r :
  Z.of_nat (String.length (marshalCreate r)) <= MaxBodyBytes ->
  decodeBody decodeCreate (marshalCreate r) = Ok (sentCreate r).
Proof.
  rewrite marshalCreate_print.
  apply decodeBody_print; [apply createJson_flat|apply json_object_brace|apply decodeCreate_sent].
Qed.
Lemma decodeBody_marshalExec r :
  Z.of_nat (String.length (marshalExec r)) <= MaxBodyBytes ->
  decodeBody decodeExec (marshalExec r) = Ok (sentExec r).
Proof.
  rewrite marshalExec_print.
  apply decodeBody_print; [apply execJson_flat|apply json_object_brace|apply decodeExec_sent].
Qed.
Lemma decodeBody_marshalProcess r :
  Z.of_nat (String.length (marshalProcess r)) <= MaxBodyBytes ->
  decodeBody decodeProcess (marshalProcess r) = Ok (sentProcess r).
Proof.
  rewrite marshalProcess_print.
  apply decodeBody_print; [apply processJson_flat|apply json_object_brace|apply decodeProcess_sent].
Qed.

(** C24. The wire is a round trip for every request of valid UTF-8 strings: the
    bytes the client marshals, read by the daemon's strict decoder, give the
    request back unchanged; in general the daemon reads it with every invalid
    byte replaced by U+FFFD; and a request over the limit is refused as
    invalid. *)
Theorem requests_round_trip (r : CreateRequest) (x : ExecRequest) (p : ProcessRequest) :
  let fits text := Z.of_nat (String.length text) <= MaxBodyBytes in
  (fits (marshalCreate r) -> decodeBody decodeCreate (marshalCreate r) = Ok (sentCreate r)) /\
  (fits (marshalExec x) -> decodeBody decodeExec (marshalExec x) = Ok (sentExec x)) /\
  (fits (marshalProcess p) -> decodeBody decodeProcess (marshalProcess p) = Ok (sentProcess p)) /\
  (valid_utf8 (ReqName r) = true -> valid_utf8 (ReqProfile r) = true ->
   forallb valid_utf8 (ReqEnv r) = true ->
   map_Forall (fun k v => valid_utf8 k = true /\ valid_utf8 v = true) (ReqLabels r) ->
   sentCreate r = r) /\
  (forallb valid_utf8 (ExArgv x ++ ExEnv x ++ [ExDir x; ExTimeout x]) = true -> sentExec x = x) /\
  (forallb valid_utf8 (PrName p :: PrArgv p ++ PrEnv p ++ [PrDir p]) = true -> sentProcess p = p) /\
  (~ fits (marshalExec x) ->
   exists e, decodeBody decodeExec (marshalExec x) = Err e /\ KindOf e = (KindInvalid, 400)).
Proof.
  cbv zeta. split_and!.
  - apply decodeBody_marshalCreate.
  - apply decodeBody_marshalExec.
  - apply decodeBody_marshalProcess.
  - intros Hn Hp He Hl. unfold sentCreate.
    rewrite !json_text_valid, json_text_list_valid, json_text_map_valid by done. by destruct r.
  - rewrite !forallb_app. cbn [forallb]. intros H. zbool. unfold sentExec.
    rewrite !json_text_list_valid, !json_text_valid by done. by destruct x.
  - cbn [forallb]. rewrite !forallb_app. cbn [forallb]. intros H. zbool. unfold sentProcess.
    rewrite !json_text_list_valid, !json_text_valid by done. by destruct p.
  - intros Hl. apply decodeBody_large. lia.
Qed.

Lemma requests_round_trip_witness :
  decodeBody decodeExec (marshalExec (mkExecRequest ["echo"; "<&>"] [] "/" "5s"))
    = Ok (mkExecRequest ["echo"; "<&>"] [] "/" "5s").
Proof.
  destruct (requests_round_trip (mkCreateRequest "" "" [] ∅) (mkExecRequest ["echo"; "<&>"] [] "/" "5s")
    (mkProcessRequest "" [] [] "")) as (_ & H1 & _ & _ & H2 & _ & _).
  rewrite H1; [|vm_compute; discriminate]. rewrite H2; [reflexivity|vm_compute; reflexivity].
Defined.
