(* ===== verification/DaemonRespond.v ===== *)
(** * internal/daemon: response bodies

    The text [respond] (server.go) writes for each kind of body, and what the
    client's [json.Decoder] makes of it (pkg/brokerclient/client.go, [do]): the
    responses of the broker down to their bytes. *)

From S2P Require Import Prelude GoErrors GoStrings GoDuration GoTime GoNet GoEncoding GoBase64 GoHttp.
From S2P Require Import GoJson GoJsonText GoJsonDecode Sandbox BrokerApi DaemonConfig DaemonServer.

(** ** Writing *)

(** [Time.MarshalJSON] fails for a year that has not four digits. *)
Definition timeJson (t : time) : option json :=
  if (0 <=? year_of t) && (year_of t <? 10000) then Some (JStr (FormatRFC3339Nano t)) else None.

(** A slice nothing was written to is nil, and written as [null]. *)
Definition bytesJson (s : string) : json := if String.eqb s "" then JNull else JStr (std_encode s).

Definition infoJson (i : WireInfo) : option json :=
  created ← timeJson (WCreatedAt i);
  Some (JObj
    ([("name", JStr (WName i)); ("id", JStr (WID i)); ("image", JStr (WImage i));
      ("state", JStr (WState i)); ("created_at", created); ("profile", JStr (WProfile i))]
     ++ member_if (bool_decide (WLabels i = ∅)) "labels"
          (JObj (map (fun kv => (fst kv, JStr (snd kv))) (json_entries (WLabels i)))))%list).

Definition execResponseJson (r : ExecResponse) : json := JObj
  ([("stdout", bytesJson (RStdout r)); ("stderr", bytesJson (RStderr r));
    ("exit_code", JNum (Itoa (RExitCode r)))]
   ++ member_if (negb (RTruncated r)) "truncated" (JBool true)
   ++ member_if (negb (RStopped r)) "stopped" (JBool true)
   ++ member_if (negb (ROOMKilled r)) "oom_killed" (JBool true))%list.

Definition profileJson (p : ProfileInfo) : json := JObj
  [("name", JStr (PiName p)); ("idle_timeout", JStr (PiIdleTimeout p)); ("max_age", JStr (PiMaxAge p))].

Fixpoint all_json {A} (f : A -> option json) (l : list A) : option (list json) :=
  match l with
  | [] => Some []
  | x :: l => v ← f x; vs ← all_json f l; Some (v :: vs)
  end.

(** The value of a JSON body; the rendered text of an error is not modelled,
    and left empty here. *)
Definition bodyJson (b : Body) : option json :=
  match b with
  | BodyInfo i => infoJson i
  | BodyInfos infos => JArr <$> all_json infoJson infos
  | BodyExec r => Some (execResponseJson r)
  | BodyProfiles ps => Some (JArr (map profileJson ps))
  | BodyError e => Some (JObj
      [("error", JStr (match Message e with Lit s => s | ErrText _ => "" end)); ("kind", JStr (Kind e))])
  | NoBody | BodyBytes _ | BodyStream _ | BodyRedirect _ => None
  end.

(** The body as it is sent: an encoder's line, nothing when encoding fails; the
    bytes of a file; of a redirect, how its page begins. *)
Definition respondText (b : Body) : string :=
  match b with
  | BodyBytes content => content
  | BodyRedirect location => "<a href=" ++ location ++ ">"
  | _ => match bodyJson b with Some v => json_print v ++ String (byte_of 10) "" | None => "" end
  end.

(** ** Reading *)

Definition infoFields : fields :=
  [("name", CStr ""); ("id", CStr ""); ("image", CStr ""); ("state", CStr "");
   ("created_at", CTime zero_time); ("profile", CStr ""); ("labels", CMap ∅)].
Definition execResponseFields : fields :=
  [("stdout", CBytes ""); ("stderr", CBytes ""); ("exit_code", CInt 0); ("truncated", CBool false);
   ("stopped", CBool false); ("oom_killed", CBool false)].
Definition profileFields : fields :=
  [("name", CStr ""); ("idle_timeout", CStr ""); ("max_age", CStr "")].

Definition decodeInfo (v : json) : option WireInfo :=
  fs ← decode_struct false infoFields v;
  Some (mkWireInfo (get_str fs "name") (get_str fs "id") (get_str fs "image") (get_str fs "state")
    (get_time fs "created_at") (get_str fs "profile") (get_map fs "labels")).
Definition decodeExecResponse (v : json) : option ExecResponse :=
  fs ← decode_struct false execResponseFields v;
  Some (mkExecResponse (get_bytes fs "stdout") (get_bytes fs "stderr") (get_int fs "exit_code")
    (get_bool fs "truncated") (get_bool fs "stopped") (get_bool fs "oom_killed")).
Definition decodeProfile (v : json) : option ProfileInfo :=
  fs ← decode_struct false profileFields v;
  Some (mkProfileInfo (get_str fs "name") (get_str fs "idle_timeout") (get_str fs "max_age")).

(** Into a nil slice. *)
Fixpoint decode_each {A} (f : json -> option A) (l : list json) : option (list A) :=
  match l with
  | [] => Some []
  | v :: l => x ← f v; xs ← decode_each f l; Some (x :: xs)
  end.
Definition decode_slice {A} (f : json -> option A) (v : json) : option (list A) :=
  match v with JArr l => decode_each f l | JNull => Some [] | _ => None end.

(** [json.NewDecoder(resp.Body).Decode(respBody)]: the first value of the body,
    stored into the response type, unknown fields ignored. *)
Definition dec_json {A} (store : json -> option A) (b : Body) : option A :=
  ' (v, _) ← json_parse (respondText b); store v.

Definition dec_unit (b : Body) : option unit := Some tt.
Definition dec_info : Body -> option WireInfo := dec_json decodeInfo.
Definition dec_infos : Body -> option (list WireInfo) := dec_json (decode_slice decodeInfo).
Definition dec_exec : Body -> option ExecResponse := dec_json decodeExecResponse.
Definition dec_profiles : Body -> option (list ProfileInfo) := dec_json (decode_slice decodeProfile).

(** A body decoded into another type: common fields are taken, others ignored. *)
Example exec_as_info :
  dec_info (BodyExec (mkExecResponse "out" "" 7 true false false)) = Some (mkWireInfo "" "" "" "" zero_time "" ∅).
Proof. vm_compute. reflexivity. Qed.
Example infos_as_exec : dec_exec (BodyInfos []) = None.
Proof. vm_compute. reflexivity. Qed.
Example page_as_info : dec_info (BodyRedirect "/sandboxes") = None.
Proof. vm_compute. reflexivity. Qed.

(** ** Durations and times survive JSON *)

Lemma fmt_frac_valid prec v print acc :
  valid_utf8 acc = true -> valid_utf8 (fst (fmt_frac prec v print acc)) = true.
Proof.
  revert v print acc; induction prec as [|p IH]; intros v print acc Hacc; cbn [fmt_frac].
  - destruct print; [|done]. exact Hacc.
  - apply IH. destruct (print || _); [|done].
    rewrite <- Hacc. apply (valid_utf8_ascii (String _ "")). cbn [all_bytes].
    by rewrite digit_ascii by (apply digit_of_is_digit, Z.mod_pos_bound; lia).
Qed.

Lemma fmt_int_valid v acc : valid_utf8 acc = true -> valid_utf8 (fmt_int v acc) = true.
Proof.
  intros Hacc. unfold fmt_int. rewrite valid_utf8_ascii; [done|].
  eapply all_bytes_weaken; [apply digit_ascii|apply utoa_digits].
Qed.

Lemma DurationString_valid d : valid_utf8 (DurationString d) = true.
Proof.
  assert (Hm : forall u, valid_utf8 (format_mag u) = true).
  { intros u. unfold format_mag. destruct (u <? Second).
    - destruct (u =? 0); [done|].
      destruct (u <? Microsecond); [|destruct (u <? Millisecond)].
      all: match goal with |- context [fmt_frac ?p ?v ?b ?a] =>
        pose proof (fmt_frac_valid p v b a eq_refl); destruct (fmt_frac p v b a) end.
      all: by apply fmt_int_valid.
    - pose proof (fmt_frac_valid 9 u false "s" eq_refl).
      destruct (fmt_frac 9 u false "s") as [acc v]. cbn [fst] in *.
      assert (Hv : forall c t, byte_in 0 127 c = true -> valid_utf8 (String c t) = valid_utf8 t).
      { intros c t Hc. apply (valid_utf8_ascii (String c "")). cbn [all_bytes]. by rewrite Hc. }
      destruct (0 <? v / 60); [|by apply fmt_int_valid].
      destruct (0 <? v / 60 / 60); repeat (apply fmt_int_valid || rewrite Hv by done); done. }
  unfold DurationString. destruct (d <? 0); [|done]. apply (Hm (- d)).
Qed.

Lemma pad2_valid n r : 0 <= n < 100 -> valid_utf8 (pad2 n ++ r) = valid_utf8 r.
Proof.
  intros Hn. apply valid_utf8_ascii. unfold pad2. cbn [all_bytes].
  rewrite !digit_ascii; [done|apply digit_of_is_digit..].
  - apply Z.mod_pos_bound. lia.
  - split; [apply Z.div_pos; lia|]. apply Z.div_lt_upper_bound; lia.
Qed.

Lemma ascii_valid c r : byte_in 0 127 c = true -> valid_utf8 (String c r) = valid_utf8 r.
Proof. intros Hc. apply (valid_utf8_ascii (String c "")). cbn [all_bytes]. by rewrite Hc. Qed.

Lemma FormatRFC3339Nano_valid t : four_digit_year t -> valid_utf8 (FormatRFC3339Nano t) = true.
Proof.
  unfold four_digit_year, year_of, FormatRFC3339Nano. set (secs := t / Second). intros Hy.
  destruct (civil_of_days (secs / 86400)) as [[y m] d] eqn:E. cbn [fst] in Hy.
  apply civil_of_days_spec in E as (_ & Hm & Hd). pose proof (days_in_bound m y).
  set (s := secs mod 86400). assert (Hs : 0 <= s < 86400) by (apply Z.mod_pos_bound; lia).
  assert (0 <= s / 3600 < 100).
  { split; [apply Z.div_pos; lia|]. apply Z.div_lt_upper_bound; lia. }
  pose proof (Z.mod_pos_bound (s / 60) 60 ltac:(lia)). pose proof (Z.mod_pos_bound s 60 ltac:(lia)).
  assert (0 <= y / 100 < 100).
  { split; [apply Z.div_pos; lia|]. apply Z.div_lt_upper_bound; lia. }
  pose proof (Z.mod_pos_bound y 100 ltac:(lia)).
  unfold append_year, pad4. repeat zcase. rewrite !sapp_assoc.
  do 12 (first [rewrite pad2_valid by lia | cbn [String.append]; rewrite ascii_valid by done]).
  by apply fmt_frac_valid.
Qed.

(** ** What is written is what is read *)

Lemma timeJson_Some t : four_digit_year t -> timeJson t = Some (JStr (FormatRFC3339Nano t)).
Proof. intros H. unfold timeJson, four_digit_year in *. by repeat zcase. Qed.

Lemma decode_cell_time t0 t :
  four_digit_year t -> decode_cell (CTime t0) (JStr (json_text (FormatRFC3339Nano t))) = Some (CTime t).
Proof.
  intros H. rewrite json_text_valid by by apply FormatRFC3339Nano_valid.
  cbn [decode_cell]. by rewrite ParseRFC3339Nano_Format.
Qed.

Lemma decode_cell_bytes s0 s : s0 = "" -> decode_cell (CBytes s0) (json_norm (bytesJson s)) = Some (CBytes s).
Proof.
  intros ->. unfold bytesJson. destruct (String.eqb_spec s "") as [->|]; [done|]. cbn [json_norm].
  rewrite json_text_valid by (rewrite <- (sapp_nil_r (std_encode s)); by apply valid_utf8_ascii, std_encode_ascii).
  cbn [decode_cell]. by rewrite std_decode_encode.
Qed.

Lemma decode_cell_int n0 n : in_int64 n -> decode_cell (CInt n0) (JNum (Itoa n)) = Some (CInt n).
Proof. intros H. cbn [decode_cell]. by rewrite ParseInt64_Itoa. Qed.

Ltac read_step :=
  (erewrite decode_members_cons;
    [|reflexivity|first [apply decode_cell_str | by apply decode_cell_time | by apply decode_cell_bytes
                        | by apply decode_cell_int | apply decode_cell_map | reflexivity]]).

Lemma decodeInfo_sent i :
  four_digit_year (WCreatedAt i) ->
  exists v, infoJson i = Some v /\ decodeInfo (json_norm v) = Some (sentInfo i).
Proof.
  intros Ht. unfold infoJson. rewrite timeJson_Some by done. cbn [mbind option_bind]. eexists. split; [reflexivity|].
  unfold decodeInfo, sentInfo. cbn [json_norm decode_struct].
  destruct (bool_decide_reflect (WLabels i = ∅)) as [Hm|Hm]; cbn [member_if app map fst snd json_norm];
    repeat read_step; cbn -[json_text json_text_map]; by rewrite ?Hm.
Qed.

Lemma decodeExecResponse_sent r :
  in_int64 (RExitCode r) -> decodeExecResponse (json_norm (execResponseJson r)) = Some r.
Proof.
  intros He. unfold decodeExecResponse, execResponseJson. cbn [json_norm decode_struct].
  destruct r as [so se code [] [] []]; cbn [RStdout RStderr RExitCode RTruncated RStopped ROOMKilled] in *;
    cbn [negb member_if app map fst snd json_norm]; repeat read_step; done.
Qed.

Lemma decodeProfile_sent p : decodeProfile (json_norm (profileJson p)) = Some (sentProfile p).
Proof.
  unfold decodeProfile, profileJson, sentProfile. cbn [json_norm decode_struct map fst snd].
  repeat read_step. by cbn -[json_text].
Qed.

(** Responses are shallow, and their numbers are decimal integers. *)
Definition shallow (d : Z) (v : json) : Prop := json_ints v /\ json_depth v <= d.

Lemma shallow_obj d l :
  0 <= d -> Forall (fun kv => shallow d (snd kv)) l -> shallow (d + 1) (JObj l).
Proof.
  intros Hd H. unfold shallow. cbn [json_ints json_depth]. rewrite foldr_and. split.
  - eapply Forall_impl; [exact H|]. by intros kv [? _].
  - assert (foldr Z.max 0 (map (fun kv => json_depth (snd kv)) l) <= d); [|lia].
    induction H as [|kv l [_ Hk] _ IH]; cbn; lia.
Qed.
Lemma shallow_arr d l : 0 <= d -> Forall (shallow d) l -> shallow (d + 1) (JArr l).
Proof.
  intros Hd H. unfold shallow. cbn [json_ints json_depth]. rewrite foldr_and. split.
  - eapply Forall_impl; [exact H|]. by intros v [? _].
  - assert (foldr Z.max 0 (map json_depth l) <= d); [|lia].
    induction H as [|v l [_ Hk] _ IH]; cbn; lia.
Qed.
Lemma shallow_flat v : flat v -> shallow 1 v.
Proof. done. Qed.

#[local] Hint Resolve flat_map flat_member_if shallow_flat : core.
#[local] Hint Extern 3 (flat (JStr _)) => split; [done|discriminate] : core.
#[local] Hint Extern 3 (flat (JBool _)) => split; [done|discriminate] : core.
#[local] Hint Extern 3 (flat (JNum (Itoa _))) => split; [by eexists|discriminate] : core.

Ltac shallow_members :=
  apply (shallow_obj 1); [done|];
  repeat first [apply Forall_app_2 | apply Forall_cons_2 | apply Forall_nil_2 | apply flat_member_if];
  cbn [snd]; auto.

Lemma infoJson_shallow i v : infoJson i = Some v -> shallow 2 v.
Proof.
  unfold infoJson, timeJson. destruct (_ && _); [|done]. cbn [mbind option_bind]. intros [= <-]. shallow_members.
Qed.
Lemma execResponseJson_shallow r : shallow 2 (execResponseJson r).
Proof.
  assert (Hb : forall s, flat (bytesJson s)).
  { intros s. unfold bytesJson. by destruct (String.eqb s ""). }
  shallow_members.
Qed.
Lemma profileJson_shallow p : shallow 2 (profileJson p).
Proof. shallow_members. Qed.

Lemma dec_json_print {A} (store : json -> option A) b v :
  respondText b = json_print v ++ String (byte_of 10) "" -> shallow 3 v ->
  dec_json store b = store (json_norm v).
Proof.
  intros Hb [Hi Hd]. unfold dec_json. rewrite Hb, json_parse_print; [done|done| |done].
  unfold maxNestingDepth. lia.
Qed.

Lemma shallow_weaken d d' v : d <= d' -> shallow d v -> shallow d' v.
Proof. intros Hd [? ?]. split; [done|lia]. Qed.

Lemma dec_info_sent i : four_digit_year (WCreatedAt i) -> dec_info (BodyInfo i) = Some (sentInfo i).
Proof.
  intros (v & Hv & Hs)%decodeInfo_sent. rewrite <- Hs. apply dec_json_print; [cbn; by rewrite Hv|].
  by eapply (shallow_weaken 2), infoJson_shallow.
Qed.

Lemma dec_exec_sent r : in_int64 (RExitCode r) -> dec_exec (BodyExec r) = Some r.
Proof.
  intros Hs%decodeExecResponse_sent. rewrite <- Hs. apply dec_json_print; [done|].
  by eapply (shallow_weaken 2), execResponseJson_shallow.
Qed.

Lemma decode_each_map {A B} (f : A -> json) (g : json -> option B) (h : A -> B) l :
  Forall (fun x => g (json_norm (f x)) = Some (h x)) l ->
  decode_each g (map json_norm (map f l)) = Some (map h l).
Proof. induction 1 as [|x l Hx _ IH]; [done|]. cbn [map decode_each]. rewrite Hx. cbn. by rewrite IH. Qed.

Lemma dec_profiles_sent ps : dec_profiles (BodyProfiles ps) = Some (map sentProfile ps).
Proof.
  unfold dec_profiles. rewrite (dec_json_print _ _ (JArr (map profileJson ps))); [|done|].
  - cbn [json_norm decode_slice]. apply decode_each_map. apply Forall_true, decodeProfile_sent.
  - apply (shallow_arr 2); [done|]. apply Forall_map, Forall_true, profileJson_shallow.
Qed.

Lemma all_json_infos infos :
  Forall (fun i => four_digit_year (WCreatedAt i)) infos ->
  exists vs, all_json infoJson infos = Some vs /\ Forall (shallow 2) vs /\
    decode_each decodeInfo (map json_norm vs) = Some (map sentInfo infos).
Proof.
  induction 1 as [|i infos Hi _ (vs & Hvs & Hsh & Hdec)]; [by exists []|].
  destruct (decodeInfo_sent i Hi) as (v & Hv & Hd). exists (v :: vs). cbn [all_json map decode_each].
  rewrite Hv, Hd. cbn [mbind option_bind]. rewrite Hvs, Hdec. split_and!; [done| |done].
  constructor; [by eapply infoJson_shallow|done].
Qed.

Lemma dec_infos_sent infos :
  Forall (fun i => four_digit_year (WCreatedAt i)) infos ->
  dec_infos (BodyInfos infos) = Some (map sentInfo infos).
Proof.
  intros (vs & Hvs & Hsh & Hd)%all_json_infos. unfold dec_infos.
  rewrite (dec_json_print _ _ (JArr vs)); [done|cbn; by rewrite Hvs|by apply (shallow_arr 2)].
Qed.

(** C25. What the daemon answers is what the client reads, down to the bytes on the
    wire: a sandbox's description (of a time in the years 0 to 9999), a list of
    them, the outcome of a command with its output byte for byte, and the
    profiles come out of the client's decoder as the daemon put them in, text
    as JSON leaves it. *)
Theorem responses_round_trip (i : WireInfo) (infos : list WireInfo) (r : ExecResponse) (ps : list ProfileInfo) :
  Forall (fun i => four_digit_year (WCreatedAt i)) (i :: infos) -> in_int64 (RExitCode r) ->
  dec_info (BodyInfo i) = Some (sentInfo i) /\
  dec_infos (BodyInfos infos) = Some (map sentInfo infos) /\
  dec_exec (BodyExec r) = Some r /\
  dec_profiles (BodyProfiles ps) = Some (map sentProfile ps).
Proof.
  intros [Hi Hl]%Forall_cons_1 Hr. split_and!;
    [by apply dec_info_sent|by apply dec_infos_sent|by apply dec_exec_sent|apply dec_profiles_sent].
Qed.

Definition demo_info : WireInfo :=
  mkWireInfo "a" "c1" "python:3.12" "running" (1700000000 * Second + 5) "default" {[ "k" := "<v>" ]}.
Definition demo_response : ExecResponse := mkExecResponse (String (byte_of 255) "ok") "" 137 false true true.

Lemma responses_round_trip_witness :
  dec_info (BodyInfo demo_info) = Some demo_info /\ dec_exec (BodyExec demo_response) = Some demo_response.
Proof.
  destruct (responses_round_trip demo_info [] demo_response []) as (Hi & _ & Hr & _).
  - constructor; [vm_compute; split; [discriminate|reflexivity]|constructor].
  - vm_compute. split; discriminate.
  - split; [|exact Hr]. rewrite Hi. vm_compute. reflexivity.
Defined.

(** Past the year 9999 a description is not sent at all. *)
Example late_info_unsent : respondText (BodyInfo (mkWireInfo "a" "" "" "" (300000000000 * Second) "" ∅)) = "".
Proof. vm_compute. reflexivity. Qed.
