(* ===== verification/DaemonCapacity.v ===== *)
(** * internal/daemon/capacity.go: counting

    What [countLive] makes of a listing, the limit of a profile, and how many
    of the requests under way stand at a given point, for the invariants over
    all of them in [DaemonStages] and [DaemonCap]. *)

From S2P Require Import Prelude GoErrors GoStrings GoFloat64 GoDuration GoTime Effects Sandbox.
From S2P Require Import GoHttp BrokerApi DaemonConfig DaemonServer.

(** What [countLive] computes from a listing. *)
Definition count_infos (p : string) (infos : list Info) : Z :=
  fold_left (fun n i => if String.eqb (label_of (InfoLabels i) labelProfile) p then n + 1 else n)
    infos 0.

Definition limit_of (cfg : Config) (p : string) : Z :=
  match Profiles cfg !! p with Some profile => PMaxSandboxes profile | None => 0 end.

(** ** Counting requests *)

Section counting.
Context {A : Type}.
Implicit Types (phs : gmap nat (string * A)) (f h : A -> bool).

Definition one (P : string) (f : A -> bool) (v : string * A) : Z :=
  if String.eqb (fst v) P && f (snd v) then 1 else 0.

Definition count (P : string) (f : A -> bool) (phs : gmap nat (string * A)) : Z :=
  map_fold (fun _ v acc => one P f v + acc) 0 phs.

Lemma one_bound P f v : 0 <= one P f v <= 1.
Proof. unfold one. destruct (_ && _); lia. Qed.

Lemma count_insert_new P f phs t v :
  phs !! t = None -> count P f (<[t := v]> phs) = one P f v + count P f phs.
Proof.
  intros Ht. unfold count.
  rewrite (map_fold_insert_L (fun _ v acc => one P f v + acc) 0 t v phs); [done|intros; lia|done].
Qed.

Lemma count_update P f phs t v v' :
  phs !! t = Some v -> count P f (<[t := v']> phs) = count P f phs - one P f v + one P f v'.
Proof.
  intros Ht. rewrite <- (insert_delete_id phs t v Ht) at 2. rewrite <- insert_delete_eq.
  rewrite !count_insert_new by apply lookup_delete_eq. lia.
Qed.

Lemma count_mono P f h phs :
  (forall ph, f ph = true -> h ph = true) -> count P f phs <= count P h phs.
Proof.
  intros Hfh. induction phs as [|t v phs Ht IH] using map_ind; [done|].
  rewrite !count_insert_new by done. assert (one P f v <= one P h v); [|lia].
  unfold one. destruct (String.eqb _ P); cbn [andb]; [|lia].
  destruct (f (snd v)) eqn:E; [by rewrite (Hfh _ E)|]. destruct (h _); lia.
Qed.

Lemma count_zero P f phs :
  (forall t v, phs !! t = Some v -> f (snd v) = false) -> count P f phs = 0.
Proof.
  induction phs as [|t v phs Ht IH] using map_ind; intros Hz; [done|].
  rewrite count_insert_new, IH; [| |done].
  - unfold one. rewrite (Hz t v) by apply lookup_insert_eq. by rewrite andb_false_r.
  - intros t' v' Ht'. apply (Hz t'). rewrite lookup_insert_ne; [done|]. congruence.
Qed.

Lemma count_nonneg P f phs : 0 <= count P f phs.
Proof.
  induction phs as [|t v phs Ht IH] using map_ind; [done|].
  rewrite count_insert_new by done. pose proof (one_bound P f v). lia.
Qed.

Lemma count_one P f phs t v : phs !! t = Some v -> one P f v <= count P f phs.
Proof.
  intros Ht. rewrite <- (insert_delete_id phs t v Ht), count_insert_new by apply lookup_delete_eq.
  pose proof (count_nonneg P f (delete t phs)). lia.
Qed.
End counting.

(** ** A configuration that allows one sandbox *)

Definition cap_profile : Profile :=
  mkProfile "img@sha256:0" "" "" "" (f64_of_int 0) 512 256 0 1 0 0 0 0 None.
Definition cap_config : Config := mkConfig "/run/openbloxd.sock" "" None Minute {[ "p" := cap_profile ]}.
Definition cap_request (name : string) : CreateRequest := mkCreateRequest name "p" [] ∅.
