(* ===== verification/DaemonListen.v ===== *)
(** * internal/daemon: opening the listeners

    [Listen] of [listener.go] with the mask of [umask_unix.go], and the TLS
    configuration of [listener_tls.go]. *)

From S2P Require Import Prelude GoErrors GoStrings GoOs Effects Sandbox GoHttp BrokerApi.
From S2P Require Import DaemonConfig DaemonServer.

(** ** The Unix socket *)

(** [socketMode] is 0660. *)
Definition socketMode : Z := 432.

(** [withSocketUmask]: [fn] under the narrowed mask, which is put back. *)
Definition withSocketUmask {A} (fn : prog osE A) : prog osE A :=
  old <- call (Umask (andnot 511 socketMode));;
  a <- fn;;
  _ <- call (Umask old);;
  Ret a.

(** [withSocketUmask] where there is no mask. *)
Definition withSocketUmask_other {A} (fn : prog osE A) : prog osE A := fn.

(** The check for a leftover socket. *)
Definition removeStale (socketPath : string) : prog osE (result unit) :=
  info <- call (OsStat socketPath);;
  match info with
  | Err _ => Ret (Ok tt)
  | Ok mode =>
      if Z.land mode ModeSocket =? 0 then
        Ret (Err (Errorf "refusing to replace %q: not a socket" [AStr socketPath]))
      else
        r <- call (OsRemove socketPath);;
        match r with
        | Err err => Ret (Err (Errorf "remove stale socket %q: %w" [AStr socketPath; AWrap err]))
        | Ok _ => Ret (Ok tt)
        end
  end.

(** The group's identifier, or -1 for none. *)
Definition socketGid (group : string) : prog osE (result Z) :=
  if negb (String.eqb group "") then
    g <- call (LookupGroup group);;
    match g with
    | Err err => Ret (Err (Errorf "resolve socket group %q: %w" [AStr group; AWrap err]))
    | Ok gid =>
        match Atoi gid with
        | None => Ret (Err (Errorf "parse gid for group %q: %w"
            [AStr group; AWrap (External ExtOther "strconv.Atoi: invalid syntax")]))
        | Some gid => Ret (Ok gid)
        end
    end
  else Ret (Ok (-1)).

(** The mode and group of a socket just bound; on failure it is closed and
    removed. *)
Definition lockDown (socketPath : string) (gid : Z) (ln : Listener) : prog osE (result Listener) :=
  m <- call (OsChmod socketPath socketMode);;
  match m with
  | Err err =>
      _ <- call (CloseListener ln);;
      _ <- call (OsRemove socketPath);;
      Ret (Err (Errorf "set mode on %q: %w" [AStr socketPath; AWrap err]))
  | Ok _ =>
      if gid >=? 0 then
        o <- call (OsChown socketPath (-1) gid);;
        match o with
        | Err err =>
            _ <- call (CloseListener ln);;
            _ <- call (OsRemove socketPath);;
            Ret (Err (Errorf "set group on %q: %w" [AStr socketPath; AWrap err]))
        | Ok _ => Ret (Ok ln)
        end
      else Ret (Ok ln)
  end.

Definition Listen (socketPath group : string) : prog osE (result Listener) :=
  _ <-? removeStale socketPath;;
  gid <-? socketGid group;;
  r <- withSocketUmask (call (NetListen "unix" socketPath));;
  match r with
  | Err err => Ret (Err (Errorf "listen on %q: %w" [AStr socketPath; AWrap err]))
  | Ok ln => lockDown socketPath gid ln
  end.

(** ** The socket is never open to others *)

(** What may have become of the file system while a listener on [path] is being
    opened: nothing but [path] has changed, anything that was not a socket is
    still there as it was, and a socket that was not there before has exactly
    the intended mode. *)
Definition confined (path : string) (w0 w : world) : Prop :=
  (forall p, p <> path -> files w !! p = files w0 !! p) /\
  groups w = groups w0 /\ own_gid w = own_gid w0 /\
  (files w !! path = files w0 !! path \/
   (forall nd, files w0 !! path = Some nd -> nd_type nd = Socket_) /\
   (files w !! path = None \/ exists gid, files w !! path = Some (mkNode Socket_ socketMode gid))).

(** The group the socket is given. *)
Definition gid_given (w0 : world) (group : string) (gid : Z) : Prop :=
  if String.eqb group "" then gid = own_gid w0
  else exists g z, groups w0 !! group = Some g /\ Atoi g = Some z /\
         gid = (if z >=? 0 then z else own_gid w0).

Lemma mask_bits m : 0 <= m <= 511 -> Z.land m 511 = m.
Proof. intros Hm. change 511 with (Z.ones 9). rewrite Z.land_ones by lia. apply Z.mod_small. lia. Qed.

Section Listen.
Variables (path group : string) (w0 : world).
Hypothesis not_abstract : is_abstract path = false.

Abbreviation listening p Q w := (wp (fun X (e : osE X) w => confined path w0 w) os_step p Q w).

Lemma confined_refl : confined path w0 w0.
Proof. split_and!; auto. Qed.

Lemma confined_umask w m : confined path w0 w -> confined path w0 (set_umask w m).
Proof. done. Qed.

Lemma confined_put w fs :
  confined path w0 w -> (forall nd, files w0 !! path = Some nd -> nd_type nd = Socket_) ->
  (forall p, p <> path -> fs !! p = files w !! p) ->
  (fs !! path = None \/ exists gid, fs !! path = Some (mkNode Socket_ socketMode gid)) ->
  confined path w0 (set_files w fs).
Proof.
  intros (Hp & Hg & Ho & _) Hs Hfs Hat. split_and!; [|done..|by right].
  intros p Hne. cbn. by rewrite Hfs, Hp.
Qed.

Lemma confined_delete w :
  confined path w0 w -> (forall nd, files w0 !! path = Some nd -> nd_type nd = Socket_) ->
  confined path w0 (set_files w (delete path (files w))).
Proof.
  intros Hc Hs. apply confined_put; [done|done| |left; apply lookup_delete_eq].
  intros p Hne. by apply lookup_delete_ne.
Qed.

Lemma confined_insert w gid :
  confined path w0 w -> (forall nd, files w0 !! path = Some nd -> nd_type nd = Socket_) ->
  confined path w0 (set_files w (<[path := mkNode Socket_ socketMode gid]> (files w))).
Proof.
  intros Hc Hs. apply confined_put; [done|done| |right; exists gid; apply lookup_insert_eq].
  intros p Hne. by apply lookup_insert_ne.
Qed.

(** After the check the path is free or as it was, or the start is refused with
    nothing changed. *)
Lemma removeStale_confined :
  listening (removeStale path) (fun r w =>
    confined path w0 w /\ umask w = umask w0 /\
    (files w = files w0 \/
     (forall nd, files w0 !! path = Some nd -> nd_type nd = Socket_) /\ files w !! path = None) /\
    match r with Ok _ => True | Err _ => files w = files w0 end) w0.
Proof.
  unfold removeStale. cbn [bind call wp]. split; [apply confined_refl|].
  intros [mode|e] w [-> Hm]; [|cbn; split_and!; auto using confined_refl].
  destruct Hm as (nd & Hnd & ->). destruct (Z.eqb_spec (Z.land (FileMode nd) ModeSocket) 0) as [E|E].
  { cbn. split_and!; auto using confined_refl. }
  assert (Hs : forall nd, files w0 !! path = Some nd -> nd_type nd = Socket_).
  { intros nd'. rewrite Hnd. intros [= <-]. destruct (decide (nd_type nd = Socket_)); [done|].
    exfalso. apply E. by apply FileMode_socket. }
  cbn [bind call wp]. split; [apply confined_refl|]. intros [[]|e] w; cbn.
  - intros [_ ->]. split_and!; auto using confined_delete, confined_refl.
    right. split; [done|]. cbn. apply lookup_delete_eq.
  - intros ->. split_and!; auto using confined_refl.
Qed.

Lemma socketGid_spec w (Q : result Z -> world -> Prop) :
  confined path w0 w ->
  (forall r, match r with
    | Ok gid => if String.eqb group "" then gid = -1 else
        exists g, groups w0 !! group = Some g /\ Atoi g = Some gid
    | Err _ => True end -> Q r w) ->
  listening (socketGid group) Q w.
Proof.
  intros Hc HQ. unfold socketGid. destruct (String.eqb group "") eqn:Eg; cbn [negb]; [by apply HQ|].
  cbn [bind call wp]. split; [done|]. intros [g|e] w' [-> Hg]; [|by apply HQ].
  destruct (Atoi g) as [z|] eqn:Ez; apply HQ; [|done]. exists g. split; [|done].
  destruct Hc as (_ & <- & _). done.
Qed.

(** The undoing of a half-opened listener. *)
Lemma undo_confined {A} (a : A) w (Q : A -> world -> Prop) :
  confined path w0 w -> (forall nd, files w0 !! path = Some nd -> nd_type nd = Socket_) ->
  (forall w', confined path w0 w' -> files w' !! path = None -> umask w' = umask w -> Q a w') ->
  listening (_ <- call (CloseListener (UnixListener path));; _ <- call (OsRemove path);; Ret a) Q w.
Proof.
  intros Hc Hs HQ. cbn [bind call wp]. split; [done|]. intros [] w1. cbn. rewrite not_abstract.
  intros ->. assert (Hd : confined path w0 (set_files w (delete path (files w)))) by
    by apply confined_delete.
  split; [done|]. intros [[]|e] w2; cbn.
  - intros [[nd Hnd] _]. by rewrite lookup_delete_eq in Hnd.
  - intros ->. apply HQ; [done|cbn; apply lookup_delete_eq|done].
Qed.

Lemma lockDown_confined gid w :
  confined path w0 w -> (forall nd, files w0 !! path = Some nd -> nd_type nd = Socket_) ->
  files w !! path = Some (mkNode Socket_ socketMode (own_gid w0)) ->
  listening (lockDown path gid (UnixListener path)) (fun r w' =>
    confined path w0 w' /\ umask w' = umask w /\
    match r with
    | Ok ln => ln = UnixListener path /\
        files w' !! path = Some (mkNode Socket_ socketMode (if gid >=? 0 then gid else own_gid w0))
    | Err _ => files w' !! path = None
    end) w.
Proof.
  intros Hc Hs Hat. unfold lockDown. cbn [bind call wp]. split; [done|].
  intros [[]|e] w1; cbn [os_step]; [|intros ->; by apply undo_confined].
  intros (nd & Hnd & ->). rewrite Hat in Hnd. injection Hnd as <-. cbn [nd_type nd_gid].
  change (Z.land socketMode 511) with socketMode.
  set (w1 := set_files w _). assert (Hc1 : confined path w0 w1) by by apply confined_insert.
  destruct (gid >=? 0) eqn:Eg.
  - cbn [bind call wp]. split; [done|]. intros [[]|e] w2; cbn [os_step].
    + intros (nd & Hnd & ->). cbn in Hnd. rewrite lookup_insert_eq in Hnd. injection Hnd as <-.
      cbn [wp nd_type nd_perm nd_gid]. rewrite Z.geb_leb in Eg. apply Z.leb_le in Eg.
      replace (gid <? 0) with false by (symmetry; apply Z.ltb_ge; lia).
      split_and!; [by apply confined_insert|done|done|cbn; apply lookup_insert_eq].
    + intros ->. by apply undo_confined.
  - cbn [wp]. split_and!; [done|done|done|cbn; apply lookup_insert_eq].
Qed.

Lemma bind_socket_created w :
  umask w = andnot 511 socketMode ->
  bind_socket w path =
    set_files w (<[path := mkNode Socket_ socketMode (own_gid w)]> (files w)).
Proof. intros Hu. unfold bind_socket. by rewrite not_abstract, Hu. Qed.

(** Opening the socket, call by call. *)
Lemma Listen_safe :
  0 <= umask w0 <= 511 ->
  listening (Listen path group) (fun r w =>
    confined path w0 w /\ umask w = umask w0 /\
    match r with
    | Ok ln => ln = UnixListener path /\
        exists gid, files w !! path = Some (mkNode Socket_ socketMode gid) /\ gid_given w0 group gid
    | Err _ => files w !! path = None \/ files w !! path = files w0 !! path
    end) w0.
Proof.
  intros Hmask. unfold Listen. apply wp_bind. eapply wp_mono; [|apply removeStale_confined].
  intros r w (Hc & Hu & Hfs & Hr). destruct r as [[]|e].
  2: { cbn. rewrite Hr. auto. }
  apply wp_bind, socketGid_spec; [done|]. intros [gid|e] Hgid.
  2: { cbn. split_and!; [done..|]. destruct Hfs as [->|[_ ->]]; auto. }
  apply wp_bind. unfold withSocketUmask. cbn [bind call wp]. split; [done|].
  intros old w1 [-> ->]. split; [done|]. intros r w2 Hl. cbn in Hl. destruct r as [ln|e].
  2: { subst w2. cbn. split; [done|]. intros _ w3 [_ ->]. split_and!; [done|cbn; rewrite Hu| ].
       { by apply mask_bits. }
       cbn. destruct Hfs as [->|[_ ->]]; auto. }
  destruct Hl as (-> & Habs & ->). specialize (Habs not_abstract). cbn in Habs.
  assert (Hs : forall nd, files w0 !! path = Some nd -> nd_type nd = Socket_).
  { destruct Hfs as [Hfs|[Hs _]]; [|done]. intros nd. rewrite <- Hfs. congruence. }
  rewrite bind_socket_created by reflexivity. set (w2 := set_files _ _).
  assert (Hc2 : confined path w0 w2).
  { unfold w2. destruct Hc as (H1 & H2 & H3 & H4). cbn [own_gid set_umask].
    by apply confined_insert. }
  split; [done|]. intros _ w3 [_ ->]. cbn [wp].
  eapply wp_mono; [|apply (lockDown_confined gid); [done|done|]].
  2: { cbn. rewrite lookup_insert_eq. by destruct Hc as (_ & _ & -> & _). }
  intros r w3 (Hc3 & Hu3 & Hr3). split_and!; [done| |].
  { rewrite Hu3. cbn. rewrite Hu. by apply mask_bits. }
  destruct r as [ln|e]; [|by left]. destruct Hr3 as [-> Hr3]. split; [done|].
  eexists. split; [exact Hr3|]. unfold gid_given.
  destruct (String.eqb group ""); [by subst gid|]. destruct Hgid as (g & Hg & Hz). by exists g, gid.
Qed.
End Listen.

(** ** Nothing else changes, whatever the path

    An address in the abstract namespace has no file of its own; [Listen] then
    works on whatever file has that name. *)

Definition only (path : string) (w0 w : world) : Prop :=
  (forall p, p <> path -> files w !! p = files w0 !! p) /\ contents w = contents w0 /\ logged w = logged w0.

Section local.
Variables (path group : string) (w0 : world).

Lemma only_put w fs :
  only path w0 w -> (forall p, p <> path -> fs !! p = files w !! p) -> only path w0 (set_files w fs).
Proof. intros (Hp & Hc & Hl) Hfs. split_and!; [|done..]. intros p Hne. cbn. by rewrite Hfs, Hp. Qed.

Lemma only_delete w : only path w0 w -> only path w0 (set_files w (delete path (files w))).
Proof. intros Hw. apply only_put; [done|]. intros p Hne. by apply lookup_delete_ne. Qed.
Lemma only_insert w nd : only path w0 w -> only path w0 (set_files w (<[path := nd]> (files w))).
Proof. intros Hw. apply only_put; [done|]. intros p Hne. by apply lookup_insert_ne. Qed.

Lemma only_bind w : only path w0 w -> only path w0 (bind_socket w path).
Proof. unfold bind_socket. destruct (is_abstract path); [done|apply only_insert]. Qed.
Lemma only_close w : only path w0 w -> only path w0 (close_listener w (UnixListener path)).
Proof. cbn. destruct (is_abstract path); [done|apply only_delete]. Qed.

Abbreviation anyhow p Q w := (wp (fun _ _ _ => True) os_step p Q w).

Lemma undo_only {A} (a : A) w m (Q : A -> world -> Prop) :
  only path w0 w -> umask w = m -> (forall w', only path w0 w' -> umask w' = m -> Q a w') ->
  anyhow (_ <- call (CloseListener (UnixListener path));; _ <- call (OsRemove path);; Ret a) Q w.
Proof.
  intros Hw Hm HQ. cbn [bind call wp]. split; [done|]. intros [] w1 ->.
  apply only_close in Hw. assert (Hm' : umask (close_listener w (UnixListener path)) = m).
  { cbn. by destruct (is_abstract path). }
  split; [done|]. intros [[]|e] w2; [intros [_ ->]; apply HQ; [by apply only_delete|done]|intros ->; by apply HQ].
Qed.

Lemma lockDown_only gid w m :
  only path w0 w -> umask w = m ->
  anyhow (lockDown path gid (UnixListener path)) (fun r w' =>
    only path w0 w' /\ umask w' = m /\ match r with Ok ln => ln = UnixListener path | Err _ => True end) w.
Proof.
  intros Hw Hm. unfold lockDown. cbn [bind call wp]. split; [done|].
  intros [[]|e] w1; [intros (nd & _ & ->)|intros ->; by eapply undo_only].
  set (w1 := set_files w _). assert (Hw1 : only path w0 w1) by by apply only_insert.
  destruct (gid >=? 0); [|done]. cbn [bind call wp]. split; [done|].
  intros [[]|e] w2; [intros (nd' & _ & ->)|intros ->; by eapply undo_only].
  split_and!; [by apply only_insert|done|done].
Qed.

Lemma removeStale_only :
  anyhow (removeStale path) (fun _ w => only path w0 w /\ umask w = umask w0) w0.
Proof.
  assert (Hw : only path w0 w0) by done. unfold removeStale. cbn [bind call wp]. split; [done|].
  intros [mode|e] w [-> _]; [|done]. destruct (_ =? 0); [done|]. cbn [bind call wp]. split; [done|].
  intros [[]|e] w; [intros [_ ->]; split; [by apply only_delete|done]|by intros ->].
Qed.

Lemma socketGid_only w (Q : result Z -> world -> Prop) : (forall r, Q r w) -> anyhow (socketGid group) Q w.
Proof.
  intros HQ. unfold socketGid. destruct (negb _); [|apply HQ]. cbn [bind call wp]. split; [done|].
  intros [g|e] w1 [-> _]; [|apply HQ]. destruct (Atoi g); apply HQ.
Qed.

Lemma Listen_only :
  0 <= umask w0 <= 511 ->
  anyhow (Listen path group) (fun r w => only path w0 w /\ umask w = umask w0 /\
    match r with Ok ln => ln = UnixListener path | Err _ => True end) w0.
Proof.
  intros Hmask. unfold Listen. apply wp_bind. eapply wp_mono; [|apply removeStale_only].
  intros [[]|e] w [Hw Hu]; [|done]. apply wp_bind, socketGid_only. intros [gid|e]; [|done].
  apply wp_bind. unfold withSocketUmask. cbn [bind call wp]. split; [done|].
  intros old w1 [-> ->]. split; [done|]. intros r w2 Hl. cbn in Hl. split; [done|].
  intros _ w3 [_ ->]. cbn [wp]. rewrite Hu, mask_bits by done. destruct r as [ln|e]; [|by subst w2].
  destruct Hl as (-> & _ & ->). eapply (lockDown_only gid); [|done].
  by apply (only_bind (set_umask w _)).
Qed.
End local.

(** C9. The daemon's socket is never reachable by others, not even for an
    instant: at every call [Listen] makes, and after it, a socket that has
    appeared at the path has mode 0660, whatever the process's mask was and
    whatever fails; no other file has changed, and one at the path that is not
    a socket is never touched.  On success the socket is there with mode 0660
    and the group asked for; on failure nothing of ours is left at the path.
    The process's mask is restored either way. *)
Theorem Listen_confined path group w0 :
  is_abstract path = false -> 0 <= umask w0 <= 511 ->
  wp (fun X (e : osE X) w => confined path w0 w) os_step (Listen path group) (fun r w =>
    confined path w0 w /\ umask w = umask w0 /\
    match r with
    | Ok ln => ln = UnixListener path /\
        exists gid, files w !! path = Some (mkNode Socket_ socketMode gid) /\ gid_given w0 group gid
    | Err _ => files w !! path = None \/ files w !! path = files w0 !! path
    end) w0.
Proof. apply Listen_safe. Qed.

(** A host with a leftover socket at the path, a lax mask and the group. *)
Definition boot_world : world :=
  mkWorld {[ "/run/openbloxd.sock" := mkNode Socket_ 511 0; "/etc/passwd" := mkNode Regular 420 0 ]}
    18 0 {[ "openblox" := "991" ]} ∅ [].

Lemma Listen_confined_witness :
  exists w, run os_run (Listen "/run/openbloxd.sock" "openblox") boot_world
    = (Ok (UnixListener "/run/openbloxd.sock"), w) /\
  confined "/run/openbloxd.sock" boot_world w /\ umask w = 18 /\
  exists gid, files w !! "/run/openbloxd.sock" = Some (mkNode Socket_ socketMode gid) /\
    gid_given boot_world "openblox" gid.
Proof.
  eexists. split; [vm_compute; reflexivity|].
  pose proof (wp_run_refines _ _ _ os_run_step _ _ _ (Listen_confined "/run/openbloxd.sock" "openblox"
    boot_world eq_refl ltac:(vm_compute; split; discriminate))) as H.
  destruct (run os_run _ boot_world) as [r w] eqn:E. vm_compute in E. injection E as <- <-.
  destruct H as (H1 & H2 & _ & H3). split_and!; [exact H1|exact H2|exact H3].
Defined.

(** Without the mask the socket is born as wide as the process's mask leaves
    it, and stays so until the mode is set. *)
Example without_umask_window :
  (snd (run os_run (withSocketUmask_other (call (NetListen "unix" "/run/x.sock"))) boot_world)).(files)
    !! "/run/x.sock" = Some (mkNode Socket_ 493 0).
Proof. vm_compute. reflexivity. Qed.
