(* ===== verification/DaemonTls.v ===== *)
(** * internal/daemon/listener_tls.go: the network listener

    [ListenTLS] with the configuration it hands to [crypto/tls], and who can
    complete a handshake under it. *)

From S2P Require Import Prelude GoErrors GoStrings GoTime GoNet GoOs GoTls Effects Sandbox GoHttp BrokerApi.
From S2P Require Import DaemonConfig DaemonServer.

Section tls.
Context `{Pki}.

(** The [VerifyConnection] callback. *)
Definition verifyConnection (allowed : gset string) (cs : ConnectionState) : result unit :=
  checkAllowedClientCN allowed (map (map CommonName) (VerifiedChains cs)).

Definition tlsConfigFor (cfg : ListenConfig) : prog osE (result tlsConfig) :=
  cert <- LoadX509KeyPair (CertFile (TLS cfg)) (KeyFile (TLS cfg));;
  match cert with
  | Err err => Ret (Err (Errorf "load server keypair: %w" [AWrap err]))
  | Ok cert =>
      caPEM <- call (OsReadFile (ClientCAFile (TLS cfg)));;
      match caPEM with
      | Err err =>
          Ret (Err (Errorf "read client CA %q: %w" [AStr (ClientCAFile (TLS cfg)); AWrap err]))
      | Ok caPEM =>
          match parsePEM caPEM with
          | [] => Ret (Err (Errorf "%w: client CA %q contains no certificate"
              [AWrap (Sentinel ErrInvalid); AStr (ClientCAFile (TLS cfg))]))
          | pool => Ret (Ok (mkTlsConfig VersionTLS13 [cert] RequireAndVerifyClientCert pool [] ""
              None (Some (verifyConnection (allowedCNs cfg)))))
          end
      end
  end.

(** [ListenTLS]: the bound address, and the configuration of its connections. *)
Definition ListenTLS (cfg : ListenConfig) : prog osE (result (Listener * tlsConfig)) :=
  tlsCfg <-? tlsConfigFor cfg;;
  ln <- call (NetListen "tcp" (Address cfg));;
  match ln with
  | Err err => Ret (Err (Errorf "listen on %q: %w" [AStr (Address cfg); AWrap err]))
  | Ok ln => Ret (Ok (ln, tlsCfg))
  end.

(** ** Who gets in *)

(** A connection both gates admit at the time [now]: TLS 1.3, the peer's
    certificate on the allowlist, and chains for it, verified against the given
    roots for a client's use in a fresh session; a session is resumed only while
    the certificate has not expired. *)
Definition admitted (cfg : ListenConfig) (roots : list certificate) (now : time) (cs : ConnectionState)
    : Prop :=
  VersionTLS13 <= Version cs /\
  exists leaf peers, PeerCertificates cs = leaf :: peers /\
    CommonName leaf ∈ AllowedClientCNs (TLS cfg) /\ VerifiedChains cs <> [] /\
    Forall (fun ch => starts_with leaf ch = true) (VerifiedChains cs) /\
    if DidResume cs then now <= NotAfter leaf
    else Forall (fun ch => chain_ok ExtKeyUsageClientAuth now roots leaf ch = true) (VerifiedChains cs).

Lemma elem_of_allowedCNs cfg cn : cn ∈ allowedCNs cfg <-> cn ∈ AllowedClientCNs (TLS cfg).
Proof.
  unfold allowedCNs. generalize (AllowedClientCNs (TLS cfg)) as l. intros l.
  assert (Hg : forall s, cn ∈ fold_left (fun s cn => {[cn]} ∪ s) l s <-> cn ∈ l \/ cn ∈ (s : gset string)).
  { induction l as [|c l IH]; intros s; cbn [fold_left]; [set_solver|]. rewrite IH. set_solver. }
  rewrite Hg. set_solver.
Qed.

Lemma verifyConnection_ok cfg cs leaf ch chs :
  VerifiedChains cs = ch :: chs -> starts_with leaf ch = true ->
  is_ok (verifyConnection (allowedCNs cfg) cs) = true <-> CommonName leaf ∈ AllowedClientCNs (TLS cfg).
Proof.
  intros Hc Hs. unfold verifyConnection. rewrite Hc. destruct ch as [|c ch]; [done|].
  cbn in Hs. apply bool_decide_eq_true in Hs as ->. cbn [map checkAllowedClientCN].
  rewrite <- elem_of_allowedCNs. case_bool_decide; cbn; by split.
Qed.

Lemma tlsConfigFor_accepts cfg cert roots now cs :
  server_accepts (mkTlsConfig VersionTLS13 [cert] RequireAndVerifyClientCert roots [] "" None
    (Some (verifyConnection (allowedCNs cfg)))) now cs = true <-> admitted cfg roots now cs.
Proof.
  unfold server_accepts, client_auth_ok, admitted. cbn [MinVersion ClientAuth ClientCAs
    VerifyPeerCertificate VerifyConnection]. rewrite !andb_true_iff, Z.leb_le, verified_spec. split.
  - intros (((Hv & leaf & peers & chains & Hp & Hc & Hne & Hst & Hok) & _) & Hcn). subst chains.
    split; [done|]. exists leaf, peers. split_and!; try done.
    destruct (VerifiedChains cs) as [|ch chs] eqn:Ec; [done|].
    by apply (verifyConnection_ok cfg cs leaf ch chs Ec) in Hcn; [|by inversion Hst].
  - intros (Hv & leaf & peers & Hp & Hcn & Hne & Hst & Hok). split_and!; try done.
    + exists leaf, peers, (VerifiedChains cs). by split_and!.
    + destruct (VerifiedChains cs) as [|ch chs] eqn:Ec; [done|].
      apply (verifyConnection_ok cfg cs leaf ch chs Ec); [by inversion Hst|done].
Qed.

(** What opening the network listener establishes: the certificate it presents
    was loaded from the keypair's files, and its connections are those admitted
    under the CA file. *)
Definition listens_tls (cfg : ListenConfig) (w : world) (r : result (Listener * tlsConfig)) : Prop :=
  match r with
  | Ok (ln, tc) => ln = TCPListener (Address cfg) /\
      (exists chain, loaded w (CertFile (TLS cfg)) (KeyFile (TLS cfg)) chain /\ Certificates tc = [chain]) /\
      exists pem, contents w !! ClientCAFile (TLS cfg) = Some pem /\ parsePEM pem <> [] /\
        forall now cs, server_accepts tc now cs = true <-> admitted cfg (parsePEM pem) now cs
  | Err _ => True
  end.

Lemma ListenTLS_spec cfg w ok :
  (forall X e w', ok X e w') ->
  wp ok os_step (ListenTLS cfg) (fun r w' => w' = w /\ listens_tls cfg w r) w.
Proof.
  intros Hok. unfold ListenTLS, tlsConfigFor. apply wp_bind, wp_bind, LoadX509KeyPair_spec; [done| |done].
  intros chain Hld. cbn [bind call wp]. split; [apply Hok|].
  intros [pem|e] w1; [|by intros [-> _]]. intros [-> Hpem]. cbn [bind].
  destruct (parsePEM pem) as [|r0 roots] eqn:Er; [done|]. cbn [bind call wp]. split; [apply Hok|].
  intros [ln|e] w1; [|by intros ->]. intros [-> ->]. cbn [wp]. split; [done|].
  split_and!; [done|by exists chain|]. exists pem. split_and!; [done|by rewrite Er|].
  intros now cs. rewrite Er. apply tlsConfigFor_accepts.
Qed.

(** What a request over a connection is logged and recorded as. *)
Definition recorded (cs : ConnectionState) : string -> string -> list RequestLog * Caller :=
  WithCaller (Some (map CommonName (PeerCertificates cs))).

(** C8. Nobody reaches the request router over the network but the callers the
    operator named.  The listener opens only when the keypair loads from its two
    files and the CA file holds a certificate, and presents that keypair.  Under
    the configuration it serves with, a handshake completes at a time exactly
    when it is TLS 1.3, the client's certificate was verified (for a fresh
    session: every chain links it to a certificate of the CA file through
    certificates that may sign, all in their period and fit for a client; for a
    resumed one: it has not expired) and its common name is on the allowlist.
    Every request then served is logged with its method and path under a name on
    the list, and recorded as coming over TLS from that name, which in an
    accepted configuration is not empty. *)
Theorem ListenTLS_gates cfg w :
  wp (fun _ _ _ => True) os_step (ListenTLS cfg) (fun r w' => w' = w /\
    match r with
    | Ok (ln, tc) => ln = TCPListener (Address cfg) /\
        (exists chain, loaded w (CertFile (TLS cfg)) (KeyFile (TLS cfg)) chain /\
           Certificates tc = [chain]) /\
        exists pem, contents w !! ClientCAFile (TLS cfg) = Some pem /\ parsePEM pem <> [] /\
        (forall now cs, server_accepts tc now cs = true <-> admitted cfg (parsePEM pem) now cs) /\
        (forall now cs, server_accepts tc now cs = true ->
           exists cn, cn ∈ AllowedClientCNs (TLS cfg) /\
             (ListenConfig_validate cfg = Ok tt -> cn <> "") /\
             forall method path,
               recorded cs method path = ([mkRequestLog cn method path], mkCaller TransportTLS cn))
    | Err _ => True
    end) w.
Proof.
  eapply wp_mono; [|by apply ListenTLS_spec]. intros [[ln tc]|e] w' [-> Hl]; [|done].
  destruct Hl as (-> & Hld & pem & Hp & Hne & Hacc). split; [done|]. split; [done|]. split; [done|].
  exists pem. split_and!; [done..|]. intros now cs Hcs. apply Hacc in Hcs as (_ & leaf & peers & Hpc & Hcn & _).
  exists (CommonName leaf). split_and!; [done| |intros method path; unfold recorded; by rewrite Hpc].
  intros Hv He. rewrite He in Hcn. apply ListenConfig_validate_ok in Hv. naive_solver.
Qed.
End tls.

(** ** A concrete authority *)

(** Every certificate is good for a hundred seconds and any use; [ca] may sign. *)
Definition demo_cert (cn : string) : certificate :=
  mkCertificate cn 1 cn 0 (100 * GoDuration.Second) (String.eqb cn "ca") 0 (String.eqb cn "ca") [] [] [].

(** PEM files hold a common name; everybody is signed by [ca]; a key is the word
    [key]. *)
Definition demo_pki : Pki := {|
  parsePEM := fun s => if String.eqb s "" then [] else [demo_cert s];
  X509KeyPair := fun c k =>
    if String.eqb k "key" then Ok [demo_cert c] else Err (External ExtOther "tls: failed to find any PEM data");
  signed_by := fun _ parent => String.eqb (CommonName parent) "ca";
  valid_for := fun c name => String.eqb (CommonName c) name
|}.

Definition demo_listen : ListenConfig :=
  mkListenConfig "10.0.0.5:8443" (mkTLSConfig "server.crt" "server.key" "ca.crt" ["agent"; "ops"]).

Definition demo_world : world :=
  mkWorld ∅ 18 0 ∅ {[ "server.crt" := "openbloxd"; "server.key" := "key"; "ca.crt" := "ca" ]} [].

(** A connection of the client [cn], with a chain to the demo authority. *)
Definition demo_conn (cn : string) (resumed : bool) : ConnectionState :=
  mkConnectionState VersionTLS13 resumed [demo_cert cn] [[demo_cert cn; demo_cert "ca"]].

#[local] Existing Instance demo_pki.

Lemma ListenTLS_gates_witness :
  exists ln tc, run os_run (ListenTLS demo_listen) demo_world = (Ok (ln, tc), demo_world) /\
    ln = TCPListener "10.0.0.5:8443" /\
    server_accepts tc 1 (demo_conn "agent" false) = true /\
    recorded (demo_conn "agent" false) "GET" "/sandboxes" =
      ([mkRequestLog "agent" "GET" "/sandboxes"], mkCaller TransportTLS "agent") /\
    server_accepts tc 1 (demo_conn "other" false) = false /\
    server_accepts tc 1 (demo_conn "other" true) = false /\
    server_accepts tc (101 * GoDuration.Second) (demo_conn "agent" false) = false /\
    Certificates tc = [[demo_cert "openbloxd"]].
Proof.
  destruct (run os_run (ListenTLS demo_listen) demo_world) as [[[ln tc]|e] w] eqn:E;
    [|vm_compute in E; discriminate].
  exists ln, tc.
  pose proof (wp_run_refines _ _ _ os_run_step _ _ _ (ListenTLS_gates demo_listen demo_world)) as Hg.
  rewrite E in Hg. destruct Hg as (-> & -> & _ & pem & Hpem & _ & Hacc & Hcall).
  vm_compute in E. injection E as E. subst tc.
  split; [reflexivity|]. split; [reflexivity|]. split; [vm_compute; reflexivity|].
  split; [|repeat split; vm_compute; reflexivity].
  destruct (Hcall 1 (demo_conn "agent" false) ltac:(vm_compute; reflexivity)) as (cn & _ & _ & Hrec).
  specialize (Hrec "GET" "/sandboxes"). vm_compute in Hrec. injection Hrec as <-. reflexivity.
Defined.

(** Had the allowlist been checked in [VerifyPeerCertificate], a session
    resumed after its name was struck from the list would still be let in. *)
Example resumed_session_needs_VerifyConnection :
  let by_peer := mkTlsConfig VersionTLS13 [[demo_cert "openbloxd"]] RequireAndVerifyClientCert
    (parsePEM "ca") [] ""
    (Some (fun chains => checkAllowedClientCN (allowedCNs demo_listen) (map (map CommonName) chains)))
    None in
  server_accepts by_peer 1 (demo_conn "other" false) = false /\
  server_accepts by_peer 1 (demo_conn "other" true) = true.
Proof. vm_compute. done. Qed.
