(* ===== verification/DaemonStart.v ===== *)
(** * cmd/openbloxd: from the configuration file to open listeners

    [run] of [main.go] up to serving: loading the configuration ([Load] of
    [config.go]), connecting the backend with the one registry credential the
    profiles may name, and opening the listeners, with what is logged on the way
    and [IsWildcardHost] ([config.go]) a warning depends on. *)

From S2P Require Import Prelude GoErrors GoStrings GoFloat64 GoTime GoNet GoIp GoOs GoTls Effects Sandbox GoHttp BrokerApi.
From S2P Require Import DaemonConfig DaemonServer DaemonListen DaemonTls DockerBackend.

(** [Profile.DigestPinned] *)
Definition DigestPinned (p : Profile) : bool := IsDigestPinned (PImage p).

Definition IsWildcardHost (l : ListenConfig) : bool :=
  match SplitHostPort (Address l) with
  | inl _ => false
  | inr (host, _) =>
      if String.eqb host "" then true
      else match ParseIP host with Some ip => IsUnspecified ip | None => false end
  end.

(** ** The lines [run] logs *)

Definition warn_unpinned (name : string) (p : Profile) : slog_line :=
  mkSlog "WARN" "profile image is not pinned to a digest; whoever controls the registry can repoint the tag"
    [("profile", SlogString name); ("image", SlogString (PImage p))].
Definition warn_wildcard (l : ListenConfig) : slog_line :=
  mkSlog "WARN" "listen.address binds every interface; the daemon is reachable from any network this host is on"
    [("address", SlogString (Address l))].
Definition info_listening (cfg : Config) : slog_line :=
  mkSlog "INFO" "openbloxd listening"
    [("socket", SlogString (if negb (String.eqb (Socket cfg) "") then Socket cfg else "off"));
     ("network", SlogString match DaemonConfig.Listen cfg with Some l => Address l | None => "off" end);
     ("profiles", SlogInt (Z.of_nat (size (Profiles cfg))))].

(** ** The steps of [run] *)

(** The credential to keep after one more profile. *)
Definition keep_auth (auth : option RegistryAuth) (p : Profile) : option RegistryAuth :=
  match PRegistryAuth p, auth with
  | Some a, None => Some a
  | _, _ => auth
  end.

(** The loop over the profiles: it warns of images that are not pinned and
    picks the credential. *)
Fixpoint scanProfiles (ps : list (string * Profile)) (auth : option RegistryAuth)
    : prog osE (option RegistryAuth) :=
  match ps with
  | [] => Ret auth
  | (name, p) :: ps =>
      _ <- (if negb (DigestPinned p) then call (Slog (warn_unpinned name p)) else Ret tt);;
      scanProfiles ps (keep_auth auth p)
  end.

(** What the loop picks. *)
Definition pickAuth (ps : list (string * Profile)) : option RegistryAuth :=
  fold_left (fun auth '(name, p) => keep_auth auth p) ps None.

Section start.
Context `{Pki} `{MapRange Profile}.
(** What reading the file as strict YAML gives, what connecting the Docker
    client answers, and the Docker library's encoding of a credential. *)
Variables (decodeYAML : string -> result Config) (dockerClient : result unit)
  (encodeAuth : string -> string -> result string).

Definition Load (path : string) : prog osE (result Config) :=
  f <- call (OsReadFile path);;
  match f with
  | Err err => Ret (Err (Errorf "open config: %w" [AWrap err]))
  | Ok f =>
      match decodeYAML f with
      | Err err => Ret (Err (Errorf "parse config %q: %w" [AStr path; AWrap err]))
      | Ok cfg => Ret (Config_validate cfg)
      end
  end.

(** [docker.New] with the options [run] collects. *)
Definition connectWith (auth : option RegistryAuth) : result Backend :=
  let opts := match auth with
    | Some auth => [WithRegistryAuth encodeAuth (AuthUsername auth) (AuthPassword auth)]
    | None => []
    end in
  New dockerClient opts.

Fixpoint closeAll (lns : list (Listener * option tlsConfig)) : prog osE unit :=
  match lns with
  | [] => Ret tt
  | (l, _) :: lns => _ <- call (CloseListener l);; closeAll lns
  end.

(** The listeners of a configuration, with the TLS configuration of each: all
    of them, or none. *)
Definition openListeners (cfg : Config) : prog osE (result (list (Listener * option tlsConfig))) :=
  lns <-? (if negb (String.eqb (Socket cfg) "") then
             ln <-? Listen (Socket cfg) (SocketGroup cfg);;
             Ret (Ok [(ln, None)])
           else Ret (Ok []));;
  match DaemonConfig.Listen cfg with
  | None => Ret (Ok lns)
  | Some l =>
      _ <- (if IsWildcardHost l then call (Slog (warn_wildcard l)) else Ret tt);;
      r <- ListenTLS l;;
      match r with
      | Err err => _ <- closeAll lns;; Ret (Err err)
      | Ok (ln, tlsCfg) => Ret (Ok (lns ++ [(ln, Some tlsCfg)])%list)
      end
  end.

(** [run], until it serves. *)
Definition start (configPath : string)
    : prog osE (result (Config * Backend * list (Listener * option tlsConfig))) :=
  cfg <-? Load configPath;;
  auth <- scanProfiles (range (Profiles cfg)) None;;
  match connectWith auth with
  | Err err => Ret (Err err)
  | Ok backend =>
      lns <-? openListeners cfg;;
      _ <- call (Slog (info_listening cfg));;
      Ret (Ok (cfg, backend, lns))
  end.
End start.

(** ** The credential does not depend on map order *)

Lemma pickAuth_go auth ps :
  fold_left (fun auth '(name, p) => keep_auth auth p) ps auth
  = match auth with Some a => Some a | None => head (auths ps) end.
Proof.
  revert auth; induction ps as [|[name p] ps IH]; intros auth; cbn [fold_left]; [by destruct auth|].
  rewrite IH. unfold auths, keep_auth. cbn. by destruct (PRegistryAuth p), auth.
Qed.

Lemma pickAuth_head ps : pickAuth ps = head (auths ps).
Proof. apply pickAuth_go. Qed.

Lemma elem_of_auths_range `{MapRange Profile} m a :
  a ∈ auths (range m) <-> exists name p, m !! name = Some p /\ PRegistryAuth p = Some a.
Proof.
  unfold auths. rewrite list_elem_of_omap. split.
  - intros ([name p] & Hin & Ha). exists name, p. by rewrite <- elem_of_range.
  - intros (name & p & Hp & Ha). exists (name, p). by rewrite elem_of_range.
Qed.

(** For an accepted configuration the credential the daemon authenticates with
    is the one every profile that names any names, whatever order Go visits the
    profiles in, and there is none exactly when no profile names one. *)
Theorem registry_credential (R1 R2 : MapRange Profile) c cfg :
  Config_validate (H := R1) c = Ok cfg ->
  pickAuth (range (MapRange := R1) (Profiles cfg)) = pickAuth (range (MapRange := R2) (Profiles cfg)) /\
  (forall name p a, Profiles cfg !! name = Some p -> PRegistryAuth p = Some a ->
     pickAuth (range (MapRange := R2) (Profiles cfg)) = Some a) /\
  (forall a, pickAuth (range (MapRange := R2) (Profiles cfg)) = Some a ->
     exists name p, Profiles cfg !! name = Some p /\ PRegistryAuth p = Some a).
Proof.
  intros (_ & _ & _ & _ & _ & Heq)%Config_validate_facts.
  assert (Hpick : forall (R : MapRange Profile),
    match pickAuth (range (Profiles cfg)) with
    | Some a => exists name p, Profiles cfg !! name = Some p /\ PRegistryAuth p = Some a
    | None => forall name p, Profiles cfg !! name = Some p -> PRegistryAuth p = None
    end).
  { intros R. rewrite pickAuth_head. destruct (auths (range (Profiles cfg))) as [|a l] eqn:E; cbn.
    - intros name p Hp. destruct (PRegistryAuth p) as [a|] eqn:Ea; [|done].
      assert (Hin : a ∈ auths (range (Profiles cfg))) by (apply elem_of_auths_range; eauto).
      rewrite E in Hin. by apply not_elem_of_nil in Hin.
    - apply elem_of_auths_range. rewrite E. left. }
  pose proof (Hpick R1) as H1. pose proof (Hpick R2) as H2.
  destruct (pickAuth (range (MapRange := R2) _)) as [a2|].
  - destruct H2 as (n2 & p2 & Hp2 & Ha2). split_and!.
    + destruct (pickAuth _) as [a1|]; [|by rewrite (H1 n2 p2 Hp2) in Ha2].
      destruct H1 as (n1 & p1 & Hp1 & Ha1). by rewrite (Heq n1 p1 a1 n2 p2 a2 Hp1 Hp2 Ha1 Ha2).
    + intros name p a Hp Ha. by rewrite (Heq name p a n2 p2 a2 Hp Hp2 Ha Ha2).
    + intros a [= <-]. by exists n2, p2.
  - split_and!; [|by intros name p a Hp; rewrite (H2 name p Hp)|done].
    destruct (pickAuth _) as [a1|]; [|done]. destruct H1 as (n1 & p1 & Hp1 & Ha1).
    by rewrite (H2 n1 p1 Hp1) in Ha1.
Qed.

(** ** Starting is all or nothing *)

(** What a start that failed may have changed: a leftover socket is gone. *)
Definition no_trace (w0 w : world) : Prop :=
  (forall p nd, files w !! p = Some nd -> files w0 !! p = Some nd) /\
  (forall p nd, files w0 !! p = Some nd -> nd_type nd <> Socket_ -> files w !! p = Some nd).

Lemma confined_no_trace path w0 w :
  confined path w0 w -> files w !! path = None \/ files w !! path = files w0 !! path ->
  no_trace w0 w.
Proof.
  intros (Hp & _ & _ & Hat) Hend. split; intros p nd Hnd; destruct (decide (p = path)) as [->|Hne].
  - destruct Hend as [Hn|He]; congruence.
  - by rewrite <- Hp.
  - intros Hs. destruct Hat as [->|[Hsock _]]; [done|]. by apply Hsock in Hnd.
  - by rewrite Hp.
Qed.

(** What a start that failed leaves: no trace; with an address in the abstract
    namespace for a socket, at most a change of the file of that name. *)
Definition undone (socket : string) (w0 w : world) : Prop :=
  if is_abstract socket then forall p, p <> socket -> files w !! p = files w0 !! p else no_trace w0 w.

Lemma undone_same socket w0 w : files w = files w0 -> undone socket w0 w.
Proof. intros Hf. unfold undone. destruct (is_abstract socket); [by rewrite Hf|]. split; intros; congruence. Qed.

Section starting.
Context `{Pki} `{MapRange Profile}.

(** The listeners of a configuration, open: exactly those it names; the socket
    locked down; no listener on the network without its keypair and both TLS
    gates; and no other file changed. *)
Record opened (cfg : Config) (w0 w : world) (lns : list (Listener * option tlsConfig)) : Prop := {
  opened_names : lns.*1 =
    ((if String.eqb (Socket cfg) "" then [] else [UnixListener (Socket cfg)])
     ++ match DaemonConfig.Listen cfg with Some l => [TCPListener (Address l)] | None => [] end)%list;
  opened_socket : Socket cfg <> "" -> is_abstract (Socket cfg) = false ->
    exists gid, files w !! Socket cfg = Some (mkNode Socket_ socketMode gid) /\
      gid_given w0 (SocketGroup cfg) gid;
  opened_gated : forall addr tc, (TCPListener addr, tc) ∈ lns ->
    exists l t, DaemonConfig.Listen cfg = Some l /\ tc = Some t /\
      listens_tls l w (Ok (TCPListener addr, t));
  opened_others : forall p, p <> Socket cfg -> files w !! p = files w0 !! p
}.

Lemma closeAll_files lns w (Q : unit -> world -> Prop) :
  Q tt (fold_left (fun w l => close_listener w (fst l)) lns w) ->
  wp (fun _ _ _ => True) os_step (closeAll lns) Q w.
Proof.
  revert w; induction lns as [|[l t] lns IH]; intros w HQ; [done|].
  cbn [closeAll bind call wp]. split; [done|]. intros [] w' ->. by apply IH.
Qed.

(** The socket, when one is configured. *)
Lemma openSocket_spec cfg w0 :
  0 <= umask w0 <= 511 ->
  wp (fun _ _ _ => True) os_step
    (if negb (String.eqb (Socket cfg) "") then
       ln <-? Listen (Socket cfg) (SocketGroup cfg);;
       Ret (Ok [(ln, None)])
     else Ret (Ok []))
    (fun (r : result (list (Listener * option tlsConfig))) w =>
      umask w = umask w0 /\ only (Socket cfg) w0 w /\
      match r with
      | Ok lns =>
          lns = (if String.eqb (Socket cfg) "" then [] else [(UnixListener (Socket cfg), None)]) /\
          (Socket cfg <> "" -> is_abstract (Socket cfg) = false ->
             confined (Socket cfg) w0 w /\
             exists gid, files w !! Socket cfg = Some (mkNode Socket_ socketMode gid) /\
             gid_given w0 (SocketGroup cfg) gid) /\
          (Socket cfg = "" -> files w = files w0)
      | Err _ => undone (Socket cfg) w0 w
      end) w0.
Proof.
  intros Hm. destruct (String.eqb_spec (Socket cfg) "") as [E|E]; cbn [negb]; [done|].
  pose proof (fun Habs => wp_weaken_ok _ _ _ _ _ (Listen_safe (Socket cfg) (SocketGroup cfg) w0 Habs Hm)) as Hs.
  pose proof (wp_all _ _ (fun _ : unit => is_abstract (Socket cfg) = false) _ _ _ w0
    (Listen_only (Socket cfg) (SocketGroup cfg) w0 Hm) (fun _ => Hs)) as Hboth.
  apply wp_bind. eapply wp_mono; [|exact Hboth].
  intros [ln|e] w [(Ho & Hu & Hr) Hc]; cbn.
  - subst ln. split_and!; try done. intros _ Habs. destruct (Hc tt Habs) as (? & _ & _ & ?). done.
  - split_and!; [done|done|]. unfold undone. destruct (is_abstract (Socket cfg)) eqn:Ea; [apply Ho|].
    destruct (Hc tt eq_refl) as (Hcf & _ & He). by eapply confined_no_trace.
Qed.

(** Closing the socket again. *)
Lemma closed_undone cfg w0 w :
  only (Socket cfg) w0 w ->
  (Socket cfg <> "" -> is_abstract (Socket cfg) = false -> confined (Socket cfg) w0 w /\
     exists gid, files w !! Socket cfg = Some (mkNode Socket_ socketMode gid) /\ gid_given w0 (SocketGroup cfg) gid) ->
  Socket cfg <> "" -> undone (Socket cfg) w0 (close_listener w (UnixListener (Socket cfg))).
Proof.
  intros Ho Hs E. unfold undone. cbn [close_listener]. destruct (is_abstract (Socket cfg)); [apply Ho|].
  destruct (Hs E eq_refl) as ((H1 & H2 & H3 & H4) & gid & Hat & _).
  eapply confined_no_trace; [|left; cbn; apply lookup_delete_eq]. split_and!; [|done|done|].
  - intros p Hne. cbn. rewrite lookup_delete_ne by done. auto.
  - cbn. rewrite lookup_delete_eq. destruct H4 as [H4|[H4 _]]; [|by right; auto].
    rewrite Hat in H4. right. split; [|by left]. intros nd Hnd. rewrite <- H4 in Hnd. by injection Hnd as <-.
Qed.

(** What opening the listeners logs. *)
Definition listen_log (cfg : Config) : list slog_line :=
  match DaemonConfig.Listen cfg with
  | Some l => if IsWildcardHost l then [warn_wildcard l] else []
  | None => []
  end.

Lemma maybe_log b line w (Q : unit -> world -> Prop) :
  Q tt (log_to w (if (b : bool) then [line] else [])) ->
  wp (fun _ _ _ => True) os_step (if b then call (Slog line) else Ret tt) Q w.
Proof. destruct b; [|by rewrite log_to_nil]. intros HQ. split; [done|]. by intros [] w' ->. Qed.

Lemma openListeners_spec cfg w0 :
  0 <= umask w0 <= 511 ->
  wp (fun _ _ _ => True) os_step (openListeners cfg) (fun r w =>
    umask w = umask w0 /\ (exists l, logged w = (logged w0 ++ l)%list) /\
    match r with
    | Ok lns => opened cfg w0 w lns /\ logged w = (logged w0 ++ listen_log cfg)%list
    | Err _ => undone (Socket cfg) w0 w
    end) w0.
Proof.
  intros Hm. unfold openListeners, listen_log. apply wp_bind. eapply wp_mono; [|by apply openSocket_spec].
  intros r w (Hu & Ho & Hr). destruct Ho as (Hoth & Hcon & Hlog). destruct r as [lns|e].
  2: { cbn. split_and!; [done|exists []; by rewrite app_nil_r|done]. }
  destruct Hr as (-> & Hsock & Hnone). destruct (DaemonConfig.Listen cfg) as [l|] eqn:El.
  2: { cbn. rewrite app_nil_r. split_and!; [done|exists []; by rewrite app_nil_r| |done].
       split; [|by intros ? ?; apply Hsock| |done].
       - rewrite El. by destruct (String.eqb (Socket cfg) "").
       - intros addr tc Hin. destruct (String.eqb (Socket cfg) ""); set_solver. }
  apply wp_bind, maybe_log. set (line := if IsWildcardHost l then _ else _).
  apply wp_bind. eapply wp_mono; [|by apply ListenTLS_spec]. intros [[ln t]|e] w' [-> Hl].
  - cbn. rewrite Hlog. split_and!; [done|by eexists| |done]. pose proof (proj1 Hl) as ->.
    split; [|by intros ? ?; apply Hsock| |done].
    + rewrite El. by destruct (String.eqb (Socket cfg) "").
    + intros addr tc Hin.
      assert (TCPListener addr = TCPListener (Address l) /\ tc = Some t) as [-> ->]
        by (destruct (String.eqb (Socket cfg) ""); set_solver).
      by exists l, t.
  - apply wp_bind, closeAll_files. cbn [wp].
    destruct (String.eqb_spec (Socket cfg) "") as [E|E]; cbn [fold_left fst].
    + cbn. rewrite Hlog. split_and!; [done|by eexists|]. apply undone_same. by apply Hnone.
    + split_and!.
      * cbn. by destruct (is_abstract (Socket cfg)).
      * exists line. cbn. rewrite <- Hlog. by destruct (is_abstract (Socket cfg)).
      * assert (Hc : undone (Socket cfg) w0 (close_listener w (UnixListener (Socket cfg))))
          by (by apply closed_undone). revert Hc. unfold undone, no_trace. cbn.
        by destruct (is_abstract (Socket cfg)).
Qed.

(** ** What is logged on the way *)

Definition unpinned_log (ps : list (string * Profile)) : list slog_line :=
  omap (fun np => if DigestPinned (snd np) then None else Some (warn_unpinned (fst np) (snd np))) ps.

Lemma scanProfiles_spec ps auth w (Q : option RegistryAuth -> world -> Prop) :
  Q (fold_left (fun auth '(name, p) => keep_auth auth p) ps auth) (log_to w (unpinned_log ps)) ->
  wp (fun _ _ _ => True) os_step (scanProfiles ps auth) Q w.
Proof.
  revert auth w; induction ps as [|[name p] ps IH]; intros auth w HQ; [by rewrite log_to_nil in HQ|].
  cbn [scanProfiles]. apply wp_bind, maybe_log, IH. rewrite log_to_app.
  cbn [fold_left unpinned_log omap list_omap fst snd] in HQ. by destruct (DigestPinned p).
Qed.

(** The lines of a [run] that gets to serving, in order. *)
Definition boot_log (cfg : Config) : list slog_line :=
  (unpinned_log (range (Profiles cfg)) ++ listen_log cfg ++ [info_listening cfg])%list.

(** The operator is told what the boot lines promise: each profile whose image
    could be repointed, and a wildcard address. *)
Lemma boot_log_complete cfg line :
  line ∈ boot_log cfg <->
  (exists name p, Profiles cfg !! name = Some p /\ DigestPinned p = false /\ line = warn_unpinned name p) \/
  (exists l, DaemonConfig.Listen cfg = Some l /\ IsWildcardHost l = true /\ line = warn_wildcard l) \/
  line = info_listening cfg.
Proof.
  unfold boot_log, listen_log, unpinned_log. rewrite !elem_of_app, list_elem_of_omap, list_elem_of_singleton.
  assert (Hor : forall A A' B B' : Prop, (A <-> A') -> (B <-> B') -> (A \/ B <-> A' \/ B')) by tauto.
  apply Hor; [|apply Hor; [|done]].
  - split.
    + intros ([name p] & Hin & Hl). apply elem_of_range in Hin. cbn in Hl.
      destruct (DigestPinned p) eqn:Ep; [done|]. injection Hl as <-. by exists name, p.
    + intros (name & p & Hp & Hd & ->). exists (name, p). rewrite elem_of_range. cbn. by rewrite Hd.
  - destruct (DaemonConfig.Listen cfg) as [l|]; [destruct (IsWildcardHost l) eqn:E|];
      rewrite ?list_elem_of_singleton; (split; [intros Hl|intros (l' & [= <-] & Hw & ->)]); try done.
    + by exists l.
    + by apply not_elem_of_nil in Hl.
    + by rewrite E in Hw.
    + by apply not_elem_of_nil in Hl.
Qed.
End starting.

(** What a start leaves behind, on each of its ends. *)
Definition started `{Pki} `{MapRange Profile} (decodeYAML : string -> result Config) (dockerClient : result unit)
    (encodeAuth : string -> string -> result string) (configPath : string) (w0 : world)
    (r : result (Config * Backend * list (Listener * option tlsConfig))) (w : world) : Prop :=
  umask w = umask w0 /\ (exists l, logged w = (logged w0 ++ l)%list) /\
  match r with
  | Ok (cfg, backend, lns) =>
      (exists f c, contents w0 !! configPath = Some f /\ decodeYAML f = Ok c /\ Config_validate c = Ok cfg) /\
      connectWith dockerClient encodeAuth (pickAuth (range (Profiles cfg))) = Ok backend /\
      opened cfg w0 w lns /\ lns <> [] /\ logged w = (logged w0 ++ boot_log cfg)%list
  | Err _ =>
      no_trace w0 w \/
      exists f c, contents w0 !! configPath = Some f /\ decodeYAML f = Ok c /\
        is_abstract (Socket c) = true /\ undone (Socket c) w0 w
  end.

Lemma start_spec `{Pki} `{MapRange Profile} decodeYAML dockerClient encodeAuth configPath w0 :
  0 <= umask w0 <= 511 ->
  wp (fun _ _ _ => True) os_step (start decodeYAML dockerClient encodeAuth configPath)
    (started decodeYAML dockerClient encodeAuth configPath w0) w0.
Proof.
  intros Hm. assert (Hsame : forall l e, started decodeYAML dockerClient encodeAuth configPath w0 (Err e) (log_to w0 l)).
  { intros l e. split_and!; [done|by exists l|]. by left. }
  assert (Hself : forall e, started decodeYAML dockerClient encodeAuth configPath w0 (Err e) w0).
  { intros e. rewrite <- (log_to_nil w0) at 2. apply Hsame. }
  unfold start, Load. cbn [bind call wp]. split; [done|].
  intros [f|e] w [-> Hf]; [|by apply Hself]. destruct (decodeYAML f) as [c|e] eqn:Ed; [|by apply Hself].
  cbn [bind]. destruct (Config_validate c) as [cfg|e] eqn:Ev; [|by apply Hself].
  cbn [bind]. apply wp_bind, scanProfiles_spec. fold (pickAuth (range (Profiles cfg))).
  destruct (connectWith dockerClient encodeAuth _) as [backend|e] eqn:Eb; [|by apply Hsame].
  apply wp_bind. eapply wp_mono; [|by apply openListeners_spec].
  intros [lns|e] w (Hu & [l Hlog] & Ho); cbn [bind call wp].
  2: { split_and!; [done|cbn in Hlog; rewrite Hlog, <- app_assoc; by eexists|].
       unfold undone in Ho. rewrite (Config_validate_socket c cfg Ev) in Ho.
       destruct (is_abstract (Socket c)) eqn:Ea; [|by left]. right. exists f, c. unfold undone. by rewrite Ea. }
  destruct Ho as [Ho Hlog']. cbn in Hlog'. split; [done|]. intros [] w' ->. cbn [wp].
  assert (Hend : logged (log_to w [info_listening cfg]) = (logged w0 ++ boot_log cfg)%list).
  { cbn. rewrite Hlog'. unfold boot_log. by rewrite !app_assoc. }
  split_and!; [done|by exists (boot_log cfg)|by exists f, c|done|by destruct Ho; split| |done].
  intros ->. destruct Ho as [Hn _ _ _]. cbn in Hn.
  destruct (Config_validate_facts c cfg Ev) as ([Hso|Hli] & _).
  - destruct (String.eqb_spec (Socket cfg) ""); [done|]. by cbn in Hn.
  - destruct (DaemonConfig.Listen cfg); [|done]. by destruct (String.eqb (Socket cfg) "").
Qed.

(** ** A start *)

Definition demo_profile : Profile :=
  mkProfile "python:3.12" "" "" "" (f64_of_int 0) 0 0 0 4 0 0 0 0
    (Some (mkRegistryAuth "bot" "secret")).

Definition demo_config : Config :=
  mkConfig "/run/openbloxd.sock" "openblox" (Some demo_listen) 0 {[ "default" := demo_profile ]}.

Definition demo_decode (f : string) : result Config :=
  if String.eqb f "yaml" then Ok demo_config else Err enoent.

Definition start_world : world :=
  mkWorld (files boot_world) 18 0 (groups boot_world)
    (<["/etc/openbloxd/config.yaml" := "yaml"]> (contents demo_world)) [].

Example wildcard_hosts :
  map (fun a => IsWildcardHost (mkListenConfig a (mkTLSConfig "" "" "" [])))
    [":8443"; "0.0.0.0:8443"; "[::]:8443"; "[0:0::0]:8443"; "[::ffff:0.0.0.0]:8443"]
  = repeat true 5.
Proof. reflexivity. Qed.
Example narrow_hosts :
  map (fun a => IsWildcardHost (mkListenConfig a (mkTLSConfig "" "" "" [])))
    ["127.0.0.1:8443"; "[::1]:8443"; "localhost:8443"; "10.0.0.0:8443"] = repeat false 4.
Proof. reflexivity. Qed.
