(* ===== verification/OpenbloxdMain.v ===== *)
(** * cmd/openbloxd: the command

    [main] of main.go over the flags of its command line, up to serving. *)

From S2P Require Import Prelude GoErrors GoStrings GoFloat64 GoNet GoIp GoFlag GoOs GoTls Effects Sandbox GoHttp.
From S2P Require Import BrokerApi DaemonConfig DaemonServer DaemonListen DaemonTls DockerBackend DaemonStart.

(** ** [main] *)

Definition main_flags : flags :=
  {[ "config" := FString "/etc/openbloxd/config.yaml"; "version" := FBool false ]}.

(** How the process goes on: it exits, having printed something or not, or it
    serves. *)
Inductive fate : Type :=
  | Exit (code : Z) (printed : option string)
  | Serving (cfg : Config) (backend : Backend) (lns : list (Listener * option tlsConfig)).

Definition exiting (err : error) : slog_line :=
  mkSlog "ERROR" "openbloxd: exiting" [("error", SlogError err)].

Section main.
Context `{Pki} `{MapRange Profile}.
Variables (decodeYAML : string -> result Config) (dockerClient : result unit)
  (encodeAuth : string -> string -> result string) (version : string).

Definition main (args : list string) : prog osE fate :=
  match flag_Parse args main_flags with
  | FlagHelp => Ret (Exit 0 None)
  | FlagError => Ret (Exit 2 None)
  | Parsed values _ =>
      if flag_bool values "version" then Ret (Exit 0 (Some version))
      else
        r <- start decodeYAML dockerClient encodeAuth (flag_string values "config");;
        match r with
        | Err err => _ <- call (Slog (exiting err));; Ret (Exit 1 None)
        | Ok (cfg, backend, lns) => Ret (Serving cfg backend lns)
        end
  end.
End main.

(** ** How the process ends up *)

(** What the command line asks for. *)
Definition asks_to_serve (args : list string) (configPath : string) : Prop :=
  exists values rest, flag_Parse args main_flags = Parsed values rest /\
    flag_bool values "version" = false /\ flag_string values "config" = configPath.

(** The log warns of everything an operator cannot see in the file. *)
Definition warned (cfg : Config) (log : list slog_line) : Prop :=
  (forall name p, Profiles cfg !! name = Some p -> DigestPinned p = false -> warn_unpinned name p ∈ log) /\
  (forall l, DaemonConfig.Listen cfg = Some l -> IsWildcardHost l = true -> warn_wildcard l ∈ log).

(** C21. The command [openbloxd], for every command line, configuration file and
    file system.  Help and a malformed command line end it (with 0 and 2),
    [-version] prints the stamped version and ends it with 0, and none of the
    three touches the host or logs anything.  Otherwise it was asked to serve:
    it serves a configuration validation accepted, with the backend connected
    and exactly the configured listeners open, having logged the boot lines and
    nothing else: among them a warning for every profile whose image is not
    pinned to a digest and for an address that binds every interface; or it ends
    with 1, with the error as the last line it logs, having left no file behind
    and removed none but a stale socket.  A socket in the abstract namespace
    ("@name") passes validation; a start that fails with one leaves every file
    alone but perhaps one of that name. *)
Theorem main_serves_or_leaves_no_trace `{Pki} `{MapRange Profile}
    decodeYAML dockerClient encodeAuth version args w0 :
  0 <= umask w0 <= 511 ->
  wp (fun _ _ _ => True) os_step (main decodeYAML dockerClient encodeAuth version args)
    (fun f w =>
      match f with
      | Serving cfg backend lns =>
          exists path file c, asks_to_serve args path /\
            contents w0 !! path = Some file /\ decodeYAML file = Ok c /\ Config_validate c = Ok cfg /\
            connectWith dockerClient encodeAuth (pickAuth (range (Profiles cfg))) = Ok backend /\
            opened cfg w0 w lns /\ lns <> [] /\ umask w = umask w0 /\
            exists log, logged w = (logged w0 ++ log)%list /\ log = boot_log cfg /\ warned cfg log
      | Exit code printed =>
          (code = 0 /\ printed = None /\ w = w0 /\ flag_Parse args main_flags = FlagHelp) \/
          (code = 2 /\ printed = None /\ w = w0 /\ flag_Parse args main_flags = FlagError) \/
          (code = 0 /\ printed = Some version /\ w = w0 /\ exists values rest,
             flag_Parse args main_flags = Parsed values rest /\ flag_bool values "version" = true) \/
          (code = 1 /\ printed = None /\ umask w = umask w0 /\
             (exists log err, logged w = (logged w0 ++ log ++ [exiting err])%list) /\
             exists path, asks_to_serve args path /\
               (no_trace w0 w \/
                exists file c, contents w0 !! path = Some file /\ decodeYAML file = Ok c /\
                  is_abstract (Socket c) = true /\
                  forall p, p <> Socket c -> files w !! p = files w0 !! p))
      end) w0.
Proof.
  intros Hm. unfold main. destruct (flag_Parse args main_flags) as [values rest| |] eqn:Ef.
  2: { by left. }
  2: { by right; left. }
  destruct (flag_bool values "version") eqn:Ev.
  { right; right; left. split_and!; try done. by exists values, rest. }
  assert (Ha : asks_to_serve args (flag_string values "config")) by by exists values, rest.
  apply wp_bind. eapply wp_mono; [|by apply start_spec].
  intros [[[cfg backend] lns]|e] w (Hu & [l Hl] & Hs); cbn [wp bind call].
  - destruct Hs as ((f & c & Hf & Hd & Hv) & Hb & Ho & Hne & Hlog).
    exists (flag_string values "config"), f, c. split_and!; try done. exists (boot_log cfg).
    split_and!; [done|done|]. split.
    + intros name p Hp Hdp. apply boot_log_complete. left. by exists name, p.
    + intros li Hli Hw. apply boot_log_complete. right; left. by exists li.
  - split; [done|]. intros [] w' Hw'. cbn in Hw'. subst w'. right; right; right. split_and!; [done|done|done| |].
    + exists l, e. unfold log_to. cbn [logged]. by rewrite Hl, <- app_assoc.
    + exists (flag_string values "config"). split; [done|]. destruct Hs as [Hn|(f & c & Hf & Hd & Hab & Hun)].
      * by left.
      * right. exists f, c. unfold undone in Hun. rewrite Hab in Hun. by split_and!.
Qed.

#[local] Existing Instance demo_pki.
#[local] Instance demo_range : MapRange Profile := map_range_default Profile.

Lemma main_serves_or_leaves_no_trace_witness :
  exists cfg backend lns w,
    run os_run (main demo_decode (Ok tt) (fun u p => Ok (u ++ ":" ++ p)) "v1.2.0"
      ["-config=/etc/openbloxd/config.yaml"]) start_world = (Serving cfg backend lns, w) /\
    registryAuth backend = "bot:secret" /\ length lns = 2%nat /\
    opened cfg start_world w lns /\ warn_unpinned "default" demo_profile ∈ logged w.
Proof.
  destruct (run os_run (main demo_decode (Ok tt) (fun u p => Ok (u ++ ":" ++ p)) "v1.2.0"
    ["-config=/etc/openbloxd/config.yaml"]) start_world) as [[code out|cfg backend lns] w] eqn:E;
    [vm_compute in E; discriminate|].
  pose proof (wp_run_refines _ _ _ os_run_step _ _ _
    (main_serves_or_leaves_no_trace demo_decode (Ok tt) (fun u p => Ok (u ++ ":" ++ p)) "v1.2.0"
       ["-config=/etc/openbloxd/config.yaml"] start_world ltac:(vm_compute; split; discriminate))) as Hw.
  rewrite E in Hw.
  destruct Hw as (path & file & c & _ & _ & _ & _ & _ & Ho & _ & _ & log & Hlog & _ & Hwarn).
  exists cfg, backend, lns, w. split; [reflexivity|].
  assert (Hin : warn_unpinned "default" demo_profile ∈ logged w).
  { rewrite Hlog. apply elem_of_app. right. apply (proj1 Hwarn).
    - vm_compute in E. injection E as <- _ _ _. reflexivity.
    - reflexivity. }
  vm_compute in E. injection E as E1 E2 E3 E4. subst backend lns.
  split; [reflexivity|]. split; [reflexivity|]. split; [exact Ho|exact Hin].
Defined.

(** A start that fails exits with 1, and so does one with an abstract socket,
    which has no file to set a mode on. *)
Example missing_config :
  fst (run os_run (main demo_decode (Ok tt) (fun u p => Ok (u ++ ":" ++ p)) "v1.2.0" ["--config"; "/nope"])
    start_world) = Exit 1 None.
Proof. vm_compute. reflexivity. Qed.
Example abstract_socket :
  let decode f := match demo_decode f with
    | Ok cfg => Ok (mkConfig "@openbloxd" "" None 0 (Profiles cfg))
    | Err e => Err e
    end in
  let r := run os_run (main decode (Ok tt) (fun u p => Ok (u ++ ":" ++ p)) "v1.2.0"
    ["-config=/etc/openbloxd/config.yaml"]) start_world in
  fst r = Exit 1 None /\ files (snd r) = files start_world.
Proof. vm_compute. done. Qed.
