(* ===== verification/DaemonServe.v ===== *)
(** * cmd/openbloxd: serving until a signal or a failure

    [serve] of [main.go] as a system of goroutines: one [Serve] per listener,
    the channel they report to, the signal context and [serve] itself, each
    step one operation of one of them.  [http.Server] is the standard
    library's: a [Serve] registers its listener with the server, unless that is
    closed already, and runs until the listener fails or the server is closed;
    it answers [ErrServerClosed] exactly when the server is closed, and closes
    its listener before it returns.  Closing the server closes the listeners
    registered with it. *)

From S2P Require Import Prelude Goroutines GoErrors GoOs.

(** A goroutine [go func() { serveErr <- httpSrv.Serve(ln) }()]. *)
Inductive server : Type :=
  | Starting                      (** not scheduled yet: the listener is not registered *)
  | Serving
  | Returned (err : error)        (** [Serve] has returned, not yet sent *)
  | Sent.

#[global] Instance serving_dec (v : server) : Decision (v = Serving).
Proof. destruct v; [by right|by left|by right|by right]. Defined.

(** Where [serve] is: in the select, inside [Shutdown], receiving the [n]
    errors still to come with the first failure so far, returned. *)
Inductive progress : Type :=
  | Selecting
  | ShuttingDown
  | Draining (n : nat) (firstErr : option error)
  | Done (r : option error).

Record state : Type := mkState {
  servers : list server;
  sent : list error;              (** everything sent on the channel, in order *)
  received : nat;                 (** how much of it has been received *)
  cancelled : bool;               (** [ctx] is done *)
  closed : bool;                  (** [Close] or [Shutdown] was called *)
  main : progress;
  host : world
}.

Section serve.
Variable lns : list Listener.

(** The channel has room for one error per listener. *)
Definition capacity : nat := length lns.

Definition queued (s : state) : list error := drop (received s) (sent s).

Definition serveFailed (err : error) : error := Errorf "serve: %w" [AWrap err].

(** The result on a [Serve] that ended by itself. *)
Definition onServeErr (err : error) : option error :=
  if negb (Is err ErrServerClosed) then Some (serveFailed err) else None.

(** One turn of the draining loop. *)
Definition onDrain (err : error) (firstErr : option error) : option error :=
  match firstErr with
  | None => if negb (Is err ErrServerClosed) then Some (serveFailed err) else None
  | Some _ => firstErr
  end.

(** Both [Close] and [Shutdown] first close every registered listener. *)
Definition closeListeners (s : state) : world :=
  fold_left (fun w lv => match snd lv with Serving => close_listener w (fst lv) | _ => w end)
    (zip lns (servers s)) (host s).

Definition set_server (s : state) (i : nat) (v : server) : state :=
  mkState (<[i := v]> (servers s)) (sent s) (received s) (cancelled s) (closed s) (main s) (host s).
Definition set_main (s : state) (m : progress) : state :=
  mkState (servers s) (sent s) (received s) (cancelled s) (closed s) m (host s).
Definition receive (s : state) : state :=
  mkState (servers s) (sent s) (S (received s)) (cancelled s) (closed s) (main s) (host s).
Definition send (s : state) (i : nat) (err : error) : state :=
  mkState (<[i := Sent]> (servers s)) (sent s ++ [err]) (received s) (cancelled s) (closed s) (main s)
    (host s).
Definition close (s : state) : state :=
  mkState (servers s) (sent s) (received s) (cancelled s) true (main s) (closeListeners s).
(** [Serve] on [ln] returns: the listener is closed. *)
Definition returns (s : state) (i : nat) (ln : Listener) (err : error) : state :=
  mkState (<[i := Returned err]> (servers s)) (sent s) (received s) (cancelled s) (closed s) (main s)
    (close_listener (host s) ln).

(** What the program does once it can. *)
Inductive step : state -> state -> Prop :=
  | serve_track s i :
      servers s !! i = Some Starting -> closed s = false -> step s (set_server s i Serving)
  | serve_late s i ln :
      servers s !! i = Some Starting -> closed s = true -> lns !! i = Some ln ->
      step s (returns s i ln (Sentinel ErrServerClosed))
  | serve_closed s i :
      servers s !! i = Some Serving -> closed s = true ->
      step s (set_server s i (Returned (Sentinel ErrServerClosed)))
  | serve_send s i err :
      servers s !! i = Some (Returned err) -> (length (queued s) < capacity)%nat ->
      step s (send s i err)
  | select_err s err rest :
      main s = Selecting -> queued s = err :: rest ->
      step s (set_main (close (receive s)) (Done (onServeErr err)))
  | select_done s :
      main s = Selecting -> cancelled s = true -> step s (set_main (close s) ShuttingDown)
  | shutdown_returns s :
      main s = ShuttingDown -> step s (set_main s (Draining (length lns) None))
  | drain_recv s n firstErr err rest :
      main s = Draining (S n) firstErr -> queued s = err :: rest ->
      step s (set_main (receive s) (Draining n (onDrain err firstErr)))
  | drain_end s firstErr :
      main s = Draining 0 firstErr -> step s (set_main s (Done firstErr)).

(** What happens to it: a signal arrives, a listener fails. *)
Inductive event : state -> state -> Prop :=
  | signal s :
      cancelled s = false ->
      event s (mkState (servers s) (sent s) (received s) true (closed s) (main s) (host s))
  | serve_fails s i ln err :
      servers s !! i = Some Serving -> closed s = false -> lns !! i = Some ln ->
      Is err ErrServerClosed = false -> event s (returns s i ln err).

Definition any_step (s s' : state) : Prop := step s s' \/ event s s'.

Definition initial (w : world) : state :=
  mkState (map (fun _ => Starting) lns) [] 0 false false Selecting w.

(** ** Invariant *)

Definition is_sent (v : server) : bool := match v with Sent => true | _ => false end.

(** The number of goroutines that have sent. *)
Definition sends (l : list server) : nat := length (filter (fun v => is_sent v = true) l).
#[local] Arguments sends : simpl never.

Definition failure (err : error) : Prop := Is err ErrServerClosed = false.

Definition fails_so_far (l : list error) : option error :=
  serveFailed <$> head (filter (fun e => Is e ErrServerClosed = false) l).

(** The listener of a goroutine in the state [v] is closed. *)
Definition is_closed (c : bool) (v : server) : bool :=
  match v with Starting => false | Serving => c | Returned _ | Sent => true end.

(** The sockets of closed listeners are unlinked. *)
Definition unlinked (vs : list server) (c : bool) (w : world) : Prop :=
  forall i path v, lns !! i = Some (UnixListener path) -> is_abstract path = false ->
    vs !! i = Some v -> is_closed c v = true -> files w !! path = None.

Record Inv (s : state) : Prop := {
  inv_len : length (servers s) = length lns;
  inv_sent : length (sent s) = sends (servers s);
  inv_received : (received s <= length (sent s))%nat;
  inv_open : closed s = false -> main s = Selecting /\
    (forall err, err ∈ sent s -> failure err) /\
    (forall i err, servers s !! i = Some (Returned err) -> failure err);
  inv_main : match main s with
    | Selecting => closed s = false /\ received s = 0%nat
    | ShuttingDown => closed s = true /\ received s = 0%nat
    | Draining n f => closed s = true /\ (received s + n = length lns)%nat /\
        f = fails_so_far (take (received s) (sent s))
    | Done r => closed s = true /\ r = fails_so_far (sent s) /\
        (r = None -> length (sent s) = length lns)
    end;
  inv_host : unlinked (servers s) (closed s) (host s)
}.

Lemma sends_insert l i v v' :
  l !! i = Some v ->
  (sends (<[i := v']> l) + (if is_sent v then 1 else 0)
   = sends l + (if is_sent v' then 1 else 0))%nat.
Proof.
  intros Hi. rewrite <- (take_drop_middle l i v Hi) at 2.
  rewrite insert_take_drop by by eapply lookup_lt_Some.
  unfold sends. rewrite !filter_app, !length_app, !filter_cons.
  destruct v, v'; cbn; repeat case_decide; cbn; try done; lia.
Qed.

Lemma sends_le l : (sends l <= length l)%nat.
Proof. unfold sends. apply length_filter. Qed.

Lemma sends_unsent l i v :
  l !! i = Some v -> is_sent v = false -> (sends l < length l)%nat.
Proof.
  intros Hi Hv. pose proof (sends_insert l i v Sent Hi) as Hs. rewrite Hv in Hs. cbn in Hs.
  pose proof (sends_le (<[i := Sent]> l)) as Hl. rewrite length_insert in Hl. lia.
Qed.

(** A goroutine that has not sent, while some are missing. *)
Lemma sends_missing l :
  (sends l < length l)%nat -> exists i v, l !! i = Some v /\ is_sent v = false.
Proof.
  unfold sends. induction l as [|v l IH]; cbn [length]; [lia|]. rewrite filter_cons.
  destruct (is_sent v) eqn:Ev; case_decide; try done; cbn [length]; intros Hl.
  - destruct IH as (i & v' & Hi & Hv'); [lia|]. by exists (S i), v'.
  - by exists 0%nat, v.
Qed.

Lemma fails_so_far_app l e : fails_so_far (l ++ [e]) = onDrain e (fails_so_far l).
Proof.
  unfold fails_so_far, onDrain. rewrite filter_app, filter_cons, filter_nil.
  destruct (filter _ l) as [|e' l'] eqn:E; cbn [app head fmap option_fmap option_map].
  - destruct (Is e ErrServerClosed); case_decide; done.
  - done.
Qed.

Lemma take_received s e : (received s <= length (sent s))%nat ->
  take (received s) (sent s ++ [e]) = take (received s) (sent s).
Proof. intros Hr. rewrite take_app_le by done. done. Qed.

Lemma queued_cons s err rest :
  queued s = err :: rest ->
  (received s < length (sent s))%nat /\ take (S (received s)) (sent s) = take (received s) (sent s) ++ [err].
Proof.
  unfold queued. intros Hq. assert (Hl : sent s !! received s = Some err).
  { rewrite <- (Nat.add_0_r (received s)), <- lookup_drop, Hq. done. }
  split; [by eapply lookup_lt_Some|]. by apply take_S_r.
Qed.

Lemma close_listener_keeps w ln path :
  files w !! path = None -> files (close_listener w ln) !! path = None.
Proof.
  intros Hw. destruct ln as [p|]; cbn; [|done]. destruct (is_abstract p); [done|]. cbn.
  destruct (decide (p = path)) as [->|]; [apply lookup_delete_eq|by rewrite lookup_delete_ne].
Qed.

Lemma close_listener_gone w path :
  is_abstract path = false -> files (close_listener w (UnixListener path)) !! path = None.
Proof. intros Ha. cbn. rewrite Ha. apply lookup_delete_eq. Qed.

Lemma closing_gone (l : list (Listener * server)) w path :
  let close_one w lv := match snd lv with Serving => close_listener w (fst lv) | _ => w end in
  is_abstract path = false -> files w !! path = None \/ (UnixListener path, Serving) ∈ l ->
  files (fold_left close_one l w) !! path = None.
Proof.
  intros close_one Ha. revert w; induction l as [|[ln v] l IH]; intros w Hw; cbn [fold_left].
  { destruct Hw as [?|Hw]; [done|]. by apply not_elem_of_nil in Hw. }
  apply IH. destruct Hw as [Hw|[[= <- <-]|Hw]%elem_of_cons]; [left|left|by right].
  - unfold close_one. cbn. destruct v; try done. by apply close_listener_keeps.
  - by apply close_listener_gone.
Qed.

Lemma unlinked_close s : unlinked (servers s) (closed s) (host s) -> unlinked (servers s) true (closeListeners s).
Proof.
  intros Hu i path v Hl Ha Hv Hc. apply closing_gone; [done|].
  destruct v; cbn in Hc; [done| | |].
  - right. apply list_elem_of_lookup. exists i. by rewrite lookup_zip_with, Hl, Hv.
  - left. by eapply Hu.
  - left. by eapply Hu.
Qed.

(** A goroutine moves on, its listener closed or not more closed than before. *)
Lemma unlinked_move vs c w w' i v v' :
  unlinked vs c w -> vs !! i = Some v ->
  (forall path, files w !! path = None -> files w' !! path = None) ->
  (is_closed c v' = true -> is_closed c v = true \/
     forall path, lns !! i = Some (UnixListener path) -> is_abstract path = false -> files w' !! path = None) ->
  unlinked (<[i := v']> vs) c w'.
Proof.
  intros Hu Hi Hk Hc j path u Hl Ha Hj Hcl. destruct (decide (j = i)) as [->|Hne].
  - rewrite list_lookup_insert_eq in Hj by by eapply lookup_lt_Some. injection Hj as <-.
    destruct (Hc Hcl) as [Hcv|Hg]; [by eapply Hk, Hu|by apply Hg].
  - rewrite list_lookup_insert_ne in Hj by done. by eapply Hk, Hu.
Qed.

Lemma serve_Inv_initial w : Inv (initial w).
Proof.
  assert (Hall : forall (l : list Listener) i v, map (fun _ => Starting) l !! i = Some v -> v = Starting).
  { intros l i v Hi. by apply list_lookup_fmap_Some in Hi as (x & -> & _). }
  split; cbn; try done.
  - apply length_map.
  - unfold sends. clear. by induction lns.
  - intros _. split_and!; [done|set_solver|]. intros i err Hi. by apply Hall in Hi.
  - intros i path v _ _ Hv. apply Hall in Hv as ->. done.
Qed.

(** A goroutine of the group moves on, without sending. *)
Lemma Inv_move s i v v' w' :
  Inv s -> servers s !! i = Some v -> is_sent v = false -> is_sent v' = false ->
  (forall err, v' = Returned err -> closed s = false -> failure err) ->
  unlinked (<[i := v']> (servers s)) (closed s) w' ->
  Inv (mkState (<[i := v']> (servers s)) (sent s) (received s) (cancelled s) (closed s) (main s) w').
Proof.
  intros [H1 H2 H3 H4 H5 H6] Hi Hv Hv' Hf Hu. split; cbn; try done.
  - by rewrite length_insert.
  - pose proof (sends_insert (servers s) i v v' Hi) as Hs. rewrite Hv, Hv' in Hs. lia.
  - intros Hc. destruct (H4 Hc) as (Hm & Hs & Hr). split_and!; [done|done|]. intros j err'.
    destruct (decide (j = i)) as [->|Hne]; [|rewrite list_lookup_insert_ne by done; apply Hr].
    rewrite list_lookup_insert_eq by by eapply lookup_lt_Some. intros [= ->]. by apply Hf.
Qed.

Lemma Inv_returns s i ln v err :
  Inv s -> servers s !! i = Some v -> is_sent v = false -> lns !! i = Some ln ->
  (closed s = false -> failure err) -> Inv (returns s i ln err).
Proof.
  intros HI Hi Hv Hln Hf. eapply Inv_move; [done|exact Hi|done|done|by intros ? [= <-]|].
  eapply unlinked_move; [apply HI|exact Hi|intros path; apply close_listener_keeps|].
  intros _. right. intros path Hp Ha. rewrite Hln in Hp. injection Hp as ->. by apply close_listener_gone.
Qed.

Lemma Inv_send s i err :
  Inv s -> servers s !! i = Some (Returned err) -> Inv (send s i err).
Proof.
  intros [H1 H2 H3 H4 H5 H6] Hi.
  pose proof (sends_insert (servers s) i (Returned err) Sent Hi) as Hse. cbn in Hse.
  split; cbn; try done.
  - by rewrite length_insert.
  - rewrite length_app. cbn. lia.
  - rewrite length_app. lia.
  - intros Hc. destruct (H4 Hc) as (Hm & Hs & Hr). split_and!; [done| |].
    + intros e [He|He]%elem_of_app; [by apply Hs|]. apply list_elem_of_singleton in He as ->. by eapply Hr.
    + intros j e. destruct (decide (j = i)) as [->|Hne]; [|rewrite list_lookup_insert_ne by done; apply Hr].
      by rewrite list_lookup_insert_eq by by eapply lookup_lt_Some.
  - destruct (main s) as [| |n f|r]; try done.
    + by rewrite take_received.
    + destruct H5 as (Hc & Hr & Hn). rewrite fails_so_far_app, <- Hr. split_and!; [done| |].
      * destruct r; [done|]. exfalso. specialize (Hn eq_refl).
        pose proof (sends_unsent _ _ _ Hi eq_refl). lia.
      * intros ->. exfalso. specialize (Hn eq_refl).
        pose proof (sends_unsent _ _ _ Hi eq_refl). lia.
  - eapply unlinked_move; [done|exact Hi|done|by left].
Qed.

Lemma serve_Inv_step s s' : Inv s -> step s s' -> Inv s'.
Proof.
  intros HI Hst. destruct Hst as [s i Hi Hc|s i ln Hi Hc Hln|s i Hi Hc|s i err Hi Hcap|s err rest Hm Hq|s Hm Hc|s Hm
    |s n f err rest Hm Hq|s f Hm].
  - eapply Inv_move; [done|exact Hi|done..|]. eapply unlinked_move; [apply HI|exact Hi|done|]. cbn. by rewrite Hc.
  - eapply Inv_returns; [done|exact Hi|done|done|by rewrite Hc].
  - eapply Inv_move; [done|exact Hi|done|done|by rewrite Hc|].
    eapply unlinked_move; [apply HI|exact Hi|done|]. cbn. by rewrite Hc; left.
  - by apply Inv_send.
  - destruct HI as [H1 H2 H3 H4 H5 H6]. apply queued_cons in Hq as [Hlt Htk]. rewrite Hm in H5.
    destruct H5 as [Hc Hr]. destruct (H4 Hc) as (_ & Hs & _). rewrite Hr in Hlt, Htk.
    destruct (sent s) as [|e l] eqn:Es; [by cbn in Hlt|]. injection Htk as ->.
    assert (He : Is err ErrServerClosed = false) by (apply Hs; left).
    split; cbn; rewrite ?Es, ?Hr; cbn; try done.
    + unfold onServeErr, fails_so_far. rewrite He, filter_cons. by case_decide.
    + by apply (unlinked_close s).
  - destruct HI as [H1 H2 H3 H4 H5 H6]. rewrite Hm in H5. split; cbn; try done; [by destruct H5|].
    by apply unlinked_close.
  - destruct HI as [H1 H2 H3 H4 H5 H6]. rewrite Hm in H5. destruct H5 as [Hc Hr].
    split; cbn; try done; [by rewrite Hc|]. rewrite Hr. by split_and!.
  - destruct HI as [H1 H2 H3 H4 H5 H6]. rewrite Hm in H5. apply queued_cons in Hq as [Hlt Htk].
    destruct H5 as (Hc & Hr & Hf). split; cbn [servers sent received closed main host receive set_main];
      try done; [by rewrite Hc|]. rewrite Htk, fails_so_far_app, <- Hf. split_and!; [done|lia|done].
  - destruct HI as [H1 H2 H3 H4 H5 H6]. rewrite Hm in H5. destruct H5 as (Hc & Hr & Hf).
    assert (Hall : received s = length (sent s)).
    { pose proof (sends_le (servers s)). lia. }
    split; cbn; try done; [by rewrite Hc|]. rewrite Hf, Hall, firstn_all. split_and!; [done..|]. lia.
Qed.

Lemma serve_Inv_any s s' : Inv s -> any_step s s' -> Inv s'.
Proof.
  intros HI [Hs|He]; [by eapply serve_Inv_step|]. destruct He as [s Hc|s i ln err Hi Hc Hln Hf].
  - destruct HI. by split.
  - by eapply Inv_returns.
Qed.

(** ** Progress *)

(** Nothing has happened: every [Serve] is running and no signal has come. *)
Definition waiting (s : state) : Prop :=
  main s = Selecting /\ cancelled s = false /\ sent s = [] /\ Forall (fun v => v = Serving) (servers s).

Definition finished (s : state) : Prop :=
  (exists r, main s = Done r) /\ Forall (fun v => v = Sent) (servers s).

Definition weight (v : server) : nat :=
  match v with Starting => 3 | Serving => 2 | Returned _ => 1 | Sent => 0 end.

Definition measure (s : state) : nat :=
  sum_list_with weight (servers s) +
  match main s with
  | Selecting => length lns + 3
  | ShuttingDown => length lns + 2
  | Draining n _ => n + 1
  | Done _ => 0
  end.

Lemma weight_insert l i v v' :
  l !! i = Some v -> (weight v' < weight v)%nat ->
  (sum_list_with weight (<[i := v']> l) < sum_list_with weight l)%nat.
Proof.
  intros Hi Hw. rewrite <- (take_drop_middle l i v Hi) at 2.
  rewrite insert_take_drop by by eapply lookup_lt_Some. rewrite !sum_list_with_app. cbn. lia.
Qed.

Lemma serve_step_measure s s' : step s s' -> (measure s' < measure s)%nat.
Proof.
  intros Hst. unfold measure. destruct Hst as [s i Hi Hc|s i ln Hi Hc Hln|s i Hi Hc|s i err Hi Hcap
    |s err rest Hm Hq|s Hm Hc|s Hm|s n f err rest Hm Hq|s f Hm];
    cbn [servers main set_server send set_main close receive returns]; rewrite ?Hm; try lia.
  - pose proof (weight_insert _ _ _ Serving Hi). cbn in *. lia.
  - pose proof (weight_insert _ _ _ (Returned (Sentinel ErrServerClosed)) Hi). cbn in *. lia.
  - pose proof (weight_insert _ _ _ (Returned (Sentinel ErrServerClosed)) Hi). cbn in *. lia.
  - pose proof (weight_insert _ _ _ Sent Hi). cbn in *. lia.
Qed.

(** A goroutine that has not sent can move, unless it is serving. *)
Lemma unsent_moves s i v :
  Inv s -> servers s !! i = Some v -> is_sent v = false -> v <> Serving \/ closed s = true ->
  red step s.
Proof.
  intros [H1 H2 H3 H4 H5 H6] Hi Hv Hc. destruct v as [| |err|]; [| | |done].
  - destruct (closed s) eqn:Ec; [|eexists; by apply (serve_track s i)].
    destruct (lookup_lt_is_Some_2 lns i) as [ln Hln]; [rewrite <- H1; by eapply lookup_lt_Some|].
    eexists. by apply (serve_late s i ln).
  - destruct Hc as [?|Hc]; [done|]. eexists. by apply (serve_closed s i).
  - exists (send s i err). apply serve_send; [done|]. unfold capacity, queued. rewrite length_drop.
    pose proof (sends_unsent _ _ _ Hi eq_refl). lia.
Qed.

Lemma serve_never_stuck s : Inv s -> red step s \/ waiting s \/ finished s.
Proof.
  intros HI. pose proof HI as [H1 H2 H3 H4 H5 H6].
  assert (Hmiss : (sends (servers s) < length lns)%nat -> closed s = true -> red step s).
  { intros Hlt Hc. rewrite <- H1 in Hlt. apply sends_missing in Hlt as (i & v & Hi & Hv).
    by eapply unsent_moves; eauto. }
  destruct (main s) as [| |[|n] f|r] eqn:Em.
  - destruct (queued s) as [|err rest] eqn:Eq; [|left; eexists; by eapply select_err].
    destruct (cancelled s) eqn:Ec; [left; eexists; by apply select_done|].
    destruct (decide (Forall (fun v => v = Serving) (servers s))) as [Hall|Hno].
    + right. left. destruct H5 as [_ Hr]. unfold queued in Eq. rewrite Hr in Eq. by split_and!.
    + left. apply not_Forall_Exists, Exists_exists in Hno as (v & [i Hi]%list_elem_of_lookup & Hne); [|apply _].
      destruct (is_sent v) eqn:Ev; [|eapply unsent_moves; eauto].
      destruct v; try done. exfalso. destruct H5 as [_ Hr]. unfold queued in Eq. rewrite Hr in Eq.
      rewrite drop_0 in Eq. rewrite Eq in H2. cbn in H2.
      pose proof (sends_insert (servers s) i Sent Serving Hi). cbn in *. lia.
  - left. eexists. by apply shutdown_returns.
  - left. eexists. by apply drain_end.
  - destruct (queued s) as [|err rest] eqn:Eq; [|left; eexists; by eapply drain_recv].
    left. destruct H5 as (Hc & Hr & _). apply Hmiss; [|done]. apply length_zero_iff_nil in Eq.
    unfold queued in Eq. rewrite length_drop in Eq. lia.
  - destruct (decide (sends (servers s) = length lns)) as [Hall|Hno].
    + right. right. split; [by exists r|]. apply Forall_forall. intros v [i Hi]%list_elem_of_lookup.
      destruct v as [| |err|]; [| | |done]; exfalso; pose proof (sends_unsent _ _ _ Hi eq_refl); lia.
    + left. apply Hmiss; [|by destruct H5]. pose proof (sends_le (servers s)). lia.
Qed.

(** [serve] waits for ever only if it comes to that: every goroutine gets to
    serve, and nothing else happens. *)
Lemma rtc_to_waiting s s' : rtc step s s' -> waiting s' -> main s = Selecting /\ cancelled s = false /\ sent s = [].
Proof.
  intros Hr Hw. revert Hw. induction Hr as [s|s s1 s2 Hst Hr IH]; intros Hw; [by destruct Hw as (? & ? & ? & _)|].
  destruct (IH Hw) as (Hm & Hc & Hs). destruct Hst; cbn in *; try done; try congruence; try by destruct (sent s).
Qed.

Lemma all_sent_unlinked s path :
  Inv s -> length (sent s) = length lns -> UnixListener path ∈ lns -> is_abstract path = false ->
  files (host s) !! path = None.
Proof.
  intros [H1 H2 H3 H4 H5 H6] Hall [i Hi]%list_elem_of_lookup Ha.
  destruct (lookup_lt_is_Some_2 (servers s) i) as [v Hv]; [rewrite H1; by eapply lookup_lt_Some|].
  eapply H6; [done..|]. destruct (is_sent v) eqn:Es; [by destruct v|].
  exfalso. pose proof (sends_unsent _ _ _ Hv Es). lia.
Qed.
End serve.

(** C13. [serve] always ends, and with the right answer.  From every state it can
    reach, whatever listeners fail, whenever the signal comes and however late a
    goroutine is scheduled: the goroutines cannot run on forever; they are never
    stuck, but can move, or are all done, with [serve] returned and nobody left
    blocked on the channel, or are all serving with no signal received and no
    failure, which is so only if it was so all along; so once a signal has come
    or any [Serve] has failed, [serve] returns.  What it returns is the first
    failure reported, and nil exactly when there was none.  When it returns, the
    socket of every listener whose goroutine got as far as [Serve] is unlinked;
    when it returns nil, or has waited for every goroutine (as it does after a
    signal), every socket is. *)
Theorem serve_ends lns w s :
  rtc (any_step lns) (initial lns w) s ->
  sn (step lns) s /\
  (forall s', rtc (step lns) s s' ->
     red (step lns) s' \/ finished s' \/
     (waiting s' /\ main s = Selecting /\ cancelled s = false /\ sent s = [])) /\
  (forall r, main s = Done r ->
     r = serveFailed <$> head (filter (fun e => Is e ErrServerClosed = false) (sent s)) /\
     (r = None -> length (sent s) = length lns /\ Forall (fun e => Is e ErrServerClosed = true) (sent s)) /\
     (forall i path, lns !! i = Some (UnixListener path) -> is_abstract path = false ->
        servers s !! i <> Some Starting -> files (host s) !! path = None) /\
     (r = None \/ received s = length lns ->
        forall path, UnixListener path ∈ lns -> is_abstract path = false -> files (host s) !! path = None)).
Proof.
  intros Hr. assert (HI : Inv lns s).
  { eapply rtc_preserves; [apply serve_Inv_any|apply serve_Inv_initial|exact Hr]. }
  split_and!.
  - apply (sn_measure _ (fun _ => True) (measure lns)); [|done]. intros x y _ Hs.
    split; [done|by apply serve_step_measure].
  - intros s' Hs'. assert (HI' : Inv lns s') by (eapply rtc_preserves; eauto using serve_Inv_step).
    destruct (serve_never_stuck lns s' HI') as [?|[Hw|?]]; [by left| |by right; left].
    right; right. split; [done|]. by eapply rtc_to_waiting.
  - intros r Hm. pose proof HI as [H1 H2 H3 _ H5 H6]. rewrite Hm in H5. destruct H5 as (Hc & Hrr & Hn).
    split_and!; [done| | |].
    + intros ->. split; [by apply Hn|].
      apply Forall_forall. intros e He. destruct (Is e ErrServerClosed) eqn:Ee; [done|].
      assert (Hin : e ∈ filter (fun e => Is e ErrServerClosed = false) (sent s))
        by by apply list_elem_of_filter.
      unfold fails_so_far in Hrr. destruct (filter _ (sent s)); [by apply not_elem_of_nil in Hin|done].
    + intros i path Hi Ha Hst.
      destruct (lookup_lt_is_Some_2 (servers s) i) as [v Hv]; [rewrite H1; by eapply lookup_lt_Some|].
      eapply H6; [done..|]. rewrite Hc. by destruct v.
    + intros Hall path Hp Ha. eapply (all_sent_unlinked lns s); [done| |done|done].
      destruct Hall as [->|Hrec]; [by apply Hn|]. pose proof (sends_le (servers s)). lia.
Qed.

(** A daemon with a socket and a network listener. *)
Definition two_listeners : list Listener := [UnixListener "/run/x.sock"; TCPListener "10.0.0.5:8443"].
Definition two_host : world := mkWorld {[ "/run/x.sock" := mkNode Socket_ 432 0 ]} 18 0 ∅ ∅ [].
Definition accept_error : error := External ExtOther "accept: too many open files".

(** The network listener fails, with no signal. *)
Lemma serve_ends_witness :
  exists s, rtc (any_step two_listeners) (initial two_listeners two_host) s /\
    main s = Done (Some (serveFailed accept_error)) /\ closed s = true /\
    files (host s) !! "/run/x.sock" = None.
Proof.
  assert (Hr : exists s, rtc (any_step two_listeners) (initial two_listeners two_host) s /\
    main s = Done (Some (serveFailed accept_error)) /\ closed s = true /\ servers s !! 0%nat = Some Serving).
  { eexists. split.
    - eapply rtc_l; [left; apply (serve_track _ _ 0); reflexivity|].
      eapply rtc_l; [left; apply (serve_track _ _ 1); reflexivity|].
      eapply rtc_l; [right; eapply (serve_fails _ _ 1 _ accept_error); reflexivity|].
      eapply rtc_l; [left; apply (serve_send two_listeners _ 1 accept_error); [reflexivity|cbn; lia]|].
      eapply rtc_l; [left; eapply (select_err two_listeners _ accept_error); reflexivity|].
      apply rtc_refl.
    - split_and!; reflexivity. }
  destruct Hr as (s & Hr & Hm & Hc & Hs). exists s. split; [exact Hr|]. split; [exact Hm|]. split; [exact Hc|].
  pose proof (proj2 (proj2 (serve_ends two_listeners _ _ Hr)) _ Hm) as (_ & _ & Hf & _).
  apply (Hf 0%nat); [reflexivity|reflexivity|]. rewrite Hs. discriminate.
Defined.

(** The socket of a goroutine that was not scheduled before another [Serve]
    failed is still there when [serve] returns, and the process exits. *)
Theorem socket_left_behind :
  exists s, rtc (any_step two_listeners) (initial two_listeners two_host) s /\
    main s = Done (Some (serveFailed accept_error)) /\
    files (host s) !! "/run/x.sock" = Some (mkNode Socket_ 432 0).
Proof.
  eexists. split.
  - eapply rtc_l; [left; apply (serve_track _ _ 1); reflexivity|].
    eapply rtc_l; [right; eapply (serve_fails _ _ 1 _ accept_error); reflexivity|].
    eapply rtc_l; [left; apply (serve_send two_listeners _ 1 accept_error); [reflexivity|cbn; lia]|].
    eapply rtc_l; [left; eapply (select_err two_listeners _ accept_error); reflexivity|].
    apply rtc_refl.
  - split; reflexivity.
Qed.
