(* ===== verification/DaemonReap.v ===== *)
(** * internal/daemon/reap.go: enforcing lifetimes for the life of the process

    [RunReaper], and what it achieves together with the sweep of
    [pkg/docker/reap.go] on an engine that lists what it holds. *)

From S2P Require Import Prelude GoErrors GoStrings GoFloat64 GoDuration GoTime Effects Sandbox.
From S2P Require Import DaemonConfig DockerApi DockerBackend DockerLifecycle DockerExec DockerReap.

(** ** The loop *)

(** The calls of [RunReaper]: the select between the context and the ticker
    ([false] when the context is done), the backend's sweep, the log. *)
Inductive reaperE : Type -> Type :=
  | SelectTick : reaperE bool
  | BReap : reaperE (list string * option error)
  | LogSweepFailed (err : error) : reaperE unit
  | LogReaped (name : string) : reaperE unit.

Fixpoint logReaped (names : list string) : prog reaperE unit :=
  match names with
  | [] => Ret tt
  | name :: names => _ <- call (LogReaped name);; logReaped names
  end.

(** The first [fuel] turns of the loop; whether it has returned. *)
Fixpoint reaperLoop (fuel : nat) : prog reaperE bool :=
  match fuel with
  | O => Ret false
  | S fuel =>
      tick <- call SelectTick;;
      if negb tick then Ret true
      else
        ' (reaped, err) <- call BReap;;
        match err with
        | Some err => _ <- call (LogSweepFailed err);; reaperLoop fuel
        | None => _ <- logReaped reaped;; reaperLoop fuel
        end
  end.

(** [RunReaper]; [time.NewTicker] panics on an interval that is not positive. *)
Definition RunReaper (cfg : Config) (fuel : nat) : option (prog reaperE bool) :=
  if ReapInterval cfg <=? 0 then None else Some (reaperLoop fuel).

(** ** An engine that can be swept *)

(** A container, as a list reports it. *)
Definition summary_of (c : Container) : Summary :=
  mkSummary (CtID c) (CfgImage (CtConfig c)) (CtStatus c) (CfgLabels (CtConfig c)).

(** Containers may disappear and change state, but not appear or change
    identity. *)
Definition follows (m m' : gmap string Container) : Prop :=
  forall n c', m' !! n = Some c' ->
    exists c, m !! n = Some c /\ CtID c = CtID c' /\ CtConfig c = CtConfig c'.

(** What Docker documents of listing and removing, and of a clock: a list holds
    every container with the label asked for; a container removed, or reported
    not found, is gone; no other call but creation adds one; and the clock does
    not run backwards. *)
Class SweepEngine {W : Type} (view : W -> gmap string Container) (clock : W -> time)
    (step : forall X, dockerE X -> W -> X -> W -> Prop) : Prop := {
  sweep_follows : forall X (e : dockerE X) w x w',
    (forall cfg host name, existT X e <> existT _ (ContainerCreate cfg host name)) ->
    step X e w x w' -> follows (view w) (view w');
  sweep_listed : forall k v w cs w',
    step _ (ContainerList true (k ++ "=" ++ v)) w (Ok cs) w' ->
    forall n c, view w' !! n = Some c -> CfgLabels (CtConfig c) !! k = Some v ->
    exists s, s ∈ cs /\ SumID s = CtID c /\ SumLabels s = CfgLabels (CtConfig c);
  sweep_removed : forall id force vols w r w',
    step _ (ContainerRemove id force vols) w r w' -> ids_ok (view w) ->
    match r with Ok _ => true | Err e => IsNotFound e end = true ->
    forall n c, view w' !! n = Some c -> CtID c <> id;
  sweep_clock : forall X (e : dockerE X) w x w', step X e w x w' -> clock w <= clock w';
  sweep_now : forall w t w', step _ Now w t w' -> t = clock w'
}.

Lemma follows_refl m : follows m m.
Proof. intros n c Hc. by exists c. Qed.

Lemma follows_trans m1 m2 m3 : follows m1 m2 -> follows m2 m3 -> follows m1 m3.
Proof.
  intros H12 H23 n c3 Hc3. destruct (H23 n c3 Hc3) as (c2 & Hc2 & Hi2 & Hg2).
  destruct (H12 n c2 Hc2) as (c1 & Hc1 & Hi1 & Hg1). exists c1. split_and!; [done|congruence..].
Qed.

#[export] Hint Resolve follows_refl follows_trans : openblox.

Lemma follows_ids_ok m m' : follows m m' -> ids_ok m -> ids_ok m'.
Proof.
  intros Hf Hok n c' Hc'. destruct (Hf n c' Hc') as (c & Hc & Hid & _).
  destruct (Hok n c Hc) as [Hh Hu]. rewrite <- Hid. split; [done|]. intros n2 c2' Hc2' Hr.
  destruct (Hf n2 c2' Hc2') as (c2 & Hc2 & Hid2 & _). apply (Hu n2 c2 Hc2).
  unfold refers in *. by rewrite Hid2.
Qed.

Lemma follows_without m m' id :
  follows m m' -> (forall n c, m !! n = Some c -> CtID c <> id) ->
  forall n c, m' !! n = Some c -> CtID c <> id.
Proof. intros Hf Hno n c' Hc'. destruct (Hf n c' Hc') as (c & Hc & <- & _). by eapply Hno. Qed.

Lemma over_age_later c t t' : over_age c t -> t <= t' -> over_age c t'.
Proof.
  intros (Hz & Hm & Hs) Ht. split_and!; [done..|]. eapply Z.lt_le_trans; [exact Hs|].
  unfold Sub. lia.
Qed.

#[global] Instance over_age_dec c t : Decision (over_age c t).
Proof. unfold over_age. apply _. Defined.

Section sweep.
Context {W : Type} (view : W -> gmap string Container) (clock : W -> time)
  (step : forall X, dockerE X -> W -> X -> W -> Prop) `{!SweepEngine view clock step}.

Abbreviation runs := (wp (fun _ _ _ => True) step).

(** A call that creates nothing. *)
Definition creates_nothing : forall X, dockerE X -> Prop :=
  fun X e => match e with ContainerCreate _ _ _ => False | _ => True end.

Lemma creates_nothing_spec X (e : dockerE X) :
  creates_nothing X e ->
  forall cfg host name, existT X e <> existT _ (ContainerCreate cfg host name).
Proof.
  intros Hc cfg host name Heq.
  assert (creates_nothing (projT1 (existT X e)) (projT2 (existT X e))) as Hc' by done.
  by rewrite Heq in Hc'.
Qed.

Lemma quiet_follows {A} (p : prog dockerE A) w :
  safe creates_nothing p (fun _ => True) ->
  runs p (fun _ w' => follows (view w) (view w') /\ clock w <= clock w') w.
Proof.
  revert w; induction p as [a|X e k IH]; intros w; cbn; [intros _; split; [apply follows_refl|lia]|].
  intros [He Hk]. split; [done|]. intros x w1 Hs.
  pose proof (sweep_follows X e w x w1 (creates_nothing_spec X e He) Hs) as Hf.
  pose proof (sweep_clock X e w x w1 Hs) as Hc.
  eapply wp_mono; [|by apply IH]. intros a w2 [Hf2 Hc2]. split; [by eapply follows_trans|lia].
Qed.

Lemma expired_quiet c now : safe creates_nothing (expired c now) (fun _ => True).
Proof.
  unfold expired. destruct (IsZero _); [done|]. destruct (_ && _); [done|]. destruct (_ <=? _); [done|].
  destruct (String.eqb _ _); [|done]. apply safe_bind with (fun _ => True); [|done].
  apply safe_bind with (fun _ => True); [|done].
  eapply safe_weaken; [|apply guest_lastUsed]. intros X e. by destruct e.
Qed.

(** What a loop over the listed containers leaves when it reports no error. *)
Lemma reapLoop_clears now cs reaped errs w :
  ids_ok (view w) ->
  runs (reapLoop now cs reaped errs) (fun r w' =>
    follows (view w) (view w') /\ (errs <> [] -> snd r <> []) /\
    (snd r = [] -> forall c, c ∈ cs -> over_age c now ->
       forall n d, view w' !! n = Some d -> CtID d <> SumID c)) w.
Proof.
  revert reaped errs w; induction cs as [|c cs IH]; intros reaped errs w Hok; cbn [reapLoop].
  { cbn. split_and!; [apply follows_refl|done|set_solver]. }
  assert (Hrest : forall reaped' errs' w1,
    follows (view w) (view w1) -> (errs <> [] -> errs' <> []) ->
    (errs' = [] -> over_age c now -> forall n d, view w1 !! n = Some d -> CtID d <> SumID c) ->
    runs (reapLoop now cs reaped' errs') (fun r w' =>
      follows (view w) (view w') /\ (errs <> [] -> snd r <> []) /\
      (snd r = [] -> forall c', c' ∈ c :: cs -> over_age c' now ->
         forall n d, view w' !! n = Some d -> CtID d <> SumID c')) w1).
  { intros reaped' errs' w1 Hf He Hc. eapply wp_mono; [|apply IH; by eapply follows_ids_ok].
    intros r w2 (Hf2 & He2 & Hc2). split_and!; [by eapply follows_trans|by auto|].
    intros Hr c' [->|Hin]%elem_of_cons Ho; [|by apply Hc2].
    eapply follows_without; [exact Hf2|]. apply Hc; [|done]. destruct errs'; [done|].
    exfalso. by apply He2. }
  apply wp_bind.
  assert (Hexp : runs (expired c now) (fun exp w1 =>
    follows (view w) (view w1) /\ (over_age c now -> exp = true)) w).
  { destruct (decide (over_age c now)) as [Ho|Hno].
    - rewrite (expired_over_age c now Ho). cbn. split; [apply follows_refl|done].
    - eapply wp_mono; [|apply quiet_follows, expired_quiet]. by intros exp w1 [Hf _]. }
  eapply wp_mono; [|exact Hexp]. intros exp w1 [Hf1 Hover]. destruct exp; cbn [negb].
  2: { apply Hrest; [done|done|]. intros _ Ho. by specialize (Hover Ho). }
  cbn [bind call wp]. split; [done|]. intros r w2 Hs.
  pose proof (sweep_follows _ _ _ _ _ (creates_nothing_spec _ (ContainerRemove (SumID c) true true) I) Hs)
    as Hf2.
  pose proof (sweep_removed _ _ _ _ _ _ Hs (follows_ids_ok _ _ Hf1 Hok)) as Hgone.
  pose proof (follows_trans _ _ _ Hf1 Hf2) as Hf.
  destruct r as [[]|err].
  { apply Hrest; [done|done|]. intros _ _. by apply Hgone. }
  destruct (IsNotFound err) eqn:En; cbn [negb].
  - apply Hrest; [done|done|]. intros _ _. by apply Hgone.
  - apply Hrest; [done|by destruct errs|by destruct errs].
Qed.

(** A container openblox manages. *)
Definition managed (c : Container) : Prop :=
  CfgLabels (CtConfig c) !! labelManaged = Some "true".

(** No managed container has outlived its age bound at [t]. *)
Definition within_age (m : gmap string Container) (t : time) : Prop :=
  forall n c, m !! n = Some c -> managed c -> ~ over_age (summary_of c) t.

(** A sweep that reports no error has reclaimed every container that was past
    its age when it began. *)
Lemma Reap_clears w :
  ids_ok (view w) ->
  runs Reap (fun r w' => follows (view w) (view w') /\
    (snd r = None -> within_age (view w') (clock w))) w.
Proof.
  intros Hok. unfold Reap. cbn [bind call wp]. split; [done|]. intros r w1 Hs.
  pose proof (sweep_follows _ _ _ _ _ (creates_nothing_spec _
    (ContainerList true (labelManaged ++ "=true")) I) Hs) as Hf1.
  pose proof (sweep_clock _ _ _ _ _ Hs) as Hc1.
  destruct r as [cs|e]; [|by cbn]. pose proof (sweep_listed labelManaged "true" _ _ _ Hs) as Hl.
  cbn [bind call wp]. split; [done|]. intros now w2 Hs2.
  pose proof (sweep_follows _ _ _ _ _ (creates_nothing_spec _ Now I) Hs2) as Hf2.
  pose proof (sweep_clock _ _ _ _ _ Hs2) as Hc2. apply sweep_now in Hs2 as ->.
  apply wp_bind. eapply wp_mono; [|apply reapLoop_clears; by eauto using follows_ids_ok].
  intros [reaped errs] w3 (Hf3 & _ & Hc). cbn [wp fst snd] in *.
  split; [by eauto using follows_trans|]. destruct errs; [|done]. intros _ n c Hn Hm Ho.
  destruct (follows_trans _ _ _ Hf2 Hf3 n c Hn) as (c1 & Hc1' & Hid & Hcfg).
  unfold managed in Hm. rewrite <- Hcfg in Hm.
  destruct (Hl n c1 Hc1' Hm) as (s & Hin & Hsid & Hslab).
  apply (Hc eq_refl s Hin) with (n := n) (d := c); [|done|by rewrite Hsid].
  apply (over_age_later s (clock w)); [|lia]. unfold over_age, summary_of in *.
  cbn [SumLabels] in Ho. by rewrite Hslab, Hcfg.
Qed.

(** ** The loop on the engine *)

(** The loop's own history: ticks it was given, sweeps it made, whether it was
    told to stop, and the time the last sweep began if it reported no error. *)
Record history : Type := mkHistory {
  ticks : nat;
  sweeps : nat;
  stopped : bool;
  clean_since : option time
}.

(** While the loop waits, anything may happen to the engine but the loss of its
    identifiers' uniqueness; a sweep is an execution of [Reap]. *)
Definition reaper_step (X : Type) (e : reaperE X) (s : W * history) : X -> W * history -> Prop :=
  let '(w, h) := s in
  match e in reaperE X return X -> W * history -> Prop with
  | SelectTick => fun tick '(w', h') => ids_ok (view w') /\ clock w <= clock w' /\
      h' = if tick : bool then mkHistory (S (ticks h)) (sweeps h) false None
           else mkHistory (ticks h) (sweeps h) true None
  | BReap => fun r '(w', h') => outcome step Reap w r w' /\
      h' = mkHistory (ticks h) (S (sweeps h)) false
             (match snd r with None => Some (clock w) | Some _ => None end)
  | LogSweepFailed _ | LogReaped _ => fun _ s' => s' = s
  end.

(** The calls in order: one sweep per tick, none once stopped; and when the
    loop comes back to wait after a clean sweep, nothing is left that was past
    its age when the sweep began. *)
Definition in_order (X : Type) (e : reaperE X) (s : W * history) : Prop :=
  let '(w, h) := s in
  stopped h = false /\
  match e with
  | SelectTick => sweeps h = ticks h /\
      match clean_since h with Some t => within_age (view w) t | None => True end
  | BReap => ticks h = S (sweeps h)
  | LogSweepFailed _ | LogReaped _ => sweeps h = ticks h
  end.

Lemma logReaped_in_order names w h (Q : unit -> W * history -> Prop) :
  stopped h = false -> sweeps h = ticks h -> Q tt (w, h) ->
  wp in_order reaper_step (logReaped names) Q (w, h).
Proof.
  intros Hs Ht HQ. induction names as [|name names IH]; [done|]. cbn [logReaped bind call wp].
  split; [done|]. by intros [] s ->.
Qed.

Lemma reaperLoop_in_order fuel w h :
  ids_ok (view w) -> stopped h = false -> sweeps h = ticks h ->
  (forall t, clean_since h = Some t -> within_age (view w) t) ->
  wp in_order reaper_step (reaperLoop fuel) (fun r s' =>
    sweeps (snd s') = ticks (snd s') /\ stopped (snd s') = r /\
    (r = false -> ticks (snd s') = (ticks h + fuel)%nat /\
       forall t, clean_since (snd s') = Some t -> within_age (view (fst s')) t)) (w, h).
Proof.
  revert w h; induction fuel as [|fuel IH]; intros w h Hok Hst Heq Hcl; cbn [reaperLoop].
  { cbn. split_and!; [done..|]. intros _. split; [lia|done]. }
  cbn [bind call wp]. split.
  { split_and!; [done|done|]. by destruct (clean_since h) eqn:E; [apply Hcl|]. }
  intros tick [w1 h1] (Hok1 & _ & ->). destruct tick; cbn [negb]; [|cbn; by split_and!].
  cbn [bind call wp]. split; [by cbn; rewrite Heq|].
  intros [reaped err] [w2 h2] [Hout ->]. cbn [snd] in *.
  destruct (wp_outcome _ _ _ _ _ _ _ (Reap_clears w1 Hok1) Hout) as [Hf Hclean]. cbn [snd] in Hclean.
  assert (Hok2 : ids_ok (view w2)) by by eapply follows_ids_ok.
  destruct err as [err|]; cbn [bind call wp].
  - split; [by cbn; rewrite Heq|]. intros [] s ->. eapply wp_mono; [|apply IH; cbn; try done; lia].
    cbn. intros r s' (H1 & H2 & H3). split_and!; [done..|]. intros Hr. destruct (H3 Hr). split; [lia|done].
  - apply wp_bind, logReaped_in_order; [done|cbn; lia|]. eapply wp_mono; [|apply IH; cbn; try done; [lia|]].
    + cbn. intros r s' (H1 & H2 & H3). split_and!; [done..|]. intros Hr. destruct (H3 Hr). split; [lia|done].
    + intros t [= <-]. by apply Hclean.
Qed.
End sweep.

(** C26. Lifetimes are enforced for the life of the process.  Under a configuration
    the daemon accepts, [RunReaper] starts, and from then on, whatever the
    engine answers and whatever happens between ticks: it makes exactly one
    sweep per tick, never two at once; no error stops it, it returns only when
    its context is done, and sweeps nothing after that; and when a sweep
    reports no error, every managed container that had outlived its age when
    the sweep began is gone. *)
Theorem reaper_enforces_lifetimes {W} (view : W -> gmap string Container) clock step
    `{!SweepEngine view clock step} `{MapRange Profile} c cfg fuel w :
  Config_validate c = Ok cfg -> ids_ok (view w) ->
  exists p, RunReaper cfg fuel = Some p /\
    wp (in_order view) (reaper_step view clock step) p (fun r s' =>
      sweeps (snd s') = ticks (snd s') /\ stopped (snd s') = r /\
      (r = false -> ticks (snd s') = fuel /\
         forall t, clean_since (snd s') = Some t -> within_age (view (fst s')) t))
      (w, mkHistory 0 0 false None).
Proof.
  intros Hv Hok. destruct (Config_validate_facts c cfg Hv) as (_ & Hi & _).
  exists (reaperLoop fuel). unfold RunReaper. split; [zcase; done|].
  by apply (reaperLoop_in_order view clock step fuel w (mkHistory 0 0 false None)).
Qed.

(** ** The reference engine can be swept *)

Lemma find_ref_removed m id n c :
  ids_ok m ->
  match find_ref m id with Some (k, _) => delete k m | None => m end !! n = Some c -> CtID c <> id.
Proof.
  intros Hok. destruct (find_ref m id) as [[k d]|] eqn:E.
  - intros [Hne Hn]%lookup_delete_Some Hid. apply find_ref_Some in E as [Hk Hr]. subst id.
    apply Hne. by apply (proj2 (Hok n c Hn) k d).
  - intros Hn Hid. by eapply find_ref_None; [exact E|exact Hn|right].
Qed.

Lemma ref_engine_follows X (e : dockerE X) m x m' :
  creates_nothing X e -> ref_engine X e m = (x, m') -> follows m m'.
Proof.
  assert (Hst : forall m n c s, m !! n = Some c -> follows m (<[n := with_status c s]> m)).
  { intros m0 n c s Hn k d Hk. destruct (decide (n = k)) as [<-|].
    - rewrite lookup_insert_eq in Hk. injection Hk as <-. by exists c.
    - rewrite lookup_insert_ne in Hk by done. by exists d. }
  assert (Hdel : forall m n, follows m (delete n m)).
  { intros m0 n k d [_ Hk]%lookup_delete_Some. by exists d. }
  destruct e; intros Hc Heq; cbn in Heq; try done;
    try (injection Heq as <- <-; apply follows_refl);
    try (destruct (find_ref m _) as [[n d]|] eqn:E; [try destruct (negb force && _)|]; injection Heq as <- <-;
         try (apply find_ref_Some in E as [E _]); auto using follows_refl).
Qed.

Definition engine_step (X : Type) (e : dockerE X) (m : gmap string Container) (x : X)
    (m' : gmap string Container) : Prop := ref_engine X e m = (x, m').
Definition engine_view (m : gmap string Container) : gmap string Container := m.
Definition engine_clock (m : gmap string Container) : time := 1700000000000000000.

#[global] Instance ref_engine_sweeps : SweepEngine engine_view engine_clock engine_step.
Proof.
  unfold engine_step, engine_view. split.
  - intros X e w x w' Hc Hs. eapply ref_engine_follows; [|exact Hs].
    destruct e; try done. by apply (Hc cfg host name).
  - intros k v w cs w' [= <- <-] n c Hn _. exists (summary_of c). split; [|done].
    apply list_elem_of_fmap. exists (n, c). split; [done|]. by apply elem_of_map_to_list.
  - intros id force vols w r w' Hs Hok Hr n c Hn. eapply find_ref_removed; [exact Hok|].
    cbn in Hs. destruct (find_ref w id) as [[k d]|]; [destruct (negb force && _)|]; injection Hs as <- <-; done.
  - done.
  - by intros w t w' [= <- <-].
Qed.

(** A container with an age bound of one hour, created [age] ago. *)
Definition aged_container (id name : string) (age : Z) : Container :=
  mkContainer id
    (mkContainerConfig "img" (buildLabels (H := map_range_default string) name
       (NewSpec [WithLifetime (mkLifetime (-1) Hour)]) (1700000000000000000 - age))
       "" [] [] [] "")
    (mkHostConfig "" true [] [] ∅ 0 0 0 None "" "none" false [] []) "running".

Definition before_sweep : gmap string Container :=
  {[ "openblox-x" := aged_container "abc" "web" (8 * Hour);
     "openblox-y" := aged_container "def" "db" Minute ]}.
Definition after_sweep : gmap string Container :=
  {[ "openblox-y" := aged_container "def" "db" Minute ]}.

Definition reaper_config : Config :=
  mkConfig "/run/x.sock" "" None 0 {[ "p" := mkProfile "img" "" "" "" (f64_of_int 0) 0 0 0 0 0 0 0 0 None ]}.

Lemma reaper_config_ok :
  exists cfg, Config_validate (H := map_range_default Profile) reaper_config = Ok cfg.
Proof.
  assert (Hok : is_ok (Config_validate (H := map_range_default Profile) reaper_config) = true)
    by (vm_compute; reflexivity).
  destruct (Config_validate _) as [cfg|e]; [by exists cfg|done].
Qed.

Lemma demo_sweep : run ref_engine Reap before_sweep = ((["web"], None), after_sweep).
Proof. vm_compute. reflexivity. Qed.

Lemma demo_outcome : outcome engine_step Reap before_sweep (["web"], None) after_sweep.
Proof.
  assert (Hstep : forall X (e : dockerE X) w,
    engine_step X e w (fst (ref_engine X e w)) (snd (ref_engine X e w))).
  { intros X e w. unfold engine_step. by destruct (ref_engine X e w). }
  pose proof (run_outcome ref_engine engine_step Hstep Reap before_sweep) as Hr.
  by rewrite demo_sweep in Hr.
Qed.

Lemma before_sweep_ids : ids_ok before_sweep.
Proof.
  intros n c Hn. unfold before_sweep in *.
  assert (Hc : forall n c, before_sweep !! n = Some c ->
    n = "openblox-x" /\ CtID c = "abc" \/ n = "openblox-y" /\ CtID c = "def").
  { intros k d Hk. unfold before_sweep in Hk.
    apply lookup_insert_Some in Hk as [[<- <-]|[_ [<- <-]%lookup_singleton_Some]]; auto. }
  split; [by destruct (Hc n c Hn) as [[_ ->]|[_ ->]]|]. intros n' c' Hn' Hr. unfold refers in Hr.
  destruct (Hc n c Hn) as [[-> Hi]|[-> Hi]], (Hc n' c' Hn') as [[-> Hi']|[-> Hi']];
    rewrite Hi, ?Hi' in Hr; destruct Hr; done.
Qed.

(** One tick of the reaper: the old container is reclaimed, the young one kept. *)
Lemma reaper_enforces_lifetimes_witness :
  run ref_engine Reap before_sweep = ((["web"], None), after_sweep) /\
  within_age after_sweep 1700000000000000000.
Proof.
  split; [exact demo_sweep|]. destruct reaper_config_ok as [cfg Ev].
  destruct (reaper_enforces_lifetimes (H := map_range_default Profile) engine_view engine_clock engine_step
    reaper_config cfg 1 before_sweep Ev before_sweep_ids) as (p & Hp & Hwp).
  unfold RunReaper in Hp. destruct (ReapInterval cfg <=? 0); [discriminate|]. injection Hp as <-.
  assert (Ho : outcome (reaper_step engine_view engine_clock engine_step)
    (reaperLoop 1) (before_sweep, mkHistory 0 0 false None) false
    (after_sweep, mkHistory 1 1 false (Some 1700000000000000000))).
  { eapply (outcome_vis _ _ SelectTick _ _ true (before_sweep, mkHistory 1 0 false None)).
    { split; [exact before_sweep_ids|]. split; [reflexivity|reflexivity]. }
    eapply (outcome_vis _ _ BReap _ _ (["web"], None)
      (after_sweep, mkHistory 1 1 false (Some 1700000000000000000))).
    { split; [exact demo_outcome|reflexivity]. }
    eapply (outcome_vis _ _ (LogReaped "web") _ _ tt); [reflexivity|]. apply outcome_ret. }
  destruct (wp_outcome _ _ _ _ _ _ _ Hwp Ho) as (_ & _ & Hc).
  exact (proj2 (Hc eq_refl) _ eq_refl).
Defined.

(** What a sweep with a mixed outcome reclaims goes unlogged: here one sandbox
    was reclaimed and another could not be, and no reclaimed name is logged. *)
Example failed_sweep_unlogged :
  let answer X (e : reaperE X) (logged : list string) : X * list string :=
    match e in reaperE X return X * list string with
    | SelectTick => (true, logged)
    | BReap => ((["web"], Some (Errorf "reap sandbox %q: %w" [AStr "db"])), logged)
    | LogSweepFailed _ => (tt, logged)
    | LogReaped name => (tt, logged ++ [name])%list
    end in
  run answer (reaperLoop 1) [] = (false, []).
Proof. reflexivity. Qed.
