(* ===== verification/DaemonRelay.v ===== *)
(** * internal/daemon/dial.go: relaying a dialled stream

    [handleDial] after the switch of protocols, as a system of its two copying
    goroutines and the handler that waits for them; and the client's end of the
    stream, [upgradedConn] of pkg/brokerclient/dial.go.  A [Write] blocks until
    the other end reads. *)

From S2P Require Import Goroutines Prelude GoErrors GoNet.

(** ** One direction *)

(** A copying goroutine: in [io.Copy], past it, done. *)
Inductive copier : Set := Copying | Copied | Finished.

#[global] Instance copier_eq_dec : EqDecision copier.
Proof. solve_decision. Defined.

Record direction : Type := mkDirection {
  sent : string;             (** all the source has sent *)
  unread : string;           (** the part of it not yet read *)
  ended : bool;              (** the source sends no more *)
  srcBroken : bool;          (** reading from the source fails *)
  held : string;             (** read, and not yet taken by [Write] *)
  delivered : string;        (** written to the destination *)
  room : nat;                (** what the destination takes before [Write] blocks *)
  dstBroken : bool;          (** writing to the destination fails *)
  stage : copier;
  cut : bool                 (** the copy ended on an error, not at the end of input *)
}.

(** The copy goes on with these bytes unread, held and delivered. *)
Definition copying (d : direction) (unread' held' delivered' : string) (room' : nat) : direction :=
  mkDirection (sent d) unread' (ended d) (srcBroken d) held' delivered' room' (dstBroken d) Copying (cut d).
(** It is over. *)
Definition copied (d : direction) (delivered' : string) (cut' : bool) : direction :=
  mkDirection (sent d) (unread d) (ended d) (srcBroken d) "" delivered' (room d) (dstBroken d) Copied cut'.

(** [io.Copy]: read, write all of what was read, until the input ends or one of
    the two fails.  A [Write] blocks until the destination takes the bytes or
    fails; reading fails once the connection read from is [shut] or broken. *)
Inductive pump (shut : bool) : direction -> direction -> Prop :=
  | pump_read d chunk rest :
      stage d = Copying -> held d = "" -> unread d = chunk ++ rest -> chunk <> "" ->
      pump shut d (copying d rest chunk (delivered d) (room d))
  | pump_write d part rest :
      stage d = Copying -> held d = part ++ rest -> part <> "" -> (String.length part <= room d)%nat ->
      pump shut d (copying d (unread d) rest (delivered d ++ part) (room d - String.length part))
  | pump_write_fails d written lost :
      stage d = Copying -> held d = written ++ lost -> lost <> "" -> dstBroken d = true ->
      pump shut d (copied d (delivered d ++ written) true)
  | pump_ends d :
      stage d = Copying -> held d = "" -> unread d = "" -> ended d = true ->
      pump shut d (copied d (delivered d) (cut d))
  | pump_read_fails d :
      stage d = Copying -> held d = "" -> shut || srcBroken d = true ->
      pump shut d (copied d (delivered d) true).

(** The source sends more, ends, or is lost. *)
Definition source (d : direction) (chunk : string) (ended' broken : bool) : direction :=
  mkDirection (sent d ++ chunk) (unread d ++ chunk) ended' broken (held d) (delivered d) (room d)
    (dstBroken d) (stage d) (cut d).
Inductive feed : direction -> direction -> Prop :=
  | feed_sends d chunk : ended d = false -> feed d (source d chunk false (srcBroken d))
  | feed_ends d : feed d (source d "" true (srcBroken d))
  | feed_breaks d : feed d (source d "" (ended d) true).

(** The destination reads, making room, or is lost. *)
Definition destination (d : direction) (room' : nat) (broken : bool) : direction :=
  mkDirection (sent d) (unread d) (ended d) (srcBroken d) (held d) (delivered d) room' broken
    (stage d) (cut d).
Inductive take : direction -> direction -> Prop :=
  | take_reads d n : take d (destination d (room d + n) (dstBroken d))
  | take_breaks d : take d (destination d (room d) true).

Definition finish (d : direction) : direction :=
  mkDirection (sent d) (unread d) (ended d) (srcBroken d) (held d) (delivered d) (room d) (dstBroken d)
    Finished (cut d).

(** ** The handler *)

Record relay : Type := mkRelay {
  upward : direction;        (** from the client to the upstream *)
  downward : direction;      (** from the upstream to the client *)
  halfClosed : bool;         (** [CloseWrite] was called on the upstream *)
  downClosed : bool;         (** the client connection is closed *)
  upClosed : bool;           (** the upstream connection is closed *)
  returned : bool
}.

Section relay.
(** Whether the upstream connection can be half-closed. *)
Variable canHalfClose : bool.

Inductive step : relay -> relay -> Prop :=
  | up_pumps s d :
      pump (downClosed s) (upward s) d ->
      step s (mkRelay d (downward s) (halfClosed s) (downClosed s) (upClosed s) (returned s))
  | up_finishes s :
      stage (upward s) = Copied ->
      step s (mkRelay (finish (upward s)) (downward s) (halfClosed s || canHalfClose) (downClosed s)
        (upClosed s) (returned s))
  | down_pumps s d :
      pump (upClosed s) (downward s) d ->
      step s (mkRelay (upward s) d (halfClosed s) (downClosed s) (upClosed s) (returned s))
  | down_finishes s :
      stage (downward s) = Copied ->
      step s (mkRelay (upward s) (finish (downward s)) (halfClosed s) true (upClosed s) (returned s))
  | handler_returns s :
      stage (upward s) = Finished -> stage (downward s) = Finished -> returned s = false ->
      step s (mkRelay (upward s) (downward s) (halfClosed s) true true true).

Definition set_upward (s : relay) (d : direction) : relay :=
  mkRelay d (downward s) (halfClosed s) (downClosed s) (upClosed s) (returned s).
Definition set_downward (s : relay) (d : direction) : relay :=
  mkRelay (upward s) d (halfClosed s) (downClosed s) (upClosed s) (returned s).

(** What the other ends do: each sends, ends, reads and may be lost. *)
Inductive event : relay -> relay -> Prop :=
  | client_acts s d : feed (upward s) d -> event s (set_upward s d)
  | client_takes s d : take (downward s) d -> event s (set_downward s d)
  | upstream_acts s d : feed (downward s) d -> event s (set_downward s d)
  | upstream_takes s d : take (upward s) d -> event s (set_upward s d).

Definition any_step (s s' : relay) : Prop := step s s' \/ event s s'.

(** The relay as it starts, with what the client had already sent behind its
    request. *)
Definition initial (buffered : string) : relay :=
  mkRelay (mkDirection buffered buffered false false "" "" 0 false Copying false)
    (mkDirection "" "" false false "" "" 0 false Copying false) false false false false.

(** ** Nothing is lost, reordered or made up *)

(** What was delivered is the beginning of what was sent; all of it, but for
    what is held or still unread, unless the copy was cut. *)
Record carried (d : direction) : Prop := {
  carried_all : exists lost, sent d = delivered d ++ lost ++ held d ++ unread d /\ (cut d = false -> lost = "");
  carried_copying : stage d = Copying -> cut d = false;
  carried_end : stage d <> Copying -> held d = "" /\ (cut d = false -> ended d = true /\ unread d = "")
}.

Lemma carried_pump shut d d' : carried d -> pump shut d d' -> carried d'.
Proof.
  intros [(lost & Hs & Hl) Hc He] Hp.
  destruct Hp as [d chunk rest Hst Hh Hu Hne|d part rest Hst Hh Hne Hr|d wr lo Hst Hh Hne Hb
    |d Hst Hh Hu Hen|d Hst Hh _]; specialize (Hc Hst); specialize (Hl Hc); subst lost; cbn in Hs;
    rewrite Hh in Hs; split; cbn; try done.
  - exists "". by rewrite Hs, Hu.
  - exists "". by rewrite Hs, !sapp_assoc.
  - exists lo. split; [|done]. by rewrite Hs, !sapp_assoc.
  - exists "". by rewrite Hs.
  - by exists "".
Qed.

Lemma carried_feed d d' : carried d -> feed d d' -> carried d'.
Proof.
  intros [(lost & Hs & Hl) Hc He] Hf. destruct Hf as [d chunk Hen|d|d]; split; cbn; rewrite ?sapp_nil_r; try done.
  - exists lost. split; [|done]. by rewrite Hs, !sapp_assoc.
  - intros Hst. destruct (He Hst) as [Hh Hcut]. split; [done|]. intros Hc'. destruct (Hcut Hc'). congruence.
  - by exists lost.
  - intros Hst. destruct (He Hst) as [Hh Hcut]. split; [done|]. intros Hc'. by destruct (Hcut Hc').
  - by exists lost.
Qed.

Lemma carried_take d d' : carried d -> take d d' -> carried d'.
Proof. intros [Ha Hc He] Ht. by destruct Ht; split. Qed.

Lemma carried_finish d : carried d -> stage d = Copied -> carried (finish d).
Proof.
  intros [Ha Hc He] Hst. split; cbn; [done|done|]. intros _. apply He. by rewrite Hst.
Qed.

Record Inv (s : relay) : Prop := {
  inv_up : carried (upward s);
  inv_down : carried (downward s);
  inv_half : halfClosed s = if bool_decide (stage (upward s) = Finished) then canHalfClose else false;
  inv_down_closed : stage (downward s) = Finished -> downClosed s = true;
  inv_returned : returned s = true -> stage (upward s) = Finished /\ stage (downward s) = Finished /\
    downClosed s = true /\ upClosed s = true
}.

Lemma pump_stage shut d d' : pump shut d d' -> stage d = Copying /\ stage d' <> Finished.
Proof. by destruct 1. Qed.

Lemma feed_stage d d' : feed d d' -> stage d' = stage d.
Proof. by destruct 1. Qed.
Lemma take_stage d d' : take d d' -> stage d' = stage d.
Proof. by destruct 1. Qed.

Lemma relay_Inv_initial buffered : Inv (initial buffered).
Proof. split; cbn; try done; split; cbn; try done; by exists "". Qed.

Lemma relay_Inv_any s s' : Inv s -> any_step s s' -> Inv s'.
Proof.
  intros [Hu Hd Hh Hdc Hr] [Hs|He].
  - destruct Hs as [s d Hp|s Hst|s d Hp|s Hst|s H1 H2 H3].
    + pose proof (pump_stage _ _ _ Hp) as [Hst Hst']. split; cbn; try done.
      * exact (carried_pump _ _ _ Hu Hp).
      * rewrite Hh, Hst. by rewrite (bool_decide_eq_false_2 _ Hst').
      * intros Hret. destruct (Hr Hret). congruence.
    + split; cbn; try done.
      * by apply carried_finish.
      * by rewrite Hh, Hst.
      * intros Hret. destruct (Hr Hret). congruence.
    + pose proof (pump_stage _ _ _ Hp) as [Hst Hst']. split; cbn; try done.
      * exact (carried_pump _ _ _ Hd Hp).
      * intros Hret. destruct (Hr Hret) as (_ & ? & _). congruence.
    + split; cbn; try done.
      * by apply carried_finish.
      * intros Hret. destruct (Hr Hret) as (_ & ? & _). congruence.
    + by split.
  - destruct He as [s d Hf|s d Hf|s d Hf|s d Hf];
      first [pose proof (feed_stage _ _ Hf) as Hst|pose proof (take_stage _ _ Hf) as Hst]; split; cbn;
      rewrite ?Hst; try done; eauto using carried_feed, carried_take.
Qed.

(** ** It ends when the upstream does *)

Definition weight (c : copier) : nat :=
  match c with Copying => 2 | Copied => 1 | Finished => 0 end.

(** Each byte is read once and written once. *)
Definition load (d : direction) : nat :=
  2 * String.length (unread d) + String.length (held d) + weight (stage d).

Definition measure (s : relay) : nat :=
  load (upward s) + load (downward s) + (if returned s then 0 else 1).

Lemma pump_load shut d d' : pump shut d d' -> (load d' < load d)%nat.
Proof.
  unfold load. destruct 1 as [d chunk rest Hst Hh Hu Hne|d part rest Hst Hh Hne Hr|d wr lo Hst Hh Hne Hb
    |d Hst Hh Hu Hen|d Hst Hh _]; cbn [copying copied unread held stage]; rewrite Hst, ?Hh, ?Hu, ?slength_app;
    cbn [weight String.length]; try lia.
  - destruct chunk; [done|]. cbn [String.length]. lia.
  - destruct part; [done|]. cbn [String.length]. lia.
Qed.

Lemma finish_load d : stage d = Copied -> (load (finish d) < load d)%nat.
Proof. intros Hst. unfold load. cbn [finish unread held stage]. rewrite Hst. cbn [weight]. lia. Qed.

Lemma relay_step_measure s s' : step s s' -> (measure s' < measure s)%nat.
Proof.
  unfold measure. destruct 1 as [s d Hp|s Hst|s d Hp|s Hst|s H1 H2 H3];
    cbn [upward downward returned].
  - apply pump_load in Hp. lia.
  - apply finish_load in Hst. lia.
  - apply pump_load in Hp. lia.
  - apply finish_load in Hst. lia.
  - rewrite H3. lia.
Qed.

(** [Write] is blocked: the destination is not lost, and takes nothing. *)
Definition blocked (d : direction) : Prop :=
  stage d = Copying /\ held d <> "" /\ room d = 0%nat /\ dstBroken d = false.

(** [Read] is blocked: the source is not lost, has not ended and has nothing to
    say. *)
Definition quiet (d : direction) : Prop :=
  stage d = Copying /\ held d = "" /\ unread d = "" /\ ended d = false /\ srcBroken d = false.

(** Copying goes on unless it is blocked in one of its two calls. *)
Lemma pump_can shut d :
  stage d = Copying -> (exists d', pump shut d d') \/ blocked d \/ (quiet d /\ shut = false).
Proof.
  intros Hst. destruct (held d) as [|c h] eqn:Hh.
  - destruct (unread d) as [|c u] eqn:Hu.
    + destruct (ended d) eqn:He; [left; eexists; by apply pump_ends|].
      destruct (shut || srcBroken d) eqn:Hb; [left; eexists; by apply pump_read_fails|].
      apply orb_false_iff in Hb as [-> Hb]. by right; right.
    + left. eexists. apply (pump_read shut d (String c u) ""); [done|done|by rewrite sapp_nil_r|done].
  - destruct (dstBroken d) eqn:Hb; [left; eexists; by apply (pump_write_fails shut d "" (String c h))|].
    destruct (room d) as [|n] eqn:Hr; [right; left; unfold blocked; rewrite Hh, Hr; by split_and!|].
    left. eexists. apply (pump_write shut d (String c "") h); [done|done|done|rewrite Hr; cbn; lia].
Qed.

(** The ways to wait: for an upstream that is open and silent, for a client that
    does not read, and, once the upstream has ended, for it to read what the
    client sent before. *)
Definition waits (s : relay) : Prop :=
  quiet (downward s) \/ blocked (downward s) \/
  (stage (downward s) = Finished /\ blocked (upward s)).

Lemma relay_never_stuck s : Inv s -> red step s \/ returned s = true \/ waits s.
Proof.
  intros [Hu Hd Hh Hdc Hr]. destruct (stage (downward s)) eqn:Ed.
  - destruct (pump_can (upClosed s) (downward s) Ed) as [[d Hp]|[Hb|[Hq _]]].
    + left. eexists. by apply down_pumps.
    + by right; right; right; left.
    + by right; right; left.
  - left. eexists. by apply down_finishes.
  - destruct (stage (upward s)) eqn:Eu.
    + destruct (pump_can (downClosed s) (upward s) Eu) as [[d Hp]|[Hb|[_ Hq]]].
      * left. eexists. by apply up_pumps.
      * by right; right; right; right.
      * rewrite Hdc in Hq; done.
    + left. eexists. by apply up_finishes.
    + destruct (returned s) eqn:Er; [by right; left|]. left. eexists. by apply handler_returns.
Qed.
End relay.

(** A dialled stream is carried faithfully, and the handler waits for nobody but
    its two ends.  In every reachable state, whatever they send, read or lose:
    what has reached the upstream is the beginning of what the client sent, the
    bytes pipelined behind its request included, and what has reached the
    client the beginning of what the upstream sent; the upstream is half-closed
    only after the copy to it is over, which without an error means after every
    byte of the client's input; and the goroutines cannot run on forever and are
    stuck only waiting for an upstream that is open and silent, for a client that
    does not read, or for an upstream that has ended and does not read what was
    sent to it.  When the handler returns, both connections are closed. *)
Theorem relay_faithful_and_ends canHalfClose buffered s :
  rtc (any_step canHalfClose) (initial buffered) s ->
  (exists rest, sent (upward s) = delivered (upward s) ++ rest) /\
  (exists rest, sent (downward s) = delivered (downward s) ++ rest) /\
  (stage (upward s) <> Copying -> cut (upward s) = false -> delivered (upward s) = sent (upward s)) /\
  (stage (downward s) <> Copying -> cut (downward s) = false ->
     delivered (downward s) = sent (downward s)) /\
  (halfClosed s = true -> stage (upward s) = Finished) /\
  sn (step canHalfClose) s /\
  (forall s', rtc (step canHalfClose) s s' ->
     red (step canHalfClose) s' \/ waits s' \/
     returned s' = true /\ downClosed s' = true /\ upClosed s' = true).
Proof.
  intros Hr. assert (HI : Inv canHalfClose s).
  { eapply rtc_preserves; [apply relay_Inv_any|apply relay_Inv_initial|exact Hr]. }
  assert (Hdir : forall d, carried d -> (exists rest, sent d = delivered d ++ rest) /\
    (stage d <> Copying -> cut d = false -> delivered d = sent d)).
  { intros d [(lost & Hs & Hl) Hc He]. split; [by eexists|]. intros Hst Hcut.
    destruct (He Hst) as [Hh Hu]. destruct (Hu Hcut) as [_ Hu']. by rewrite Hs, Hh, Hu', (Hl Hcut), !sapp_nil_r. }
  pose proof (Hdir _ (inv_up _ _ HI)) as [U1 U2]. pose proof (Hdir _ (inv_down _ _ HI)) as [D1 D2].
  split_and!; [exact U1|exact D1|exact U2|exact D2| | |].
  - rewrite (inv_half _ _ HI). by case_bool_decide.
  - apply (sn_measure _ (fun _ => True) measure); [|done]. intros x y _ Hs.
    split; [done|by eapply relay_step_measure].
  - intros s' Hs'. assert (HI' : Inv canHalfClose s').
    { eapply rtc_preserves; [|exact HI|exact Hs']. intros x y Hx Hxy. eapply relay_Inv_any; [exact Hx|by left]. }
    destruct (relay_never_stuck _ s' HI') as [?|[Hret|?]]; [by left| |by right; left].
    right; right. by destruct (inv_returned _ _ HI' Hret) as (_ & _ & ? & ?).
Qed.

(** ** The client's end of the stream *)

(** A connection: what arrives on it, as the network cuts it. *)
Definition conn : Type := list string.

(** One read of at most [n] bytes from a connection; nothing at its end. *)
Definition connRead (n : nat) (c : conn) : string * conn :=
  match c with
  | [] => ("", [])
  | s :: c =>
      let rest := sdrop n s in
      (stake n s, if String.eqb rest "" then c else rest :: c)
  end.

(** A [bufio.Reader] over a connection. *)
Record bufReader : Type := mkBufReader { buffered : string; arriving : conn }.

Definition defaultBufSize : nat := 4096.

(** [bufio.Reader.Read]: from the buffer if it holds anything; otherwise one
    read of the connection, straight into a large destination or through the
    buffer into a small one. *)
Definition bufRead (n : nat) (r : bufReader) : string * bufReader :=
  if String.eqb (buffered r) "" then
    if (defaultBufSize <=? n)%nat then
      let '(p, c) := connRead n (arriving r) in (p, mkBufReader "" c)
    else
      let '(p, c) := connRead defaultBufSize (arriving r) in
      (stake n p, mkBufReader (sdrop n p) c)
  else (stake n (buffered r), mkBufReader (sdrop n (buffered r)) (arriving r)).

(** [upgradedConn]: the connection, and the reader the handshake left behind. *)
Record upgradedConn : Type := mkUpgradedConn { Conn : bufReader }.

(** [upgradedConn.Read] *)
Definition upgradedRead (c : upgradedConn) (n : nat) : string * upgradedConn :=
  let '(p, r) := bufRead n (Conn c) in (p, mkUpgradedConn r).

(** Reading the response's header: [k] bytes, one at a time. *)
Fixpoint readHeader (k : nat) (r : bufReader) : string * bufReader :=
  match k with
  | O => ("", r)
  | S k => let '(b, r) := bufRead 1 r in let '(bs, r) := readHeader k r in (b ++ bs, r)
  end.

(** Reads of the given sizes, in order. *)
Fixpoint upgradedReads (c : upgradedConn) (sizes : list nat) : string * upgradedConn :=
  match sizes with
  | [] => ("", c)
  | n :: sizes =>
      let '(p, c) := upgradedRead c n in
      let '(ps, c) := upgradedReads c sizes in (p ++ ps, c)
  end.

(** What is still to be read. *)
Definition pending (r : bufReader) : string := buffered r ++ String.concat "" (arriving r).

Lemma concat_cons s c : String.concat "" (s :: c) = s ++ String.concat "" c.
Proof. destruct c; cbn; [by rewrite sapp_nil_r|done]. Qed.

Lemma stake_sdrop n s : stake n s ++ sdrop n s = s.
Proof.
  unfold stake. revert n; induction s as [|c s IH]; intros [|n]; cbn; try done. by rewrite IH.
Qed.

Lemma connRead_concat n c :
  let '(p, c') := connRead n c in p ++ String.concat "" c' = String.concat "" c.
Proof.
  destruct c as [|s c]; [done|]. cbn [connRead]. rewrite concat_cons.
  transitivity ((stake n s ++ sdrop n s) ++ String.concat "" c); [|by rewrite stake_sdrop].
  rewrite sapp_assoc. f_equal. destruct (String.eqb_spec (sdrop n s) "") as [->|]; [done|].
  by rewrite concat_cons.
Qed.

Lemma bufRead_pending n r : let '(p, r') := bufRead n r in p ++ pending r' = pending r.
Proof.
  unfold bufRead, pending. destruct (String.eqb_spec (buffered r) "") as [->|Hne].
  - destruct (_ <=? n)%nat.
    + pose proof (connRead_concat n (arriving r)) as Hc. by destruct (connRead n (arriving r)).
    + pose proof (connRead_concat defaultBufSize (arriving r)) as Hc.
      destruct (connRead defaultBufSize (arriving r)) as [p c]. cbn [buffered arriving].
      by rewrite <- sapp_assoc, stake_sdrop.
  - cbn [buffered arriving]. by rewrite <- sapp_assoc, stake_sdrop.
Qed.

Lemma upgradedReads_pending sizes c :
  let '(p, c') := upgradedReads c sizes in p ++ pending (Conn c') = pending (Conn c).
Proof.
  revert c; induction sizes as [|n sizes IH]; intros [r]; cbn [upgradedReads upgradedRead Conn]; [done|].
  unfold upgradedRead. cbn [Conn]. pose proof (bufRead_pending n r) as Hb.
  destruct (bufRead n r) as [p r1]. specialize (IH (mkUpgradedConn r1)). cbn [Conn] in IH.
  destruct (upgradedReads (mkUpgradedConn r1) sizes) as [ps c']. by rewrite sapp_assoc, IH.
Qed.

(** Chunks a network delivers are not empty; a read then makes progress. *)
Definition nonempty_chunks (r : bufReader) : Prop := Forall (fun s => s <> "") (arriving r).

Lemma stake_length_min n s : String.length (stake n s) = Nat.min n (String.length s).
Proof.
  unfold stake. revert n; induction s as [|c s IH]; intros [|n]; cbn; [done..|]. by rewrite IH.
Qed.

Lemma bufRead_progress n r :
  nonempty_chunks r -> (0 < n)%nat ->
  let '(p, r') := bufRead n r in
  nonempty_chunks r' /\ (pending r <> "" -> (String.length (pending r') < String.length (pending r))%nat).
Proof.
  intros Hne Hn. pose proof (bufRead_pending n r) as Hp.
  assert (Hconn : forall m, (0 < m)%nat -> let '(p, c) := connRead m (arriving r) in
    Forall (fun s => s <> "") c /\ (arriving r <> [] -> p <> "")).
  { intros m Hm. unfold nonempty_chunks in Hne. destruct (arriving r) as [|s c]; [done|].
    apply Forall_cons in Hne as [Hs Hc]. cbn [connRead]. split.
    - destruct (String.eqb_spec (sdrop m s) ""); [done|by constructor].
    - intros _. destruct s, m; [done|done|lia|done]. }
  assert (Hgo : forall p r', p ++ pending r' = pending r -> (pending r <> "" -> p <> "") ->
    pending r <> "" -> (String.length (pending r') < String.length (pending r))%nat).
  { intros p r' Heq Hpn Hr. rewrite <- Heq, slength_app. destruct p; [by specialize (Hpn Hr)|cbn; lia]. }
  assert (Harr : buffered r = "" -> pending r <> "" -> arriving r <> []).
  { unfold pending. intros -> H0 Ha. by rewrite Ha in H0. }
  unfold bufRead in *. destruct (String.eqb_spec (buffered r) "") as [Hb|Hb].
  - destruct (Nat.leb_spec defaultBufSize n).
    + specialize (Hconn n Hn). destruct (connRead n (arriving r)) as [p c]. split; [apply Hconn|].
      apply (Hgo p); [done|]. intros Hr. by apply Hconn, Harr.
    + specialize (Hconn defaultBufSize ltac:(unfold defaultBufSize; lia)).
      destruct (connRead defaultBufSize (arriving r)) as [p c]. split; [apply Hconn|].
      apply (Hgo (stake n p)); [done|]. intros Hr. destruct Hconn as [_ Hc].
      specialize (Hc (Harr Hb Hr)). destruct p, n; [done|done|lia|done].
  - split; [done|]. apply (Hgo (stake n (buffered r))); [done|]. intros _.
    destruct (buffered r), n; [done|done|lia|done].
Qed.

Lemma bufRead_length n r : (String.length (fst (bufRead n r)) <= n)%nat.
Proof.
  unfold bufRead. destruct (String.eqb (buffered r) ""); [|cbn; rewrite stake_length_min; lia].
  destruct (_ <=? n)%nat.
  - destruct (arriving r); cbn; [lia|]. rewrite stake_length_min. lia.
  - destruct (connRead _ _) as [p c]. cbn. rewrite stake_length_min. lia.
Qed.

Lemma readHeader_pending k r :
  nonempty_chunks r -> (k <= String.length (pending r))%nat ->
  let '(h, r') := readHeader k r in
  h ++ pending r' = pending r /\ String.length h = k /\ nonempty_chunks r'.
Proof.
  revert r; induction k as [|k IH]; intros r Hne Hk; cbn [readHeader]; [done|].
  pose proof (bufRead_pending 1 r) as Hp. pose proof (bufRead_progress 1 r Hne ltac:(lia)) as Hpr.
  pose proof (bufRead_length 1 r) as Hl.
  destruct (bufRead 1 r) as [b r1]. destruct Hpr as [Hne1 Hlt]. cbn [fst] in Hl.
  assert (Hr : pending r <> "") by (intros E; rewrite E in Hk; cbn in Hk; lia).
  specialize (Hlt Hr). rewrite <- Hp, slength_app in Hk, Hlt.
  assert (Hb : String.length b = 1%nat) by lia.
  specialize (IH r1 Hne1 ltac:(lia)). destruct (readHeader k r1) as [bs r2].
  destruct IH as (IH1 & IH2 & IH3). rewrite sapp_assoc, IH1, slength_app, Hb, IH2. done.
Qed.

Lemma upgradedReads_drain sizes c :
  nonempty_chunks (Conn c) -> Forall (fun n => (0 < n)%nat) sizes ->
  (String.length (pending (Conn c)) <= length sizes)%nat ->
  pending (Conn (snd (upgradedReads c sizes))) = "".
Proof.
  revert c; induction sizes as [|n sizes IH]; intros [r] Hne Hpos Hlen;
    cbn [upgradedReads length Conn snd] in *.
  { destruct (pending r); [done|cbn in Hlen; lia]. }
  apply Forall_cons in Hpos as [Hn Hpos]. unfold upgradedRead. cbn [Conn].
  pose proof (bufRead_progress n r Hne Hn) as Hp. pose proof (bufRead_pending n r) as Hb.
  destruct (bufRead n r) as [p r1]. destruct Hp as [Hne1 Hlt].
  assert (Hr1 : (String.length (pending r1) <= length sizes)%nat).
  { destruct (decide (pending r = "")) as [E|E]; [|specialize (Hlt E); lia].
    rewrite E in Hb. destruct p; [|done]. cbn in Hb. rewrite Hb. cbn. lia. }
  specialize (IH (mkUpgradedConn r1) Hne1 Hpos Hr1).
  by destruct (upgradedReads (mkUpgradedConn r1) sizes).
Qed.

(** Nothing the daemon sends behind its 101 response is lost.  However the
    network cuts the response and the stream behind it into pieces, once
    [DialPort] has read the header the connection it hands out delivers exactly
    the stream, in order: reads of any sizes give a beginning of it, and enough
    reads give all of it. *)
Theorem upgraded_stream_complete header stream pieces sizes :
  Forall (fun s => s <> "") pieces -> String.concat "" pieces = header ++ stream ->
  let '(h, r) := readHeader (String.length header) (mkBufReader "" pieces) in
  h = header /\
  let '(got, c) := upgradedReads (mkUpgradedConn r) sizes in
  (exists rest, stream = got ++ rest) /\
  (Forall (fun n => (0 < n)%nat) sizes -> (String.length stream <= length sizes)%nat -> got = stream).
Proof.
  intros Hne Hcat. pose proof (readHeader_pending (String.length header) (mkBufReader "" pieces)) as Hh.
  unfold nonempty_chunks, pending in Hh. cbn [buffered arriving] in Hh. cbn [String.append] in Hh.
  rewrite Hcat, slength_app in Hh. specialize (Hh Hne ltac:(lia)).
  destruct (readHeader _ _) as [h r]. destruct Hh as (Hp & Hl & Hne').
  apply sapp_inj_length in Hp as [-> Hp]; [|done]. split; [done|]. fold (pending r) in Hp.
  pose proof (upgradedReads_pending sizes (mkUpgradedConn r)) as Hr.
  pose proof (upgradedReads_drain sizes (mkUpgradedConn r) Hne') as Hd. cbn [Conn] in Hd, Hr.
  destruct (upgradedReads _ sizes) as [got c]. cbn [snd] in Hd. rewrite Hp in Hr, Hd. split.
  - by exists (pending (Conn c)).
  - intros Hpos Hlen. rewrite (Hd Hpos Hlen), sapp_nil_r in Hr. done.
Qed.

Lemma upgraded_stream_complete_witness :
  let pieces := ["HTTP/1.1 101 OK!SSH-"; "2.0-demo"] in
  String.concat "" pieces = "HTTP/1.1 101 OK!" ++ "SSH-2.0-demo" /\
  let '(h, r) := readHeader 16 (mkBufReader "" pieces) in
  buffered r = "SSH-" /\
  fst (upgradedReads (mkUpgradedConn r) (repeat 3%nat 12)) = "SSH-2.0-demo".
Proof.
  intros pieces. split; [reflexivity|].
  assert (Hne : Forall (fun s => s <> "") pieces) by (repeat constructor; discriminate).
  pose proof (upgraded_stream_complete "HTTP/1.1 101 OK!" "SSH-2.0-demo" pieces (repeat 3%nat 12)
    Hne eq_refl) as H. cbn [String.length] in H.
  destruct (readHeader 16 (mkBufReader "" pieces)) as [h r] eqn:E. destruct H as [_ H].
  split; [vm_compute in E; injection E as <- <-; reflexivity|].
  destruct (upgradedReads (mkUpgradedConn r) (repeat 3%nat 12)) as [got c]. cbn [fst].
  apply (proj2 H); [repeat constructor; lia|cbn; lia].
Defined.
