(* ===== verification/DaemonTunnel.v ===== *)
(** * A dialled port, end to end: the daemon's relay over Docker's stream

    [handleDial] (internal/daemon/dial.go) copies between the client's
    connection and whatever its backend's [DialPort] returned; with the Docker
    backend that is an [execConn] (pkg/docker/dial.go), whose reads come out of
    a pipe another goroutine fills.  Here the two systems run together: the
    relay of [DaemonRelay] has the stream of [DockerStream] as its upstream, a
    read of the upstream is a read of the pipe, and the handler's return is
    [execConn.Close]. *)

From S2P Require Import Goroutines Prelude GoErrors GoNet Effects Sandbox DockerApi DockerBackend DockerExec.
From S2P Require Import DockerStream DaemonRelay.

Record tunnel : Type := mkTunnel { rel : relay; str : stream }.

(** [io.Copy(downstream, upstream)] reads when it has written all it read. *)
Definition reads (t : tunnel) : Prop :=
  stage (downward (rel t)) = Copying /\ held (downward (rel t)) = "" /\ unread (downward (rel t)) = "".

(** [execConn.Read] gave [chunk] to the copy: it is read, and not yet written. *)
Definition fill (d : direction) (chunk : string) : direction :=
  mkDirection (sent d ++ chunk) (unread d) (ended d) (srcBroken d) (held d ++ chunk) (delivered d)
    (room d) (dstBroken d) (stage d) (cut d).

(** It gave the end of the stream. *)
Definition saw_end (d : direction) : direction :=
  mkDirection (sent d) "" true (srcBroken d) "" (delivered d) (room d) (dstBroken d) Copying (cut d).

(** [execConn.Read] of [chunk], with [rest] of the pending write left. *)
Definition execConn_Read (s : stream) (chunk rest : string) : stream :=
  mkStream (output s) (frames s) (finished s) (attachedClosed s) (pipeClosed s)
    (if String.eqb rest "" then Reading else Writing rest) (got s ++ chunk).

(** Steps of the daemon: of the two copies and the handler, which closes the
    stream when it returns; reads of the pipe, of its end and of the error it
    was closed with; and steps of the goroutine that fills the pipe.  A read of
    nothing happens only when nothing was written. *)
Inductive step : tunnel -> tunnel -> Prop :=
  | relay_moves t r :
      DaemonRelay.step true (rel t) r -> returned r = returned (rel t) -> step t (mkTunnel r (str t))
  | relay_returns t r :
      DaemonRelay.step true (rel t) r -> returned r <> returned (rel t) ->
      step t (mkTunnel r (execConn_Close (str t)))
  | reads_pipe t chunk rest :
      reads t -> goroutine (str t) = Writing (chunk ++ rest) -> (chunk = "" -> rest = "") ->
      step t (mkTunnel (set_downward (rel t) (fill (downward (rel t)) chunk))
        (execConn_Read (str t) chunk rest))
  | reads_end t :
      reads t -> goroutine (str t) = Gone None -> ended (downward (rel t)) = false ->
      step t (mkTunnel (set_downward (rel t) (saw_end (downward (rel t)))) (str t))
  | reads_error t err :
      reads t -> goroutine (str t) = Gone (Some err) ->
      step t (mkTunnel (set_downward (rel t) (copied (downward (rel t)) (delivered (downward (rel t))) true)) (str t))
  | demux_moves t s : DockerStream.step (str t) s -> step t (mkTunnel (rel t) s).

(** What happens around it: the client sends, ends, reads or goes away; the relay
    inside the sandbox reads its standard input, prints or exits; the connection
    to the runtime breaks, for writes and for reads. *)
Inductive event : tunnel -> tunnel -> Prop :=
  | client_feeds t d :
      feed (upward (rel t)) d -> event t (mkTunnel (set_upward (rel t) d) (str t))
  | client_reads t d :
      take (downward (rel t)) d -> event t (mkTunnel (set_downward (rel t) d) (str t))
  | guest_reads t d :
      take (upward (rel t)) d -> event t (mkTunnel (set_upward (rel t) d) (str t))
  | guest_prints t f :
      finished (str t) = false ->
      event t (mkTunnel (rel t) (mkStream (output (str t) ++ [f]) (frames (str t) ++ [f]) false
        (attachedClosed (str t)) (pipeClosed (str t)) (goroutine (str t)) (got (str t))))
  | guest_exits t :
      event t (mkTunnel (rel t) (mkStream (output (str t)) (frames (str t)) true
        (attachedClosed (str t)) (pipeClosed (str t)) (goroutine (str t)) (got (str t))))
  | runtime_breaks t err :
      goroutine (str t) = Reading ->
      event t (mkTunnel (rel t) (set_goroutine (str t) (Gone (Some err)))).

Definition any_step (t t' : tunnel) : Prop := step t t' \/ event t t'.

(** The 101 response is out, the exec attached, both copies started. *)
Definition dialled (buffered : string) : tunnel := mkTunnel (initial buffered) opened.

(** ** The two systems stay in step *)

Record Linked (t : tunnel) : Prop := {
  linked_relay : DaemonRelay.Inv true (rel t);
  linked_stream : DockerStream.delivered (str t);
  linked_sent : sent (downward (rel t)) = got (str t);
  linked_ended : ended (downward (rel t)) = true -> goroutine (str t) = Gone None;
  linked_attached : attachedClosed (str t) = returned (rel t);
  linked_pipe : pipeClosed (str t) = returned (rel t);
}.

Lemma linked_dialled buffered : Linked (dialled buffered).
Proof.
  split; try done; [apply relay_Inv_initial|]. exists "". by split.
Qed.

(** The relay's own steps neither read its upstream nor see its end. *)
Lemma relay_step_source r r' :
  DaemonRelay.step true r r' ->
  sent (downward r') = sent (downward r) /\ ended (downward r') = ended (downward r) /\
  (returned r = true -> returned r' = true) /\ (returned r' <> returned r -> returned r' = true).
Proof.
  destruct 1 as [s d Hp|s Hst|s d Hp|s Hst|s H1 H2 H3]; cbn; try done.
  by destruct Hp; split_and!.
Qed.

(** Replacing the downward direction by one still copying, or just past it. *)
Lemma relay_Inv_downward r d :
  DaemonRelay.Inv true r -> stage (downward r) = Copying -> carried d -> stage d <> Finished ->
  DaemonRelay.Inv true (set_downward r d).
Proof.
  intros [Hu Hd Hh Hc Hr] Hst Hd' Hf. split; cbn; try done.
  intros Hret. destruct (Hr Hret) as (_ & ? & _). congruence.
Qed.

Lemma carried_fill d chunk : carried d -> stage d = Copying -> unread d = "" -> carried (fill d chunk).
Proof.
  intros [(lost & Hs & Hl) Hc He] Hst Hu. split; cbn; [|done|by rewrite Hst].
  exists lost. by rewrite Hs, Hu, !sapp_nil_r, !sapp_assoc.
Qed.

(** Nothing is read once the handler has returned. *)
Lemma reads_open t : Linked t -> reads t -> returned (rel t) = false.
Proof.
  intros HL (Hst & _). destruct (returned (rel t)) eqn:E; [|done].
  destruct (inv_returned _ _ (linked_relay _ HL) E) as (_ & ? & _). congruence.
Qed.

Lemma goroutine_step_ended s s' : DockerStream.step s s' -> goroutine s <> Gone None.
Proof. destruct 1; congruence. Qed.

Lemma stream_step_closed s s' :
  DockerStream.step s s' ->
  attachedClosed s' = attachedClosed s /\ pipeClosed s' = pipeClosed s /\ got s' = got s.
Proof. by destruct 1. Qed.

Lemma linked_step t t' : Linked t -> step t t' -> Linked t'.
Proof.
  intros HL Hst. destruct HL as [HI Hdel Hsent Hend Hatt Hpipe] eqn:EL. clear EL.
  destruct Hst as [t r Hr Hret|t r Hr Hret|t chunk rest Hrd Hg Hne|t Hrd Hg He|t err Hrd Hg|t s Hs].
  - pose proof (relay_step_source _ _ Hr) as (E1 & E2 & _ & _).
    split; cbn; rewrite ?E1, ?E2, ?Hret; try done. eapply relay_Inv_any; [exact HI|by left].
  - pose proof (relay_step_source _ _ Hr) as (E1 & E2 & _ & Ht). specialize (Ht Hret).
    split; cbn; rewrite ?E1, ?E2, ?Ht; try done. eapply relay_Inv_any; [exact HI|by left].
  - pose proof (reads_open _ HL Hrd) as Hop. destruct Hrd as (Hc & Hh & Hu). split; cbn; try done.
    + apply relay_Inv_downward; [done|done|by apply carried_fill, Hu; [apply (inv_down _ _ HI)|]|].
      cbn. by rewrite Hc.
    + apply (delivered_event (str t)); [done|].
      apply (consumer_reads (str t) chunk rest); congruence.
    + by rewrite Hsent.
    + intros E. apply Hend in E. congruence.
  - destruct Hrd as (Hc & Hh & Hu). split; cbn; try done. apply relay_Inv_downward; [done|done| |done].
    destruct (inv_down _ _ HI) as [Ha Hb Hcc]. rewrite Hu, Hh in Ha. split; cbn; auto.
  - pose proof Hrd as (Hc & Hh & Hu). split; cbn; try done.
    apply relay_Inv_downward; [done|done| |done].
    eapply (carried_pump true); [apply (inv_down _ _ HI)|by apply pump_read_fails].
  - pose proof (stream_step_closed _ _ Hs) as (E1 & E2 & E3). split; cbn; rewrite ?E1, ?E2, ?E3; try done.
    + exact (delivered_step _ _ Hdel Hs).
    + intros E. by destruct (goroutine_step_ended _ _ Hs (Hend E)).
Qed.

Lemma linked_event t t' : Linked t -> event t t' -> Linked t'.
Proof.
  intros [HI Hdel Hsent Hend Hatt Hpipe] He.
  destruct He as [t d Hf|t d Hf|t d Hf|t f Hf|t|t err Hg]; split; cbn; try done.
  - eapply relay_Inv_any; [exact HI|]. right. by apply client_acts.
  - eapply relay_Inv_any; [exact HI|]. right. by apply client_takes.
  - by destruct Hf.
  - by destruct Hf.
  - eapply relay_Inv_any; [exact HI|]. right. by apply upstream_takes.
  - by apply (delivered_event (str t)), exec_sends.
  - by apply (delivered_event (str t)), exec_ends.
  - destruct Hdel as (rest & H1 & _). by exists rest.
  - intros E. apply Hend in E. congruence.
Qed.

Lemma linked_any t t' : Linked t -> any_step t t' -> Linked t'.
Proof. intros HL [Hs|He]; [exact (linked_step _ _ HL Hs)|exact (linked_event _ _ HL He)]. Qed.

(** ** The daemon's steps end *)

(** What is still to come out of the exec: each byte is read once and written
    once. *)
Fixpoint payload (fs : list (bool * string)) : nat :=
  match fs with [] => 0 | (_, p) :: fs => 2 * String.length p + 2 + payload fs end.

Definition upstream_load (s : stream) : nat :=
  payload (frames s) +
  match goroutine s with Reading => 1 | Writing p => 2 * String.length p + 2 | Gone _ => 0 end.

Definition measure (t : tunnel) : nat :=
  DaemonRelay.measure (rel t) + upstream_load (str t) +
  (if ended (downward (rel t)) then 0 else 1).

Lemma upstream_load_step s s' : DockerStream.step s s' -> (upstream_load s' < upstream_load s)%nat.
Proof.
  unfold upstream_load.
  destruct 1 as [s p fr Hg Hf|s p fr Hg Hf|s Hg Hf He|s err Hg Hc|s p err Hg Hc];
    cbn [frames goroutine set_goroutine]; rewrite Hg, ?Hf; cbn; lia.
Qed.

Lemma upstream_load_read s chunk rest :
  goroutine s = Writing (chunk ++ rest) -> (chunk = "" -> rest = "") ->
  (upstream_load (execConn_Read s chunk rest) + String.length chunk < upstream_load s)%nat.
Proof.
  intros Hg Hne. unfold upstream_load. cbn [frames goroutine execConn_Read]. rewrite Hg, slength_app.
  destruct (String.eqb_spec rest "") as [->|Hr]; cbn; [lia|].
  destruct chunk as [|c chunk]; [by specialize (Hne eq_refl)|cbn; lia].
Qed.

Lemma tunnel_step_measure t t' : step t t' -> (measure t' < measure t)%nat.
Proof.
  unfold measure.
  destruct 1 as [t r Hr Hret|t r Hr Hret|t chunk rest (Hc & Hh & Hu) Hg Hne|t (Hc & Hh & Hu) Hg He|t err (Hc & Hh & Hu) Hg|t s Hs];
    cbn [rel str].
  - pose proof (relay_step_source _ _ Hr) as (_ & -> & _). apply relay_step_measure in Hr. lia.
  - pose proof (relay_step_source _ _ Hr) as (_ & -> & _). apply relay_step_measure in Hr.
    change (upstream_load (execConn_Close (str t))) with (upstream_load (str t)). lia.
  - pose proof (upstream_load_read _ _ _ Hg Hne) as Hlt. unfold DaemonRelay.measure, load.
    cbn [set_downward upward downward returned fill unread held stage ended]. rewrite slength_app. lia.
  - unfold DaemonRelay.measure, load.
    cbn [set_downward upward downward returned saw_end unread held stage ended]. rewrite Hu, Hh, Hc, He. cbn. lia.
  - unfold DaemonRelay.measure, load.
    cbn [set_downward upward downward returned copied unread held stage ended]. rewrite Hh, Hc. cbn [weight]. lia.
  - apply upstream_load_step in Hs. lia.
Qed.

(** ** It is never stuck *)

(** Nothing to do but wait: the relay inside the sandbox is running and silent; *)
Definition guest_quiet (t : tunnel) : Prop :=
  reads t /\ goroutine (str t) = Reading /\ frames (str t) = [] /\ finished (str t) = false.

(** or [Write] blocks on a client that does not read; or, with that copy over, on
    a relay that does not read its standard input. *)
Definition client_stalls (t : tunnel) : Prop := blocked (downward (rel t)).
Definition guest_stalls (t : tunnel) : Prop :=
  stage (downward (rel t)) = Finished /\ blocked (upward (rel t)).

(** Over: the handler has returned, every connection is closed and no goroutine
    is left. *)
Definition over (t : tunnel) : Prop :=
  returned (rel t) = true /\ downClosed (rel t) = true /\ upClosed (rel t) = true /\
  attachedClosed (str t) = true /\ pipeClosed (str t) = true /\ exists err, goroutine (str t) = Gone err.

Lemma quiet_upstream_moves t : Linked t -> quiet (downward (rel t)) -> red step t \/ guest_quiet t.
Proof.
  intros HL (Hst & Hh & Hu & He & _). destruct (goroutine (str t)) as [|p|[err|]] eqn:Eg.
  - destruct (frames (str t)) as [|[[] p] fs] eqn:Ef; [destruct (finished (str t)) eqn:En| |].
    + left. eexists. by apply demux_moves, demux_end.
    + by right.
    + left. eexists. apply demux_moves. by eapply demux_stderr.
    + left. eexists. apply demux_moves. by eapply demux_stdout.
  - left. eexists. by apply (reads_pipe t p ""); [|rewrite sapp_nil_r|].
  - left. eexists. by eapply reads_error.
  - left. eexists. by eapply reads_end.
Qed.

Lemma tunnel_never_stuck t :
  Linked t -> red step t \/ guest_quiet t \/ client_stalls t \/ guest_stalls t \/ over t.
Proof.
  intros HL. destruct (relay_never_stuck true (rel t) (linked_relay _ HL)) as [[r Hr]|[Hret|[Hq|[Hb|Hb]]]].
  - left. destruct (decide (returned r = returned (rel t))).
    + eexists. by apply relay_moves.
    + eexists. by apply (relay_returns t r).
  - pose proof (linked_attached _ HL) as Ha. pose proof (linked_pipe _ HL) as Hp. rewrite Hret in Ha, Hp.
    destruct (closed_moves (str t) Ha Hp) as [[s Hs]|Hg].
    + left. eexists. by apply demux_moves.
    + do 4 right. destruct (inv_returned _ _ (linked_relay _ HL) Hret) as (_ & _ & ? & ?). by split_and!.
  - destruct (quiet_upstream_moves _ HL Hq); auto.
  - auto.
  - auto.
Qed.

(** C14. A dialled port, from the client's connection to the relay inside the
    sandbox.  In every reachable state of the daemon's relay running over
    Docker's stream, whatever the client and the guest send and read, however the
    exec's output is framed and whichever connections break: what has reached
    the client is the beginning of the relay's standard output (never its
    standard error), and all of it once that copy ended without an error; what
    has reached the relay's standard input is the beginning of what the client
    sent, and all of it when its end was signalled without an error.  The
    daemon's goroutines cannot run on forever, and whenever none of them can move
    they wait for one of the two ends: for a relay that is running and silent;
    in [Write], for a client that does not read; or, once the stream to the
    client is over, in [Write], for a relay that does not read its standard
    input; or else the handler has returned, every connection is closed and no
    goroutine is left behind.  Nothing bounds the two waits in [Write]. *)
Theorem tunnel_faithful_and_ends buffered t :
  rtc any_step (dialled buffered) t ->
  (exists rest, stream_of false (output (str t)) = delivered (downward (rel t)) ++ rest) /\
  (stage (downward (rel t)) <> Copying -> cut (downward (rel t)) = false ->
     delivered (downward (rel t)) = stream_of false (output (str t)) /\ finished (str t) = true) /\
  (exists rest, sent (upward (rel t)) = delivered (upward (rel t)) ++ rest) /\
  (halfClosed (rel t) = true -> cut (upward (rel t)) = false ->
     delivered (upward (rel t)) = sent (upward (rel t))) /\
  sn step t /\
  (forall t', rtc step t t' ->
     red step t' \/ guest_quiet t' \/ client_stalls t' \/ guest_stalls t' \/ over t').
Proof.
  intros Hr. assert (HL : Linked t).
  { eapply rtc_preserves; [apply linked_any|apply linked_dialled|exact Hr]. }
  destruct (linked_stream _ HL) as (rest & Hout & Hg).
  destruct (inv_down _ _ (linked_relay _ HL)) as [(lost & Hs & Hl) Hc He].
  destruct (inv_up _ _ (linked_relay _ HL)) as [(lost' & Hs' & Hl') Hc' He'].
  rewrite (linked_sent _ HL) in Hs. split_and!.
  - eexists. by rewrite Hout, Hs, !sapp_assoc.
  - intros Hst Hcut. destruct (He Hst) as [Hh Hu]. destruct (Hu Hcut) as [Hend Hu'].
    rewrite (linked_ended _ HL Hend) in Hg.
    destruct Hg as [-> Hfin]. by rewrite Hout, Hs, Hh, Hu', (Hl Hcut), !sapp_nil_r.
  - by eexists.
  - rewrite (inv_half _ _ (linked_relay _ HL)). case_bool_decide as Hf; [|done]. intros _ Hcut.
    destruct (He' ltac:(by rewrite Hf)) as [Hh Hu]. destruct (Hu Hcut) as [_ Hu'].
    by rewrite Hs', Hh, Hu', (Hl' Hcut), !sapp_nil_r.
  - apply (sn_measure _ (fun _ => True) measure); [|done]. intros x y _ Hxy.
    split; [done|exact (tunnel_step_measure _ _ Hxy)].
  - intros t' Ht'. apply tunnel_never_stuck. eapply rtc_preserves; [apply linked_step|exact HL|exact Ht'].
Qed.

Ltac sched := cbn; eapply rtc_l.

(** A request goes in, the relay warns on its standard error, answers in one
    frame that is read in two pieces, to a client that reads slowly, and exits:
    the answer arrives, and the handler and the stream are over. *)
Lemma tunnel_faithful_and_ends_witness :
  exists t, rtc any_step (dialled "GET /") t /\ over t /\ halfClosed (rel t) = true /\
    delivered (upward (rel t)) = "GET /" /\ delivered (downward (rel t)) = "200 OK" /\
    stream_of false (output (str t)) = "200 OK" /\ sn step t.
Proof.
  assert (Hr : exists t, rtc any_step (dialled "GET /") t /\ over t /\ halfClosed (rel t) = true /\
    delivered (upward (rel t)) = "GET /" /\ delivered (downward (rel t)) = "200 OK" /\
    stream_of false (output (str t)) = "200 OK").
  { eexists. split.
    { sched. { left; apply relay_moves; [apply up_pumps, (pump_read _ _ "GET /" ""); [reflexivity|reflexivity|reflexivity|discriminate]|reflexivity]. }
      sched. { right; apply guest_reads, (take_reads _ 8). }
      sched. { left; apply relay_moves; [apply up_pumps, (pump_write _ _ "GET /" ""); [reflexivity|reflexivity|discriminate|cbn; lia]|reflexivity]. }
      sched. { right; apply client_feeds, feed_ends. }
      sched. { left; apply relay_moves; [apply up_pumps, pump_ends; reflexivity|reflexivity]. }
      sched. { left; apply relay_moves; [apply up_finishes; reflexivity|reflexivity]. }
      sched. { right; apply (guest_prints _ (true, "warning")); reflexivity. }
      sched. { right; apply (guest_prints _ (false, "200 OK")); reflexivity. }
      sched. { right; apply guest_exits. }
      sched. { left; apply demux_moves; eapply demux_stderr; reflexivity. }
      sched. { left; apply demux_moves; eapply demux_stdout; reflexivity. }
      sched. { right; apply client_reads, (take_reads _ 4). }
      sched. { left; apply (reads_pipe _ "200" " OK"); [split_and!; reflexivity|reflexivity|discriminate]. }
      sched. { left; apply relay_moves; [apply down_pumps, (pump_write _ _ "200" ""); [reflexivity|reflexivity|discriminate|cbn; lia]|reflexivity]. }
      sched. { left; apply (reads_pipe _ " OK" ""); [split_and!; reflexivity|reflexivity|discriminate]. }
      sched. { left; apply relay_moves; [apply down_pumps, (pump_write _ _ " " "OK"); [reflexivity|reflexivity|discriminate|cbn; lia]|reflexivity]. }
      sched. { right; apply client_reads, (take_reads _ 4). }
      sched. { left; apply relay_moves; [apply down_pumps, (pump_write _ _ "OK" ""); [reflexivity|reflexivity|discriminate|cbn; lia]|reflexivity]. }
      sched. { left; apply demux_moves; apply demux_end; reflexivity. }
      sched. { left; eapply reads_end; [split_and!; reflexivity|reflexivity|reflexivity]. }
      sched. { left; apply relay_moves; [apply down_pumps, pump_ends; reflexivity|reflexivity]. }
      sched. { left; apply relay_moves; [apply down_finishes; reflexivity|reflexivity]. }
      sched. { left; eapply relay_returns; [apply handler_returns; reflexivity|discriminate]. }
      apply rtc_refl. }
    split; [split_and!; try reflexivity; eexists; reflexivity|]. split_and!; reflexivity. }
  destruct Hr as (t & Hr & H1 & H2 & H3 & H4 & H5). exists t. do 6 (split; [assumption|]).
  pose proof (tunnel_faithful_and_ends "GET /" t Hr) as (_ & _ & _ & _ & Hsn & _). exact Hsn.
Defined.
