(* ===== verification/BrokerClient.v ===== *)
(** * pkg/brokerclient: the contract over the broker

    The client's operations as programs over one HTTP round trip
    ([client.go], [options.go], [sandbox.go], [dial.go]), the daemon's route
    table ([server.go], [Handler]) and the two composed: what a caller asks for
    is what the daemon's handlers are given, and what they answer is what the
    caller gets. *)

From S2P Require Import Prelude GoErrors GoStrings GoFloat64 GoDuration GoTime GoEncoding.
From S2P Require Import GoNet GoPath GoHttp GoJson GoJsonText GoJsonDecode Effects Sandbox BrokerApi DaemonConfig.
From S2P Require Import DaemonServer DaemonDecode DaemonRespond PreviewToken PreviewProxy.

(** ** Requests *)

Inductive ReqBody : Type :=
  | NoReqBody
  | ReqBodyCreate (r : CreateRequest)
  | ReqBodyExec (r : ExecRequest)
  | ReqBodyProcess (r : ProcessRequest)
  | ReqBodyBytes (content : string).

(** The client's calls: a round trip through the pooled [http.Client], which
    follows redirects; the dialling of a connection of its own, and a round
    trip on that one, which does not. *)
Inductive clientE : Type -> Type :=
  | Send (method path : string) (body : ReqBody) : clientE (result Response)
  | DialBroker : clientE (result unit)
  | SendRaw (method path : string) : clientE (result Response).

(** [signer] and [previewBase] are set together; the handler's state is kept
    apart. *)
Record Client : Type := mkClient {
  target : string;
  clientPreviews : option (Signer * string)
}.

Record brokerSandbox : Type := mkBrokerSandbox { bs_name : string; bs_info : Info }.

Definition clientDefaultPreviewTTL : Z := 10 * Minute.

Definition profileLabel : string := "brokerclient.profile".
Definition WithProfile (name : string) : CreateOption := WithLabel profileLabel name.

(** [newClient]: only the configuration is kept; the dialler is the transport. *)
Definition newClient (target : string) (opts : list (Client -> result Client)) : result Client :=
  fold_left (fun c opt => try c := c in opt c) opts (Ok (mkClient target None)).

Definition New (socketPath : string) (opts : list (Client -> result Client)) : result Client :=
  if String.eqb socketPath "" then
    Err (Errorf "%w: socket path is empty" [AWrap (Sentinel ErrInvalid)])
  else newClient socketPath opts.

Definition clientWithPreviews (key baseURL : string) (c : Client) : result Client :=
  try signer := NewSigner key in
  if String.eqb baseURL "" then
    Err (Errorf "%w: preview base URL is empty" [AWrap (Sentinel ErrInvalid)])
  else Ok (mkClient (target c) (Some (signer, baseURL))).

(** Equality of the comparable structs [Resources] and [Lifetime]; floats
    compare as Go's [==] does. *)
Definition resources_eqb (a b : Resources) : bool :=
  f64_eqb (CPUs a) (CPUs b) && (MemoryBytes a =? MemoryBytes b) && (DiskBytes a =? DiskBytes b)
  && (MaxProcesses a =? MaxProcesses b).
Definition lifetime_eqb (a b : Lifetime) : bool :=
  (IdleTimeout a =? IdleTimeout b) && (MaxAge a =? MaxAge b).

Definition policyFields (spec : Spec) : list string :=
  let def := NewSpec [] in
  ((if negb (String.eqb (Image spec) (Image def)) then ["image"] else [])
   ++ (if negb (String.eqb (Runtime spec) (Runtime def)) then ["runtime"] else [])
   ++ (if negb (String.eqb (User spec) (User def)) then ["user"] else [])
   ++ (if negb (Egress spec =? Egress def) then ["egress"] else [])
   ++ (if negb (resources_eqb (Res spec) (Res def)) then ["resources"] else [])
   ++ (if negb (lifetime_eqb (Life spec) (Life def)) then ["lifetime"] else [])
   ++ (if negb (DefaultTimeout spec =? DefaultTimeout def)
          || negb (MaxTimeout spec =? MaxTimeout def) then ["timeouts"] else []))%list.

Definition plural (n : Z) : string := if n =? 1 then "is" else "are".

(** ** Responses *)

(** [errorFrom]: a body that is not an error body does not decode. *)
Definition errorFrom (status : Z) (body : Body) : error :=
  match body with
  | BodyError we => Errorf "%w: %s" [AWrap (Sentinel (ErrorFor (Kind we)));
      match Message we with Lit s => AStr s | ErrText e => AErrText e end]
  | _ => Errorf "%w: openbloxd returned status %d" [AWrap (Sentinel ErrInternal); AInt status]
  end.

Section client.
Variable c : Client.

(** [do]: the decoder of a successful body is [dec]. *)
Definition do {A} (method path : string) (reqBody : ReqBody) (dec : Body -> option A)
    : prog clientE (result A) :=
  r <- call (Send method path reqBody);;
  match r with
  | Err err => Ret (Err (Errorf "openbloxd (%s): request failed: %w" [AStr (target c); AWrap err]))
  | Ok (Aborted _ _) => Ret (Err (Errorf "decode response: %w"
      [AWrap (External ExtOther "unexpected EOF")]))
  | Ok (Respond status body) =>
      if (status <? 200) || (status >=? 300) then Ret (Err (errorFrom status body))
      else match dec body with
           | Some a => Ret (Ok a)
           | None => Ret (Err (Errorf "decode response: %w" [AWrap (External ExtOther "json")]))
           end
  end.

Definition clientInfoFrom (i : WireInfo) : Info :=
  mkInfo (WName i) (WID i) (WImage i) (WState i) (WCreatedAt i) (WLabels i).
Definition sandboxFrom (i : WireInfo) : brokerSandbox := mkBrokerSandbox (WName i) (clientInfoFrom i).

Definition clientCreate (name : string) (opts : list CreateOption)
    : prog clientE (result brokerSandbox) :=
  let spec := NewSpec opts in
  let profile := label_of (Labels spec) profileLabel in
  if String.eqb profile "" then
    Ret (Err (Errorf "%w: no profile; pass brokerclient.WithProfile" [AWrap (Sentinel ErrInvalid)]))
  else
    match policyFields spec with
    | [] =>
        let labels := delete profileLabel (Labels spec) in
        info <-? do "POST" "/sandboxes"
                   (ReqBodyCreate (mkCreateRequest name profile (Env spec) labels)) dec_info;;
        Ret (Ok (sandboxFrom info))
    | set =>
        Ret (Err (Errorf
          "%w: %s %s daemon policy and cannot be set per-request; configure them in the profile"
          [AWrap (Sentinel ErrInvalid); AStr (String.concat ", " set);
           AStr (plural (Z.of_nat (length set)))]))
    end.

Definition clientOpen (name : string) : prog clientE (result brokerSandbox) :=
  info <-? do "GET" ("/sandboxes/" ++ PathEscape name) NoReqBody dec_info;;
  Ret (Ok (sandboxFrom info)).

Definition clientList : prog clientE (result (list Info)) :=
  infos <-? do "GET" "/sandboxes" NoReqBody dec_infos;;
  Ret (Ok (map clientInfoFrom infos)).

Definition clientDestroy (name : string) : prog clientE (result unit) :=
  do "DELETE" ("/sandboxes/" ++ PathEscape name) NoReqBody dec_unit.

Definition clientProfiles : prog clientE (result (list ProfileInfo)) :=
  do "GET" "/profiles" NoReqBody dec_profiles.

(** ** A handle's operations *)

Variable s : brokerSandbox.

Definition route (suffix : string) : string := "/sandboxes/" ++ PathEscape (bs_name s) ++ suffix.
Definition filesRoute (dest : string) : string := route "/files/" ++ PathEscape dest.

(** The request of [Exec]. *)
Definition execRequest (cmd : Command) : ExecRequest :=
  mkExecRequest (Argv cmd) (CmdEnv cmd) (Dir cmd)
    (if Timeout cmd >? 0 then DurationString (Timeout cmd) else "").

Definition clientExec (cmd : Command) : prog clientE (result Result) :=
  match Command_Validate cmd with
  | Err err => Ret (Err err)
  | Ok _ =>
      match Stdin cmd with
      | Some _ => Ret (Err (Errorf "%w: exec stdin is not supported over the broker"
          [AWrap (Sentinel ErrInvalid)]))
      | None =>
          resp <-? do "POST" (route "/exec") (ReqBodyExec (execRequest cmd)) dec_exec;;
          Ret (Ok (mkResult (RStdout resp) (RStderr resp) (RExitCode resp) (RTruncated resp)
            (RStopped resp) (ROOMKilled resp)))
      end
  end.

Definition clientWriteFile (dest src : string) : prog clientE (result unit) :=
  if negb (IsAbs dest) then
    Ret (Err (Errorf "%w: path %q is not absolute" [AWrap (Sentinel ErrInvalid); AStr dest]))
  else
    r <- call (Send "PUT" (filesRoute dest) (ReqBodyBytes src));;
    match r with
    | Err err => Ret (Err (Errorf "openbloxd: request failed: %w" [AWrap err]))
    | Ok (Aborted _ _) => Ret (Ok tt)
    | Ok (Respond status body) =>
        if (status <? 200) || (status >=? 300) then Ret (Err (errorFrom status body))
        else Ret (Ok tt)
    end.

(** [ReadFile]: the bytes the body yields, and how it ends. *)
Definition clientReadFile (dest : string) : prog clientE (result (string * option error)) :=
  if negb (IsAbs dest) then
    Ret (Err (Errorf "%w: path %q is not absolute" [AWrap (Sentinel ErrInvalid); AStr dest]))
  else
    r <- call (Send "GET" (filesRoute dest) NoReqBody);;
    match r with
    | Err err => Ret (Err (Errorf "openbloxd: request failed: %w" [AWrap err]))
    | Ok (Aborted _ sent) => Ret (Ok (sent, Some (External ExtOther "unexpected EOF")))
    | Ok (Respond status body) =>
        if negb (status =? 200) then Ret (Err (errorFrom status body))
        else Ret (Ok (match body with BodyBytes content => content | _ => "" end, None))
    end.

Definition clientStartProcess (name : string) (cmd : Command) : prog clientE (result unit) :=
  match Stdin cmd with
  | Some _ => Ret (Err (Errorf "%w: process stdin is not supported over the broker"
      [AWrap (Sentinel ErrInvalid)]))
  | None => do "POST" (route "/processes")
      (ReqBodyProcess (mkProcessRequest name (Argv cmd) (CmdEnv cmd) (Dir cmd))) dec_unit
  end.

Definition clientStop : prog clientE (result unit) := do "POST" (route "/stop") NoReqBody dec_unit.

(** [DialPort] up to the switch of protocols. *)
Definition clientDialPort (name : string) (port : Z) : prog clientE (result string) :=
  if (port <? 1) || (port >? 65535) then
    Ret (Err (Errorf "%w: port %d is out of range" [AWrap (Sentinel ErrInvalid); AInt port]))
  else
    conn <- call DialBroker;;
    match conn with
    | Err err => Ret (Err (Errorf "dial openbloxd (%s): %w" [AStr (target c); AWrap err]))
    | Ok _ =>
        r <- call (SendRaw "GET" ("/sandboxes/" ++ PathEscape name ++ "/dial/" ++ Itoa port));;
        match r with
        | Err err => Ret (Err (Errorf "dial port %d in %q: %w" [AInt port; AStr name; AWrap err]))
        | Ok (Aborted status _) => Ret (Err (errorFrom status NoBody))
        | Ok (Respond status body) =>
            if negb (status =? 101) then Ret (Err (errorFrom status body))
            else Ret (Ok (match body with BodyStream conn => conn | _ => "" end))
        end
    end.

(** [Expose], at time [now], with the nonce bytes [rnd] the signer draws. *)
Definition clientExpose (now : time) (rnd : result string) (port ttl : Z) : result Preview :=
  match clientPreviews c with
  | None => Err (Errorf "%w: previews are not configured; pass brokerclient.WithPreviews to New"
      [AWrap (Sentinel ErrInvalid)])
  | Some (signer, previewBase) =>
      if (port <? 1) || (port >? 65535) then
        Err (Errorf "%w: port %d is out of range" [AWrap (Sentinel ErrInvalid); AInt port])
      else
        let expiresAt := now + ClampTTL ttl clientDefaultPreviewTTL in
        match Sign signer rnd (bs_name s) port expiresAt with
        | Err err => Err (Errorf "%w: %w" [AWrap (Sentinel ErrInvalid); AWrap err])
        | Ok token =>
            Ok (mkPreview (PreviewProxy.URL previewBase (bs_name s) port) token port expiresAt)
        end
  end.

(** [Revoke]: the client's preview handler after it; [clock] is the time at
    which the handler looks at each revoked token. *)
Definition clientRevoke (h : Handler) (port : Z) (token : string) (now : time)
    (clock : string -> time) : result Handler :=
  match clientPreviews c with
  | None => Err (Errorf "%w: previews are not configured" [AWrap (Sentinel ErrInvalid)])
  | Some (signer, _) =>
      match Verify signer token (bs_name s) port now with
      | Err err => Err (Errorf "%w: %w" [AWrap (Sentinel ErrInvalid); AWrap err])
      | Ok _ => Ok (Revoke h token clock)
      end
  end.
End client.

(** ** The daemon's routes *)

(** [cleanPath] of net/http *)
Definition cleanPath (p : string) : string :=
  let p := if HasPrefix p "/" then p else "/" ++ p in
  let np := Clean p in
  match AfterLast p "/"%char with
  | Some "" => if String.eqb np "/" then np else np ++ "/"
  | _ => np
  end.

(** A wildcard's value: its segment unescaped, or as it is. *)
Definition pathValue (seg : string) : string := default seg (PathUnescape seg).

Definition plain_error (status : Z) : Response := Respond status NoBody.

(** [RedirectHandler]: the target is put in a URL's [Path] and escaped from
    there. *)
Definition redirect (target : string) : Response := Respond 301 (BodyRedirect (EscapedPath target)).

(** A [GET] pattern serves [HEAD] as well. *)
Definition is_get (method : string) : bool := String.eqb method "GET" || String.eqb method "HEAD".

(** The bytes of a request's body, as [do] marshals it, and what [decode] reads
    from them. *)
Definition bodyText (b : ReqBody) : string :=
  match b with
  | NoReqBody => ""
  | ReqBodyCreate r => marshalCreate r
  | ReqBodyExec r => marshalExec r
  | ReqBodyProcess r => marshalProcess r
  | ReqBodyBytes content => content
  end.
Definition createBody (b : ReqBody) : result CreateRequest := decodeBody decodeCreate (bodyText b).
Definition execBody (b : ReqBody) : result ExecRequest := decodeBody decodeExec (bodyText b).
Definition processBody (b : ReqBody) : result ProcessRequest := decodeBody decodeProcess (bodyText b).

Section dispatch.
Context {RS : MapRange string} {RP : MapRange Profile}.
Variable cfg : Config.

(** The route table ([Handler]) as net/http's [ServeMux] serves it: a path that
    cleaning changes is redirected to the clean one, and so is a files path
    without its last slash; the first segments choose the handler; the rest of a
    files path is its wildcard. *)
Definition dispatch (method path : string) (body : ReqBody) : prog daemonE Response :=
  if negb (String.eqb (cleanPath path) path) then Ret (redirect (cleanPath path))
  else
    match SplitN path "/"%char 4 with
    | ["" ; "sandboxes"] =>
        if String.eqb method "POST" then handleCreate cfg (createBody body)
        else if is_get method then handleList
        else Ret (plain_error 405)
    | ["" ; "profiles"] =>
        if is_get method then Ret (handleProfiles cfg) else Ret (plain_error 405)
    | ["" ; "sandboxes"; name] =>
        if String.eqb name "" then Ret (plain_error 404)
        else if is_get method then handleGet (pathValue name)
        else if String.eqb method "DELETE" then handleDestroy (pathValue name)
        else Ret (plain_error 405)
    | ["" ; "sandboxes"; name; op] =>
        if String.eqb name "" then Ret (plain_error 404)
        else if String.eqb op "stop" then
          if String.eqb method "POST" then handleStop (pathValue name) else Ret (plain_error 405)
        else if String.eqb op "exec" then
          if String.eqb method "POST" then handleExec (pathValue name) (execBody body)
          else Ret (plain_error 405)
        else if String.eqb op "processes" then
          if String.eqb method "POST" then handleStartProcess (pathValue name) (processBody body)
          else Ret (plain_error 405)
        else if String.eqb op "files" then
          if is_get method || String.eqb method "PUT" then
            Ret (redirect (cleanPath (pathValue path) ++ "/"))
          else Ret (plain_error 405)
        else Ret (plain_error 404)
    | ["" ; "sandboxes"; name; kind; rest] =>
        if String.eqb name "" then Ret (plain_error 404)
        else if String.eqb kind "files" then
          if String.eqb method "PUT" then
            handleWriteFile (pathValue name) (pathValue rest)
              (match body with ReqBodyBytes b => b | _ => "" end)
          else if is_get method then handleReadFile (pathValue name) (pathValue rest)
          else Ret (plain_error 405)
        else if String.eqb kind "dial" && negb (has_byte "/"%char rest) && negb (String.eqb rest "") then
          if is_get method then handleDial (pathValue name) (pathValue rest) None
          else Ret (plain_error 405)
        else Ret (plain_error 404)
    | _ => Ret (plain_error 404)
    end.

(** [http.Client.Do]: redirects are followed, at most ten, with the method
    [GET] (or [HEAD]) and no body. *)
Fixpoint follow (fuel : nat) (method path : string) (body : ReqBody) : prog daemonE (result Response) :=
  r <- dispatch method path body;;
  match r with
  | Respond status (BodyRedirect location) =>
      match fuel with
      | O => Ret (Err (External ExtOther "stopped after 10 redirects"))
      | S fuel => follow fuel (if is_get method then method else "GET") location NoReqBody
      end
  | _ => Ret (Ok r)
  end.
Definition maxRedirects : nat := 10.
End dispatch.

(** ** Paths survive the router *)

Definition path_of (segs : list string) : string := "/" ++ String.concat "/" segs.

Lemma path_of_cons x segs : segs <> [] -> path_of (x :: segs) = "/" ++ x ++ path_of segs.
Proof. unfold path_of. by destruct segs. Qed.

Lemma plain_segment_spec s :
  plain_segment s = true <-> s <> "" /\ s <> "." /\ s <> ".." /\ has_byte "/"%char s = false.
Proof.
  unfold plain_segment. destruct (String.eqb_spec s ""), (String.eqb_spec s "."),
    (String.eqb_spec s ".."), (has_byte "/"%char s); cbn; naive_solver.
Qed.

Lemma Split_path_of segs :
  segs <> [] -> forallb plain_segment segs = true -> Split (path_of segs) "/"%char = "" :: segs.
Proof.
  unfold path_of. intros Hne Hs. cbn [String.append Split]. rewrite Ascii.eqb_refl. f_equal.
  induction segs as [|x segs IH]; [done|]. cbn [forallb] in Hs. apply andb_prop in Hs as [Hx Hs].
  apply plain_segment_spec in Hx as (_ & _ & _ & Hx). destruct segs as [|y segs].
  - by apply Split_none.
  - cbn [String.concat String.append]. rewrite Split_app by done. f_equal. by apply IH.
Qed.

Lemma AfterLast_app a c b : has_byte c b = false -> AfterLast (a ++ String c b) c = Some b.
Proof.
  intros Hb. assert (Hn : AfterLast b c = None).
  { induction b as [|d b IH]; [done|]. cbn in Hb |- *. apply orb_false_elim in Hb as [Hd Hb].
    rewrite IH by done. by rewrite Ascii.eqb_sym, Hd. }
  induction a as [|d a IH]; cbn; [by rewrite Hn, Ascii.eqb_refl|]. by rewrite IH.
Qed.

Lemma AfterLast_path_of segs :
  segs <> [] -> forallb plain_segment segs = true ->
  exists x, x <> "" /\ AfterLast (path_of segs) "/"%char = Some x.
Proof.
  induction segs as [|x segs IH]; [done|]. intros _ Hs. cbn [forallb] in Hs.
  apply andb_prop in Hs as [Hx Hs]. apply plain_segment_spec in Hx as (Hx & _ & _ & Hb).
  destruct segs as [|y segs].
  - exists x. split; [done|]. by apply (AfterLast_app "").
  - destruct (IH ltac:(done) Hs) as (z & Hz & Ha). exists z. split; [done|].
    rewrite path_of_cons by done. rewrite <- sapp_assoc. revert Ha. generalize (path_of (y :: segs)).
    clear. intros t Ha. induction ("/" ++ x) as [|d a IH]; [done|]. cbn. by rewrite IH.
Qed.

Lemma cleanPath_path_of segs :
  segs <> [] -> forallb plain_segment segs = true -> cleanPath (path_of segs) = path_of segs.
Proof.
  intros Hne Hs.
  assert (Hp : HasPrefix (path_of segs) "/" = true) by (unfold path_of; apply HasPrefix_app).
  assert (Hc : Clean (path_of segs) = path_of segs).
  { unfold Clean. change (String.eqb (path_of segs) "") with false. cbv iota.
    rewrite (Split_path_of segs Hne Hs). rewrite Hp. cbv zeta.
    change (clean_segs true ("" :: segs) []) with (clean_segs true segs []).
    rewrite clean_segs_plain, app_nil_r, rev_involutive by done. by destruct segs. }
  unfold cleanPath. rewrite Hp. cbv iota zeta. rewrite Hc.
  destruct (AfterLast_path_of segs Hne Hs) as (x & Hx & ->). by destruct x.
Qed.

Lemma PathEscape_plain name :
  name <> "" -> name <> "." -> name <> ".." -> plain_segment (PathEscape name) = true.
Proof.
  intros H0 H1 H2.
  assert (Hinj : forall s, PathUnescape s = Some s -> PathEscape name = s -> name = s).
  { intros s Hs He. pose proof (PathUnescape_Escape name) as Hu. rewrite He, Hs in Hu. congruence. }
  apply plain_segment_spec. split_and!.
  - intros He. by apply H0, Hinj.
  - intros He. by apply H1, Hinj.
  - intros He. by apply H2, Hinj.
  - by apply all_bytes_not_has with segment_byte, PathEscape_all.
Qed.

Lemma pathValue_PathEscape x : pathValue (PathEscape x) = x.
Proof. unfold pathValue. by rewrite PathUnescape_Escape. Qed.

Lemma SplitN_path_of segs n :
  segs <> [] -> forallb plain_segment segs = true -> (length segs <= n)%nat ->
  SplitN (path_of segs) "/"%char n = "" :: segs.
Proof.
  intros Hne Hs Hn. destruct n as [|n]; [destruct segs; cbn in Hn; [done|lia]|].
  unfold path_of. cbn [SplitN String.append Cut]. rewrite Ascii.eqb_refl. f_equal.
  revert n Hn; induction segs as [|x segs IH]; intros n Hn; [done|].
  cbn [forallb] in Hs. apply andb_prop in Hs as [Hx Hs].
  apply plain_segment_spec in Hx as (_ & _ & _ & Hx). destruct segs as [|y segs].
  - cbn [String.concat]. apply Cut_None in Hx. destruct n as [|n]; cbn [SplitN]; [done|]. by rewrite Hx.
  - cbn [length] in Hn. destruct n as [|n]; [lia|]. cbn [String.concat String.append SplitN]. rewrite Cut_app by done.
    f_equal. apply IH; [done|done|cbn [length]; lia].
Qed.

Lemma Itoa_unescape z : PathUnescape (Itoa z) = Some (Itoa z).
Proof.
  assert (Hall : forall t, all_bytes is_int_byte t = true -> PathUnescape t = Some t).
  { induction t as [|c t IH]; [done|]. cbn [all_bytes PathUnescape]. intros Hc. zbool.
    rewrite IH by done. destruct (Ascii.eqb_spec c "%") as [->|]; [done|]. done. }
  apply Hall, Itoa_all.
Qed.

Section routes.
Context {RS : MapRange string} {RP : MapRange Profile}.
Variable cfg : Config.

(** A sandbox's name that can be a path segment. *)
Definition routable (name : string) : Prop := name <> "" /\ name <> "." /\ name <> "..".

(** A request whose path is made of plain segments reaches the table. *)
Lemma dispatch_path segs path :
  path = path_of segs -> segs <> [] -> (length segs <= 4)%nat -> forallb plain_segment segs = true ->
  String.eqb (cleanPath path) path = true /\ SplitN path "/"%char 4 = "" :: segs.
Proof.
  intros -> Hne Hl Hs. rewrite cleanPath_path_of, String.eqb_refl by done. split; [done|].
  by apply SplitN_path_of.
Qed.

(** For every sandbox name but the empty one, [.] and [..], and every absolute
    path, whatever bytes they contain, a request is routed to its operation's
    handler with exactly that name and path. *)
Lemma requests_reach_handlers s dest src port r pr :
  routable (bs_name s) -> IsAbs dest = true -> 1 <= port <= 65535 ->
  let name := bs_name s in
  dispatch cfg "GET" ("/sandboxes/" ++ PathEscape name) NoReqBody = handleGet name /\
  dispatch cfg "DELETE" ("/sandboxes/" ++ PathEscape name) NoReqBody = handleDestroy name /\
  dispatch cfg "POST" (route s "/stop") NoReqBody = handleStop name /\
  dispatch cfg "POST" (route s "/exec") (ReqBodyExec r)
    = handleExec name (execBody (ReqBodyExec r)) /\
  dispatch cfg "POST" (route s "/processes") (ReqBodyProcess pr)
    = handleStartProcess name (processBody (ReqBodyProcess pr)) /\
  dispatch cfg "PUT" (filesRoute s dest) (ReqBodyBytes src) = handleWriteFile name dest src /\
  dispatch cfg "GET" (filesRoute s dest) NoReqBody = handleReadFile name dest /\
  dispatch cfg "GET" ("/sandboxes/" ++ PathEscape name ++ "/dial/" ++ Itoa port) NoReqBody
    = handleDial name (Itoa port) None.
Proof.
  intros (Hn0 & Hn1 & Hn2) Habs Hport name.
  assert (Hn : plain_segment (PathEscape name) = true) by by apply PathEscape_plain.
  assert (Hne : String.eqb (PathEscape name) "" = false).
  { apply plain_segment_spec in Hn as (Hn & _). by apply String.eqb_neq. }
  assert (Hd : plain_segment (PathEscape dest) = true).
  { apply PathEscape_plain; intros ->; done. }
  assert (Hi : plain_segment (Itoa port) = true).
  { apply plain_segment_spec. pose proof (ParseInt64_Itoa port ltac:(unfold in_int64, min_int64, max_int64; lia)) as Hp.
    split_and!; try (intros He; rewrite He in Hp; done). by apply Itoa_has. }
  unfold route, filesRoute, route. fold name.
  assert (Hto : forall segs path, path = path_of segs -> segs <> [] -> (length segs <= 4)%nat ->
    forallb plain_segment segs = true ->
    String.eqb (cleanPath path) path = true /\ SplitN path "/"%char 4 = "" :: segs)
    by (intros; by apply dispatch_path).
  split_and!; unfold dispatch.
  all: match goal with |- context [SplitN ?p _ _] =>
    let segs := match p with
      | "/sandboxes/" ++ ?n ++ "/dial/" ++ ?q => constr:(["sandboxes"; n; "dial"; q])
      | ("/sandboxes/" ++ ?n ++ "/files/") ++ ?d => constr:(["sandboxes"; n; "files"; d])
      | "/sandboxes/" ++ ?n ++ "/stop" => constr:(["sandboxes"; n; "stop"])
      | "/sandboxes/" ++ ?n ++ "/exec" => constr:(["sandboxes"; n; "exec"])
      | "/sandboxes/" ++ ?n ++ "/processes" => constr:(["sandboxes"; n; "processes"])
      | "/sandboxes/" ++ ?n => constr:(["sandboxes"; n])
      end in
    destruct (Hto segs p) as [-> ->];
      [rewrite ?sapp_assoc; reflexivity|done|cbn; lia|
       cbn [forallb]; rewrite Hn, ?Hd, ?Hi; reflexivity|] end.
  all: cbn [negb]; rewrite ?Hne, ?pathValue_PathEscape; try reflexivity.
  apply plain_segment_spec in Hi as (Hi1 & _ & _ & Hi2). apply String.eqb_neq in Hi1.
  rewrite Hi1, Hi2. unfold pathValue. rewrite Itoa_unescape. reflexivity.
Qed.

Lemma dispatch_exec s r :
  routable (bs_name s) ->
  dispatch cfg "POST" (route s "/exec") (ReqBodyExec r)
    = handleExec (bs_name s) (execBody (ReqBodyExec r)).
Proof.
  intros Hr. pose proof (requests_reach_handlers s "/" "" 1 r (mkProcessRequest "" [] [] "") Hr eq_refl) as Hp.
  apply Hp. lia.
Qed.
End routes.

Definition demo_broker_sandbox : brokerSandbox :=
  mkBrokerSandbox "tenant/a b?" (mkInfo "tenant/a b?" "c1" "img" StateRunning 0 ∅).

(** ** Client and daemon composed *)

(** The client's error for a daemon's error. *)
Definition wire (err : error) : error :=
  match fail err with
  | Respond status body => errorFrom status body
  | Aborted _ _ => err
  end.

(** An outcome with its result changed. *)
Definition finish {A B W} (f : A -> B) (o : A * W) : B * W := let '(r, w) := o in (f r, w).

(** A backend's answer as the client's caller gets it. *)
Definition wired {A} (r : result A) : result A :=
  match r with Ok a => Ok a | Err e => Err (wire e) end.

Lemma wire_Is err s :
  Is (wire err) s = bool_decide (ErrorFor (fst (KindOf err)) = s).
Proof.
  unfold wire, fail. destruct (KindOf err) as [kind status]. cbn [fst].
  destruct (String.eqb kind KindInternal); cbn; by rewrite orb_false_r.
Qed.

Section composed.
Context {RS : MapRange string} {RP : MapRange Profile}.
Variable cfg : Config.

(** A client program over a transport that never fails. *)
Fixpoint over {A} (p : prog clientE A) : prog daemonE A :=
  match p with
  | Ret a => Ret a
  | Vis e k =>
      match e in clientE X return (X -> prog daemonE A) -> prog daemonE A with
      | Send method path body => fun k => r <- follow cfg maxRedirects method path body;; k r
      | DialBroker => fun k => k (Ok tt)
      | SendRaw method path => fun k => r <- dispatch cfg method path NoReqBody;; k (Ok r)
      end (fun x => over (k x))
  end.

(** What [do] makes of a response. *)
Definition reply {A} (dec : Body -> option A) (resp : Response) : result A :=
  match resp with
  | Aborted _ _ => Err (Errorf "decode response: %w" [AWrap (External ExtOther "unexpected EOF")])
  | Respond status body =>
      if (status <? 200) || (status >=? 300) then Err (errorFrom status body)
      else match dec body with
           | Some a => Ok a
           | None => Err (Errorf "decode response: %w" [AWrap (External ExtOther "json")])
           end
  end.

Lemma fail_status_range err : exists status e, fail err = Respond status (BodyError e) /\ 400 <= status.
Proof.
  unfold fail. pose proof (KindOf_status err) as Hs. destruct (KindOf err) as [kind status].
  cbn [snd] in Hs. eexists _, _. split; [done|]. lia.
Qed.

Lemma reply_fail {A} (dec : Body -> option A) err : reply dec (fail err) = Err (wire err).
Proof.
  unfold reply, wire. destruct (fail_status_range err) as (status & e & -> & Hs).
  destruct (Z.ltb_spec status 200); [lia|]. rewrite Z.geb_leb.
  destruct (Z.leb_spec 300 status); [done|lia].
Qed.

(** ** Handlers do not redirect *)

Definition final (r : Response) : Prop :=
  match r with Respond _ (BodyRedirect _) => False | _ => True end.

Lemma fail_final err : final (fail err).
Proof. by destruct (fail_status_range err) as (? & ? & -> & _). Qed.

Definition answers (p : prog daemonE Response) : Prop := safe (fun _ _ => True) p final.

(** One call, then a case split on its answer. *)
Ltac answer := repeat first
  [ apply fail_final | exact I
  | match goal with
    | |- safe _ (Vis _ _) _ => split; [exact I|]
    | |- safe _ (Ret _) _ => cbn [safe]
    | |- safe _ (bind _ _) _ => cbn [bind call]
    | |- forall _ : _, _ => intros [|] || intros ?
    | |- context [match ?x with _ => _ end] => destruct x
    end ].

Lemma handleGet_answers name : answers (handleGet name).
Proof. unfold answers, handleGet. answer. Qed.
Lemma handleList_answers : answers handleList.
Proof. unfold answers, handleList. answer. Qed.
Lemma create_reserved_answers profile req : answers (create_reserved profile req).
Proof. unfold answers, create_reserved. answer. Qed.
Lemma handleCreate_answers body : answers (handleCreate cfg body).
Proof.
  unfold answers, handleCreate. destruct body as [req|e]; [|apply fail_final].
  destruct (String.eqb _ ""); [apply fail_final|].
  destruct (Profiles cfg !! _) as [profile|]; [|apply fail_final].
  cbn [bind call]. split; [exact I|]. intros [i|e].
  - destruct (negb _); [apply fail_final|apply create_reserved_answers].
  - destruct (negb _); [apply fail_final|].
    apply safe_bind with (fun _ => True); [by apply safe_any|]. intros [taken|e'] _; [|apply fail_final].
    eapply safe_bind; [apply create_reserved_answers|]. intros resp Hresp.
    apply safe_bind with (fun _ => True); [by apply safe_any|]. by intros _ _.
Qed.
Lemma handleDestroy_answers name : answers (handleDestroy name).
Proof. unfold answers, handleDestroy. answer. Qed.
Lemma handleStop_answers name : answers (handleStop name).
Proof. unfold answers, handleStop. answer. Qed.
Lemma handleExec_answers name er : answers (handleExec name er).
Proof. unfold answers, handleExec. answer. Qed.
Lemma handleStartProcess_answers name pr : answers (handleStartProcess name pr).
Proof. unfold answers, handleStartProcess. answer. Qed.
Lemma handleWriteFile_answers name path content : answers (handleWriteFile name path content).
Proof. unfold answers, handleWriteFile. answer. Qed.
Lemma handleReadFile_answers name path : answers (handleReadFile name path).
Proof. unfold answers, handleReadFile. answer. Qed.
Hint Resolve handleGet_answers handleList_answers handleCreate_answers handleDestroy_answers handleStop_answers handleExec_answers
  handleStartProcess_answers handleWriteFile_answers handleReadFile_answers : openblox.

Section run.
Context {W : Type} (h : forall X, daemonE X -> W -> X * W).

Lemma run_over_bind {A B} (p : prog clientE A) (f : A -> prog clientE B) w :
  run h (over (bind p f)) w = let '(a, w') := run h (over p) w in run h (over (f a)) w'.
Proof.
  revert w; induction p as [a|X e k IH]; intros w; [done|]. destruct e; cbn [bind over]; rewrite ?run_bind.
  - destruct (run h (follow cfg maxRedirects method path body) w) as [r w']. apply IH.
  - apply IH.
  - destruct (run h (dispatch cfg method path NoReqBody) w) as [r w']. apply IH.
Qed.

(** A request that a handler answers is not redirected. *)
Lemma run_follow fuel method path body p w :
  dispatch cfg method path body = p -> answers p ->
  run h (follow cfg fuel method path body) w = let '(r, w') := run h p w in (Ok r, w').
Proof.
  intros Hd Hp. apply (safe_run h _ p final w) in Hp.
  destruct fuel; cbn [follow]; rewrite run_bind, Hd;
    destruct (run h p w) as [[status []|] w']; done.
Qed.

Lemma run_over_do {A} c method path body (dec : Body -> option A) p w :
  dispatch cfg method path body = p -> answers p ->
  run h (over (do c method path body dec)) w = let '(resp, w') := run h p w in (reply dec resp, w').
Proof.
  intros Hd Hp. unfold do. cbn [bind call over]. rewrite run_bind, (run_follow _ _ _ _ p) by done.
  destruct (run h p w) as [[status b|status b] w']; [|done].
  cbn [reply]. destruct (_ || _); [done|]. by destruct (dec b).
Qed.

(** The client's side of a handler's failure. *)
Lemma fail_wire e : exists st we, fail e = Respond st (BodyError we) /\
  wire e = errorFrom st (BodyError we) /\
  (st <? 200) = false /\ (st >=? 300) = true /\ (st =? 200) = false /\ (st =? 101) = false.
Proof.
  destruct (fail_status_range e) as (st & we & Hf & Hst). exists st, we.
  split_and!; [done|unfold wire; by rewrite Hf|lia..].
Qed.

Ltac failed e :=
  let H1 := fresh in let H2 := fresh in let H3 := fresh in let H4 := fresh in
  destruct (fail_wire e) as (? & ? & -> & Hw & H1 & H2 & H3 & H4);
  cbn [over bind finish wired run]; rewrite ?Hw, ?H1, ?H2, ?H3, ?H4; reflexivity.

(** The same operations against the backend directly. *)
Definition direct_stop (name : string) : prog daemonE (result unit) :=
  sb <-? call (BOpen name);; call (BStop sb).
Definition direct_exec (name : string) (cmd : Command) : prog daemonE (result Result) :=
  sb <-? call (BOpen name);; call (BExec sb cmd).
Definition direct_start (name proc : string) (cmd : Command) : prog daemonE (result unit) :=
  sb <-? call (BOpen name);; call (BStartProcess sb proc cmd).
Definition direct_write (name dest src : string) : prog daemonE (result unit) :=
  sb <-? call (BOpen name);; call (BWriteFile sb dest filePerm src).
Definition direct_read (name dest : string) : prog daemonE (result (string * option error)) :=
  sb <-? call (BOpen name);; call (BReadFile sb dest).

(** Requests whose strings survive JSON and which the daemon reads whole. *)
Definition exec_fits (cmd : Command) : Prop :=
  forallb valid_utf8 (Argv cmd) = true /\ forallb valid_utf8 (CmdEnv cmd) = true /\
  valid_utf8 (Dir cmd) = true /\
  Z.of_nat (String.length (marshalExec (execRequest cmd))) <= MaxBodyBytes.

Definition process_fits (proc : string) (cmd : Command) : Prop :=
  valid_utf8 proc = true /\ forallb valid_utf8 (Argv cmd) = true /\
  forallb valid_utf8 (CmdEnv cmd) = true /\ valid_utf8 (Dir cmd) = true /\
  Z.of_nat (String.length (marshalProcess (mkProcessRequest proc (Argv cmd) (CmdEnv cmd) (Dir cmd))))
    <= MaxBodyBytes.

Lemma execRequest_sent cmd :
  Command_Validate cmd = Ok tt -> in_int64 (Timeout cmd) -> exec_fits cmd ->
  execBody (ReqBodyExec (execRequest cmd)) = Ok (execRequest cmd) /\
  ((ExTimeout (execRequest cmd) = "" /\ Timeout cmd = 0) \/
   (ExTimeout (execRequest cmd) <> "" /\ ParseDuration (ExTimeout (execRequest cmd)) = Some (Timeout cmd))).
Proof.
  intros Hv Hi (Ha & He & Hd & Hl). apply Command_Validate_ok in Hv as (_ & Ht & _). split.
  - unfold execBody, bodyText. rewrite decodeBody_marshalExec by exact Hl. unfold sentExec, execRequest. cbn [ExArgv ExEnv ExDir ExTimeout].
    rewrite !json_text_list_valid, (json_text_valid (Dir cmd)) by done.
    destruct (Timeout cmd >? 0); [|done]. by rewrite json_text_valid by apply DurationString_valid.
  - unfold execRequest. cbn [ExTimeout]. rewrite Z.gtb_ltb. destruct (Z.ltb_spec 0 (Timeout cmd)).
    + right. pose proof (ParseDuration_String (Timeout cmd) Hi) as Hp. split; [|done].
      intros Hs. by rewrite Hs in Hp.
    + left. split; [done|]. lia.
Qed.

(** C15. A command run through the broker is the same command: for every
    sandbox name that can be a path segment and every valid command without
    stdin whose strings are UTF-8 and whose request is within the daemon's
    limit, the client's [Exec] composed with the daemon's router and handler
    makes the very calls a direct [Open] and [Exec] on the backend make, with
    the command unchanged down to its timeout, and returns the backend's result
    (its exit code an [int]) unchanged byte for byte, or its error as the wire
    renders it. *)
Theorem exec_over_broker c s cmd w :
  routable (bs_name s) -> Command_Validate cmd = Ok tt -> Stdin cmd = None ->
  in_int64 (Timeout cmd) -> exec_fits cmd ->
  (forall sb w1 res w2, h _ (BExec sb cmd) w1 = (Ok res, w2) -> in_int64 (ExitCode res)) ->
  run h (over (clientExec c s cmd)) w =
  finish wired (run h (direct_exec (bs_name s) cmd) w).
Proof.
  intros Hr Hv Hin Hi Hfit Hcode. unfold clientExec. rewrite Hv, Hin, run_over_bind.
  destruct (execRequest_sent cmd Hv Hi Hfit) as [Hs Ht].
  rewrite (run_over_do _ _ _ _ _ _ _ (dispatch_exec cfg s _ Hr)) by auto with openblox.
  rewrite Hs. unfold handleExec, direct_exec.
  assert (Hcmd : mkCommand (ExArgv (execRequest cmd)) (ExEnv (execRequest cmd))
    (ExDir (execRequest cmd)) None (Timeout cmd) = cmd) by (destruct cmd; cbn in *; by subst).
  assert (Hto : (if negb (String.eqb (ExTimeout (execRequest cmd)) "") then
      match ParseDuration (ExTimeout (execRequest cmd)) with
      | None => Err (Errorf "%w: timeout %q: %w" [AWrap (Sentinel ErrInvalid);
          AStr (ExTimeout (execRequest cmd)); AWrap (External ExtOther "time: invalid duration")])
      | Some d => Ok d
      end else Ok 0) = Ok (Timeout cmd)).
  { destruct Ht as [[-> <-]|[Hne ->]]; [done|]. apply String.eqb_neq in Hne. by rewrite Hne. }
  rewrite Hto. cbn [bind call run]. rewrite Hcmd.
  destruct (h _ (BOpen (bs_name s)) w) as [[sb|e] w1]; cbn [bind call run]; [|by rewrite reply_fail].
  destruct (h _ (BExec sb cmd) w1) as [[res|e] w2] eqn:Ex; cbn [run]; [|by rewrite reply_fail].
  apply Hcode in Ex. unfold reply. change ((200 <? 200) || (200 >=? 300)) with false.
  cbv iota. rewrite dec_exec_sent by exact Ex. by destruct res.
Qed.

(** One operation at a time, given that its request reaches its handler. *)

Lemma destroy_over c name w :
  dispatch cfg "DELETE" ("/sandboxes/" ++ PathEscape name) NoReqBody = handleDestroy name ->
  run h (over (clientDestroy c name)) w = finish wired (run h (call (BDestroy name)) w).
Proof.
  intros Hd. unfold clientDestroy. rewrite (run_over_do _ _ _ _ _ _ _ Hd) by auto with openblox.
  unfold handleDestroy. cbn [bind call run]. destruct (h _ (BDestroy name) w) as [[[]|e] w1];
    cbn [run finish wired]; [done|by rewrite reply_fail].
Qed.

Lemma stop_over c s w :
  dispatch cfg "POST" (route s "/stop") NoReqBody = handleStop (bs_name s) ->
  run h (over (clientStop c s)) w = finish wired (run h (direct_stop (bs_name s)) w).
Proof.
  intros Hd. unfold clientStop. rewrite (run_over_do _ _ _ _ _ _ _ Hd) by auto with openblox.
  unfold handleStop, direct_stop. cbn [bind call run].
  destruct (h _ (BOpen _) w) as [[sb|e] w1]; cbn [bind call run];
    [|cbn [finish wired]; by rewrite reply_fail].
  destruct (h _ (BStop sb) w1) as [[[]|e] w2]; cbn [run finish wired]; [done|by rewrite reply_fail].
Qed.

Lemma write_over s dest src w :
  dispatch cfg "PUT" (filesRoute s dest) (ReqBodyBytes src) = handleWriteFile (bs_name s) dest src ->
  IsAbs dest = true ->
  run h (over (clientWriteFile s dest src)) w = finish wired (run h (direct_write (bs_name s) dest src) w).
Proof.
  intros Hd Habs. unfold clientWriteFile. rewrite Habs. cbn [negb bind call over].
  rewrite run_bind, (run_follow _ _ _ _ _ _ Hd) by auto with openblox.
  unfold handleWriteFile, direct_write, filePath. rewrite Habs. cbn [negb bind call run].
  destruct (h _ (BOpen _) w) as [[sb|e] w1]; cbn [bind call run]; [|failed e].
  destruct (h _ (BWriteFile sb dest filePerm src) w1) as [[[]|e] w2]; cbn [run]; [done|failed e].
Qed.

(** How a read ends for the client's caller. *)
Definition read_reply (r : result (string * option error)) : result (string * option error) :=
  match r with
  | Ok (content, None) => Ok (content, None)
  | Ok (content, Some _) => Ok (content, Some (External ExtOther "unexpected EOF"))
  | Err e => Err (wire e)
  end.

Lemma read_over s dest w :
  dispatch cfg "GET" (filesRoute s dest) NoReqBody = handleReadFile (bs_name s) dest ->
  IsAbs dest = true ->
  run h (over (clientReadFile s dest)) w = finish read_reply (run h (direct_read (bs_name s) dest) w).
Proof.
  intros Hd Habs. unfold clientReadFile. rewrite Habs. cbn [negb bind call over].
  rewrite run_bind, (run_follow _ _ _ _ _ _ Hd) by auto with openblox.
  unfold handleReadFile, direct_read, filePath. rewrite Habs. cbn [negb bind call run].
  destruct (h _ (BOpen _) w) as [[sb|e] w1]; cbn [bind call run]; [|cbn [finish read_reply]; failed e].
  destruct (h _ (BReadFile sb dest) w1) as [[[content [err|]]|e] w2]; cbn [run]; try done.
  cbn [finish read_reply]. failed e.
Qed.

Lemma dial_over c name port w :
  dispatch cfg "GET" ("/sandboxes/" ++ PathEscape name ++ "/dial/" ++ Itoa port) NoReqBody
    = handleDial name (Itoa port) None ->
  1 <= port <= 65535 ->
  run h (over (clientDialPort c name port)) w = finish wired (run h (call (BDialPort name port)) w).
Proof.
  intros Hd Hp. unfold clientDialPort.
  assert (Hrange : (port <? 1) || (port >? 65535) = false) by lia.
  rewrite Hrange. cbn [bind call over]. rewrite run_bind, Hd. unfold handleDial, Atoi.
  rewrite ParseInt64_Itoa by (unfold in_int64, min_int64, max_int64; lia). rewrite Hrange.
  cbn [bind call run]. destruct (h _ (BDialPort name port) w) as [[conn|e] w1]; cbn [run]; [done|failed e].
Qed.

Lemma start_over c s proc cmd w :
  let pr := mkProcessRequest proc (Argv cmd) (CmdEnv cmd) (Dir cmd) in
  dispatch cfg "POST" (route s "/processes") (ReqBodyProcess pr)
    = handleStartProcess (bs_name s) (processBody (ReqBodyProcess pr)) ->
  Stdin cmd = None -> process_fits proc cmd ->
  run h (over (clientStartProcess c s proc cmd)) w =
  finish wired (run h (direct_start (bs_name s) proc
    (mkCommand (Argv cmd) (CmdEnv cmd) (Dir cmd) None 0)) w).
Proof.
  intros pr Hd Hin (Hn & Ha & He & Hdir & Hl). unfold clientStartProcess. rewrite Hin. fold pr.
  rewrite (run_over_do _ _ _ _ _ _ _ Hd) by auto with openblox.
  unfold processBody, bodyText. rewrite decodeBody_marshalProcess by exact Hl.
  unfold handleStartProcess, direct_start, sentProcess, pr. cbn [PrName PrArgv PrEnv PrDir bind call run].
  rewrite !json_text_list_valid, !json_text_valid by done.
  destruct (h _ (BOpen _) w) as [[sb|e] w1]; cbn [bind call run];
    [|cbn [finish wired]; by rewrite reply_fail].
  destruct (h _ (BStartProcess sb proc _) w1) as [[[]|e] w2]; cbn [run finish wired];
    [done|by rewrite reply_fail].
Qed.

(** C16. The client's operations on a handle are the backend's: [Destroy],
    [Stop], [WriteFile], [ReadFile] and [DialPort] through the broker make the
    very calls the direct operations make, on the sandbox of the handle's name,
    with the caller's path, content and port (a written file always has mode
    0644), [StartProcess] likewise for a command without stdin that the wire
    can carry (its timeout is not sent), and return what they return, errors as the wire renders them; a file
    whose reading fails half way is a failed read for the caller too. *)
Theorem operations_over_broker c s dest src port proc cmd w :
  routable (bs_name s) -> IsAbs dest = true -> 1 <= port <= 65535 ->
  let name := bs_name s in
  run h (over (clientDestroy c name)) w = finish wired (run h (call (BDestroy name)) w) /\
  run h (over (clientStop c s)) w = finish wired (run h (direct_stop name) w) /\
  run h (over (clientWriteFile s dest src)) w = finish wired (run h (direct_write name dest src) w) /\
  run h (over (clientReadFile s dest)) w =
    finish read_reply (run h (direct_read name dest) w) /\
  run h (over (clientDialPort c name port)) w = finish wired (run h (call (BDialPort name port)) w) /\
  (Stdin cmd = None -> process_fits proc cmd ->
   run h (over (clientStartProcess c s proc cmd)) w =
   finish wired (run h (direct_start name proc
     (mkCommand (Argv cmd) (CmdEnv cmd) (Dir cmd) None 0)) w)).
Proof.
  intros Hr Hd Hp name. destruct (requests_reach_handlers cfg s dest src port
    (mkExecRequest [] [] "" "") (mkProcessRequest proc (Argv cmd) (CmdEnv cmd) (Dir cmd)) Hr Hd Hp)
    as (_ & Hdestroy & Hstop & _ & Hproc & Hwrite & Hread & Hdial).
  split_and!; [by apply destroy_over|by apply stop_over|by apply write_over|by apply read_over
    |by apply dial_over|by apply start_over].
Qed.

(** ** Handles through the broker *)

(** A backend's description of a sandbox that survives JSON. *)
Definition info_fits (i : Info) : Prop :=
  valid_utf8 (InfoName i) = true /\ valid_utf8 (InfoID i) = true /\ valid_utf8 (InfoImage i) = true /\
  valid_utf8 (InfoState i) = true /\ four_digit_year (InfoCreatedAt i) /\
  map_Forall (fun k v => valid_utf8 k = true /\ valid_utf8 v = true) (InfoLabels i).

(** What the client's caller sees of it: all but the daemon's own label. *)
Definition seen (i : Info) : Info :=
  mkInfo (InfoName i) (InfoID i) (InfoImage i) (InfoState i) (InfoCreatedAt i)
    (delete labelProfile (InfoLabels i)).

Lemma seen_spec i profile : info_fits i -> clientInfoFrom (sentInfo (infoOf i profile)) = seen i.
Proof.
  intros (Hn & Hid & Him & Hs & _ & Hl). unfold clientInfoFrom, sentInfo, infoOf, seen.
  cbn [WName WID WImage WState WCreatedAt WLabels]. rewrite callerLabels_delete.
  rewrite !json_text_valid by done. rewrite json_text_map_valid; [done|].
  intros k v [_ Hk]%lookup_delete_Some. by apply Hl.
Qed.

(** The request of [Create]. *)
Definition createRequest (name : string) (spec : Spec) : CreateRequest :=
  mkCreateRequest name (label_of (Labels spec) profileLabel) (Env spec)
    (delete profileLabel (Labels spec)).

Definition create_fits (req : CreateRequest) : Prop :=
  valid_utf8 (ReqName req) = true /\ valid_utf8 (ReqProfile req) = true /\
  forallb valid_utf8 (ReqEnv req) = true /\
  map_Forall (fun k v => valid_utf8 k = true /\ valid_utf8 v = true) (ReqLabels req) /\
  Z.of_nat (String.length (marshalCreate req)) <= MaxBodyBytes.

Lemma createBody_sent req : create_fits req -> createBody (ReqBodyCreate req) = Ok req.
Proof.
  intros (Hn & Hp & He & Hl & Hs). unfold createBody, bodyText.
  rewrite decodeBody_marshalCreate by exact Hs. unfold sentCreate.
  rewrite !json_text_valid, json_text_list_valid, json_text_map_valid by done. by destruct req.
Qed.

Lemma open_over c name w :
  dispatch cfg "GET" ("/sandboxes/" ++ PathEscape name) NoReqBody = handleGet name ->
  (forall i w', h _ (BOpen name) w = (Ok i, w') -> info_fits i) ->
  run h (over (clientOpen c name)) w =
  finish (fun r => match wired r with
    | Ok i => Ok (mkBrokerSandbox (InfoName i) (seen i)) | Err e => Err e end)
    (run h (call (BOpen name)) w).
Proof.
  intros Hd Hfit. unfold clientOpen. rewrite run_over_bind.
  rewrite (run_over_do _ _ _ _ _ _ _ Hd) by auto with openblox.
  unfold handleGet. cbn [bind call run]. destruct (h _ (BOpen name) w) as [[i|e] w1].
  - specialize (Hfit i w1 eq_refl). cbn [run finish wired reply].
    change ((200 <? 200) || (200 >=? 300)) with false. cbv iota.
    rewrite dec_info_sent by apply Hfit. cbn [run over].
    unfold sandboxFrom. rewrite seen_spec by done. cbn [sentInfo WName infoOf].
    rewrite json_text_valid; [done|]. apply Hfit.
  - cbn [run finish wired]. by rewrite reply_fail.
Qed.

Lemma list_over c w :
  (forall infos w', h _ BList w = (Ok infos, w') -> Forall info_fits infos) ->
  run h (over (clientList c)) w =
  finish (fun r => match wired r with Ok infos => Ok (map seen infos) | Err e => Err e end)
    (run h (call BList) w).
Proof.
  intros Hfit. unfold clientList. rewrite run_over_bind.
  assert (Hd : dispatch cfg "GET" "/sandboxes" NoReqBody = handleList) by reflexivity.
  rewrite (run_over_do _ _ _ _ _ _ _ Hd) by auto with openblox.
  unfold handleList. cbn [bind call run]. destruct (h _ BList w) as [[infos|e] w1].
  - specialize (Hfit infos w1 eq_refl). cbn [run finish wired reply].
    change ((200 <? 200) || (200 >=? 300)) with false. cbv iota.
    rewrite dec_infos_sent by (apply Forall_map; eapply Forall_impl; [exact Hfit|]; intros i Hi; apply Hi).
    cbn [run over].
    repeat f_equal. rewrite !map_map. induction Hfit as [|i infos Hi _ IH]; [done|].
    cbn [map]. by rewrite IH, seen_spec.
  - cbn [run finish wired]. by rewrite reply_fail.
Qed.

(** C29. Handles through the broker: [Open] and [List] return what the backend
    returns, less the daemon's own label, and [Create] is the daemon's handling
    of a request with the caller's name, profile, environment and labels; as
    long as names and labels are valid UTF-8, creation times in the years 0 to
    9999, and the request is within the daemon's limit. *)
Theorem handles_over_broker c name opts w :
  routable name ->
  (forall i w', h _ (BOpen name) w = (Ok i, w') -> info_fits i) ->
  (forall infos w', h _ BList w = (Ok infos, w') -> Forall info_fits infos) ->
  run h (over (clientOpen c name)) w =
    finish (fun r => match wired r with
      | Ok i => Ok (mkBrokerSandbox (InfoName i) (seen i)) | Err e => Err e end)
      (run h (call (BOpen name)) w) /\
  run h (over (clientList c)) w =
    finish (fun r => match wired r with Ok infos => Ok (map seen infos) | Err e => Err e end)
      (run h (call BList) w) /\
  (label_of (Labels (NewSpec opts)) profileLabel <> "" -> policyFields (NewSpec opts) = [] ->
   create_fits (createRequest name (NewSpec opts)) ->
   run h (over (clientCreate c name opts)) w =
   finish (fun resp => match reply dec_info resp with
     | Ok i => Ok (sandboxFrom i) | Err e => Err e end)
     (run h (handleCreate cfg (Ok (createRequest name (NewSpec opts)))) w)).
Proof.
  intros Hr Hopen Hlist. split_and!.
  - apply open_over; [|done].
    exact (proj1 (requests_reach_handlers cfg (mkBrokerSandbox name (mkInfo "" "" "" "" 0 ∅)) "/" "" 1
      (mkExecRequest [] [] "" "") (mkProcessRequest "" [] [] "") Hr eq_refl ltac:(lia))).
  - by apply list_over.
  - intros Hp Hf Hfit. unfold clientCreate. apply String.eqb_neq in Hp as ->. rewrite Hf.
    rewrite run_over_bind. fold (createRequest name (NewSpec opts)).
    assert (Hd : dispatch cfg "POST" "/sandboxes" (ReqBodyCreate (createRequest name (NewSpec opts)))
      = handleCreate cfg (Ok (createRequest name (NewSpec opts)))).
    { rewrite <- (createBody_sent _ Hfit). reflexivity. }
    rewrite (run_over_do _ _ _ _ _ _ _ Hd) by auto with openblox.
    destruct (run h (handleCreate cfg _) w) as [resp w']. cbn [finish].
    by destruct (reply dec_info resp).
Qed.

Lemma json_text_list_fixed l : map json_text l = l <-> forallb valid_utf8 l = true.
Proof.
  split; [|apply json_text_list_valid]. induction l as [|x l IH]; [done|]. cbn [map forallb].
  intros [= Hx Hl]. apply json_text_fixed in Hx as ->. auto.
Qed.

(** What the wire cannot carry: a command's arguments reach the daemon
    unchanged exactly when they are valid UTF-8 (any other byte arrives as
    U+FFFD), and a command whose request exceeds the daemon's limit of one
    mebibyte is refused as invalid before any sandbox is looked at, while the
    same command is run by a direct backend. *)
Theorem exec_wire_limits c s cmd :
  (ExArgv (sentExec (execRequest cmd)) = Argv cmd <-> forallb valid_utf8 (Argv cmd) = true) /\
  (routable (bs_name s) -> Command_Validate cmd = Ok tt -> Stdin cmd = None ->
   MaxBodyBytes < Z.of_nat (String.length (marshalExec (execRequest cmd))) ->
   forall w, exists e, run h (over (clientExec c s cmd)) w = (Err e, w) /\ Is e ErrInvalid = true).
Proof.
  split; [apply json_text_list_fixed|]. intros Hr Hv Hin Hl w. unfold clientExec.
  rewrite Hv, Hin, run_over_bind.
  rewrite (run_over_do _ _ _ _ _ _ _ (dispatch_exec cfg s _ Hr)) by auto with openblox.
  unfold execBody. destruct (decodeBody_large decodeExec (bodyText (ReqBodyExec (execRequest cmd))) Hl) as (e & -> & He).
  cbn [handleExec run]. rewrite reply_fail. exists (wire e). split; [done|].
  rewrite wire_Is, He. done.
Qed.
End run.
End composed.

(** A backend that echoes a command's timeout as its exit code. *)
Definition echo_backend (X : Type) (e : daemonE X) : unit -> X * unit :=
  match e in daemonE X return unit -> X * unit with
  | BOpen name => fun w => (Ok (mkInfo name "c1" "img" StateRunning 0 ∅), w)
  | BList => fun w => (Ok [], w)
  | BCreate name _ => fun w => (Ok (mkInfo name "c1" "img" StateRunning 0 ∅), w)
  | BDestroy _ => fun w => (Ok tt, w)
  | BStop _ => fun w => (Ok tt, w)
  | BExec _ cmd => fun w => (Ok (mkResult "" "" (Timeout cmd) false false false), w)
  | BWriteFile _ _ _ _ => fun w => (Ok tt, w)
  | BReadFile _ _ => fun w => (Ok ("", None), w)
  | BStartProcess _ _ _ => fun w => (Ok tt, w)
  | BDialPort _ _ => fun w => (Ok "conn", w)
  | CapLock => fun w => (tt, w)
  | CapUnlock => fun w => (tt, w)
  | CapGet _ => fun w => (0, w)
  | CapSet _ _ => fun w => (tt, w)
  | CapDelete _ => fun w => (tt, w)
  end.

Definition demo_client : Client := mkClient "/run/openbloxd.sock" None.
Definition demo_command : Command := mkCommand ["true"] [] "" None 1500000000.
#[local] Instance demo_strings : MapRange string := map_range_default string.
#[local] Instance demo_profiles : MapRange Profile := map_range_default Profile.

Lemma demo_routable : routable (bs_name demo_broker_sandbox).
Proof. repeat split; discriminate. Qed.

Lemma exec_over_broker_witness :
  fst (run echo_backend (over sample_config (clientExec demo_client demo_broker_sandbox demo_command)) tt)
  = Ok (mkResult "" "" 1500000000 false false false).
Proof.
  rewrite (exec_over_broker sample_config echo_backend).
  - reflexivity.
  - exact demo_routable.
  - reflexivity.
  - reflexivity.
  - vm_compute. split; discriminate.
  - repeat split. vm_compute. discriminate.
  - intros sb w1 res w2 [= <- _]. vm_compute. split; discriminate.
Defined.

Lemma operations_over_broker_witness :
  fst (run echo_backend (over sample_config (clientStop demo_client demo_broker_sandbox)) tt) = Ok tt.
Proof.
  assert (Hp : 1 <= 80 <= 65535) by lia.
  rewrite (proj1 (proj2 (operations_over_broker sample_config echo_backend demo_client
    demo_broker_sandbox "/a" "" 80 "p" demo_command tt demo_routable eq_refl Hp))).
  reflexivity.
Defined.

Lemma handles_over_broker_witness :
  fst (run echo_backend (over sample_config (clientOpen demo_client "web")) tt)
  = Ok (mkBrokerSandbox "web" (mkInfo "web" "c1" "img" StateRunning 0 ∅)).
Proof.
  assert (Hr : routable "web") by (repeat split; discriminate).
  rewrite (proj1 (handles_over_broker sample_config echo_backend demo_client "web" [] tt Hr
    ltac:(intros i w' [= <- <-]; repeat split; first [by apply map_Forall_empty | by vm_compute])
    ltac:(intros infos w' [= <- <-]; constructor))).
  reflexivity.
Defined.

(** A name the router does not carry is not an error: the client escapes
    [.] to itself, the router cleans the path away and redirects, and the HTTP
    client follows; so destroying a sandbox named [.], which can be created,
    only lists the sandboxes, destroys nothing and reports success. *)
Theorem destroy_dot_reports_success {RS : MapRange string} {RP : MapRange Profile} cfg c {W}
    (h : forall X, daemonE X -> W -> X * W) w :
  run h (over cfg (clientDestroy c ".")) w =
    finish (fun r => match r with Ok _ => Ok tt | Err e => Err (wire e) end) (h _ BList w) /\
  forall profile, exists opts,
    createOptions profile (mkCreateRequest "." "p" [] ∅) = Ok opts.
Proof.
  split.
  - assert (H1 : dispatch cfg "DELETE" ("/sandboxes/" ++ PathEscape ".") NoReqBody
      = Ret (redirect "/sandboxes")) by reflexivity.
    assert (H2 : dispatch cfg "GET" "/sandboxes" NoReqBody = handleList) by reflexivity.
    unfold clientDestroy, do. cbn [bind call over]. rewrite run_bind.
    unfold maxRedirects. cbn [follow]. rewrite H1. cbn [bind redirect is_get].
    change (EscapedPath "/sandboxes") with "/sandboxes". cbn [String.eqb].
    change (if is_get "DELETE" then "DELETE" else "GET") with "GET".
    rewrite run_bind, H2. unfold handleList. cbn [bind call run].
    destruct (h _ BList w) as [[all|e] w1]; cbn [run finish]; [reflexivity|].
    destruct (fail_wire e) as (st & we & -> & -> & H3 & H4 & _). cbn [run over bind].
    by rewrite H3, H4.
  - intros profile. eexists. unfold createOptions. cbn [ReqLabels ReqEnv ReqProfile].
    assert (Hr : range (∅ : gmap string string) = []).
    { apply Permutation_nil_r. rewrite range_perm. by rewrite map_to_list_empty. }
    rewrite Hr. reflexivity.
Qed.

(** C30. [errors.Is] means the same on both sides of the socket: the error a
    caller gets for a backend error is a wire sentinel only if the backend's
    error was, it is exactly one of them when the backend's error was any, and
    it is [ErrInternal], and none of them, exactly when it was none. *)
Theorem wire_errors err :
  (forall s, s ∈ wire_sentinels -> Is (wire err) s = true -> Is err s = true) /\
  ((exists s, s ∈ wire_sentinels /\ Is err s = true) ->
     exists s, s ∈ wire_sentinels /\ Is (wire err) s = true /\ forall t, Is (wire err) t = true -> t = s) /\
  (Is (wire err) ErrInternal = true <-> forall s, s ∈ wire_sentinels -> Is err s = false).
Proof.
  assert (Hw : forall s, Is (wire err) s = true <-> ErrorFor (fst (KindOf err)) = s).
  { intros s. rewrite wire_Is. apply bool_decide_eq_true. }
  assert (Hi : ErrInternal ∉ wire_sentinels) by (unfold wire_sentinels; set_solver).
  destruct (KindOf_wire err) as [[Hin His]|[Hint Hno]]; split_and!.
  - intros s _ Hs. apply Hw in Hs as <-. done.
  - intros _. exists (ErrorFor (fst (KindOf err))). split_and!; [done|by apply Hw|].
    intros t Ht. by apply Hw in Ht.
  - split.
    + intros He%Hw. by rewrite He in Hin.
    + intros Hall. by rewrite (Hall _ Hin) in His.
  - intros s Hs Ht. apply Hw in Ht. congruence.
  - intros (s & Hs & Ht). by rewrite (Hno s Hs) in Ht.
  - split; [done|]. intros _. by apply Hw.
Qed.

(** ** The client sends no policy *)

(** A policy option is refused, never dropped: whatever options a caller
    passes, [Create] sends at most one request, a creation carrying the name,
    the chosen profile, the caller's environment and the caller's labels
    without the client's own; and it sends it only if every policy field
    (image, runtime, user, egress, resources, lifetime, timeouts) is still the
    library's default. *)
Theorem clientCreate_sends_no_policy c name opts :
  let spec := NewSpec opts in
  safe (fun X e => match e with
    | Send method path body => method = "POST" /\ path = "/sandboxes" /\
        body = ReqBodyCreate (mkCreateRequest name (label_of (Labels spec) profileLabel) (Env spec)
          (delete profileLabel (Labels spec))) /\
        Image spec = "" /\ Runtime spec = DefaultRuntime /\ User spec = DefaultUser /\
        Egress spec = EgressNone /\ resources_eqb (Res spec) (Res defaultSpec) = true /\
        Life spec = Life defaultSpec /\ DefaultTimeout spec = DefaultCommandTimeout /\
        MaxTimeout spec = MaxCommandTimeout
    | _ => False
    end) (clientCreate c name opts) (fun _ => True).
Proof.
  intros spec. unfold clientCreate. fold spec. destruct (String.eqb _ ""); [done|].
  destruct (policyFields spec) as [|f fs] eqn:Ep; [|done].
  apply safe_bind with (fun _ => True); [|by intros [] _]. unfold do. cbn [bind call safe].
  unfold policyFields in Ep. change (NewSpec []) with defaultSpec in Ep.
  repeat match type of Ep with
    | (app _ _ = []) => apply app_eq_nil in Ep as [? Ep]
    end.
  repeat match goal with
    | H : (if ?b then [_] else []) = [] |- _ => destruct b eqn:?; [done|clear H]
    end.
  zbool. repeat match goal with H : String.eqb _ _ = true |- _ => apply String.eqb_eq in H end.
  split.
  - split_and!; try done. unfold lifetime_eqb in *. zbool.
    destruct (Life spec) as [a b]. cbn in *. by subst.
  - intros [[status body|status body]|err]; try done. repeat casesplit; done.
Qed.
