(* ===== verification/PreviewBroker.v ===== *)
(** * Previews through the broker

    The broker's client as the [Dialer] of a preview handler, which is how a
    caller without access to Docker serves previews: [Client.DialPort] keeps the
    promise of [PreviewPool.Dialer], a connection being the stream the daemon
    switched to for the one request that asked for it. *)

From S2P Require Import Goroutines Prelude GoErrors GoStrings GoDuration GoTime GoNet GoEncoding GoHttp GoJson.
From S2P Require Import Sha256 Effects Sandbox BrokerApi DaemonConfig DaemonServer PreviewToken PreviewProxy.
From S2P Require Import PreviewPool BrokerClient.

Definition dial_path (name : string) (port : Z) : string :=
  "/sandboxes/" ++ PathEscape name ++ "/dial/" ++ Itoa port.

(** The streams the daemon has switched to, by the path that was asked for. *)
Abbreviation switched := (list (string * string)).

Definition note_switch {X} (e : clientE X) : X -> switched -> switched :=
  match e in clientE X return X -> switched -> switched with
  | SendRaw _ path => fun r k =>
      match r with
      | Ok (Respond status body) =>
          if status =? 101 then (path, match body with BodyStream conn => conn | _ => "" end) :: k else k
      | _ => k
      end
  | _ => fun _ k => k
  end.

(** The calls a dial of [port] in [name] may make: a connection to the daemon,
    and the one request on it. *)
Definition broker_dial (name : string) (port : Z) (X : Type) (e : clientE X) (k : switched) : Prop :=
  match e with
  | DialBroker => True
  | SendRaw method path => method = "GET" /\ path = dial_path name port
  | Send _ _ _ => False
  end.

Definition stream_to (k : switched) (x name : string) (port : Z) : Prop := (dial_path name port, x) ∈ k.

Lemma note_switch_below X (e : clientE X) x (k : switched) : k ⊆ note_switch e x k.
Proof.
  destruct e; cbn; try done. destruct x as [[status body|]|]; try done.
  destruct (_ =? _); [|done]. by apply list_subseteq_cons.
Qed.

Lemma stream_to_below (k k' : switched) x name port : k ⊆ k' -> stream_to k x name port -> stream_to k' x name port.
Proof. intros Hk. apply Hk. Qed.

Lemma broker_dial_below name port X (e : clientE X) (k k' : switched) :
  k ⊆ k' -> broker_dial name port X e k -> broker_dial name port X e k'.
Proof. done. Qed.

Section dialer.
Variable c : Client.

Lemma clientDialPort_leads name port k :
  wp (broker_dial name port) (fun X (e : clientE X) (k : switched) x k' => exists k1, k ⊆ k1 /\ k' = note_switch e x k1)
    (clientDialPort c name port)
    (fun r k' => match r with Ok x => stream_to k' x name port | Err _ => True end) k.
Proof.
  unfold clientDialPort. destruct (_ || _); [done|]. cbn [bind call wp]. split; [done|].
  intros [[]|err] k1 _; [|done]. cbn [bind call wp]. split; [done|].
  intros [[status body|status text]|err] k2 (k3 & _ & ->); try done. cbn [note_switch].
  destruct (status =? 101); [by left|done].
Qed.

#[global] Instance broker_dialer : Dialer switched (clientDialPort c) := {|
  learn := @note_switch;
  below := subseteq;
  leads := stream_to;
  dial_call := broker_dial;
  learn_below := note_switch_below;
  leads_below := stream_to_below;
  dial_call_below := broker_dial_below;
  dial_leads := clientDialPort_leads
|}.

(** C17. A preview served through the broker asks the daemon only for what its token
    was signed for, however requests interleave.  In every reachable state of a
    preview handler over the broker's client, the next call of any request that
    makes one is made under a token that verified for the sandbox and port of
    its own path and was not revoked when it was looked at; it dials the daemon,
    or asks it, with [GET], for the stream to that very port of that very
    sandbox, or uses the pool under the route's own address, or sends the
    rewritten request, without the credential and the client's address, over a
    stream the daemon switched to for that port (in that sandbox, unless two
    names agree in the first half of their SHA-256).  Every daemon's router
    serves the path that is asked for by dialling exactly that port of that
    sandbox, for every name a URL can carry. *)
Theorem broker_previews_confined h s t X (e : previewE clientE X) k :
  rtc (pstep (clientDialPort c)) (started h []) s -> t ∈ threads s -> code t = Vis e k ->
  exists f,
    ServeHTTP (accepted_by t) (request t) (accepted_at t) = Forward f /\
    (exists rest, parseRoute (ReqEscapedPath (request t)) = Some (RouteName f, RoutePort f, rest)) /\
    Verify (signer h) (bearerToken (request t)) (RouteName f) (RoutePort f) (accepted_at t) = Ok tt /\
    isRevoked (accepted_by t) (bearerToken (request t)) = false /\
    routed_call (clientDialPort c) f X e (outside s) /\
    OutHeader (rewrite f) !! "Authorization" = None /\
    OutHeader (rewrite f) !! "X-Forwarded-For" = None /\
    (routable (RouteName f) -> forall (RS : MapRange string) (RP : MapRange Profile) cfg,
      dispatch cfg "GET" (dial_path (RouteName f) (RoutePort f)) NoReqBody =
      handleDial (RouteName f) (Itoa (RoutePort f)) None).
Proof.
  intros Hr Hin Hc. destruct (next_call_routed (clientDialPort c) h [] s t X e k Hr Hin Hc)
    as (f & Hf & (rest & Hp) & Hv & Hn & Hok & H1 & H2).
  exists f. split_and!; try done; [by exists rest|]. intros Hroute RS RP cfg.
  apply parseRoute_port in Hp as [Hp _].
  eapply (requests_reach_handlers cfg (mkBrokerSandbox (RouteName f) (mkInfo "" "" "" "" 0 ∅)) "/" ""
    (RoutePort f) (mkExecRequest [] [] "" "") (mkProcessRequest "" [] [] "")); done.
Qed.
End dialer.

(** ** A request on its way *)

Definition broker_route : Routed :=
  mkRouted "web" 8080 "/index.html" (HeaderDel (ReqHeader (demo_request demo_token)) "Authorization").

Definition demo_client : Client := mkClient "/run/openbloxd.sock" None.

Lemma broker_dials h r now (K : result string -> prog (previewE clientE) Reply) w :
  exists k w', rtc (pstep (clientDialPort demo_client))
    (mkProcess h [mkThread r h now (bind (transport (clientDialPort demo_client) 0 broker_route) K)] w)
    (mkProcess h [mkThread r h now (Vis (RoundTrip "s1" (rewrite broker_route)) k)] w').
Proof.
  eexists _, _. cbn [transport bind call].
  eapply (one_call _ _ _ _ _ _ _ None); [reflexivity|]. cbv beta iota. rewrite dialRoute_checked.
  unfold clientDialPort. change ((RoutePort broker_route <? 1) || (RoutePort broker_route >? 65535)) with false.
  cbn [within bind call].
  eapply (one_call _ _ _ _ _ _ _ (Ok tt)); [reflexivity|]. cbn [within bind call].
  eapply (one_call _ _ _ _ _ _ _ (Ok (Respond 101 (BodyStream "s1")))); [reflexivity|].
  cbn [within bind call Z.eqb Pos.eqb negb].
  eapply (one_call _ _ _ _ _ _ _ "s1"); [by left|]. cbn [within bind call].
  apply rtc_refl.
Qed.

Lemma broker_previews_confined_witness :
  exists s t k, rtc (pstep (clientDialPort demo_client)) (started (NewHandler demo_signer) []) s /\
    t ∈ threads s /\ code t = Vis (RoundTrip "s1" (rewrite broker_route)) k /\
    reaches (clientDialPort demo_client) (known (outside s)) broker_route "s1".
Proof.
  set (h := NewHandler demo_signer). set (r := demo_request demo_token). set (now := 1600000000000000000).
  destruct (broker_dials h r now (fun res => match res with Err err => Ret (proxyError err)
    | Ok response => Ret (Proxied response) end) (mkWorld [] [])) as (k & w & Hr).
  assert (Hrun : rtc (pstep (clientDialPort demo_client)) (started h [])
    (mkProcess h [mkThread r h now (Vis (RoundTrip "s1" (rewrite broker_route)) k)] w)).
  { eapply rtc_l; [apply (arrives (clientDialPort demo_client) (started h []) r now 0)|].
    cbn [started handler threads outside app]. unfold serve_preview, h, r, now. rewrite demo_forwarded. exact Hr. }
  eexists _, _, k. split; [exact Hrun|]. split; [by left|]. split; [reflexivity|].
  destruct (broker_previews_confined demo_client h _ _ _ _ _ Hrun (list_elem_of_here _ _) eq_refl)
    as (f & Hf & _ & _ & _ & Hc & _). cbn [request accepted_by accepted_at] in Hf.
  unfold h, r, now in Hf. rewrite demo_forwarded in Hf. injection Hf as <-. exact (proj1 Hc).
Defined.
