(* ===== verification/DaemonDocker.v ===== *)
(** * The daemon on Docker

    openbloxd as it is deployed: the route table of [BrokerClient.dispatch],
    the handlers of [DaemonServer] and the operations of [DockerBackend] and
    [DockerExec] behind them, as one program per HTTP request over the Docker
    client and the capacity table. *)

From S2P Require Import Prelude GoErrors GoStrings GoFloat64 GoDuration GoTime GoNet GoHttp.
From S2P Require Import GoJson GoJsonText GoJsonDecode Sha256 Effects Sandbox BrokerApi DaemonConfig.
From S2P Require Import PreviewToken PreviewProxy DockerApi DockerBackend DockerExec.
From S2P Require Import DaemonServer DaemonDecode BrokerClient.

(** ** The calls that leave the daemon *)

Inductive systemE : Type -> Type :=
  | Docker {X : Type} (e : dockerE X) : systemE X
  | Capacity {X : Type} (e : daemonE X) : systemE X      (** the lock and the table *)
  | Drain (exec : string) : systemE (string * option error).   (** a file's reader, to its end *)

Definition docker_call {A} (X : Type) (e : dockerE X) (a : A) : prog systemE (X * A) :=
  x <- call (Docker e);; Ret (x, a).

(** A Docker program as a part of the daemon. *)
Definition docker {A} (p : prog dockerE A) : prog systemE A :=
  r <- interp docker_call p tt;; Ret (fst r).

Section daemon.
Context {RS : MapRange string} {RP : MapRange Profile} {FC : FloatConv}.
Variables (cfg : Config) (b : Backend).

(** A handle as the handlers see it, and the handle itself. *)
Definition no_sandbox : dockerSandbox := mkDockerSandbox "" (mkInfo "" "" "" "" zero_time ∅) 0 0 None.
Definition returned (r : result dockerSandbox) (cur : option dockerSandbox)
    : result Info * option dockerSandbox :=
  match r with Ok sb => (Ok (ds_info sb), Some sb) | Err err => (Err err, cur) end.

(** The backend's operations on Docker; [cur] is the handle the request's
    handler holds, the one it opened last. *)
Definition on_docker (X : Type) (e : daemonE X) (cur : option dockerSandbox)
    : prog systemE (X * option dockerSandbox) :=
  let sb := default no_sandbox cur in
  match e in daemonE X return prog systemE (X * option dockerSandbox) with
  | BOpen name => r <- docker (Open b name);; Ret (returned r cur)
  | BList => r <- docker List;; Ret (r, cur)
  | BCreate name opts => r <- docker (Create b name opts);; Ret (returned r cur)
  | BDestroy name => r <- docker (Destroy name);; Ret (r, cur)
  | BStop _ => r <- docker (Stop sb);; Ret (r, cur)
  | BExec _ cmd => r <- docker (Exec sb cmd);; Ret (r, cur)
  | BWriteFile _ dest mode src => r <- docker (WriteFile sb dest mode src);; Ret (r, cur)
  | BReadFile _ src =>
      r <- docker (ReadFile sb src);;
      match r with
      | Err err => Ret (Err err, cur)
      | Ok exec => content <- call (Drain exec);; Ret (Ok content, cur)
      end
  | BStartProcess _ name cmd => r <- docker (StartProcess sb name cmd);; Ret (r, cur)
  | BDialPort name port => r <- docker (DialPort b name port);; Ret (r, cur)
  | CapLock => r <- call (Capacity CapLock);; Ret (r, cur)
  | CapUnlock => r <- call (Capacity CapUnlock);; Ret (r, cur)
  | CapGet p => r <- call (Capacity (CapGet p));; Ret (r, cur)
  | CapSet p n => r <- call (Capacity (CapSet p n));; Ret (r, cur)
  | CapDelete p => r <- call (Capacity (CapDelete p));; Ret (r, cur)
  end.

(** The daemon serving one request whose body is [body]. *)
Definition serve_request (method path body : string) : prog systemE Response :=
  r <- interp on_docker (dispatch cfg method path (ReqBodyBytes body)) None;; Ret (fst r).

(** ** What no request can make the daemon do otherwise *)

(** A container of a profile: hardened, with the profile's policy. *)
Definition of_profile (cc : ContainerConfig) (host : HostConfig) (cname : string) : Prop :=
  exists pname p name spec,
    Profiles cfg !! pname = Some p /\ cname = containerName name /\
    hardened name spec cc host /\ policy spec = policy (NewSpec (Options p)) /\
    label_of (Labels spec) labelProfile = pname.

(** A command behind one of the fixed scripts, with what the caller sent in the
    arguments that follow, or [cat]. *)
Definition fixed_command (argv : list string) : Prop :=
  match argv with
  | "sh" :: "-c" :: script :: _ => script ∈ [groupScript; killScript; relayScript]
  | prog :: _ => prog = "cat"
  | [] => False
  end.

(** A goroutine started for a sandbox makes its calls as well: it is [touch] of a
    handle on that container. *)
Definition contained (X : Type) (e : systemE X) : Prop :=
  match e with
  | Docker e =>
      match e with
      | ContainerCreate cc host cname => of_profile cc host cname
      | ContainerExecCreate _ o => ExUser o = "" /\ fixed_command (ExCmd o)
      | GoTouch id => forall sb, ds_id sb = id -> safe (touch_call id) (touch sb) (fun _ => True)
      | ImagePull ref _ | ImageInspect ref =>
          exists pname p, Profiles cfg !! pname = Some p /\ ref = PImage p
      | _ => True
      end
  | _ => True
  end.

(** The creations a request may ask the backend for. *)
Definition by_profile (X : Type) (e : daemonE X) : Prop :=
  match e with
  | BCreate name opts => exists req profile,
      Profiles cfg !! ReqProfile req = Some profile /\ request_spec profile req opts
  | _ => True
  end.
End daemon.

Section proofs.
Context {RS : MapRange string} {RP : MapRange Profile} {FC : FloatConv}.
Variables (cfg : Config) (b : Backend).

Lemma safe_docker {A} (P : forall X, dockerE X -> Prop) (P' : forall X, systemE X -> Prop)
    (p : prog dockerE A) (Q : A -> Prop) :
  (forall X e, P X e -> P' X (Docker e)) -> safe P p Q -> safe P' (docker p) Q.
Proof.
  intros HP Hp. unfold docker. eapply safe_bind.
  - eapply safe_interp; [|exact Hp]. intros X e s He. cbn. split; [by apply HP|done].
  - intros [a []] Ha. exact Ha.
Qed.

Lemma running_fixed cmds plain o :
  Forall (fun cmd => fixed_command (Argv cmd)) plain -> running cmds plain o ->
  ExUser o = "" /\ fixed_command (ExCmd o).
Proof.
  intros Hp [(pid & cmd & _ & _ & [-> | ->])|(cmd & Hin & ->)]; cbn; [split; [done|set_solver]..|].
  split; [done|]. rewrite Forall_forall in Hp. by apply Hp.
Qed.

Lemma guest_contained s cmds plain X (e : dockerE X) :
  Forall (fun cmd => fixed_command (Argv cmd)) plain ->
  guest_call s cmds plain X e -> contained cfg X (Docker e).
Proof.
  intros Hp. destruct e; cbn; try done.
  - intros [_ ?]. by eapply running_fixed.
  - intros _ sb <-. apply touch_safe.
Qed.

Lemma guest_docker {A} s cmds plain (p : prog dockerE A) :
  Forall (fun cmd => fixed_command (Argv cmd)) plain -> runs_only s p cmds plain ->
  safe (contained cfg) (docker p) (fun _ => True).
Proof. intros Hp. apply safe_docker. intros X e. by apply guest_contained. Qed.

(** Calls no request could misuse. *)
Definition harmless (X : Type) (e : dockerE X) : Prop :=
  match e with
  | ContainerInspect _ | ContainerList _ _ | ContainerRemove _ _ _ | ContainerStop _ => True
  | _ => False
  end.

Lemma harmless_docker {A} (p : prog dockerE A) :
  safe harmless p (fun _ => True) -> safe (contained cfg) (docker p) (fun _ => True).
Proof. apply safe_docker. by intros X []. Qed.

Lemma create_contained name opts :
  by_profile cfg _ (BCreate name opts) ->
  safe (contained cfg) (docker (Create b name opts)) (fun _ => True).
Proof.
  intros (req & p & Hp & Hpol & _ & Hl & _). eapply safe_docker; [|apply Create_safe].
  assert (Hi : Image (NewSpec opts) = PImage p).
  { rewrite <- (proj1 (Options_spec p)). unfold policy in Hpol. by injection Hpol. }
  intros X e. destruct e; cbn [create_calls contained]; try done.
  - intros [-> Hh]. exists (ReqProfile req), p, name, (NewSpec opts). split_and!; try done.
    rewrite Hl. unfold label_of. by rewrite lookup_insert_eq.
  - intros ->. by exists (ReqProfile req), p.
  - intros ->. by exists (ReqProfile req), p.
  - intros _ sb <-. apply touch_safe.
Qed.

(** Then the answer is handed on. *)
Lemma safe_then {E} {A B} (P : forall X, E X -> Prop) (p : prog E A) (f : A -> prog E B) :
  safe P p (fun _ => True) -> (forall a, safe P (f a) (fun _ => True)) -> safe P (bind p f) (fun _ => True).
Proof. intros Hp Hf. by eapply safe_bind. Qed.

Lemma on_docker_contained X (e : daemonE X) cur :
  by_profile cfg X e -> safe (contained cfg) (on_docker b X e cur) (fun _ => True).
Proof.
  assert (Ho : forall name, safe (contained cfg) (docker (Open b name)) (fun _ => True)).
  { intros name. by apply harmless_docker, Open_safe. }
  destruct e; intros He; cbn [on_docker]; try (by cbn); apply safe_then; try (by intros; cbn); try done.
  - apply harmless_docker. cbn. split; [done|]. by intros [].
  - by apply create_contained.
  - apply harmless_docker. cbn. split; [done|]. intros r. repeat casesplit; done.
  - apply harmless_docker. cbn. split; [done|]. by intros [].
  - eapply (guest_docker _ [cmd] []); [done|]. by apply Exec_guest, list_elem_of_singleton.
  - eapply guest_docker; [|apply guest_WriteFile]; done.
  - eapply guest_docker; [|apply guest_ReadFile]. by repeat constructor.
  - by intros [].
  - eapply guest_docker; [|apply guest_StartProcess]; done.
  - apply (safe_docker (fun X e => contained cfg X (Docker e))); [done|]. unfold DialPort.
    destruct (_ || _); [done|]. apply safe_then; [by apply Open_safe|]. intros [sb|e]; [|done].
    eapply safe_weaken; [|apply (guest_dialPort sb port)]. intros X e. apply guest_contained.
    by repeat constructor.
Qed.

(** ** Every handler asks only for sandboxes of a profile *)

Lemma handleCreate_by_profile body :
  safe (by_profile cfg) (handleCreate cfg body) (fun _ => True).
Proof.
  destruct body as [req|e]; [|done]. eapply safe_mono; [|eapply safe_weaken; [|apply handleCreate_safe]]; [done|].
  intros X e. destruct e; cbn; try done. intros (_ & profile & ?). by exists req, profile.
Qed.

Ltac walk_handler := repeat first [done | casesplit | progress cbn [bind call safe] | split; [done|intros ?]].

(** The route of [handleCreate]. *)
Definition create_route (method path : string) : bool :=
  String.eqb (cleanPath path) path && String.eqb method "POST" &&
  bool_decide (SplitN path "/"%char 4 = ["" ; "sandboxes"]).

(** Calls that neither create a sandbox nor touch the capacity table. *)
Definition plain_op (X : Type) (e : daemonE X) : Prop :=
  match e with
  | BCreate _ _ | CapLock | CapUnlock | CapGet _ | CapSet _ _ | CapDelete _ => False
  | _ => True
  end.

(** Every other route does without them. *)
Lemma dispatch_plain method path body :
  if create_route method path then dispatch cfg method path body = handleCreate cfg (createBody body)
  else safe plain_op (dispatch cfg method path body) (fun _ => True).
Proof.
  assert (Hg : forall name, safe plain_op (handleGet name) (fun _ => True)).
  { intros name. unfold handleGet. walk_handler. }
  assert (Hd : forall name, safe plain_op (handleDestroy name) (fun _ => True)).
  { intros name. unfold handleDestroy. walk_handler. }
  assert (Hs : forall name, safe plain_op (handleStop name) (fun _ => True)).
  { intros name. unfold handleStop. walk_handler. }
  assert (He : forall name r, safe plain_op (handleExec name r) (fun _ => True)).
  { intros name r. unfold handleExec. walk_handler. }
  assert (Hp : forall name r, safe plain_op (handleStartProcess name r) (fun _ => True)).
  { intros name r. unfold handleStartProcess. walk_handler. }
  assert (Hw : forall name path' c, safe plain_op (handleWriteFile name path' c) (fun _ => True)).
  { intros name path' c. unfold handleWriteFile, filePath. walk_handler. }
  assert (Hr : forall name path', safe plain_op (handleReadFile name path') (fun _ => True)).
  { intros name path'. unfold handleReadFile, filePath. walk_handler. }
  assert (Hdi : forall name port h, safe plain_op (handleDial name port h) (fun _ => True)).
  { intros name port h. unfold handleDial. walk_handler. }
  assert (Hl : safe plain_op handleList (fun _ => True)).
  { unfold handleList. walk_handler. }
  unfold create_route, dispatch. destruct (String.eqb (cleanPath path) path); cbn [negb andb]; [|done].
  case_bool_decide as Ep.
  { rewrite Ep. destruct (String.eqb method "POST"); cbn [andb]; [done|]. by destruct (is_get method). }
  rewrite andb_false_r.
  repeat match goal with
    | |- safe _ (match ?x with _ => _ end) _ => destruct x; try done
    | |- safe _ (if ?x then _ else _) _ => destruct x; try done
    end; auto.
Qed.

Lemma dispatch_by_profile method path body :
  safe (by_profile cfg) (dispatch cfg method path body) (fun _ => True).
Proof.
  pose proof (dispatch_plain method path body) as H. destruct (create_route method path).
  - rewrite H. apply handleCreate_by_profile.
  - eapply safe_weaken; [|exact H]. by intros X [].
Qed.

End proofs.

(** ** A container of a profile of an accepted configuration *)

(** What the operator wrote in the profile is what Docker is given: the image
    and runtime of the profile, no network unless it says so, and bounds on
    memory, swap and processes. *)
Record as_configured (p : Profile) (cc : ContainerConfig) (host : HostConfig) : Prop := {
  conf_image : CfgImage cc = PImage p;
  conf_runtime : HRuntime host = if String.eqb (PRuntime p) "" then DefaultRuntime else PRuntime p;
  conf_network : HNetworkMode host = "none" \/ PEgress p = "unrestricted";
  conf_memory : 0 < HMemory host /\ HMemorySwap host = HMemory host;
  conf_pids : exists n, 0 < n /\ HPidsLimit host = Some n
}.

Lemma hardened_as_configured p name spec cc host :
  profile_bounded p -> hardened name spec cc host -> policy spec = policy (NewSpec (Options p)) ->
  as_configured p cc host.
Proof.
  intros Hb Hh Hp. unfold policy in Hp. injection Hp as Hi Hr _ Hres _ He _ _.
  destruct Hb as (_ & _ & _ & Hm & Hpids & _ & _ & _ & _ & Heg).
  destruct (Options_spec p) as (Oi & Or & _). rewrite <- Hres in Hm, Hpids. constructor.
  - by rewrite (hard_image _ _ _ _ Hh), Hi.
  - by rewrite (hard_runtime _ _ _ _ Hh), Hr.
  - destruct (hard_network _ _ _ _ Hh) as [?|Hn]; [by left|]. right. apply Heg. by rewrite <- He.
  - destruct (hard_memory _ _ _ _ Hh) as [-> ?]. split; [lia|done].
  - eexists. split; [exact Hpids|]. by apply (hard_pids _ _ _ _ Hh).
Qed.

(** What the daemon may do on Docker under the configuration [cfg']. *)
Definition sealed (cfg' : Config) (X : Type) (e : systemE X) : Prop :=
  contained cfg' X e /\
  match e with
  | Docker (ContainerCreate cc host _) =>
      exists pname p name spec, Profiles cfg' !! pname = Some p /\
        hardened name spec cc host /\ as_configured p cc host
  | _ => True
  end.

(** C1. Nothing a caller sends can loosen a sandbox.  Under every configuration the
    daemon accepts, for every HTTP request, whatever its method, path and body,
    and whatever Docker answers, the daemon creates only containers that are
    hardened and carry the image, runtime, network mode and bounds of a profile
    of the operator's, pulls no other image, and runs commands only as the
    sandbox's own user behind its fixed scripts; the goroutine an exec starts to
    record activity makes the one exec as root, of a fixed script whose only
    argument is the host's clock. *)
Theorem daemon_contains {RS : MapRange string} {RP : MapRange Profile} {FC : FloatConv}
    b c c' method path body :
  Config_validate c = Ok c' ->
  safe (sealed c') (serve_request c' b method path body) (fun _ => True).
Proof.
  intros Hv. apply Config_validate_facts in Hv as (_ & _ & _ & _ & Hb & _).
  eapply safe_weaken with (P := contained c').
  { intros X e He. split; [exact He|]. destruct e as [X e|X e|exec]; try done. destruct e; try done.
    destruct He as (pname & p & n & spec & Hp & _ & Hh & Hpol & _). exists pname, p, n, spec.
    split_and!; [done|done|]. by eapply hardened_as_configured; [apply (Hb _ _ Hp)|..]. }
  apply safe_then; [|by intros []].
  eapply safe_interp with (Q := fun _ => True); [|apply dispatch_by_profile].
  intros X e cur. apply on_docker_contained.
Qed.

(** ** A request served *)

Definition accepted_config : Config :=
  mkConfig "/run/openbloxd.sock" "" None Minute {[ "p" := sample_profile 512 256 0 ]}.

Lemma daemon_contains_witness :
  Config_validate (H := map_range_default Profile) sample_config = Ok accepted_config /\
  safe (sealed accepted_config)
    (serve_request (RS := map_range_default string) (RP := map_range_default Profile)
      (FC := float_conv_default) accepted_config (mkBackend None "") "POST" "/sandboxes" demo_body)
    (fun _ => True).
Proof.
  assert (H : Config_validate (H := map_range_default Profile) sample_config = Ok accepted_config)
    by (vm_compute; reflexivity).
  split; [exact H|].
  exact (daemon_contains (RS := map_range_default string) (RP := map_range_default Profile)
    (FC := float_conv_default) (mkBackend None "") _ _ "POST" "/sandboxes" demo_body H).
Defined.
