(* ===== verification/DaemonStages.v ===== *)
(** * A request's part in the cap of a profile, call by call

    What one HTTP request served on Docker may do to the containers of a profile
    and to the capacity table, as a protocol of stages.  [handleCreate] keeps it
    operation by operation; each operation of the Docker backend, a sequence of
    calls, keeps it call by call; and every other route stays out of it.
    Nothing is assumed about the answers. *)

From S2P Require Import Goroutines Prelude GoErrors GoStrings GoFloat64 GoDuration GoTime GoNet GoHttp.
From S2P Require Import GoJson GoJsonText GoJsonDecode Sha256 Effects Sandbox BrokerApi DaemonConfig.
From S2P Require Import PreviewToken PreviewProxy DockerApi DockerBackend DockerLifecycle DockerExec.
From S2P Require Import DaemonServer DaemonDecode DaemonCapacity BrokerClient DaemonDocker DockerReap DaemonReap.

(** ** Counting containers *)

(** A container of profile [p]: managed, with the label the daemon gives it. *)
Definition carries (p : string) (cc : ContainerConfig) : bool :=
  String.eqb (label (CfgLabels cc) labelManaged) "true" &&
  String.eqb (label (CfgLabels cc) (labelUserPfx ++ labelProfile)) p.

(** How many of the containers in a listing the daemon counts for [p]. *)
Definition count_listed (p : string) (cs : list Summary) : Z :=
  fold_left (fun n s => if String.eqb (label (SumLabels s) (labelUserPfx ++ labelProfile)) p
    then n + 1 else n) cs 0.

(** The daemon's own count of a listing. *)
Lemma count_infos_listed `{MapRange string} p (cs : list Summary) :
  count_infos p (map (fun c => mkInfo (label (SumLabels c) labelName) (SumID c) (SumImage c)
    (stateFromStatus (SumState c)) (parseTimeLabel (label (SumLabels c) labelCreatedAt))
    (userLabels (SumLabels c))) cs) = count_listed p cs.
Proof.
  unfold count_infos, count_listed. generalize 0. induction cs as [|s cs IH]; intros n; [done|].
  cbn [map fold_left InfoLabels]. rewrite IH. unfold label_of, label. by rewrite userLabels_lookup.
Qed.

(** ** The stages of one request *)

Inductive stage : Type :=
  | Elsewhere                    (** not a create request *)
  | Fresh                        (** before its first call *)
  | Found                        (** found its sandbox: takes no slot *)
  | Extra                        (** found its sandbox, and created it all the same *)
  | Missed                       (** did not find it *)
  | Locked
  | Counted (n : Z)
  | Checked (n m : Z)
  | Taken                        (** slot taken, lock still held *)
  | Holding
  | Made                         (** container created, slot still held *)
  | RelLock
  | RelGot (m : Z)
  | RelDone (m : Z)
  | Over.

#[global] Instance stage_eq_dec : EqDecision stage.
Proof. solve_decision. Defined.

Definition locks (st : stage) : bool :=
  match st with
  | Locked | Counted _ | Checked _ _ | Taken | RelLock | RelGot _ | RelDone _ => true
  | _ => false
  end.
Definition slotted (st : stage) : bool :=
  match st with Taken | Holding | Made | RelLock | RelGot _ => true | _ => false end.
Definition owes (st : stage) : bool :=
  match st with Taken | Holding => true | _ => false end.
Definition extra (st : stage) : bool := match st with Extra => true | _ => false end.

(** After a creation, whatever was answered. *)
Definition after_create (st : stage) : stage :=
  match st with Holding => Made | Found => Extra | _ => st end.

Section protocol.
Variables (p : string) (limit : Z).

Definition docker_next {X} (e : dockerE X) : X -> stage -> stage :=
  match e in dockerE X return X -> stage -> stage with
  | ContainerInspect _ => fun r st =>
      match st with Fresh => if is_ok r then Found else Missed | _ => st end
  | ContainerList _ _ => fun r st =>
      match st, r with Locked, Ok cs => Counted (count_listed p cs) | _, _ => st end
  | ContainerCreate _ _ _ => fun _ => after_create
  | _ => fun _ st => st
  end.

Definition capacity_next {X} (e : daemonE X) : X -> stage -> stage :=
  match e in daemonE X return X -> stage -> stage with
  | CapLock => fun _ st => match st with Missed => Locked | _ => RelLock end
  | CapUnlock => fun _ st => match st with Taken => Holding | _ => Over end
  | CapGet _ => fun m st => match st with Counted n => Checked n m | _ => RelGot m end
  | CapSet _ n => fun _ st => match st with Checked _ _ => Taken | _ => RelDone n end
  | CapDelete _ => fun _ _ => RelDone 0
  | _ => fun _ st => st
  end.

Definition stage_step (X : Type) (e : systemE X) (st : stage) (x : X) (st' : stage) : Prop :=
  match e in systemE X return X -> Prop with
  | Docker e => fun x => st' = docker_next e x st
  | Capacity e => fun x => st' = capacity_next e x st
  | Drain _ => fun _ => st' = st
  end x.

(** A creation is allowed with a slot, for a sandbox that was found, and without
    a cap. *)
Definition may_create (st : stage) : Prop :=
  match st with Holding | Found => True | Missed => limit <= 0 | _ => False end.

Definition capacity_allowed {X} (e : daemonE X) (st : stage) : Prop :=
  match e with
  | CapLock => match st with Missed | Holding | Made => True | _ => False end
  | CapUnlock => match st with Locked | Counted _ | Checked _ _ | Taken | RelDone _ => True | _ => False end
  | CapGet q => q = p /\ match st with Counted _ | RelLock => True | _ => False end
  | CapSet q n => q = p /\
      match st with Checked a b => a + b < limit /\ n = b + 1 | RelGot m => n = m - 1 | _ => False end
  | CapDelete q => q = p /\ match st with RelDone m => m <= 0 | _ => False end
  | _ => False
  end.

Definition stage_allowed (X : Type) (e : systemE X) (st : stage) : Prop :=
  match e with
  | Docker e =>
      match e with
      | ContainerInspect _ => True
      | ContainerCreate cc _ _ => carries p cc = true /\ may_create st
      | ContainerList all l => st <> Fresh /\ (st = Locked -> all = true /\ l = labelManaged ++ "=true")
      | _ => st <> Fresh
      end
  | Capacity e => capacity_allowed e st
  | Drain _ => st <> Fresh
  end.

(** At the end a request holds neither the lock nor a slot. *)
Definition done_with (st : stage) : Prop := locks st = false /\ slotted st = false.

(** The same of the backend's operations, each a sequence of calls. *)
Definition op_allowed (X : Type) (e : daemonE X) (st : stage) : Prop :=
  match e with
  | BOpen _ => st = Fresh
  | BList => st = Locked
  | BCreate _ opts => label_of (Labels (NewSpec opts)) labelProfile = p /\ may_create st
  | CapLock | CapUnlock | CapGet _ | CapSet _ _ | CapDelete _ => capacity_allowed e st
  | _ => False
  end.

Definition op_step (X : Type) (e : daemonE X) (st : stage) (x : X) (st' : stage) : Prop :=
  match e in daemonE X return X -> Prop with
  | BOpen _ => fun r =>
      match r with
      | Ok _ => st' = Found
      | Err err => st' = Missed \/ st' = Found /\ Is err ErrNotFound = false
      end
  | BList => fun r => match r with Ok infos => st' = Counted (count_infos p infos) | Err _ => st' = Locked end
  | BCreate _ _ => fun _ => st' = st \/ st' = after_create st
  | e => fun x => st' = capacity_next e x st
  end x.
End protocol.

(** ** The handler keeps to the stages, operation by operation *)

Section handler.
Context `{MapRange string}.
Variable cfg : Config.

Abbreviation ops p limit := (wp (op_allowed p limit) (op_step p)).

Lemma create_reserved_stages profile req limit st (Q : Response -> stage -> Prop) :
  may_create limit st -> (forall r, Q r st) -> (forall r, Q r (after_create st)) ->
  ops (ReqProfile req) limit (create_reserved profile req) Q st.
Proof.
  intros Hst HQ1 HQ2. unfold create_reserved. pose proof (createOptions_spec profile req) as Hs.
  destruct (createOptions profile req) as [opts|e]; [|apply HQ1].
  destruct Hs as (_ & _ & Hl & _). cbn [bind call wp]. split.
  { split; [|done]. rewrite Hl. unfold label_of. by rewrite lookup_insert_eq. }
  intros [i|e] st' [->| ->]; try destruct (negb _); first [apply HQ1|apply HQ2].
Qed.

(** The stage after a call, named and replaced by what it is. *)
Ltac staged := let st := fresh "st" in let H := fresh "H" in
  intros st H; cbn [op_step capacity_next] in H; subst st.

Lemma reserve_stages p limit :
  ops p limit (reserve p limit) (fun r st =>
    match r with
    | Ok true => st = Holding
    | Ok false => st = Missed /\ limit <= 0
    | Err _ => done_with st
    end) Missed.
Proof.
  unfold reserve, countLive. destruct (Z.leb_spec limit 0); [done|].
  cbn [bind call wp]. split; [done|]. intros []. staged. cbn [bind call wp].
  split; [done|]. intros [infos|e]; staged; cbn [bind call wp]; [|split; [done|]; intros []; by staged].
  split; [done|]. intros m. staged. rewrite Z.geb_leb. fold (count_infos p infos).
  destruct (Z.leb_spec limit (count_infos p infos + m)); cbn [bind call wp].
  { split; [done|]. intros []. by staged. }
  split; [done|]. intros []. staged. cbn [bind call wp]. split; [done|]. intros []. by staged.
Qed.

Lemma release_stages p limit taken st :
  (if taken : bool then st = Holding \/ st = Made else done_with st) ->
  ops p limit (release p taken) (fun _ st' => done_with st') st.
Proof.
  unfold release. destruct taken; cbn [negb]; [|done]. intros Hst. cbn [bind call wp].
  split; [by destruct Hst as [->| ->]|]. intros [] st1 Hs1.
  assert (st1 = RelLock) as -> by (cbn in Hs1; rewrite Hs1; by destruct Hst as [->| ->]).
  split; [done|]. intros m. staged. cbn [bind call wp]. split; [done|].
  intros []. staged. destruct (Z.leb_spec (m - 1) 0); cbn [bind call wp].
  - split; [done|]. intros []. staged. cbn [bind call wp]. split; [done|]. intros []. by staged.
  - split; [done|]. intros []. by staged.
Qed.

Lemma handleCreate_stages req :
  ops (ReqProfile req) (limit_of cfg (ReqProfile req)) (handleCreate cfg (Ok req))
    (fun _ st => done_with st) Fresh.
Proof.
  unfold handleCreate, limit_of. destruct (String.eqb _ ""); [done|].
  destruct (Profiles cfg !! _) as [profile|]; [|done].
  cbn [bind call wp]. split; [done|]. intros [i|e] st Hst.
  - cbn in Hst. subst st. destruct (negb _); [done|]. by apply create_reserved_stages.
  - destruct (Is e ErrNotFound) eqn:Ee; cbn [negb]; [|by destruct Hst as [->|[-> _]]].
    destruct Hst as [->|[_ ?]]; [|congruence]. apply wp_bind. eapply wp_mono; [|apply reserve_stages].
    intros [[]|e'] st' Hst; [| |done].
    + subst st'. apply wp_bind, create_reserved_stages; [done| |]; intros r; apply wp_bind;
        (eapply wp_mono; [|apply release_stages; by auto]); done.
    + destruct Hst as [-> Hl]. apply wp_bind, create_reserved_stages; [done| |]; intros r;
        apply wp_bind; (eapply wp_mono; [|by apply release_stages]); done.
Qed.
End handler.

(** ** Call by call *)

Section implementation.
Context {RS : MapRange string} {RP : MapRange Profile} {FC : FloatConv}.
Variables (b : Backend) (p : string) (limit : Z).

Abbreviation calls := (wp (stage_allowed p limit) (stage_step p)).

Lemma calls_docker {A} (q : prog dockerE A) Q st :
  wp (fun X e => stage_allowed p limit X (Docker e)) (fun X e => stage_step p X (Docker e)) q Q st ->
  calls (docker q) Q st.
Proof.
  unfold docker. revert st; induction q as [a|X e k IH]; intros st; cbn [interp bind wp]; [done|].
  intros [Hok Hk]. cbn [docker_call bind call wp]. split; [done|]. intros x st' Hst. apply IH, Hk, Hst.
Qed.

(** In a stage that no lookup or listing changes. *)
Definition steady (st : stage) : Prop := st <> Fresh /\ st <> Locked.

Lemma calls_quiet {A} (q : prog dockerE A) st :
  steady st -> safe creates_nothing q (fun _ => True) ->
  wp (fun X e => stage_allowed p limit X (Docker e)) (fun X e => stage_step p X (Docker e)) q
    (fun _ st' => st' = st) st.
Proof.
  intros Hst. induction q as [a|X e k IH]; cbn [safe wp]; [done|]. intros [He Hk].
  destruct Hst as [H1 H2]. split; [destruct e; cbn; done|]. intros x st' Hs.
  assert (st' = st) as ->; [|apply IH, Hk]. cbn in Hs. subst st'.
  destruct e; cbn; try done; by destruct st.
Qed.

Lemma buildConfig_carries name spec now :
  label_of (Labels spec) labelProfile = p -> carries p (fst (buildConfig name spec now)) = true.
Proof.
  intros Hl. unfold carries, buildConfig. cbn [fst CfgLabels]. apply andb_true_intro. split.
  - rewrite own_label by done. done.
  - apply String.eqb_eq. unfold label, label_of in *. by rewrite <- userLabels_lookup, userLabels_buildLabels.
Qed.
Lemma Open_creates_nothing name : safe creates_nothing (Open b name) (fun _ => True).
Proof. by apply Open_safe. Qed.

(** [Create], from a stage that may create: at most one creation, of a container
    of the profile. *)
Lemma create_fresh_calls name spec st :
  label_of (Labels spec) labelProfile = p -> may_create limit st ->
  wp (fun X e => stage_allowed p limit X (Docker e)) (fun X e => stage_step p X (Docker e))
    (create_fresh b name spec) (fun _ st' => st' = st \/ st' = after_create st) st.
Proof.
  intros Hl Hm. assert (Hs : steady st) by (by destruct st).
  assert (Hs' : steady (after_create st)) by (by destruct st).
  unfold create_fresh. apply wp_bind. eapply wp_mono; [|apply calls_quiet; [done|]].
  2: { unfold assertRuntime. cbn. split; [done|]. intros [rs|e]; [|done]. by case_bool_decide. }
  intros [[]|e] ? ->; [|by left]. apply wp_bind. eapply wp_mono; [|apply calls_quiet; [done|]].
  2: { unfold ensureImage. cbn. split; [done|]. intros [[]|e]; [done|]. destruct (negb (IsNotFound e)); [done|].
      split; [done|]. intros [[]|e1]; [|done]. split; [done|]. intros [[]|e2]; [|done].
      split; [done|]. by intros [[]|e3]. }
  intros [[]|e] ? ->; [|by left]. cbn [bind call wp]. split; [by destruct Hs|]. intros now st1 Hst1.
  cbn in Hst1. subst st1. pose proof (buildConfig_carries name spec now Hl) as Hc.
  destruct (buildConfig name spec now) as [cc host]. cbn [fst] in Hc. cbn [bind call wp].
  split; [by split|]. intros r st2 Hst2. cbn in Hst2. subst st2.
  eapply wp_mono with (Q := fun _ st' => st' = after_create st); [by right|]. apply calls_quiet; [done|].
  destruct r as [id|e].
  - cbn. split; [done|]. intros [[]|e]; [apply Open_creates_nothing|done].
  - destruct (IsConflict e); [apply Open_creates_nothing|done].
Qed.

Lemma Create_calls name opts st :
  label_of (Labels (NewSpec opts)) labelProfile = p -> may_create limit st ->
  calls (docker (Create b name opts)) (fun _ st' => st' = st \/ st' = after_create st) st.
Proof.
  intros Hl Hm. assert (Hs : steady st) by (by destruct st). apply calls_docker. unfold Create.
  destruct (String.eqb name ""); [by left|]. destruct (Spec_Validate _); [|by left].
  destruct (String.eqb _ ""); [by left|]. apply wp_bind.
  eapply wp_mono; [|apply calls_quiet; [done|apply Open_creates_nothing]].
  intros [sb|e] ? ->; [|destruct (negb _); [by left|by apply create_fresh_calls]]. apply wp_bind.
  eapply wp_mono; [|apply calls_quiet; [done|]].
  2: { unfold halted. cbn. split; [done|]. intros r. repeat casesplit; done. }
  intros [stopped|e] ? ->; [|by left]. destruct (negb stopped); [by left|]. apply wp_bind.
  eapply wp_mono; [|apply calls_quiet; [done|]].
  2: { unfold Destroy. cbn. split; [done|]. intros r. repeat casesplit; done. }
  intros [[]|e] ? ->; [by apply create_fresh_calls|by left].
Qed.

(** Each operation does what its stages say. *)
Lemma on_docker_calls X (e : daemonE X) cur st :
  op_allowed p limit X e st ->
  calls (on_docker b X e cur) (fun xs st' => op_step p X e st (fst xs) st') st.
Proof.
  destruct e; cbn [op_allowed]; try done.
  - intros ->. cbn [on_docker]. apply wp_bind, calls_docker. unfold Open. cbn [bind call wp].
    split; [done|]. intros [j|e] st' Hst; cbn in Hst; subst st'.
    + destruct (CjConfig j) as [[image labels]|]; [|by right]. by destruct (negb _); [right|].
    + destruct (IsNotFound e); by left.
  - intros ->. cbn [on_docker]. apply wp_bind, calls_docker. unfold List. cbn [bind call wp].
    split; [by split|]. intros [cs|e] st' Hst; cbn in Hst; subst st'; [|done].
    cbn [wp fst op_step]. by rewrite count_infos_listed.
  - intros [Hl Hm]. cbn [on_docker]. apply wp_bind. eapply wp_mono; [|by apply Create_calls].
    intros [sb|e] st' Hst; exact Hst.
  all: intros Ha; cbn [on_docker bind call wp]; by split.
Qed.
End implementation.

(** ** Every request *)

Section requests.
Context {RS : MapRange string} {RP : MapRange Profile} {FC : FloatConv}.
Variables (cfg : Config) (b : Backend).

(** An HTTP request: its method, its path and its body. *)
Abbreviation http := (string * string * string)%type.

Definition served (r : http) : prog systemE Response :=
  let '(method, path, body) := r in serve_request cfg b method path body.

(** The create request it is, if it is one. *)
Definition asks (r : http) : option CreateRequest :=
  let '(method, path, body) := r in
  if create_route method path then
    match createBody (ReqBodyBytes body) with Ok req => Some req | Err _ => None end
  else None.

Definition profile_asked (r : http) : string :=
  match asks r with Some req => ReqProfile req | None => "" end.

Definition first_stage (r : http) : stage :=
  match asks r with Some _ => Fresh | None => Elsewhere end.

(** Calls that neither create a container nor touch the capacity table. *)
Definition quiet (X : Type) (e : systemE X) : Prop :=
  match e with Docker e => creates_nothing _ e | Capacity _ => False | Drain _ => True end.

Lemma guest_quiet {A} s cmds plain (q : prog dockerE A) :
  runs_only s q cmds plain -> safe quiet (docker q) (fun _ => True).
Proof. apply safe_docker. by intros X []. Qed.

Lemma harmless_quiet {A} (q : prog dockerE A) :
  safe harmless q (fun _ => True) -> safe quiet (docker q) (fun _ => True).
Proof. apply safe_docker. by intros X []. Qed.

Lemma on_docker_quiet X (e : daemonE X) cur :
  plain_op X e -> safe quiet (on_docker b X e cur) (fun _ => True).
Proof.
  destruct e; intros He; cbn [on_docker]; try done; apply safe_then; try (by intros; cbn).
  - by apply harmless_quiet, Open_safe.
  - apply harmless_quiet. cbn. split; [done|]. by intros [].
  - apply harmless_quiet. cbn. split; [done|]. intros r. repeat casesplit; done.
  - apply harmless_quiet. cbn. split; [done|]. by intros [].
  - apply (guest_quiet (default no_sandbox cur) [cmd] []). by apply Exec_guest, list_elem_of_singleton.
  - eapply guest_quiet, guest_WriteFile.
  - eapply guest_quiet, guest_ReadFile.
  - by intros [].
  - eapply guest_quiet, guest_StartProcess.
  - apply (safe_docker creates_nothing); [done|]. unfold DialPort. destruct (_ || _); [done|].
    apply safe_then; [by apply Open_safe|]. intros [sb|e]; [|done].
    eapply safe_weaken; [|apply (guest_dialPort sb port)].
    by intros X [].
Qed.

Lemma quiet_elsewhere {A} p limit (q : prog systemE A) :
  safe quiet q (fun _ => True) ->
  wp (stage_allowed p limit) (stage_step p) q (fun _ st => st = Elsewhere) Elsewhere.
Proof.
  induction q as [a|X e k IH]; cbn [safe wp]; [done|]. intros [He Hk].
  destruct e as [X e|X e|x]; cbn [quiet] in He; [|done|].
  - split; [by destruct e|]. intros x st' Hs. assert (st' = Elsewhere) as ->; [|by apply IH].
    cbn in Hs. by destruct e.
  - split; [done|]. intros r st' ->. by apply IH.
Qed.

Lemma served_stages r :
  wp (stage_allowed (profile_asked r) (limit_of cfg (profile_asked r))) (stage_step (profile_asked r))
    (served r) (fun _ st => done_with st) (first_stage r).
Proof.
  destruct r as [[method path] body]. unfold profile_asked, first_stage, asks, served, serve_request.
  pose proof (dispatch_plain cfg method path (ReqBodyBytes body)) as Hd. apply wp_bind.
  destruct (create_route method path).
  - rewrite Hd. destruct (createBody _) as [req|e]; [|done].
    eapply wp_mono; [|eapply wp_interp; [|apply handleCreate_stages]]; [by intros [] ? ?|].
    intros X e cur st. apply on_docker_calls.
  - eapply wp_mono with (Q := fun _ st => st = Elsewhere); [by intros [] ? ->|]. apply quiet_elsewhere.
    eapply safe_mono; [|eapply safe_interp; [|exact Hd]]; [done|]. intros X e cur. apply on_docker_quiet.
Qed.
End requests.
