(* ===== verification/DaemonCap.v ===== *)
(** * The cap of a profile on Docker

    Any number of HTTP requests of any kind, served at once by the daemon of
    [DaemonDocker] and interleaved at every call to Docker and to the capacity
    table, while containers are stopped and removed around them.  [Create] is the
    sequence of Docker calls it is, and any engine that counts is allowed: a
    call may fail, also after having created its container. *)

From S2P Require Import Goroutines Prelude GoErrors GoStrings GoFloat64 GoDuration GoTime GoNet GoHttp.
From S2P Require Import GoJson GoJsonText GoJsonDecode Sha256 Effects Sandbox BrokerApi DaemonConfig.
From S2P Require Import PreviewToken PreviewProxy DockerApi DockerBackend DockerLifecycle DockerExec.
From S2P Require Import DaemonServer DaemonDecode DaemonCapacity BrokerClient DaemonDocker DockerReap DaemonReap DaemonStages.

(** ** Counting containers *)

Definition held_by (p : string) (m : gmap string Container) : Z :=
  Z.of_nat (size (filter (fun nc : string * Container => carries p (CtConfig (snd nc)) = true) m)).

(** What Docker documents of a host's containers: only a creation adds one, the
    one asked for under a name that is free; a listing of a label misses no
    container that has it. *)
Class CountingEngine {W : Type} (view : W -> gmap string Container)
    (step : forall X, dockerE X -> W -> X -> W -> Prop) : Prop := {
  counting_follows : forall X (e : dockerE X) w x w',
    creates_nothing X e -> step X e w x w' -> follows (view w) (view w');
  counting_create : forall cc host name w r w',
    step _ (ContainerCreate cc host name) w r w' ->
    follows (view w) (view w') \/
    exists c, view w !! name = None /\ CtConfig c = cc /\ view w' = <[name := c]> (view w);
  counting_list : forall w cs w' p,
    step _ (ContainerList true (labelManaged ++ "=true")) w (Ok cs) w' ->
    held_by p (view w') <= count_listed p cs
}.

Lemma held_by_follows p m m' : follows m m' -> held_by p m' <= held_by p m.
Proof.
  intros Hf. unfold held_by. apply inj_le. rewrite <- !(size_dom (D := gset string)).
  apply subseteq_size. intros n Hn. apply elem_of_dom in Hn as [c' Hc'].
  apply map_lookup_filter_Some in Hc' as [Hc' Hp]. destruct (Hf n c' Hc') as (c & Hc & _ & Hg).
  apply elem_of_dom. exists c. apply map_lookup_filter_Some. split; [done|]. cbn in *. by rewrite Hg.
Qed.

Lemma held_by_insert p m name c :
  m !! name = None ->
  held_by p (<[name := c]> m) = held_by p m + if carries p (CtConfig c) then 1 else 0.
Proof.
  intros Hn. unfold held_by. destruct (carries p (CtConfig c)) eqn:E.
  - rewrite map_filter_insert_True by done. rewrite map_size_insert_None; [lia|].
    apply map_lookup_filter_None. by left.
  - rewrite map_filter_insert_not' by (cbn; congruence). lia.
Qed.

Lemma held_by_nonneg p m : 0 <= held_by p m.
Proof. unfold held_by. lia. Qed.

(** ** The host *)

Record site (W : Type) : Type := mkSite {
  engine : W;
  held : option nat;                   (** the request that holds the capacity's lock *)
  slots : gmap string Z;               (** reservations by profile *)
  looks : gmap nat bool                (** whether a request's first call found a container *)
}.
Arguments mkSite {W}.
Arguments engine {W}.
Arguments held {W}.
Arguments slots {W}.
Arguments looks {W}.

Definition finds {X} (e : dockerE X) : X -> bool :=
  match e in dockerE X return X -> bool with
  | ContainerInspect _ => fun r => is_ok r
  | _ => fun _ => false
  end.

Definition look (t : nat) (found : bool) (l : gmap nat bool) : gmap nat bool :=
  match l !! t with Some _ => l | None => <[t := found]> l end.

Section site.
Context {W : Type} (view : W -> gmap string Container)
  (step : forall X, dockerE X -> W -> X -> W -> Prop).

(** One call of request [t]; the lock blocks while it is held. *)
Definition site_call (t : nat) (X : Type) (e : systemE X) (s : site W) : X -> site W -> Prop :=
  match e in systemE X return X -> site W -> Prop with
  | Docker e => fun x s' => exists w', step _ e (engine s) x w' /\
      s' = mkSite w' (held s) (slots s) (look t (finds e x) (looks s))
  | Capacity e =>
      match e in daemonE X return X -> site W -> Prop with
      | CapLock => fun _ s' => held s = None /\ s' = mkSite (engine s) (Some t) (slots s) (looks s)
      | CapUnlock => fun _ s' => s' = mkSite (engine s) None (slots s) (looks s)
      | CapGet p => fun x s' => x = default 0 (slots s !! p) /\ s' = s
      | CapSet p n => fun _ s' => s' = mkSite (engine s) (held s) (<[p := n]> (slots s)) (looks s)
      | CapDelete p => fun _ s' => s' = mkSite (engine s) (held s) (delete p (slots s)) (looks s)
      | _ => fun _ _ => False
      end
  | Drain _ => fun _ s' => s' = s
  end.

Abbreviation serving := (gmap nat (prog systemE Response)).

(** A call of a request; or containers stop and go away by themselves: they
    exit, are reaped, are removed by the operator. *)
Inductive site_step : site W * serving -> site W * serving -> Prop :=
  | site_calls t X (e : systemE X) k x s s' ths :
      ths !! t = Some (Vis e k) -> site_call t X e s x s' ->
      site_step (s, ths) (s', <[t := k x]> ths)
  | site_loses w' s ths :
      follows (view (engine s)) (view w') ->
      site_step (s, ths) (mkSite w' (held s) (slots s) (looks s), ths).
End site.

(** ** The invariant of a capped profile *)

Section invariant.
Context {W : Type} (view : W -> gmap string Container)
  (step : forall X, dockerE X -> W -> X -> W -> Prop) `{!CountingEngine view step}.
Variables (P : string) (limit : string -> Z).
Hypothesis capped : 0 < limit P.

Abbreviation serving := (gmap nat (prog systemE Response)).
Abbreviation stages := (gmap nat (string * stage)).

(** The containers of the profile, and those its slots are still to become,
    less those made for a sandbox that was found. *)
Definition net (w : W) (sts : stages) : Z :=
  held_by P (view w) + count P owes sts - count P extra sts.

Definition reserved (s : site W) : Z := default 0 (slots s !! P).

(** What a request in a stage knows of the shared state. *)
Definition known (s : site W) (sts : stages) (st : stage) : Prop :=
  match st with
  | Counted n => net (engine s) sts <= n + reserved s
  | Checked n m => m = reserved s /\ net (engine s) sts <= n + m
  | RelGot m | RelDone m => m = reserved s
  | _ => True
  end.

Definition looked (l : gmap nat bool) (t : nat) (st : stage) : Prop :=
  match st with
  | Fresh => l !! t = None
  | Found | Extra => l !! t = Some true
  | _ => True
  end.

Abbreviation follows_stages p q st :=
  (wp (stage_allowed p (limit p)) (stage_step p) q (fun _ st' => done_with st') st).

Record Bounded (s : site W) (ths : serving) (sts : stages) : Prop := {
  b_threads : forall t q, ths !! t = Some q ->
    exists p st, sts !! t = Some (p, st) /\ follows_stages p q st;
  b_dom : forall t v, sts !! t = Some v -> is_Some (ths !! t);
  b_lock : forall t p st, sts !! t = Some (p, st) -> locks st = true -> held s = Some t;
  b_slots : reserved s = count P slotted sts;
  b_net : net (engine s) sts <= limit P;
  b_known : forall t st, sts !! t = Some (P, st) -> known s sts st;
  b_looks : forall t p st, sts !! t = Some (p, st) -> looked (looks s) t st
}.

(** What one request knows survives a move that leaves the reservations alone
    and does not raise the load; one that changes them holds the lock. *)
Lemma known_keeps s s' sts sts' st :
  reserved s' = reserved s -> net (engine s') sts' <= net (engine s) sts ->
  known s sts st -> known s' sts' st.
Proof. intros Hr Hn. destruct st; cbn; try done; rewrite Hr; lia. Qed.

Lemma known_locks s sts st s' sts' : known s sts st -> locks st = false -> known s' sts' st.
Proof. by destruct st. Qed.

(** Moving one request on. *)
Lemma Bounded_move s s' ths sts t p st st' k :
  Bounded s ths sts -> sts !! t = Some (p, st) -> follows_stages p k st' ->
  (locks st' = true -> held s' = Some t) ->
  (held s' = held s \/ (forall t' p' st0, t' <> t -> sts !! t' = Some (p', st0) -> locks st0 = false)) ->
  reserved s' = count P slotted sts - one P slotted (p, st) + one P slotted (p, st') ->
  (reserved s' = reserved s /\ net (engine s') (<[t := (p, st')]> sts) <= net (engine s) sts \/
   locks st = true /\ net (engine s') (<[t := (p, st')]> sts) <= limit P) ->
  (p = P -> known s' (<[t := (p, st')]> sts) st') ->
  (forall t', t' <> t -> looks s' !! t' = looks s !! t') -> looked (looks s') t st' ->
  Bounded s' (<[t := k]> ths) (<[t := (p, st')]> sts).
Proof.
  intros HB Ht Hk Hl' Hl Hres Hcase Hkn Hlooks Hlook.
  assert (Hat : forall t' v, <[t := (p, st')]> sts !! t' = Some v ->
    t' = t /\ v = (p, st') \/ t' <> t /\ sts !! t' = Some v).
  { intros t' v Hv. destruct (decide (t = t')) as [<-|Hne].
    - rewrite lookup_insert_eq in Hv. left. by injection Hv as <-.
    - rewrite lookup_insert_ne in Hv by done. by right. }
  constructor.
  - intros t' q Hq. destruct (decide (t = t')) as [<-|Hne].
    + rewrite lookup_insert_eq in Hq. apply (inj Some) in Hq as <-. exists p, st'. by rewrite lookup_insert_eq.
    + rewrite lookup_insert_ne in Hq by done. rewrite lookup_insert_ne by done. by apply (b_threads _ _ _ HB).
  - intros t' v [[-> _]|[Hne Hv]]%Hat; [by rewrite lookup_insert_eq|].
    rewrite lookup_insert_ne by done. by apply (b_dom _ _ _ HB t' v).
  - intros t' p' st0 [[-> [= -> ->]]|[Hne Hv]]%Hat Hlo; [auto|]. destruct Hl as [->|Hno].
    + by apply (b_lock _ _ _ HB t' p' st0).
    + by rewrite (Hno t' p' st0) in Hlo.
  - rewrite Hres. symmetry. by apply count_update.
  - pose proof (b_net _ _ _ HB). destruct Hcase as [[_ ?]|[_ ?]]; lia.
  - intros t' st0 [[-> [= <- ->]]|[Hne Hv]]%Hat; [auto|]. pose proof (b_known _ _ _ HB t' st0 Hv) as Hk0.
    destruct Hcase as [[Hr Hn]|[Hlo _]]; [by eapply known_keeps|]. eapply known_locks; [exact Hk0|].
    destruct (locks st0) eqn:E; [|done]. pose proof (b_lock _ _ _ HB t _ _ Ht Hlo).
    pose proof (b_lock _ _ _ HB t' _ _ Hv E). congruence.
  - intros t' p' st0 [[-> [= -> ->]]|[Hne Hv]]%Hat; [done|]. pose proof (b_looks _ _ _ HB t' p' st0 Hv) as Hl0.
    unfold looked in *. rewrite Hlooks by done. exact Hl0.
Qed.

Lemma net_update w sts t p st st' :
  sts !! t = Some (p, st) ->
  net w (<[t := (p, st')]> sts) =
  net w sts - one P owes (p, st) + one P owes (p, st') + one P extra (p, st) - one P extra (p, st').
Proof. intros Ht. unfold net. rewrite !(count_update _ _ _ _ _ _ Ht). lia. Qed.

Lemma one_le f g (st st' : stage) p :
  (f st = true -> g st' = true) -> one P f (p, st) <= one P g (p, st').
Proof.
  intros Hfg. unfold one. cbn [fst snd]. destruct (String.eqb p P); cbn [andb]; [|lia].
  destruct (f st); [by rewrite Hfg|]. destruct (g st'); lia.
Qed.

(** A move that takes and gives no slot, and adds no container to the load. *)
Lemma Bounded_neutral s s' ths sts t p st st' k :
  Bounded s ths sts -> sts !! t = Some (p, st) -> follows_stages p k st' ->
  slots s' = slots s -> held_by P (view (engine s')) <= held_by P (view (engine s)) ->
  slotted st' = slotted st -> (owes st' = true -> owes st = true) -> (extra st = true -> extra st' = true) ->
  (locks st' = true -> held s' = Some t) ->
  (held s' = held s \/ (forall t' p' st0, t' <> t -> sts !! t' = Some (p', st0) -> locks st0 = false)) ->
  (p = P -> known s' (<[t := (p, st')]> sts) st') ->
  (forall t', t' <> t -> looks s' !! t' = looks s !! t') -> looked (looks s') t st' ->
  Bounded s' (<[t := k]> ths) (<[t := (p, st')]> sts).
Proof.
  intros HB Ht Hk Hslots Hheld Hs Ho He Hl' Hl Hkn Hlooks Hlook.
  pose proof (one_le owes owes st' st p Ho). pose proof (one_le extra extra st st' p He).
  assert (Hone : one P slotted (p, st') = one P slotted (p, st)) by (unfold one; cbn; by rewrite Hs).
  eapply Bounded_move; try done.
  - unfold reserved. rewrite Hslots. change (default 0 (slots s !! P)) with (reserved s).
    rewrite (b_slots _ _ _ HB), Hone. lia.
  - left. split; [unfold reserved; by rewrite Hslots|]. rewrite (net_update _ _ _ _ _ _ Ht).
    unfold net. lia.
Qed.

Lemma look_other t t' f l : t' <> t -> look t f l !! t' = l !! t'.
Proof. intros Hne. unfold look. destruct (l !! t); [done|by rewrite lookup_insert_ne]. Qed.

Lemma look_again t f l st : looked l t st -> st <> Fresh -> looked (look t f l) t st.
Proof.
  intros Hl Hne. unfold looked, look in *. destruct st; try done; destruct (l !! t) eqn:E; by rewrite ?E in *.
Qed.

(** A call to Docker that creates nothing and changes no stage. *)
Lemma Bounded_docker s ths sts t p st st' w' found k :
  Bounded s ths sts -> sts !! t = Some (p, st) -> follows_stages p k st' ->
  held_by P (view w') <= held_by P (view (engine s)) ->
  slotted st' = slotted st -> (owes st' = true -> owes st = true) -> (extra st = true -> extra st' = true) ->
  locks st' = locks st ->
  (p = P -> known (mkSite w' (held s) (slots s) (look t found (looks s))) (<[t := (p, st')]> sts) st') ->
  looked (look t found (looks s)) t st' ->
  Bounded (mkSite w' (held s) (slots s) (look t found (looks s))) (<[t := k]> ths) (<[t := (p, st')]> sts).
Proof.
  intros HB Ht Hk Hh Hs Ho He Hlk Hkn Hlook. eapply Bounded_neutral; try done.
  - cbn. rewrite Hlk. by apply (b_lock _ _ _ HB _ _ _ Ht).
  - by left.
  - intros t' Hne. by apply look_other.
Qed.

(** Knowledge of its own, kept by the request itself. *)
Lemma known_same s sts t p st w' found :
  sts !! t = Some (p, st) -> (p = P -> known s sts st) ->
  held_by P (view w') <= held_by P (view (engine s)) ->
  p = P -> known (mkSite w' (held s) (slots s) (look t found (looks s))) (<[t := (p, st)]> sts) st.
Proof.
  intros Ht Hkn Hh Hp. rewrite (insert_id _ _ _ Ht). apply (known_keeps s _ sts); [done| |by apply Hkn].
  unfold net. cbn [engine]. lia.
Qed.

Lemma Bounded_create s ths sts t p st cc host name r w' k :
  Bounded s ths sts -> sts !! t = Some (p, st) ->
  stage_allowed p (limit p) _ (Docker (ContainerCreate cc host name)) st ->
  step _ (ContainerCreate cc host name) (engine s) r w' -> follows_stages p k (after_create st) ->
  Bounded (mkSite w' (held s) (slots s) (look t false (looks s))) (<[t := k]> ths)
    (<[t := (p, after_create st)]> sts).
Proof.
  intros HB Ht [Hc Hm] Hst Hk. pose proof (b_looks _ _ _ HB _ _ _ Ht) as Hlk.
  assert (Hnew : looked (look t false (looks s)) t (after_create st)).
  { apply look_again; [|by destruct st]. by destruct st. }
  apply counting_create in Hst as [Hf|(c & Hn & <- & Hv)].
  - apply (held_by_follows P) in Hf. destruct st; try done; by eapply Bounded_docker.
  - assert (Hp : carries P (CtConfig c) = String.eqb p P).
    { unfold carries in *. apply andb_prop in Hc as [-> Hc]. apply String.eqb_eq in Hc as ->. done. }
    pose proof (held_by_insert P _ _ c Hn) as Hi. rewrite Hp in Hi. rewrite <- Hv in Hi.
    assert (Hslot : one P slotted (p, after_create st) = one P slotted (p, st)) by (by destruct st).
    eapply Bounded_move; try done.
    + intros E. by destruct st.
    + by left.
    + change (reserved s = count P slotted sts - one P slotted (p, st) + one P slotted (p, after_create st)).
      rewrite (b_slots _ _ _ HB), Hslot. lia.
    + left. split; [done|]. rewrite (net_update _ _ _ _ _ _ Ht). unfold net. cbn [engine]. rewrite Hi.
      unfold one. cbn [fst snd]. destruct (String.eqb_spec p P) as [->|]; cbn [andb]; [|lia].
      destruct st; cbn in Hm |- *; try done; lia.
    + intros _. by destruct st.
    + intros t' Hne. by apply look_other.
Qed.

(** The stage stays. *)
Lemma Bounded_same s ths sts t p st X (e : dockerE X) x w' k :
  Bounded s ths sts -> sts !! t = Some (p, st) -> follows_stages p k st ->
  creates_nothing X e -> step X e (engine s) x w' -> st <> Fresh ->
  Bounded (mkSite w' (held s) (slots s) (look t (finds e x) (looks s))) (<[t := k]> ths)
    (<[t := (p, st)]> sts).
Proof.
  intros HB Ht Hk He Hst Hf. pose proof (held_by_follows P _ _ (counting_follows _ _ _ _ _ He Hst)) as Hh.
  eapply Bounded_docker; try done.
  - eapply known_same; [done| |done]. intros ->. by apply (b_known _ _ _ HB t).
  - apply look_again; [|done]. by apply (b_looks _ _ _ HB _ _ _ Ht).
Qed.

Lemma Bounded_inspect s ths sts t p st ref x w' k :
  Bounded s ths sts -> sts !! t = Some (p, st) ->
  follows_stages p k (docker_next p (ContainerInspect ref) x st) ->
  step _ (ContainerInspect ref) (engine s) x w' ->
  Bounded (mkSite w' (held s) (slots s) (look t (is_ok x) (looks s))) (<[t := k]> ths)
    (<[t := (p, docker_next p (ContainerInspect ref) x st)]> sts).
Proof.
  intros HB Ht Hk Hst. destruct (decide (st = Fresh)) as [->|Hne].
  - pose proof (held_by_follows P _ _ (counting_follows _ (ContainerInspect ref) _ _ _ I Hst)) as Hh.
    pose proof (b_looks _ _ _ HB _ _ _ Ht) as Hl. cbn in Hl.
    cbn in Hk |- *. destruct (is_ok x) eqn:Ex; eapply Bounded_docker; try done.
    cbn. unfold look. by rewrite Hl, lookup_insert_eq.
  - assert (docker_next p (ContainerInspect ref) x st = st) as E by (by destruct st). rewrite E in *.
    by apply (Bounded_same _ _ _ _ _ _ _ (ContainerInspect ref) x).
Qed.

Lemma Bounded_list s ths sts t p st all l x w' k :
  Bounded s ths sts -> sts !! t = Some (p, st) ->
  stage_allowed p (limit p) _ (Docker (ContainerList all l)) st ->
  follows_stages p k (docker_next p (ContainerList all l) x st) ->
  step _ (ContainerList all l) (engine s) x w' ->
  Bounded (mkSite w' (held s) (slots s) (look t false (looks s))) (<[t := k]> ths)
    (<[t := (p, docker_next p (ContainerList all l) x st)]> sts).
Proof.
  intros HB Ht [Hf Hargs] Hk Hst.
  assert (docker_next p (ContainerList all l) x st = st \/
    st = Locked /\ exists cs, x = Ok cs) as [E|[-> [cs ->]]].
  { destruct st; try (by left). destruct x as [cs|]; [right; eauto|by left]. }
  - rewrite E in *. by apply (Bounded_same _ _ _ _ _ _ _ (ContainerList all l) x).
  - destruct (Hargs eq_refl) as [-> ->]. pose proof (counting_list _ _ _ P Hst) as Hc.
    pose proof (held_by_follows P _ _ (counting_follows _ (ContainerList _ _) _ _ _ I Hst)) as Hh.
    cbn [docker_next] in *. eapply Bounded_docker; try done. intros ->. cbn [known engine].
    rewrite (net_update _ _ _ _ _ _ Ht). unfold net.
    change (reserved (mkSite w' (held s) (slots s) (look t false (looks s)))) with (reserved s).
    rewrite (b_slots _ _ _ HB). pose proof (count_mono P owes slotted sts ltac:(by intros [])).
    pose proof (count_nonneg P extra sts). unfold one. cbn [fst snd owes extra]. rewrite andb_false_r. lia.
Qed.

Lemma Bounded_docker_call s ths sts t p st X (e : dockerE X) x w' k :
  Bounded s ths sts -> sts !! t = Some (p, st) -> stage_allowed p (limit p) _ (Docker e) st ->
  follows_stages p k (docker_next p e x st) -> step X e (engine s) x w' ->
  Bounded (mkSite w' (held s) (slots s) (look t (finds e x) (looks s))) (<[t := k]> ths)
    (<[t := (p, docker_next p e x st)]> sts).
Proof.
  intros HB Ht Hal Hk Hst. destruct e.
  1: by apply (Bounded_inspect _ _ _ _ _ _ ref).
  1: by eapply Bounded_create.
  4: by apply (Bounded_list _ _ _ _ _ _ all label).
  all: match type of Hst with step _ ?c _ _ _ => by apply (Bounded_same _ _ _ _ _ _ _ c x) end.
Qed.

(** ** Calls on the capacity table *)

Ltac stage_counts :=
  unfold one; cbn [fst snd slotted owes extra];
  repeat match goal with |- context [String.eqb ?p ?q] => destruct (String.eqb_spec p q) end;
  cbn [andb] in *.

Lemma Bounded_set s ths sts t p st q n k :
  Bounded s ths sts -> sts !! t = Some (p, st) -> capacity_allowed p (limit p) (CapSet q n) st ->
  follows_stages p k (capacity_next (CapSet q n) tt st) ->
  Bounded (mkSite (engine s) (held s) (<[q := n]> (slots s)) (looks s)) (<[t := k]> ths)
    (<[t := (p, capacity_next (CapSet q n) tt st)]> sts).
Proof.
  intros HB Ht [-> Hst] Hk. pose proof (b_slots _ _ _ HB) as HS. pose proof (b_net _ _ _ HB) as HN.
  assert (Hl : locks st = true) by (by destruct st).
  assert (Hheld : held s = Some t) by (by apply (b_lock _ _ _ HB _ _ _ Ht)).
  assert (Hget : reserved (mkSite (engine s) (held s) (<[p := n]> (slots s)) (looks s)) =
    if decide (p = P) then n else reserved s).
  { unfold reserved. cbn. case_decide as Hp; [by rewrite Hp, lookup_insert_eq|by rewrite lookup_insert_ne]. }
  assert (Hkn : p = P -> known s sts st) by (intros ->; by apply (b_known _ _ _ HB t)).
  destruct st as [| | | | | | |a c| | | | |m| |]; try done; cbn [capacity_next] in *.
  - destruct Hst as [Hlt ->]. eapply Bounded_move; try done; [by left| |].
    + rewrite Hget, <- HS. case_decide as Hp; [destruct (Hkn Hp)|]; stage_counts; try done; lia.
    + right. split; [done|]. rewrite (net_update _ _ _ _ _ _ Ht). cbn [engine].
      destruct (decide (p = P)) as [->|Hp]; [destruct (Hkn eq_refl)|]; stage_counts; try done; lia.
  - subst n. eapply Bounded_move; try done; [by left| | |].
    + rewrite Hget, <- HS. case_decide as Hp; [pose proof (Hkn Hp) as Hm; cbn in Hm|]; stage_counts; try done; lia.
    + right. split; [done|]. rewrite (net_update _ _ _ _ _ _ Ht). cbn [engine]. stage_counts; lia.
    + intros ->. cbn [known]. rewrite Hget. by case_decide.
Qed.

(** Deleting a table entry that has fallen to zero changes no count. *)
Lemma Bounded_delete s ths sts t p st q k :
  Bounded s ths sts -> sts !! t = Some (p, st) -> capacity_allowed p (limit p) (CapDelete q) st ->
  follows_stages p k (capacity_next (CapDelete q) tt st) ->
  Bounded (mkSite (engine s) (held s) (delete q (slots s)) (looks s)) (<[t := k]> ths)
    (<[t := (p, capacity_next (CapDelete q) tt st)]> sts).
Proof.
  intros HB Ht [-> Hst] Hk. destruct st as [| | | | | | | | | | | | |m|]; try done. cbn [capacity_next] in *.
  pose proof (b_slots _ _ _ HB) as HS. pose proof (count_nonneg P slotted sts) as H0.
  assert (Hsame : default 0 (delete p (slots s) !! P) = reserved s).
  { destruct (decide (p = P)) as [->|Hne]; [|by rewrite lookup_delete_ne].
    pose proof (b_known _ _ _ HB t _ Ht) as Hm. cbn in Hm. rewrite lookup_delete_eq. cbn. lia. }
  eapply Bounded_move; try done; [| | | |].
  - intros _. by apply (b_lock _ _ _ HB _ _ _ Ht).
  - by left.
  - unfold reserved. cbn [slots]. rewrite Hsame, HS. stage_counts; lia.
  - left. split; [exact Hsame|]. rewrite (net_update _ _ _ _ _ _ Ht). cbn [engine]. stage_counts; lia.
  - intros ->. cbn [known]. unfold reserved. cbn [slots]. by rewrite lookup_delete_eq.
Qed.

(** Locking, unlocking and reading the table. *)
Lemma Bounded_capacity_call s s' ths sts t p st X (e : daemonE X) x k :
  Bounded s ths sts -> sts !! t = Some (p, st) -> capacity_allowed p (limit p) e st ->
  follows_stages p k (capacity_next e x st) -> site_call step t X (Capacity e) s x s' ->
  Bounded s' (<[t := k]> ths) (<[t := (p, capacity_next e x st)]> sts).
Proof.
  intros HB Ht Hal Hk Hst. pose proof (b_looks _ _ _ HB _ _ _ Ht) as Hlk.
  assert (Halone : locks st = true ->
    forall t' p' st0, t' <> t -> sts !! t' = Some (p', st0) -> locks st0 = false).
  { intros Hl t' p' st0 Hne Ht'. destruct (locks st0) eqn:E; [|done].
    pose proof (b_lock _ _ _ HB _ _ _ Ht Hl). pose proof (b_lock _ _ _ HB _ _ _ Ht' E). congruence. }
  destruct e; try done; cbn [site_call] in Hst.
  - destruct Hst as [Hnone ->].
    assert (Hfree : forall t' p' st0, t' <> t -> sts !! t' = Some (p', st0) -> locks st0 = false).
    { intros t' p' st0 _ Ht'. destruct (locks st0) eqn:E; [|done].
      pose proof (b_lock _ _ _ HB _ _ _ Ht' E). congruence. }
    destruct st; try done; (eapply Bounded_neutral; try done; by right).
  - subst s'. assert (Hl : locks st = true) by (by destruct st). specialize (Halone Hl).
    destruct st; try done; (eapply Bounded_neutral; try done; by right).
  - destruct Hal as [-> Hal]. destruct Hst as [-> ->]. assert (Hl : locks st = true) by (by destruct st).
    pose proof (b_lock _ _ _ HB _ _ _ Ht Hl) as Hheld.
    destruct st as [| | | | | |n| | | | | | | |]; try done.
    + eapply Bounded_neutral; try done; [by left|]. intros ->. cbn [capacity_next known].
      pose proof (b_known _ _ _ HB _ _ Ht) as Hkn. cbn [known] in Hkn. split; [done|].
      rewrite (net_update _ _ _ _ _ _ Ht). unfold reserved in *. stage_counts; lia.
    + eapply Bounded_neutral; try done; [by left|]. by intros ->.
  - subst s'. destruct x. by apply Bounded_set.
  - subst s'. destruct x. by apply Bounded_delete.
Qed.

(** Containers going away leave room. *)
Lemma Bounded_loses s ths sts w' :
  Bounded s ths sts -> follows (view (engine s)) (view w') ->
  Bounded (mkSite w' (held s) (slots s) (looks s)) ths sts.
Proof.
  intros [H1 H2 H3 H4 H5 H6 H7] Hf. apply (held_by_follows P) in Hf.
  assert (Hn : net w' sts <= net (engine s) sts) by (unfold net; lia).
  constructor; try done; cbn [engine]; [lia|]. intros t st Ht.
  apply (known_keeps s _ sts); [done|done|]. by apply (H6 t).
Qed.

(** The requests stay what they are. *)
Definition same_requests (sts sts' : stages) : Prop :=
  forall t p st', sts' !! t = Some (p, st') -> st' <> Elsewhere ->
    exists st, sts !! t = Some (p, st) /\ st <> Elsewhere.

Lemma same_requests_insert sts t p st st' :
  sts !! t = Some (p, st) -> (st = Elsewhere -> st' = Elsewhere) ->
  same_requests sts (<[t := (p, st')]> sts).
Proof.
  intros Ht Hst t' p' st0 Ht' Hne. destruct (decide (t = t')) as [<-|].
  - rewrite lookup_insert_eq in Ht'. injection Ht' as <- <-. exists st. naive_solver.
  - rewrite lookup_insert_ne in Ht' by done. eauto.
Qed.

Lemma Bounded_step s ths s' ths' sts :
  Bounded s ths sts -> site_step view step (s, ths) (s', ths') ->
  exists sts', Bounded s' ths' sts' /\ same_requests sts sts'.
Proof.
  intros HB Hst. inversion Hst as [t X e k x s0 s1 ths0 Hth Hc|w' s0 ths0 Hf]; subst.
  - destruct (b_threads _ _ _ HB t _ Hth) as (p & st & Ht & Hal & Hk).
    destruct e as [X e|X e|exec].
    + destruct Hc as (w' & Hs & ->). specialize (Hk x _ eq_refl). eexists.
      split; [by apply Bounded_docker_call with (st := st) (e := e) (x := x)|].
      apply (same_requests_insert _ _ _ _ _ Ht). intros ->. by destruct e.
    + specialize (Hk x _ eq_refl). eexists.
      split; [by apply (Bounded_capacity_call s s' ths sts t p st _ e x)|].
      apply (same_requests_insert _ _ _ _ _ Ht). intros ->. by destruct e; try destruct Hal.
    + cbn in Hc, Hal. subst s'. specialize (Hk x _ eq_refl). exists (<[t := (p, st)]> sts).
      split; [|by apply (same_requests_insert _ _ _ _ _ Ht)]. eapply Bounded_neutral; try done.
      * by apply (b_lock _ _ _ HB _ _ _ Ht).
      * by left.
      * intros ->. rewrite (insert_id _ _ _ Ht). by apply (b_known _ _ _ HB t).
      * by apply (b_looks _ _ _ HB _ _ _ Ht).
  - exists sts. split; [by apply Bounded_loses|]. intros t p st Ht Hne. eauto.
Qed.

Lemma Bounded_reachable c c' sts :
  Bounded (fst c) (snd c) sts -> rtc (site_step view step) c c' ->
  exists sts', Bounded (fst c') (snd c') sts' /\ same_requests sts sts'.
Proof.
  intros HB Hr. revert sts HB. induction Hr as [c|[s1 t1] [s2 t2] c3 Hs _ IH]; intros sts HB.
  - exists sts. split; [done|]. intros t p st Ht Hne. eauto.
  - destruct (Bounded_step _ _ _ _ _ HB Hs) as (sts2 & HB2 & Hsame).
    destruct (IH sts2 HB2) as (sts3 & HB3 & Hsame3). exists sts3. split; [done|].
    intros t p st Ht Hne. destruct (Hsame3 _ _ _ Ht Hne) as (st2 & Ht2 & Hne2). by apply (Hsame t p st2).
Qed.
End invariant.

(** ** The bound *)

Section bound.
Context {RS : MapRange string} {RP : MapRange Profile} {FC : FloatConv}.
Context {W : Type} (view : W -> gmap string Container)
  (step : forall X, dockerE X -> W -> X -> W -> Prop) `{!CountingEngine view step}.
Variables (cfg : Config) (b : Backend).

Abbreviation http := (string * string * string)%type.

(** The requests, each before its first call. *)
Definition arriving (reqs : gmap nat http) : gmap nat (prog systemE Response) := served cfg b <$> reqs.

(** Create requests for [P] whose first look found their sandbox's container. *)
Definition found_already (P : string) (reqs : gmap nat http) (l : gmap nat bool) : Z :=
  Z.of_nat (size (filter (fun tr : nat * http =>
    ReqProfile <$> asks (snd tr) = Some P /\ l !! fst tr = Some true) reqs)).

Lemma Bounded_arriving P reqs w :
  held_by P (view w) <= limit_of cfg P ->
  Bounded view P (limit_of cfg) (mkSite w None ∅ ∅) (arriving reqs)
    ((fun r => (profile_asked r, first_stage r)) <$> reqs).
Proof.
  intros Hw. assert (Hz : forall f, f Fresh = false -> f Elsewhere = false ->
    count P f ((fun r => (profile_asked r, first_stage r)) <$> reqs) = 0).
  { intros f Hf He. apply count_zero. intros t v Ht. rewrite lookup_fmap in Ht.
    destruct (reqs !! t) as [r|]; [|done]. cbn in Ht. injection Ht as <-. cbn.
    unfold first_stage. by destruct (asks r). }
  assert (Hst : forall t p st, ((fun r => (profile_asked r, first_stage r)) <$> reqs) !! t = Some (p, st) ->
    st = Fresh \/ st = Elsewhere).
  { intros t p st Ht. rewrite lookup_fmap in Ht. destruct (reqs !! t) as [r|]; [|done].
    cbn in Ht. injection Ht as <- <-. unfold first_stage. destruct (asks r); auto. }
  constructor; cbn [held slots engine looks].
  - intros t q Hq. unfold arriving in Hq. rewrite lookup_fmap in Hq. destruct (reqs !! t) as [r|] eqn:Er; [|done].
    cbn in Hq. apply (inj Some) in Hq as <-. exists (profile_asked r), (first_stage r).
    rewrite lookup_fmap, Er. split; [done|]. apply served_stages.
  - intros t v Ht. unfold arriving. rewrite lookup_fmap in Ht. rewrite lookup_fmap. by destruct (reqs !! t).
  - intros t p st Ht Hl. by destruct (Hst _ _ _ Ht) as [->| ->].
  - rewrite Hz by done. done.
  - unfold net. rewrite !Hz by done. lia.
  - intros t st Ht. by destruct (Hst _ _ _ Ht) as [->| ->].
  - intros t p st Ht. by destruct (Hst _ _ _ Ht) as [->| ->].
Qed.

Lemma count_size P (f : stage -> bool) (sts : gmap nat (string * stage)) :
  count P f sts = Z.of_nat (size (filter (fun tv : nat * (string * stage) =>
    fst (snd tv) = P /\ f (snd (snd tv)) = true) sts)).
Proof.
  induction sts as [|t [p st] sts Ht IH] using map_ind; [by rewrite map_filter_empty|].
  rewrite count_insert_new, IH by done. unfold one. cbn [fst snd].
  destruct (String.eqb_spec p P) as [Hp|Hp]; cbn [andb]; [destruct (f st) eqn:Ef|].
  - rewrite map_filter_insert_True by done. rewrite map_size_insert_None; [lia|].
    apply map_lookup_filter_None. by left.
  - rewrite map_filter_insert_not'; [lia|cbn; intros []; congruence|congruence].
  - rewrite map_filter_insert_not'; [lia|cbn; intros []; congruence|congruence].
Qed.

Lemma extra_found P reqs s ths sts :
  Bounded view P (limit_of cfg) s ths sts ->
  same_requests ((fun r => (profile_asked r, first_stage r)) <$> reqs) sts ->
  count P extra sts <= found_already P reqs (looks s).
Proof.
  intros HB Hsame. rewrite count_size. unfold found_already. apply inj_le.
  rewrite <- !(size_dom (D := gset nat)). apply subseteq_size. intros t Ht.
  apply elem_of_dom in Ht as [[p st] Ht]. apply map_lookup_filter_Some in Ht as (Ht & Hp & He).
  cbn in Hp, He. subst p. destruct st; try done. pose proof (b_looks _ _ _ _ _ _ HB _ _ _ Ht) as Hl. cbn in Hl.
  destruct (Hsame t P Extra Ht ltac:(done)) as (st & Hr & Hne). rewrite lookup_fmap in Hr.
  destruct (reqs !! t) as [r|] eqn:Er; [|done]. cbn in Hr. injection Hr as Hp Hst. apply elem_of_dom. exists r.
  apply map_lookup_filter_Some. split; [done|]. split; [|done]. cbn. unfold profile_asked, first_stage in *.
  destruct (asks r); cbn; [by f_equal|congruence].
Qed.

(** C4. The cap of a profile on Docker, under any burst.  Whatever HTTP requests
    the daemon serves at once, of every kind and in any number, however their
    calls to Docker and to the capacity table interleave, whichever of them
    fail, and whatever containers exit or are removed meanwhile: a profile that
    was within its cap never holds more containers than its cap plus the number
    of create requests for it that found their sandbox already there when they
    first looked; in particular it stays within the cap if none did.  And once
    every request has finished no reservation is left. *)
Theorem cap_bounds_containers reqs P w s ths :
  0 < limit_of cfg P -> held_by P (view w) <= limit_of cfg P ->
  rtc (site_step view step) (mkSite w None ∅ ∅, arriving reqs) (s, ths) ->
  held_by P (view (engine s)) <= limit_of cfg P + found_already P reqs (looks s) /\
  ((forall t q, ths !! t = Some q -> exists r, q = Ret r) -> default 0 (slots s !! P) = 0).
Proof.
  intros Hcap Hw Hr.
  destruct (Bounded_reachable view step P (limit_of cfg) Hcap (mkSite w None ∅ ∅, arriving reqs) (s, ths) _
    (Bounded_arriving P reqs w Hw) Hr) as (sts & HB & Hsame). cbn [fst snd] in HB. split.
  - pose proof (b_net _ _ _ _ _ _ HB) as Hn. unfold net in Hn. pose proof (count_nonneg P owes sts).
    pose proof (extra_found P reqs s ths sts HB Hsame). lia.
  - intros Hdone. change (reserved P s = 0). rewrite (b_slots _ _ _ _ _ _ HB). apply count_zero.
    intros t [p st] Ht. destruct (b_dom _ _ _ _ _ _ HB _ _ Ht) as [q Hq]. destruct (Hdone _ _ Hq) as [r ->].
    destruct (b_threads _ _ _ _ _ _ HB _ _ Hq) as (p' & st' & Ht' & [_ Hs]).
    rewrite Ht in Ht'. by injection Ht' as <- <-.
Qed.
End bound.

(** ** The reference engine counts *)

Lemma count_listed_summaries p (l : list (string * Container)) :
  count_listed p (map (fun '(_, c) => mkSummary (CtID c) (CfgImage (CtConfig c)) (CtStatus c)
    (CfgLabels (CtConfig c))) l) >=
  Z.of_nat (length (filter (fun nc : string * Container => carries p (CtConfig (snd nc)) = true) l)).
Proof.
  unfold count_listed. assert (Hgo : forall l n, fold_left (fun n s =>
      if String.eqb (label (SumLabels s) (labelUserPfx ++ labelProfile)) p then n + 1 else n)
      (map (fun '(_, c) => mkSummary (CtID c) (CfgImage (CtConfig c)) (CtStatus c)
        (CfgLabels (CtConfig c))) l) n >=
    n + Z.of_nat (length (filter (fun nc : string * Container => carries p (CtConfig (snd nc)) = true) l))).
  { clear l. induction l as [|[n c] l IH]; intros k; [cbn; lia|].
    rewrite filter_cons. cbn [map fold_left SumLabels snd]. specialize (IH (if String.eqb
      (label (CfgLabels (CtConfig c)) (labelUserPfx ++ labelProfile)) p then k + 1 else k)).
    case_decide as Hc; [|destruct (String.eqb _ p); lia].
    unfold carries in Hc. apply andb_prop in Hc as [_ Hc]. rewrite Hc in IH |- *. cbn [length]. lia. }
  specialize (Hgo l 0). lia.
Qed.

#[global] Instance ref_engine_counts :
  CountingEngine (fun m => m) (fun X e m x m' => ref_engine X e m = (x, m')).
Proof.
  split.
  - intros X e w x w' He Hs. by eapply ref_engine_follows.
  - intros cc host name w r w' Hs. cbn in Hs. destruct (w !! name) eqn:E.
    + injection Hs as <- <-. left. apply follows_refl.
    + apply pair_equal_spec in Hs as [_ <-]. right. exists (mkContainer (letters (S (longest w))) cc host "created"). by split_and!.
  - intros w cs w' p Hs. cbn [ref_engine] in Hs. apply pair_equal_spec in Hs as [Hs <-]. apply Ok_inj in Hs as <-.
    unfold held_by. rewrite map_filter_alt, map_size_list_to_map.
    2: { eapply sublist_NoDup; [apply (NoDup_fst_map_to_list w)|]. apply fmap_sublist, sublist_filter. }
    pose proof (count_listed_summaries p (map_to_list w)). lia.
Qed.

(** ** A burst on the reference engine *)

#[local] Instance cap_strings : MapRange string := map_range_default string.
#[local] Instance cap_profiles : MapRange Profile := map_range_default Profile.
#[local] Instance cap_floats : FloatConv := float_conv_default.

Abbreviation ref_site := (site (gmap string Container)).
Abbreviation ref_step := (site_step (fun m => m) (fun X e m x m' => ref_engine X e m = (x, m'))).

(** One call on the reference engine. *)
Definition ref_call (t : nat) (X : Type) (e : systemE X) (s : ref_site) : option (X * ref_site) :=
  match e in systemE X return option (X * ref_site) with
  | Docker e =>
      let '(x, m) := ref_engine _ e (engine s) in
      Some (x, mkSite m (held s) (slots s) (look t (finds e x) (looks s)))
  | Capacity e =>
      match e in daemonE X return option (X * ref_site) with
      | CapLock =>
          match held s with
          | None => Some (tt, mkSite (engine s) (Some t) (slots s) (looks s))
          | Some _ => None
          end
      | CapUnlock => Some (tt, mkSite (engine s) None (slots s) (looks s))
      | CapGet p => Some (default 0 (slots s !! p), s)
      | CapSet p n => Some (tt, mkSite (engine s) (held s) (<[p := n]> (slots s)) (looks s))
      | CapDelete p => Some (tt, mkSite (engine s) (held s) (delete p (slots s)) (looks s))
      | _ => None
      end
  | Drain _ => Some ("", None, s)
  end.

Lemma ref_call_site t X (e : systemE X) s x s' :
  ref_call t X e s = Some (x, s') ->
  site_call (fun X e m x m' => ref_engine X e m = (x, m')) t X e s x s'.
Proof.
  destruct e as [X e|X e|exec]; cbn [ref_call site_call].
  - destruct (ref_engine X e (engine s)) as [y m] eqn:E. intros [= <- <-]. by exists m.
  - destruct e; cbn; try done; try (by intros [= <- <-]); try (by intros [= <-]).
    by destruct (held s); [|intros [= <-]].
  - by intros [= <- <-].
Qed.

(** The given numbers of calls of the given requests, in order. *)
Fixpoint ref_turns (t n : nat) (c : ref_site * gmap nat (prog systemE Response))
    : option (ref_site * gmap nat (prog systemE Response)) :=
  match n with
  | O => Some c
  | S n =>
      match snd c !! t with
      | Some (Vis e k) => ' (x, s') ← ref_call t _ e (fst c); ref_turns t n (s', <[t := k x]> (snd c))
      | _ => None
      end
  end.

Fixpoint ref_schedule (l : list (nat * nat)) (c : ref_site * gmap nat (prog systemE Response))
    : option (ref_site * gmap nat (prog systemE Response)) :=
  match l with
  | [] => Some c
  | (t, n) :: l => c' ← ref_turns t n c; ref_schedule l c'
  end.

Lemma ref_turns_reach t n c c' : ref_turns t n c = Some c' -> rtc ref_step c c'.
Proof.
  revert c; induction n as [|n IH]; intros [s ths]; cbn [ref_turns fst snd]; [by intros [= <-]|].
  destruct (ths !! t) as [[r|X e k]|] eqn:Et; try done.
  destruct (ref_call t X e s) as [[x s']|] eqn:Ec; [|done]. cbn. intros H. eapply rtc_l; [|by apply IH].
  eapply site_calls; [exact Et|by apply ref_call_site].
Qed.

Lemma ref_schedule_reach l c c' : ref_schedule l c = Some c' -> rtc ref_step c c'.
Proof.
  revert c; induction l as [|[t n] l IH]; intros c; cbn [ref_schedule]; [by intros [= <-]|].
  destruct (ref_turns t n c) as [c1|] eqn:E; [|done]. intros H. etrans; [by eapply ref_turns_reach|by apply IH].
Qed.

(** Create [a], stop it, create it again; and create [b]: with a cap of one. *)
Definition cap_burst : gmap nat (string * string * string) :=
  {[ 0%nat := ("POST", "/sandboxes", marshalCreate (cap_request "a"));
     1%nat := ("POST", "/sandboxes/a/stop", "");
     2%nat := ("POST", "/sandboxes", marshalCreate (cap_request "a"));
     3%nat := ("POST", "/sandboxes", marshalCreate (cap_request "b")) ]}.

Definition cap_schedule : list (nat * nat) := [(0, 18); (1, 2); (2, 4); (3, 18); (2, 6)]%nat.

Definition status_of (ths : gmap nat (prog systemE Response)) (t : nat) : Z :=
  match ths !! t with Some (Ret (Respond status _)) => status | _ => 0 end.

(** [a] is created and stopped; then its second create finds it, so takes no
    slot, finds it halted, and is interrupted after removing it, while [b] is
    created in the place this freed. *)
Lemma cap_burst_ends :
  match ref_schedule cap_schedule (mkSite ∅ None ∅ ∅, arriving cap_config (mkBackend None "") cap_burst) with
  | Some (s, ths) => (held_by "p" (engine s) =? 2) && (found_already "p" cap_burst (looks s) =? 1)
      && (status_of ths 2 =? 201) && (status_of ths 3 =? 201)
  | None => false
  end = true.
Proof. vm_compute. reflexivity. Qed.

Lemma cap_burst_reached :
  exists s ths, rtc ref_step (mkSite ∅ None ∅ ∅, arriving cap_config (mkBackend None "") cap_burst) (s, ths) /\
    held_by "p" (engine s) = 2 /\ found_already "p" cap_burst (looks s) = 1 /\
    status_of ths 2 = 201 /\ status_of ths 3 = 201.
Proof.
  pose proof cap_burst_ends as H. destruct (ref_schedule cap_schedule _) as [[s ths]|] eqn:E; [|done].
  exists s, ths. split; [by eapply ref_schedule_reach|]. repeat (apply andb_prop in H as [H ?]). lia.
Qed.

(** The cap of a profile is exceeded by replacing a halted sandbox.  Under an
    accepted configuration that allows one sandbox, from an empty host, and
    with no failure and nothing reclaimed, four requests leave two containers of
    the profile: [Create] of a stopped sandbox removes it before it creates its
    replacement, without holding a slot, because its name was found. *)
Theorem capacity_exceeded_by_replacement :
  Config_validate cap_config = Ok cap_config /\ limit_of cap_config "p" = 1 /\
  exists s ths, rtc ref_step (mkSite ∅ None ∅ ∅, arriving cap_config (mkBackend None "") cap_burst) (s, ths) /\
    held_by "p" (engine s) = 2 /\ status_of ths 2 = 201 /\ status_of ths 3 = 201.
Proof.
  split; [vm_compute; reflexivity|]. split; [reflexivity|].
  destruct cap_burst_reached as (s & ths & Hr & H1 & _ & H3 & H4). exists s, ths. by split_and!.
Qed.

(** Create [a]; create it again, which finds it; delete it; create [b]; then let
    the second create of [a] go on. *)
Definition removal_burst : gmap nat (string * string * string) :=
  {[ 0%nat := ("POST", "/sandboxes", marshalCreate (cap_request "a"));
     1%nat := ("DELETE", "/sandboxes/a", "");
     2%nat := ("POST", "/sandboxes", marshalCreate (cap_request "a"));
     3%nat := ("POST", "/sandboxes", marshalCreate (cap_request "b")) ]}.

Definition removal_schedule : list (nat * nat) := [(0, 18); (2, 1); (1, 1); (3, 18); (2, 7)]%nat.

Lemma removal_burst_ends :
  match ref_schedule removal_schedule (mkSite ∅ None ∅ ∅, arriving cap_config (mkBackend None "") removal_burst) with
  | Some (s, ths) => (held_by "p" (engine s) =? 2) && (status_of ths 1 =? 204)
      && (status_of ths 2 =? 201) && (status_of ths 3 =? 201)
  | None => false
  end = true.
Proof. vm_compute. reflexivity. Qed.

(** The cap is exceeded when a sandbox goes away at the wrong moment: the second
    create of [a] finds it, so takes no slot; [a] is deleted and [b] takes the
    place this freed; then both exist. *)
Theorem capacity_exceeded_by_removal :
  exists s ths, rtc ref_step (mkSite ∅ None ∅ ∅, arriving cap_config (mkBackend None "") removal_burst) (s, ths) /\
    held_by "p" (engine s) = 2 /\ status_of ths 1 = 204 /\ status_of ths 2 = 201 /\ status_of ths 3 = 201.
Proof.
  pose proof removal_burst_ends as H. destruct (ref_schedule removal_schedule _) as [[s ths]|] eqn:E; [|done].
  exists s, ths. split; [by eapply ref_schedule_reach|]. repeat (apply andb_prop in H as [H ?]). lia.
Qed.

(** The bound is met: one request found its sandbox, and one container is beyond
    the cap. *)
Lemma cap_bounds_containers_witness :
  limit_of cap_config "p" = 1 /\
  exists s ths, rtc ref_step (mkSite ∅ None ∅ ∅, arriving cap_config (mkBackend None "") cap_burst) (s, ths) /\
    held_by "p" (engine s) = 2 /\ found_already "p" cap_burst (looks s) = 1 /\
    held_by "p" (engine s) <= limit_of cap_config "p" + found_already "p" cap_burst (looks s).
Proof.
  split; [reflexivity|]. destruct cap_burst_reached as (s & ths & Hr & H1 & H2 & _). exists s, ths.
  split; [exact Hr|]. split; [exact H1|]. split; [exact H2|].
  refine (proj1 (cap_bounds_containers (fun m => m) _ cap_config (mkBackend None "") cap_burst "p" ∅ s ths _ _ Hr)).
  - reflexivity.
  - vm_compute. discriminate.
Defined.
