(* ===== verification/BrokerRemote.v ===== *)
(** * pkg/brokerclient/remote.go: the client over a network

    [NewRemote] and the TLS configuration of its connections, and what holds of
    a connection between it and a daemon's network listener. *)

From S2P Require Import Prelude GoErrors GoStrings GoTime GoNet GoOs GoTls Effects Sandbox GoHttp BrokerApi.
From S2P Require Import DaemonConfig DaemonServer DaemonTls PreviewToken PreviewProxy BrokerClient.

Record TLSFiles : Type := mkTLSFiles {
  TfCertFile : string;
  TfKeyFile : string;
  TfCAFile : string;
  TfServerName : string
}.

Section remote.
Context `{Pki}.

(** [TLSFiles.config] *)
Definition config (f : TLSFiles) : prog osE (result tlsConfig) :=
  if String.eqb (TfCertFile f) "" || String.eqb (TfKeyFile f) "" || String.eqb (TfCAFile f) "" then
    Ret (Err (Errorf "%w: cert, key and CA files are all required to reach openbloxd over a network"
      [AWrap (Sentinel ErrInvalid)]))
  else
    cert <- LoadX509KeyPair (TfCertFile f) (TfKeyFile f);;
    match cert with
    | Err err => Ret (Err (Errorf "load client keypair: %w" [AWrap err]))
    | Ok cert =>
        caPEM <- call (OsReadFile (TfCAFile f));;
        match caPEM with
        | Err err => Ret (Err (Errorf "read CA %q: %w" [AStr (TfCAFile f); AWrap err]))
        | Ok caPEM =>
            match parsePEM caPEM with
            | [] => Ret (Err (Errorf "%w: CA %q contains no certificate"
                [AWrap (Sentinel ErrInvalid); AStr (TfCAFile f)]))
            | pool => Ret (Ok (mkTlsConfig VersionTLS13 [cert] NoClientCert [] pool (TfServerName f)
                None None))
            end
        end
    end.

(** [NewRemote]: the client, and the configuration every dial uses. *)
Definition NewRemote (address : string) (files : TLSFiles) (opts : list (Client -> result Client))
    : prog osE (result (Client * tlsConfig)) :=
  if String.eqb address "" then
    Ret (Err (Errorf "%w: address is empty" [AWrap (Sentinel ErrInvalid)]))
  else
    cfg <-? config files;;
    match newClient address opts with
    | Err err => Ret (Err err)
    | Ok c => Ret (Ok (c, cfg))
    end.

(** The name a client asks the daemon's certificate to be valid for. *)
Definition asked_name (f : TLSFiles) (address : string) : string :=
  if String.eqb (TfServerName f) "" then
    match LastIndexByte address ":"%char with Some i => stake i address | None => address end
  else TfServerName f.

(** The daemon a client is content with at the time [now]: TLS 1.3, a fresh
    session, chains from the daemon's certificate to the client's own CA file,
    verified for a server's use, and that certificate valid for the name asked
    for. *)
Definition trusted (f : TLSFiles) (address : string) (roots : list certificate) (now : time)
    (cs : ConnectionState) : Prop :=
  VersionTLS13 <= Version cs /\ DidResume cs = false /\
  exists leaf peers, PeerCertificates cs = leaf :: peers /\
    VerifiedChains cs <> [] /\
    Forall (fun ch => chain_ok ExtKeyUsageServerAuth now roots leaf ch = true) (VerifiedChains cs) /\
    valid_for leaf (asked_name f address) = true.

Lemma chain_ok_starts usage now roots leaf ch : chain_ok usage now roots leaf ch = true -> starts_with leaf ch = true.
Proof. destruct ch; cbn; [done|]. by intros [[[? _]%andb_prop _]%andb_prop _]%andb_prop. Qed.

Lemma config_accepts f address cert roots now cs :
  client_accepts (mkTlsConfig VersionTLS13 [cert] NoClientCert [] roots (TfServerName f) None None)
    address now cs = true <-> trusted f address roots now cs.
Proof.
  unfold client_accepts, trusted, dialled_name, asked_name. cbn [MinVersion RootCAs ServerName].
  rewrite !andb_true_iff, Z.leb_le, negb_true_iff, verified_spec. split.
  - intros (((Hv & Hr) & leaf & peers & chains & Hp & Hc & Hne & _ & Hok) & Hn). subst chains.
    rewrite Hp in Hn. rewrite Hr in Hok. split_and!; [done|done|]. exists leaf, peers. by split_and!.
  - intros (Hv & Hr & leaf & peers & Hp & Hne & Hok & Hn). rewrite Hp, Hr. split_and!; try done.
    exists leaf, peers, (VerifiedChains cs). split_and!; auto.
    eapply Forall_impl; [exact Hok|]. intros ch. apply chain_ok_starts.
Qed.

Lemma NewRemote_spec address f opts w :
  wp (fun _ _ _ => True) os_step (NewRemote address f opts) (fun r w' => w' = w /\
    match r with
    | Ok (c, tc) => newClient address opts = Ok c /\ address <> "" /\
        (exists chain, loaded w (TfCertFile f) (TfKeyFile f) chain /\ Certificates tc = [chain]) /\
        exists pem, contents w !! TfCAFile f = Some pem /\ parsePEM pem <> [] /\
          forall now cs, client_accepts tc address now cs = true <-> trusted f address (parsePEM pem) now cs
    | Err _ => True
    end) w.
Proof.
  unfold NewRemote, config. destruct (String.eqb_spec address ""); [done|].
  destruct (_ || _); [done|]. apply wp_bind, wp_bind, LoadX509KeyPair_spec; [done| |done].
  intros chain Hld. cbn [bind call wp]. split; [done|].
  intros [pem|e] w1; [|by intros [-> _]]. intros [-> Hpem]. cbn [bind].
  destruct (parsePEM pem) as [|r0 roots] eqn:Er; [done|]. cbn [bind].
  destruct (newClient address opts) as [c|e]; [|done]. cbn [wp]. split; [done|].
  split_and!; [done|done|by exists chain|]. exists pem. split_and!; [done|by rewrite Er|].
  intros now cs. rewrite Er. apply config_accepts.
Qed.

(** One connection between a client with the configuration [tc] and a server
    with the configuration [td], as each end sees it: each was presented the
    other's keypair, and both agree on the version and on whether the session
    was resumed. *)
Definition connection (td tc : tlsConfig) (seen_by_daemon seen_by_client : ConnectionState) : Prop :=
  Certificates tc = [PeerCertificates seen_by_daemon] /\
  Certificates td = [PeerCertificates seen_by_client] /\
  Version seen_by_daemon = Version seen_by_client /\ DidResume seen_by_daemon = DidResume seen_by_client.

(** Every chain the other end was verified by. *)
Definition chains_to (usage : ExtUsage) (now : time) (roots : list certificate) (leaf : certificate)
    (cs : ConnectionState) : Prop :=
  VerifiedChains cs <> [] /\
  Forall (fun ch => chain_ok usage now roots leaf ch = true) (VerifiedChains cs).

(** C18. Mutual authentication between the two programs.  The daemon's listener
    and the remote client each open only with a keypair loaded from their own
    files and a CA file that holds a certificate.  A connection between them is
    completed by both exactly when it is TLS 1.3 and not resumed (the client
    keeps no sessions), the certificate at the front of the client's keypair
    chains to the daemon's CA file, for a client's use, with its name on the
    daemon's list, and the one at the front of the daemon's keypair chains to the
    client's CA file, for a server's use, and is valid for the name the client
    dialled. *)
Theorem mutual_authentication cfg address f opts wd wc :
  wp (fun _ _ _ => True) os_step (ListenTLS cfg) (fun rd _ =>
    wp (fun _ _ _ => True) os_step (NewRemote address f opts) (fun rc _ =>
      match rd, rc with
      | Ok (_, td), Ok (c, tc) => newClient address opts = Ok c /\
          exists pemd pemc server client,
            contents wd !! ClientCAFile (TLS cfg) = Some pemd /\ contents wc !! TfCAFile f = Some pemc /\
            parsePEM pemd <> [] /\ parsePEM pemc <> [] /\
            loaded wd (CertFile (TLS cfg)) (KeyFile (TLS cfg)) server /\
            loaded wc (TfCertFile f) (TfKeyFile f) client /\
            forall now sd sc, connection td tc sd sc ->
              (server_accepts td now sd = true /\ client_accepts tc address now sc = true) <->
              (VersionTLS13 <= Version sd /\ DidResume sd = false /\
               exists cl cls sl sls, client = cl :: cls /\ server = sl :: sls /\
                 CommonName cl ∈ AllowedClientCNs (TLS cfg) /\
                 chains_to ExtKeyUsageClientAuth now (parsePEM pemd) cl sd /\
                 valid_for sl (asked_name f address) = true /\
                 chains_to ExtKeyUsageServerAuth now (parsePEM pemc) sl sc)
      | _, _ => True
      end) wc) wd.
Proof.
  eapply wp_mono; [|by apply ListenTLS_spec]. intros rd wd' [_ Hd].
  eapply wp_mono; [|apply NewRemote_spec]. intros rc wc' [_ Hc].
  destruct rd as [[ln td]|]; [|done]. destruct rc as [[c tc]|]; [|done].
  destruct Hd as (_ & (server & Hld & Hsd) & pemd & Hpd & Hnd & Hacc).
  destruct Hc as (Hn & _ & (client & Hlc & Hsc) & pemc & Hpc & Hnc & Hacc').
  split; [done|]. exists pemd, pemc, server, client. split_and!; try done.
  intros now sd sc (H1 & H2 & H3 & H4). rewrite Hsc in H1. rewrite Hsd in H2. injection H1 as ->. injection H2 as ->.
  rewrite Hacc, Hacc'. unfold admitted, trusted, chains_to. rewrite H4, H3. split.
  - intros [(_ & cl & cls & Hcl & Hcn & Hne & _ & Hok) (Hv & Hr & sl & sls & Hsl & Hne' & Hok' & Hval)].
    rewrite Hr in Hok. split_and!; [done..|]. by exists cl, cls, sl, sls.
  - intros (Hv & Hr & cl & cls & sl & sls & Hcl & Hsl & Hcn & [Hne Hok] & Hval & [Hne' Hok']). split.
    + split; [done|]. exists cl, cls. rewrite Hr. split_and!; try done.
      eapply Forall_impl; [exact Hok|]. intros ch. apply chain_ok_starts.
    + split; [done|]. split; [done|]. by exists sl, sls.
Qed.
End remote.

#[local] Existing Instance demo_pki.

(** A client of the demo daemon, which dials it by name. *)
Definition demo_files : TLSFiles := mkTLSFiles "agent.crt" "agent.key" "ca.crt" "".

Definition demo_client_world : world :=
  mkWorld ∅ 18 0 ∅ {[ "agent.crt" := "agent"; "agent.key" := "key"; "ca.crt" := "ca" ]} [].

Lemma mutual_authentication_witness :
  exists ln td c tc,
    run os_run (ListenTLS demo_listen) demo_world = (Ok (ln, td), demo_world) /\
    run os_run (NewRemote "openbloxd:8443" demo_files []) demo_client_world
      = (Ok (c, tc), demo_client_world) /\
    connection td tc (demo_conn "agent" false) (demo_conn "openbloxd" false) /\
    CommonName (demo_cert "agent") ∈ AllowedClientCNs (TLS demo_listen) /\
    server_accepts td 1 (demo_conn "agent" false) = true /\
    client_accepts tc "openbloxd:8443" 1 (demo_conn "openbloxd" false) = true.
Proof.
  destruct (run os_run (ListenTLS demo_listen) demo_world) as [[[ln td]|e] w] eqn:E;
    [|vm_compute in E; discriminate].
  destruct (run os_run (NewRemote "openbloxd:8443" demo_files []) demo_client_world)
    as [[[c tc]|e] w'] eqn:E'; [|vm_compute in E'; discriminate].
  exists ln, td, c, tc.
  pose proof (wp_run_refines _ _ _ os_run_step _ _ _
    (mutual_authentication demo_listen "openbloxd:8443" demo_files [] demo_world demo_client_world)) as Hd.
  rewrite E in Hd. pose proof (wp_run_refines _ _ _ os_run_step _ _ _ Hd) as Hc. rewrite E' in Hc.
  destruct Hc as (_ & pemd & pemc & server & client & Hpd & Hpc & _ & _ & Hls & Hlc & Hiff).
  vm_compute in E, E'. injection E as E1 E2 E3. injection E' as E1' E2' E3'. subst.
  injection Hpd as <-. injection Hpc as <-.
  destruct Hls as (cs & ks & [= <-] & [= <-] & [= <-]), Hlc as (cc & kc & [= <-] & [= <-] & [= <-]).
  split; [vm_compute; reflexivity|]. split; [vm_compute; reflexivity|].
  match goal with |- ?con /\ _ => assert (Hcon : con) by (split_and!; reflexivity) end.
  split; [exact Hcon|]. split; [left|].
  apply (Hiff 1 _ _ Hcon). split; [done|]. split; [done|].
  exists (demo_cert "agent"), [], (demo_cert "openbloxd"), []. split_and!; try reflexivity; [by left|..].
  - split; [done|]. repeat constructor.
  - split; [done|]. repeat constructor.
Defined.
