(* ===== verification/TestPki.v ===== *)
(** * internal/testpki: a throwaway certificate authority

    The package the TLS tests draw their certificates from (testpki.go), as
    programs over key generation, certificate creation and the file system.
    The cryptography is a parameter; what the code relies on of crypto/x509,
    crypto/tls and encoding/pem is the class [Authority].  What verification
    asks of the fields of a certificate is [GoTls.chain_ok]. *)

From S2P Require Import Prelude GoErrors GoStrings GoDuration GoTime GoNet GoPath GoOs GoTls Effects.
From S2P Require Import Sandbox GoHttp BrokerApi DaemonConfig DaemonServer DaemonTls.
From S2P Require Import PreviewToken PreviewProxy BrokerClient BrokerRemote.

(** ** Certificates *)

(** A template as the certificate with the bytes [der]. *)
Definition with_raw (der : string) (t : certificate) : certificate :=
  mkCertificate der (SerialNumber t) (CommonName t) (NotBefore t) (NotAfter t) (IsCA t) (KeyUsage t)
    (BasicConstraintsValid t) (ExtKeyUsage t) (DNSNames t) (IPAddresses t).

(** [created der t parent pub priv]: [der] is a certificate with the fields [t]
    for the public key of [pub], signed in [parent]'s name with [priv];
    [marshalled k d]: [d] is the encoding of the private key [k].  A certificate
    signed with its parent's key passes the signature check, is read back from
    its PEM block as it was created, pairs with the block of its own key, and is
    valid for the host names it lists. *)
Class Authority `{Pki} : Type := {
  key : Type;
  EncodeToMemory : string -> string -> string;
  parseDER : string -> certificate;
  created : string -> certificate -> certificate -> key -> key -> Prop;
  marshalled : key -> string -> Prop;
  created_parse : forall der t parent pub priv,
    created der t parent pub priv -> parseDER der = with_raw der t;
  created_signed : forall caDER ct cp ck cs der t pub,
    created caDER ct cp ck cs -> created der t (with_raw caDER ct) pub ck ->
    signed_by (with_raw der t) (with_raw caDER ct) = true;
  created_pem : forall der t parent pub priv,
    created der t parent pub priv ->
    parsePEM (EncodeToMemory "CERTIFICATE" der) = [with_raw der t];
  created_pair : forall der t parent pub priv d,
    created der t parent pub priv -> marshalled pub d ->
    X509KeyPair (EncodeToMemory "CERTIFICATE" der) (EncodeToMemory "EC PRIVATE KEY" d)
    = Ok [with_raw der t];
  created_valid : forall der t parent pub priv name,
    created der t parent pub priv -> name ∈ DNSNames t -> valid_for (with_raw der t) name = true
}.

(** ** The program *)

Section testpki.
Context `{Authority}.

Inductive pkiE : Type -> Type :=
  | GenerateKey : pkiE (result key)
  | PkiNow : pkiE time
  | CreateCertificate (t parent : certificate) (pub priv : key) : pkiE (result string)
  | ParseCertificate (der : string) : pkiE (result certificate)
  | MarshalECPrivateKey (k : key) : pkiE (result string)
  | PkiWriteFile (path content : string) (perm : Z) : pkiE (result unit)
  | PkiLoadKeyPair (certFile keyFile : string) : pkiE (result (list certificate)).

Record PKI : Type := mkPKI {
  PkiDir : string;
  PkiCAFile : string;
  PkiCertFile : string;
  PkiKeyFile : string;
  caCert : certificate;
  caKey : key
}.

Definition writePEM (path blockType der : string) : prog pkiE (result unit) :=
  r <- call (PkiWriteFile path (EncodeToMemory blockType der) 384);;
  match r with
  | Err err => Ret (Err (Errorf "write %s: %w" [AStr path; AWrap err]))
  | Ok _ => Ret (Ok tt)
  end.

Definition issueCA : prog pkiE (result (certificate * key)) :=
  k <-? call GenerateKey;;
  before <- call PkiNow;;
  after <- call PkiNow;;
  let tmpl := mkCertificate "" 1 "testpki-ca" (before - Hour) (after + Hour) true
    (Z.lor KeyUsageCertSign KeyUsageDigitalSignature) true [] [] [] in
  der <-? call (CreateCertificate tmpl tmpl k k);;
  cert <-? call (ParseCertificate der);;
  Ret (Ok (cert, k)).

Definition issue (p : PKI) (cn : string) (server : bool) : prog pkiE (result (string * key)) :=
  k <-? call GenerateKey;;
  serial <- call PkiNow;;
  before <- call PkiNow;;
  after <- call PkiNow;;
  let tmpl := mkCertificate "" (UnixNano serial) cn (before - Hour) (after + Hour) false
    KeyUsageDigitalSignature false
    (if server then [ExtKeyUsageServerAuth] else [ExtKeyUsageClientAuth])
    (if server then ["openbloxd"; "localhost"] else [])
    (if server then ["127.0.0.1"] else []) in
  der <-? call (CreateCertificate tmpl (caCert p) k (caKey p));;
  Ret (Ok (der, k)).

Definition PkiNew (dir : string) : prog pkiE (result PKI) :=
  ca <-? issueCA;;
  let p := mkPKI dir (Join2 dir "ca.crt") (Join2 dir "server.crt") (Join2 dir "server.key")
    (fst ca) (snd ca) in
  _ <-? writePEM (PkiCAFile p) "CERTIFICATE" (Raw (caCert p));;
  dk <-? issue p "openbloxd" true;;
  _ <-? writePEM (PkiCertFile p) "CERTIFICATE" (fst dk);;
  keyDER <-? call (MarshalECPrivateKey (snd dk));;
  _ <-? writePEM (PkiKeyFile p) "EC PRIVATE KEY" keyDER;;
  Ret (Ok p).

Definition Pool (p : PKI) : list certificate := [caCert p].

Definition ClientTLS (p : PKI) (cn : string) : prog pkiE (result tlsConfig) :=
  dk <-? issue p cn false;;
  Ret (Ok (mkTlsConfig VersionTLS13 [[parseDER (fst dk)]] NoClientCert [] (Pool p) "openbloxd" None None)).

Definition WriteClient (p : PKI) (cn : string) : prog pkiE (result (string * string)) :=
  dk <-? issue p cn false;;
  let certFile := Join2 (PkiDir p) (cn ++ ".crt") in
  let keyFile := Join2 (PkiDir p) (cn ++ ".key") in
  _ <-? writePEM certFile "CERTIFICATE" (fst dk);;
  keyDER <-? call (MarshalECPrivateKey (snd dk));;
  _ <-? writePEM keyFile "EC PRIVATE KEY" keyDER;;
  Ret (Ok (certFile, keyFile)).

Definition ServerTLS (p : PKI) : prog pkiE (result tlsConfig) :=
  cert <-? call (PkiLoadKeyPair (PkiCertFile p) (PkiKeyFile p));;
  Ret (Ok (mkTlsConfig VersionTLS13 [cert] RequireAndVerifyClientCert (Pool p) [] "" None None)).

(** ** What the calls do *)

(** The clock reads between [t0] and [t1] while the certificates are made. *)
Variables (t0 t1 : time).

(** Only the file written changes, whether or not the write succeeds; a file
    that is there keeps its mode, a new one is subject to the mask. *)
Definition same_but (path : string) (w w' : world) : Prop :=
  (forall p, p <> path -> contents w' !! p = contents w !! p /\ files w' !! p = files w !! p) /\
  umask w' = umask w.

Definition pki_step (X : Type) (e : pkiE X) (w : world) : X -> world -> Prop :=
  match e in pkiE X return X -> world -> Prop with
  | GenerateKey => fun _ w' => w' = w
  | PkiNow => fun now w' => w' = w /\ t0 <= now <= t1
  | CreateCertificate t parent pub priv => fun r w' => w' = w /\
      match r with Ok der => created der t parent pub priv | Err _ => True end
  | ParseCertificate der => fun r w' => w' = w /\
      match r with Ok c => c = parseDER der | Err _ => True end
  | MarshalECPrivateKey k => fun r w' => w' = w /\
      match r with Ok d => marshalled k d | Err _ => True end
  | PkiWriteFile path content perm => fun r w' => same_but path w w' /\
      match r with
      | Ok _ => contents w' !! path = Some content /\
          (files w !! path = None ->
           exists gid, files w' !! path = Some (mkNode Regular (andnot perm (umask w)) gid))
      | Err _ => True
      end
  | PkiLoadKeyPair cert key => fun r w' => w' = w /\
      match r with Ok chain => loaded w cert key chain | Err _ => True end
  end.

Abbreviation may p := (wp (fun _ _ _ => True) pki_step p).

(** A private file: nobody but its owner can read it. *)
Definition private_if_new (path : string) (w w' : world) : Prop :=
  files w !! path = None ->
  exists nd, files w' !! path = Some nd /\ nd_type nd = Regular /\ Z.land (nd_perm nd) 63 = 0.

Lemma writePEM_spec path blockType der w :
  may (writePEM path blockType der) (fun r w' => same_but path w w' /\
    match r with
    | Ok _ => contents w' !! path = Some (EncodeToMemory blockType der) /\ private_if_new path w w'
    | Err _ => True
    end) w.
Proof.
  unfold writePEM. cbn [bind call wp]. split; [done|]. intros [[]|e] w' [Hs Hr]; cbn [wp]; [|done].
  destruct Hr as [Hc Hf]. split_and!; [done|done|]. intros Hn. destruct (Hf Hn) as [gid Hg].
  eexists. split_and!; [exact Hg|done|]. cbn [nd_perm]. unfold andnot.
  rewrite <- Z.land_assoc, (Z.land_comm (Z.lnot _)), Z.land_assoc. change (Z.land 384 63) with 0. done.
Qed.

(** A certificate good from an hour before the last reading of the clock to an
    hour after the first. *)
Definition good_hours (c : certificate) : Prop := NotBefore c <= t1 - Hour /\ t0 + Hour <= NotAfter c.

Lemma good_hours_in_time c now : good_hours c -> t1 - Hour <= now <= t0 + Hour -> in_time now c = true.
Proof. intros [? ?] ?. unfold in_time. apply andb_true_intro. split; apply Z.leb_le; lia. Qed.

(** The authority of a [PKI]: it may sign, is not bound to a use, and holds its
    own key. *)
Definition authority (c : certificate) (k : key) : Prop :=
  may_sign c = true /\ ExtKeyUsage c = [] /\ good_hours c /\
  exists der t parent priv, c = with_raw der t /\ created der t parent k priv.

Lemma issueCA_spec w :
  may issueCA (fun r w' => w' = w /\
    match r with Ok (c, k) => authority c k | Err _ => True end) w.
Proof.
  unfold issueCA. cbn [bind call wp]. split; [done|]. intros [k|e] w1 ->; [|done].
  cbn [bind call wp]. split; [done|]. intros before w1 [-> Hb]. split; [done|]. intros after w1 [-> Ha].
  split; [done|]. intros [der|e] w1 [-> Hc]; [|done]. cbn [bind call wp]. split; [done|].
  intros [c|e] w1 [-> Hp]; [|done]. cbn [wp]. split; [done|]. subst c. rewrite (created_parse _ _ _ _ _ Hc).
  split_and!; [reflexivity|reflexivity|split; cbn; lia|]. by eexists _, _, _, _.
Qed.

(** An issued certificate: signed by the authority for the key [k], in the given
    name, for the use of a server with the daemon's host names or of a client. *)
Definition issued (p : PKI) (cn : string) (server : bool) (k : key) (c : certificate) : Prop :=
  CommonName c = cn /\ DNSNames c = (if server then ["openbloxd"; "localhost"] else []) /\
  ExtKeyUsage c = [if server then ExtKeyUsageServerAuth else ExtKeyUsageClientAuth] /\ good_hours c /\
  exists t, c = with_raw (Raw c) t /\ created (Raw c) t (caCert p) k (caKey p).

Lemma issue_spec p cn server w :
  may (issue p cn server) (fun r w' => w' = w /\
    match r with
    | Ok (der, k) => issued p cn server k (parseDER der) /\ Raw (parseDER der) = der
    | Err _ => True
    end) w.
Proof.
  unfold issue. cbn [bind call wp]. split; [done|]. intros [k|e] w1 ->; [|done].
  cbn [bind call wp]. split; [done|]. intros serial w1 [-> _]. split; [done|]. intros before w1 [-> Hb].
  split; [done|]. intros after w1 [-> Ha]. split; [done|]. intros [der|e] w1 [-> Hc]; [|done].
  cbn [wp]. split; [done|]. rewrite (created_parse _ _ _ _ _ Hc). split; [|done].
  split_and!; [done|by destruct server|by destruct server|split; cbn; lia|]. by eexists.
Qed.

(** The keypair [issue], [writePEM], [MarshalECPrivateKey], [writePEM] leave
    behind: the certificate and its own key. *)
Definition keypair (p : PKI) (cn : string) (server : bool) (certFile keyFile : string) (w : world)
    : Prop :=
  exists c k d, issued p cn server k c /\ marshalled k d /\
    contents w !! certFile = Some (EncodeToMemory "CERTIFICATE" (Raw c)) /\
    contents w !! keyFile = Some (EncodeToMemory "EC PRIVATE KEY" d).

Definition frame (certFile keyFile : string) (w w' : world) : Prop :=
  forall f, f <> certFile -> f <> keyFile ->
    contents w' !! f = contents w !! f /\ files w' !! f = files w !! f.

Lemma write_keypair {A} (K : prog pkiE (result A)) Q p cn server dk certFile keyFile w :
  certFile <> keyFile -> issued p cn server (snd dk) (parseDER (fst dk)) -> Raw (parseDER (fst dk)) = fst dk ->
  (forall e w', frame certFile keyFile w w' -> Q (Err e) w') ->
  (forall w', frame certFile keyFile w w' -> keypair p cn server certFile keyFile w' ->
     private_if_new certFile w w' -> private_if_new keyFile w w' -> may K Q w') ->
  may (_ <-? writePEM certFile "CERTIFICATE" (fst dk);;
       keyDER <-? call (MarshalECPrivateKey (snd dk));;
       _ <-? writePEM keyFile "EC PRIVATE KEY" keyDER;;
       K) Q w.
Proof.
  intros Hne Hi Hraw Herr HK. apply wp_bind. eapply wp_mono; [|apply writePEM_spec].
  intros [[]|e] w1 [[Hs _] Hc]; cbn [wp]; [|apply Herr; intros f H1 _; by apply Hs].
  destruct Hc as [Hc Hp]. cbn [bind call wp]. split; [done|].
  intros [kd|e] w2 [-> Hm]; cbn [wp]; [|apply Herr; intros f H1 _; by apply Hs].
  apply wp_bind. eapply wp_mono; [|apply writePEM_spec]. intros r w3 [[Hs2 _] Hr].
  assert (Hf : frame certFile keyFile w w3).
  { intros f H1 H2. destruct (Hs f H1), (Hs2 f H2). split; congruence. }
  destruct r as [[]|e]; [|by apply Herr]. destruct Hr as [Hk Hpk].
  destruct (Hs2 certFile Hne) as [Hcc Hcf]. apply HK; [done|..].
  - exists (parseDER (fst dk)), (snd dk), kd. rewrite Hraw. split_and!; [done|done|by rewrite Hcc|done].
  - intros Hn. destruct (Hp Hn) as (nd & ? & ?). exists nd. by rewrite Hcf.
  - intros Hn. apply Hpk. destruct (Hs keyFile ltac:(congruence)) as [_ ->]. done.
Qed.

(** A directory whose files have the paths one expects. *)
Definition plain_dir (segs : list string) : Prop := segs <> [] /\ forallb plain_segment segs = true.

Lemma Join2_plain segs f :
  plain_dir segs -> plain_segment f = true -> Join2 (path_of segs) f = path_of (segs ++ [f])%list.
Proof.
  intros [Hne Hs] Hf. pose proof (proj1 (plain_segment_spec f) Hf) as (Hf0 & _).
  unfold Join2. change (String.eqb (path_of segs) "") with false. apply String.eqb_neq in Hf0 as ->. cbv iota.
  assert (path_of segs ++ "/" ++ f = path_of (segs ++ [f])%list) as ->.
  { unfold path_of. rewrite sapp_assoc. f_equal. clear Hs. induction segs as [|x segs IH]; [done|].
    destruct segs as [|y segs]; [done|]. cbn [String.concat app] in *. rewrite !sapp_assoc. do 2 f_equal.
    apply IH. done. }
  assert (Hne' : (segs ++ [f])%list <> []) by (by destruct segs).
  assert (Hs' : forallb plain_segment (segs ++ [f])%list = true).
  { rewrite forallb_app, Hs. cbn. by rewrite Hf. }
  unfold Clean. change (String.eqb (path_of (segs ++ [f])%list) "") with false. cbv iota.
  assert (HasPrefix (path_of (segs ++ [f])%list) "/" = true) as -> by apply HasPrefix_app.
  rewrite Split_path_of by done. cbv iota zeta.
  change (clean_segs true ("" :: (segs ++ [f])%list) []) with (clean_segs true (segs ++ [f])%list []).
  rewrite clean_segs_plain, app_nil_r, rev_involutive by done. by destruct (segs ++ [f])%list.
Qed.

Lemma path_of_inj segs f g : path_of (segs ++ [f])%list = path_of (segs ++ [g])%list -> f = g.
Proof.
  unfold path_of. intros Hp%sapp_inj_l. induction segs as [|x segs IH]; [done|].
  apply IH. destruct segs as [|y segs]; cbn [String.concat app] in *; by apply sapp_inj_l, sapp_inj_l in Hp.
Qed.

(** What [New] leaves: the authority's certificate, and a keypair for the
    daemon's name signed by it. *)
Definition pki_in (segs : list string) (p : PKI) (w : world) : Prop :=
  let at_ f := path_of (segs ++ [f])%list in
  PkiDir p = path_of segs /\ PkiCAFile p = at_ "ca.crt" /\ PkiCertFile p = at_ "server.crt" /\
  PkiKeyFile p = at_ "server.key" /\ authority (caCert p) (caKey p) /\
  contents w !! PkiCAFile p = Some (EncodeToMemory "CERTIFICATE" (Raw (caCert p))) /\
  keypair p "openbloxd" true (PkiCertFile p) (PkiKeyFile p) w.

Lemma PkiNew_spec segs w :
  plain_dir segs ->
  may (PkiNew (path_of segs)) (fun r w' =>
    match r with
    | Ok p => pki_in segs p w' /\
        forall f, f ∈ [PkiCAFile p; PkiCertFile p; PkiKeyFile p] -> private_if_new f w w'
    | Err _ => True
    end) w.
Proof.
  intros Hd. unfold PkiNew. apply wp_bind. eapply wp_mono; [|apply issueCA_spec].
  intros [[c k]|e] w1 [-> Hca]; [|done]. cbn [fst snd]. rewrite !(Join2_plain segs) by done.
  set (p := mkPKI _ _ _ _ _ _). apply wp_bind. eapply wp_mono; [|apply writePEM_spec].
  intros [[]|e] w1 [[Hs _] Hc]; [|done]. destruct Hc as [Hc Hpc].
  apply wp_bind. eapply wp_mono; [|apply issue_spec]. intros [[der kk]|e] w2 [-> Hi]; [|done]. destruct Hi as [Hi Hraw].
  assert (Hne : forall f g, f <> g -> path_of (segs ++ [f])%list <> path_of (segs ++ [g])%list).
  { intros f g Hfg Hp. by apply path_of_inj in Hp. }
  eapply write_keypair; [by apply Hne|exact Hi|exact Hraw|done|].
  intros w3 Hf Hk Hp1 Hp2. cbn [wp]. split.
  { split_and!; try done. rewrite <- Hc. apply Hf; by apply Hne. }
  intros f Hin. rewrite !elem_of_cons in Hin. destruct Hin as [->|[->|[->|Hin]]].
  - intros Hn. destruct (Hpc Hn) as (nd & Hnd & ?). exists nd. split; [|done]. rewrite <- Hnd.
    apply Hf; by apply Hne.
  - intros Hn. apply Hp1. rewrite <- Hn. apply Hs. by apply Hne.
  - intros Hn. apply Hp2. rewrite <- Hn. apply Hs. by apply Hne.
  - by apply not_elem_of_nil in Hin.
Qed.

(** A client's name that makes a file name of its own. *)
Definition client_name (cn : string) : Prop :=
  has_byte "/"%char cn = false /\ cn <> "ca" /\ cn <> "server".

Lemma plain_suffixed cn ext :
  has_byte "/"%char cn = false -> ext ∈ [".crt"; ".key"] -> plain_segment (cn ++ ext) = true.
Proof.
  intros Hb Hext. apply plain_segment_spec. rewrite !elem_of_cons in Hext.
  assert (Hl : (4 <= String.length (cn ++ ext))%nat).
  { rewrite slength_app. destruct Hext as [->|[->|Hext]]; [cbn; lia..|]. by apply not_elem_of_nil in Hext. }
  split_and!; try (intros He; rewrite He in Hl; cbn in Hl; lia).
  rewrite has_byte_app, Hb. destruct Hext as [->|[->|Hext]]; [done..|]. by apply not_elem_of_nil in Hext.
Qed.

Lemma sapp_inj_r (a c d : string) : a ++ d = c ++ d -> a = c.
Proof.
  intros He. assert (Hl : String.length a = String.length c).
  { apply (f_equal String.length) in He. rewrite !slength_app in He. lia. }
  by apply sapp_inj_length in He as [? _].
Qed.

Lemma last_byte_ne (a c : string) : a ++ ".crt" = c ++ ".key" -> False.
Proof.
  intros He. assert (Hl : String.length a = String.length c).
  { apply (f_equal String.length) in He. rewrite !slength_app in He. cbn in He. lia. }
  by apply sapp_inj_length in He as [_ ?].
Qed.

Lemma WriteClient_spec segs p cn w :
  plain_dir segs -> client_name cn -> pki_in segs p w ->
  may (WriteClient p cn) (fun r w' =>
    match r with
    | Ok (certFile, keyFile) => pki_in segs p w' /\ keypair p cn false certFile keyFile w' /\
        private_if_new certFile w w' /\ private_if_new keyFile w w'
    | Err _ => True
    end) w.
Proof.
  intros Hd (Hb & Hca & Hsv) (Hdir & Hfa & Hfc & Hfk & Hauth & Hcca & sc & sk & sd & Hsi & Hsm & Hsc & Hsk).
  unfold WriteClient. apply wp_bind. eapply wp_mono; [|apply issue_spec].
  intros [[der k]|e] w1 [-> Hi]; [|done]. destruct Hi as [Hi Hraw]. cbn zeta. rewrite Hdir.
  rewrite !(Join2_plain segs) by (done || apply plain_suffixed; set_solver).
  assert (Hne : forall f g, f <> g -> path_of (segs ++ [f])%list <> path_of (segs ++ [g])%list).
  { intros f g Hfg Hp. by apply path_of_inj in Hp. }
  assert (Hkeep : forall f, f ∈ ["ca.crt"; "server.crt"; "server.key"] ->
    path_of (segs ++ [f])%list <> path_of (segs ++ [(cn ++ ".crt")%string])%list /\
    path_of (segs ++ [f])%list <> path_of (segs ++ [(cn ++ ".key")%string])%list).
  { intros f Hin. rewrite !elem_of_cons in Hin. destruct Hin as [->|[->|[->|Hin]]].
    - split; apply Hne; [intros He%(sapp_inj_r "ca"); congruence|]. by intros He%(last_byte_ne "ca").
    - split; apply Hne; [intros He%(sapp_inj_r "server"); congruence|]. by intros He%(last_byte_ne "server").
    - split; apply Hne; [|intros He%(sapp_inj_r "server"); congruence]. intros He. symmetry in He.
      by apply (last_byte_ne cn "server") in He.
    - by apply not_elem_of_nil in Hin. }
  eapply (write_keypair _ _ p cn false (der, k)); [|exact Hi|exact Hraw|done|].
  { apply Hne. intros He. by apply last_byte_ne in He. }
  intros w2 Hf Hk Hp1 Hp2. cbn [wp]. split_and!; try done.
  assert (Hc : forall f, f ∈ ["ca.crt"; "server.crt"; "server.key"] ->
    contents w2 !! path_of (segs ++ [f])%list = contents w !! path_of (segs ++ [f])%list).
  { intros f Hin. destruct (Hkeep f Hin). by apply Hf. }
  unfold pki_in. rewrite Hfa, Hfc, Hfk in *. rewrite !Hc by set_solver. split_and!; try done.
  exists sc, sk, sd. rewrite !Hc by set_solver. done.
Qed.

(** ** The certificates work *)

(** The connection a peer sees whose other end presented [leaf], issued by the
    authority [ca]. *)
Definition conn_of (leaf ca : certificate) : ConnectionState :=
  mkConnectionState VersionTLS13 false [leaf] [[leaf; ca]].

(** A use the other end makes of an issued certificate. *)
Definition use_of (server : bool) : ExtUsage := if server then ExtKeyUsageServerAuth else ExtKeyUsageClientAuth.

Lemma issued_chain p cn server k c now :
  authority (caCert p) (caKey p) -> issued p cn server k c -> t1 - Hour <= now <= t0 + Hour ->
  chain_ok (use_of server) now [caCert p] c [c; caCert p] = true.
Proof.
  intros (Hs & Hu & Hg & cder & ct & parent & priv & Hca & Hcc) (_ & _ & Hcu & Hcg & t & Hct & Hi) Hnow.
  assert (Hsig : signed_by c (caCert p) = true).
  { rewrite Hca in *. rewrite Hct. by apply (created_signed _ _ _ _ _ _ _ _ Hcc Hi). }
  assert (Hcl : allows (use_of server) c = true).
  { unfold allows. rewrite Hcu. apply orb_true_iff. right. apply bool_decide_eq_true. by left. }
  assert (Hal : allows (use_of server) (caCert p) = true) by (unfold allows; by rewrite Hu).
  cbn [chain_ok links forallb]. rewrite Hs, Hsig, Hcl, Hal, !good_hours_in_time by done.
  by rewrite !bool_decide_true by (done || by left).
Qed.

Lemma keypair_leaf p cn server certFile keyFile w :
  keypair p cn server certFile keyFile w ->
  exists c k, issued p cn server k c /\ (parsePEM <$> contents w !! certFile) = Some [c] /\
    (forall chain, loaded w certFile keyFile chain -> chain = [c]) /\
    (forall name, name ∈ DNSNames c -> valid_for c name = true).
Proof.
  intros (c & k & d & Hi & Hm & Hc & Hk). pose proof Hi as (_ & _ & _ & _ & t & Hct & Hcr).
  exists c, k. split; [done|]. split; [rewrite Hc; cbn; by rewrite (created_pem _ _ _ _ _ Hcr), <- Hct|]. split.
  - intros chain (cp & kp & Hcp & Hkp & Hx). rewrite Hc in Hcp. rewrite Hk in Hkp.
    injection Hcp as <-. injection Hkp as <-. rewrite (created_pair _ _ _ _ _ _ Hcr Hm), <- Hct in Hx.
    by injection Hx as <-.
  - intros name Hin. rewrite Hct in Hin |- *. by apply (created_valid _ _ _ _ _ _ Hcr).
Qed.

Lemma authority_pem c k : authority c k -> parsePEM (EncodeToMemory "CERTIFICATE" (Raw c)) = [c].
Proof. intros (_ & _ & _ & der & t & parent & priv & -> & Hc). exact (created_pem _ _ _ _ _ Hc). Qed.

(** The daemon's listener with a test authority's files, and a client with a
    keypair of the same. *)
Definition listen_with (p : PKI) (addr : string) (cns : list string) : ListenConfig :=
  mkListenConfig addr (mkTLSConfig (PkiCertFile p) (PkiKeyFile p) (PkiCAFile p) cns).
Definition files_with (p : PKI) (kp : string * string) (name : string) : TLSFiles :=
  mkTLSFiles (fst kp) (snd kp) (PkiCAFile p) name.

(** What the daemon makes of an issued client certificate, and a client of an
    issued server certificate. *)
Lemma issued_admitted p cn k c now cfg :
  authority (caCert p) (caKey p) -> issued p cn false k c -> t1 - Hour <= now <= t0 + Hour ->
  admitted cfg [caCert p] now (conn_of c (caCert p)) <-> cn ∈ AllowedClientCNs (TLS cfg).
Proof.
  intros Ha Hi Hnow. pose proof (issued_chain _ _ _ _ _ _ Ha Hi Hnow) as Hch. pose proof (proj1 Hi) as <-.
  unfold admitted. split; [by intros (_ & leaf & peers & [= <- <-] & Hin & _)|].
  intros Hin. split; [done|]. exists c, []. split_and!; try done; (constructor; [|done]); [|exact Hch].
  cbn. by rewrite bool_decide_true.
Qed.

Lemma issued_verified p cn server k c now :
  authority (caCert p) (caKey p) -> issued p cn server k c -> t1 - Hour <= now <= t0 + Hour ->
  verified (use_of server) now [caCert p] (conn_of c (caCert p)) = true.
Proof.
  intros Ha Hi Hnow. pose proof (issued_chain _ _ _ _ _ _ Ha Hi Hnow) as Hch.
  unfold verified. cbn [conn_of PeerCertificates VerifiedChains DidResume forallb]. rewrite Hch.
  cbn. by rewrite bool_decide_true.
Qed.

Lemma issued_trusted p k c now f addr :
  authority (caCert p) (caKey p) -> issued p "openbloxd" true k c -> t1 - Hour <= now <= t0 + Hour ->
  (forall name, name ∈ DNSNames c -> valid_for c name = true) ->
  TfServerName f ∈ ["openbloxd"; "localhost"] ->
  trusted f addr [caCert p] now (conn_of c (caCert p)).
Proof.
  intros Ha Hi Hnow Hval Hn. split; [done|]. split; [done|]. exists c, []. split_and!; try done.
  - constructor; [|done]. by apply (issued_chain _ _ _ _ _ _ Ha Hi).
  - unfold asked_name. assert (String.eqb (TfServerName f) "" = false) as ->.
    { apply String.eqb_neq. intros He. rewrite He in Hn. set_solver. }
    apply Hval. destruct Hi as (_ & -> & _). done.
Qed.

(** The two ends of a connection accept each other's certificates for as long as
    these are good: the server those of the clients in [cns]. *)
Definition interoperate (td tc : tlsConfig) (addr : string) (client server ca : certificate)
    (lets_in : Prop) : Prop :=
  connection td tc (conn_of client ca) (conn_of server ca) /\
  forall now, t1 - Hour <= now <= t0 + Hour ->
    (server_accepts td now (conn_of client ca) = true <-> lets_in) /\
    client_accepts tc addr now (conn_of server ca) = true.

End testpki.

(** ** A concrete authority

    Certificates are named after their subject; the clock stands still; the
    only certificates it makes are the ones of the demonstration below. *)

Definition toy_ca : certificate :=
  mkCertificate "" 1 "testpki-ca" (- Hour) Hour true 33 true [] [] [].
Definition toy_leaf (cn : string) (server : bool) : certificate :=
  mkCertificate "" 0 cn (- Hour) Hour false 1 false
    (if server then [ExtKeyUsageServerAuth] else [ExtKeyUsageClientAuth])
    (if server then ["openbloxd"; "localhost"] else []) (if server then ["127.0.0.1"] else []).

Definition toy_template (der : string) : certificate :=
  if String.eqb der "testpki-ca" then toy_ca else toy_leaf der (String.eqb der "openbloxd").
Definition toy_parse (der : string) : certificate := with_raw der (toy_template der).

Definition toy_pki : Pki := {|
  parsePEM := fun s => [toy_parse s];
  X509KeyPair := fun c _ => Ok [toy_parse c];
  signed_by := fun _ _ => true;
  valid_for := fun c name => bool_decide (name ∈ DNSNames c)
|}.

Definition toy_created (der : string) (t parent : certificate) (pub priv : string) : Prop :=
  t = toy_template der.

#[local] Existing Instance toy_pki.

#[refine] Definition toy_authority : Authority := {|
  key := string;
  EncodeToMemory := fun _ der => der;
  parseDER := toy_parse;
  created := toy_created;
  marshalled := fun _ _ => True
|}.
Proof.
  - by intros der t parent pub priv ->.
  - done.
  - by intros der t parent pub priv ->.
  - by intros der t parent pub priv d ->.
  - intros der t parent pub priv name -> Hin. by apply bool_decide_eq_true_2.
Defined.

#[local] Existing Instance toy_authority.

Definition toy_run (X : Type) (e : pkiE X) (w : world) : X * world :=
  match e in pkiE X return X * world with
  | GenerateKey => (Ok "k", w)
  | PkiNow => (0, w)
  | CreateCertificate t _ _ _ =>
      (if bool_decide (t = toy_template (CommonName t)) then Ok (CommonName t) else Err enoent, w)
  | ParseCertificate der => (Ok (toy_parse der), w)
  | MarshalECPrivateKey _ => (Ok "k", w)
  | PkiWriteFile path content perm =>
      (Ok tt, mkWorld (<[path := mkNode Regular (andnot perm (umask w)) (own_gid w)]> (files w))
        (umask w) (own_gid w) (groups w) (<[path := content]> (contents w)) (logged w))
  | PkiLoadKeyPair cert key =>
      (match contents w !! cert, contents w !! key with
       | Some c, Some _ => Ok [toy_parse c]
       | _, _ => Err enoent
       end, w)
  end.

Lemma toy_run_step X (e : pkiE X) w : pki_step 0 0 X e w (fst (toy_run X e w)) (snd (toy_run X e w)).
Proof.
  destruct e; cbn; try done.
  - split; [done|]. by case_bool_decide as Ht.
  - split.
    + split; [|done]. intros p Hp. cbn. by rewrite !lookup_insert_ne.
    + rewrite lookup_insert_eq. split; [done|]. intros _. rewrite lookup_insert_eq. by eexists.
  - split; [done|]. destruct (contents w !! certFile) as [c|] eqn:Ec; [|done].
    destruct (contents w !! keyFile) as [k|] eqn:Ek; [|done]. by exists c, k.
Qed.

Definition toy_world : world := mkWorld ∅ 18 0 ∅ ∅ [].

(** Everything succeeds there. *)
Definition toy_succeeds : bool :=
  match run toy_run (PkiNew "/tmp/t") toy_world with
  | (Ok p, w1) =>
      match run toy_run (WriteClient p "agent") w1 with
      | (Ok kp, w2) =>
          is_ok (fst (run os_run (ListenTLS (listen_with p "127.0.0.1:1" ["agent"])) w2))
          && is_ok (fst (run os_run (NewRemote "127.0.0.1:1" (files_with p kp "localhost") []) w2))
      | (Err _, _) => false
      end
  | (Err _, _) => false
  end.

