(* ===== verification/Conformance.v ===== *)
(** * pkg/conformance: the harness

    conformance.go, harness.go and image.go: the suite that measures a
    [sandbox.Backend] from the outside.  A test is a program over the calls of
    the backend under test and of the test process's own environment. *)

From S2P Require Import Prelude GoErrors GoStrings GoFloat64 GoDuration GoTime GoText Effects GoTesting Sandbox Sha256.

(** The context a call is given: the test's, which is cancelled when the test has
    ended and before its cleanups run, or one that is not cancelled with it. *)
Inductive suite_ctx : Set := TContext | WithoutCancel.

(** What the suite calls, for backends of type [B] with sandboxes of type [H]. *)
Inductive suiteE {B H : Type} : Type -> Type :=
  (* the backend under test; a constructor may answer a nil backend *)
  | SNew : suiteE (result (option B))
  | SClose (b : B) : suiteE unit
  | SCreate (b : B) (name : string) (opts : list CreateOption) : suiteE (result H)
  | SOpen (b : B) (name : string) : suiteE (result H)
  | SList (b : B) : suiteE (result (list Info))
  | SDestroy (ctx : suite_ctx) (b : B) (name : string) : suiteE (result unit)
  | SInfo (sb : H) : suiteE Info
  | SExec (sb : H) (cmd : Command) : suiteE (result Result)
  | SStop (sb : H) : suiteE (result unit)
  | SStartProcess (sb : H) (name : string) (cmd : Command) : suiteE (result unit)
  | SWriteFile (sb : H) (path : string) (mode : Z) (body : string) : suiteE (result unit)
  | SReadFile (sb : H) (path : string) : suiteE (result Z)        (** a reader *)
  | SRead (rc : Z) (n : Z) : suiteE Z                             (** bytes read *)
  | SCloseReader (rc : Z) : suiteE unit
  (* commands under a context of their own: cancelled after a while, or run by
     a goroutine until it is cancelled *)
  | SExecCancelled (after : Z) (sb : H) (cmd : Command) : suiteE (result Result)
  | SGoExec (sb : H) (cmd : Command) : suiteE unit
  | SCancelGo : suiteE unit
  (* the test process and its host *)
  | SGetenv (key : string) : suiteE string
  | SSetenv (key value : string) : suiteE unit
  | SGetpid : suiteE Z
  | SRandRead (n : nat) : suiteE (result string)
  | SNow : suiteE time
  | SSleep (d : Z) : suiteE unit
  | SHostListen : suiteE (result Z)                               (** the port *)
  | SHostUnlisten : suiteE unit
  | SCreateTemp (pattern : string) : suiteE (result string)
  | SRemove (path : string) : suiteE unit
  | SReadDir (path : string) : suiteE (result (list string))
  | SReadHostFile (path : string) : suiteE (result string)
  | SNumGoroutine : suiteE Z
  (* the command line and the output of go test *)
  | SSelects (name : string) : suiteE bool
  | SReport (name : string) (s : status) : suiteE unit.
Arguments suiteE : clear implicits.

(** ** Configuration and names *)

(** [Config]: whether [New] is set, the implementation's name, the run. *)
Record Config : Type := mkConfig { hasNew : bool; Name : string; cfgRun : string }.

Definition sbName (c : Config) (base : string) : string :=
  if String.eqb (cfgRun c) "" then base else base ++ "-" ++ cfgRun c.

Definition probeTimeout : Z := Minute.

Definition preflightSandboxName : string := "openblox-conformance-preflight".

Definition referenceImage : string :=
  "ghcr.io/blox-eng/openblox-sandbox:0.8.1@sha256:073cab42b00101e7c7a6c95f514bb943f29e1addd7dfb33c9a74d62de6bf8277".

Definition imageOverrideEnv : string := "OPENBLOX_CONFORMANCE_IMAGE".

(** [fmt.Sprintf("%d-%x", pid, b)] *)
Definition suffixOf (pid : Z) (b : string) : string := Itoa pid ++ "-" ++ hex b.

Section harness.
Context {B H : Type}.

Abbreviation T := (GoTesting.T (suiteE B H)).
Abbreviation do := (@tdo (suiteE B H) _).

(** A test of the suite. *)
Record property : Type := mkProperty { pname : string; pfn : Config -> T unit }.

Definition newPlantedSuffix : T string :=
  b <~ do (SRandRead 6);;
  match b with
  | Err _ => tpanic
  | Ok b => pid <~ do SGetpid;; tret (suffixOf pid b)
  end.

Definition image : T string :=
  v <~ do (SGetenv imageOverrideEnv);;
  if negb (String.eqb v "") then tret v else tret referenceImage.

Definition newBackend (cfg : Config) : T B :=
  b <~ do SNew;;
  match b with
  | Err _ => tFatalf "conformance: %s: Config.New() = %v; a backend that cannot be constructed has not conformed"
  | Ok None => tFatalf "conformance: %s: Config.New() returned a nil Backend and no error"
  | Ok (Some b) => _ <~ tCleanup (call (SClose b));; tret b
  end.

Definition destroyIgnored (b : B) (name : string) : prog (suiteE B H) unit :=
  _ <- call (SDestroy WithoutCancel b name);; Ret tt.

(** [run]: the combined output of a script. *)
Definition run (sb : H) (script : string) : T string :=
  res <~ do (SExec sb (mkCommand ["sh"; "-c"; script] [] "" None probeTimeout));;
  match res with
  | Err _ => tFatalf "%s: %s: Exec(%q) = %v"
  | Ok res => tret (Stdout res ++ Stderr res)
  end.

Definition create (b : B) (name : string) (opts : list CreateOption) : T H :=
  img <~ image;;
  sb <~ do (SCreate b name (WithImage img :: opts));;
  match sb with
  | Err _ => tFatalf "%s: Create(%q) = %v"
  | Ok sb => _ <~ tCleanup (destroyIgnored b name);; tret sb
  end.

(** ** Walking a tier *)

Definition preflight (cfg : Config) : T unit :=
  b <~ newBackend cfg;;
  let name := sbName cfg preflightSandboxName in
  img <~ image;;
  r <~ do (SCreate b name [WithImage img]);;
  match r with
  | Err err =>
      if Is err ErrRuntimeUnavailable then
        tSkipf "conformance: %s: the host cannot provide the required runtime (%v); no property can be measured"
      else tFatalf "conformance: %s: preflight Create(%q) = %v"
  | Ok _ =>
      _ <~ tCleanup (destroyIgnored b name);;
      r <~ do (SDestroy TContext b name);;
      match r with
      | Err _ => tFatalf "conformance: %s: preflight Destroy(%q) = %v; the backend's Destroy is unreliable, so every property's own cleanup is suspect"
      | Ok _ => tret tt
      end
  end.

(** The loop over the properties: how many were skipped, how many never ran. *)
Fixpoint runAll (cfg : Config) (ps : list property) (nskipped nfiltered : Z) : T (Z * Z) :=
  match ps with
  | [] => tret (nskipped, nfiltered)
  | p :: ps =>
      ran <~ tRun SSelects SReport (pname p) (pfn p cfg);;
      match ran with
      | None => runAll cfg ps nskipped (nfiltered + 1)
      | Some t => runAll cfg ps (if skipped t then nskipped + 1 else nskipped) nfiltered
      end
  end.

Definition tierBody (cfg : Config) (ps : list property) : T unit :=
  counts <~ runAll cfg ps 0 0;;
  _ <~ twhen (fst counts >? 0)
    (tErrorf "conformance: %s: tier %s: %d of %d properties skipped; a skipped property is not a passing one");;
  twhen (snd counts >? 0)
    (tErrorf "conformance: %s: tier %s: %d of %d properties never ran, filtered out by -run/-skip; a partial run is not a conformant result").

Definition walk (cfg : Config) (tier : string) (ps : list property) : T unit :=
  if negb (hasNew cfg) then tFatalf "conformance: Config.New is required"
  else if String.eqb (Name cfg) "" then tFatalf "conformance: Config.Name is required"
  else
    suffix <~ newPlantedSuffix;;
    let cfg := mkConfig (hasNew cfg) (Name cfg) suffix in
    v <~ do (SGetenv imageOverrideEnv);;
    _ <~ twhen (negb (String.eqb v ""))
      (_ <~ image;;
       tErrorf "conformance: %s: image overridden via %s (%s); this run is NOT a conformant result and fails for that reason alone");;
    _ <~ preflight cfg;;
    _ <~ image;;
    _ <~ tRun SSelects SReport tier (tierBody cfg ps);;
    tret tt.
End harness.

(** ** What a verdict means *)

(** The transcript of a run: the result lines printed, in order, and the first
    answer to the question whether the image is overridden. *)
Record transcript : Type := mkTranscript {
  reports : list (string * status);
  override : option string
}.

Section verdict.
Context {B H : Type}.

Abbreviation T := (GoTesting.T (suiteE B H)).

(** A run under every behaviour of backend, host and command line, written to
    the transcript. *)
Definition transcribe (X : Type) (e : suiteE B H X) (w : transcript) : X -> transcript -> Prop :=
  match e in suiteE _ _ X return X -> transcript -> Prop with
  | SReport name s => fun _ w' => w' = mkTranscript (reports w ++ [(name, s)]) (override w)
  | SGetenv key => fun v w' => w' =
      mkTranscript (reports w)
        (match override w with
         | None => if String.eqb key imageOverrideEnv then Some v else None
         | Some _ => override w
         end)
  | _ => fun _ w' => w' = w
  end.

Definition anything (X : Type) (e : suiteE B H X) (w : transcript) : Prop := True.

Abbreviation may := (wp anything transcribe).

(** A test that prints no result lines of its own. *)
Definition unreported (X : Type) (e : suiteE B H X) : Prop :=
  match e with SReport _ _ => False | _ => True end.

Definition silent {A} (p : prog (suiteE B H) A) : Prop := safe unreported p (fun _ => True).

(** The image question has been asked. *)
Definition asked (w : transcript) : Prop := override w <> None.

Lemma silent_transcript {A} (p : prog (suiteE B H) A) w :
  asked w -> silent p -> may p (fun _ w' => w' = w) w.
Proof.
  intros Hw. unfold silent. revert w Hw. induction p as [a|X e k IH]; intros w Hw; cbn [wp safe]; [done|].
  intros [He Hk]. split; [done|]. intros x w' Hs.
  assert (w' = w) as ->; [|by apply IH].
  destruct e; try exact Hs; [|destruct He].
  destruct w as [rs [v|]]; [exact Hs|by destruct Hw].
Qed.

(** ** The loop *)

Definition passes (ps : list (@property B H)) : list (string * status) :=
  map (fun p => (pname p, PASS)) ps.

Lemma status_PASS panicked (t : testT (suiteE B H)) :
  status_of panicked t = PASS <-> panicked = false /\ failed t = false /\ skipped t = false.
Proof. unfold status_of. destruct panicked, (failed t), (skipped t); cbn; naive_solver. Qed.

(** What [t.Run] adds to the transcript, and what it tells its caller. *)
Lemma tRun_wp name (f : T unit) t w (Q : exit (option (testT (suiteE B H))) * testT (suiteE B H) -> transcript -> Prop) :
  Q (Returned None, t) w ->
  may (tRunner f) (fun pt w' =>
    Q (if fst pt then (Panicked, t)
       else (Returned (Some (snd pt)),
         mkT (failed t || failed (snd pt)) (messages t) (skipped t) (cleanups t)))
      (mkTranscript (reports w' ++ [(name, status_of (fst pt) (snd pt))]) (override w'))) w ->
  may (tRun SSelects SReport name f t) Q w.
Proof.
  intros H0 Hf. unfold tRun, tbind, tdo. cbn [bind call wp]. split; [done|].
  intros sel w' ->. destruct sel; [|exact H0]. apply wp_bind.
  eapply wp_mono; [|exact Hf]. intros [panicked t'] w' HQ. cbn [bind call wp fst snd] in *.
  split; [done|]. intros _ w'' ->. by destruct panicked.
Qed.

Lemma tRun_spec name (f : T unit) t w Q :
  asked w -> silent (tRunner f) ->
  Q (Returned None, t) w ->
  (forall t' : testT (suiteE B H), Q (Panicked, t) (mkTranscript (reports w ++ [(name, status_of true t')]) (override w))) ->
  (forall t', Q (Returned (Some t'), mkT (failed t || failed t') (messages t) (skipped t) (cleanups t))
     (mkTranscript (reports w ++ [(name, status_of false t')]) (override w))) ->
  may (tRun SSelects SReport name f t) Q w.
Proof.
  intros Hw Hf H0 H1 H2. apply tRun_wp; [done|].
  eapply wp_mono; [|by apply silent_transcript]. intros [[] t'] w' ->; cbn [fst snd]; [apply H1|apply H2].
Qed.

(** Nothing has failed, been skipped or been left out. *)
Definition clean (t : testT (suiteE B H)) (ns nf : Z) : Prop := failed t = false /\ ns = 0 /\ nf = 0.

(** The loop adds one line per property it ran, and stays clean exactly when
    every property was run and passed. *)
Definition loop_result (ps : list (@property B H)) (ns nf : Z) (t : testT (suiteE B H)) (w : transcript)
    (r : exit (Z * Z) * testT (suiteE B H)) (w' : transcript) : Prop :=
  override w' = override w /\
  exists rs, reports w' = (reports w ++ rs)%list /\ (length rs <= length ps)%nat /\
  match r with
  | (Returned (ns', nf'), t') =>
      skipped t' = skipped t /\ cleanups t' = cleanups t /\ 0 <= ns' /\ 0 <= nf' /\
      (clean t' ns' nf' <-> clean t ns nf /\ rs = passes ps)
  | (Goexit, _) => False
  | (Panicked, t') => skipped t' = skipped t /\ cleanups t' = cleanups t /\ rs <> passes ps
  end.

(** One turn in front of the rest of the loop. *)
Lemma loop_result_cons p ps ns nf ns1 nf1 t t1 w rs1 r w' :
  skipped t1 = skipped t -> cleanups t1 = cleanups t -> 0 <= ns1 -> 0 <= nf1 ->
  (rs1 = [] /\ ~ clean t1 ns1 nf1 \/
   exists s, rs1 = [(pname p, s)] /\ (clean t1 ns1 nf1 <-> clean t ns nf /\ s = PASS)) ->
  loop_result ps ns1 nf1 t1 (mkTranscript (reports w ++ rs1) (override w)) r w' ->
  loop_result (p :: ps) ns nf t w r w'.
Proof.
  intros Hs Hc Hns Hnf H1 (Ho & rs & Hr & Hl & Hres). split; [done|]. exists (rs1 ++ rs)%list.
  cbn [reports] in Hr. rewrite Hr, <- app_assoc. split; [done|]. rewrite length_app. cbn [length].
  destruct H1 as [[-> Hu]|(s & -> & Hu)]; cbn [length app passes map].
  - split; [lia|].
    assert (Hne : rs <> (pname p, PASS) :: passes ps).
    { intros ->. cbn in Hl. unfold passes in Hl. rewrite length_map in Hl. lia. }
    destruct r as [[[ns' nf']| |] t']; [|done|by destruct Hres as (-> & -> & _)].
    destruct Hres as (-> & -> & Hn & Hf & Hiff). split_and!; [done..|]. rewrite Hiff. split; [naive_solver|].
    intros [_ E]. by apply Hne in E.
  - split; [lia|]. destruct r as [[[ns' nf']| |] t']; [|done|].
    + destruct Hres as (-> & -> & Hn & Hf & Hiff). split_and!; [done..|]. rewrite Hiff, Hu. split; [naive_solver|].
      intros [? [= -> ->]]. done.
    + destruct Hres as (-> & -> & Hne). split_and!; [done|done|]. intros [= _ E]. by apply Hne.
Qed.

Lemma runAll_spec cfg ps ns nf t w :
  asked w -> Forall (fun p => silent (tRunner (pfn p cfg))) ps -> 0 <= ns -> 0 <= nf ->
  may (runAll cfg ps ns nf t) (loop_result ps ns nf t w) w.
Proof.
  intros Hw Hps. revert ns nf t w Hw. induction Hps as [|p ps Hp Hps IH]; intros ns nf t w Hw Hns Hnf.
  { cbn. split; [done|]. exists []. rewrite app_nil_r. split_and!; try done; naive_solver. }
  cbn [runAll]. unfold tbind. apply wp_bind. apply tRun_spec; [done|done| | |].
  - eapply wp_mono; [|apply (IH ns (nf + 1)); [done|done|lia]]. intros r w' Hr.
    apply (loop_result_cons p ps ns nf ns (nf + 1) t t w [] r w'); [done|done|done|lia| |].
    + left. split; [done|]. unfold clean. lia.
    + rewrite app_nil_r. by destruct w.
  - intros t'. cbn [wp]. split; [done|]. exists [(pname p, status_of true t')]. cbn. split_and!; try done. lia.
  - intros t'. set (t1 := mkT _ _ _ _). set (ns1 := if skipped t' then ns + 1 else ns).
    eapply wp_mono; [|apply (IH ns1 nf t1); [done| |done]; subst ns1; destruct (skipped t'); lia].
    intros r w' Hr. apply (loop_result_cons p ps ns nf ns1 nf t t1 w [(pname p, status_of false t')] r w');
      [done|done|subst ns1; destruct (skipped t'); lia|done| |exact Hr].
    right. eexists. split; [done|]. rewrite status_PASS. unfold clean, ns1, t1. cbn [failed].
    destruct (failed t), (failed t'), (skipped t'); cbn; naive_solver lia.
Qed.

(** ** The tier and the walk *)

Lemma runCleanups_silent cs w :
  asked w -> Forall silent cs -> may (runCleanups cs) (fun _ w' => w' = w) w.
Proof.
  intros Hw Hcs. induction Hcs as [|c cs Hc Hcs IH]; [done|]. cbn [runCleanups].
  apply wp_bind. eapply wp_mono; [|by apply silent_transcript]. intros _ w' ->. exact IH.
Qed.

(** The tier passes exactly when every property was run and passed. *)
Definition tier_result (ps : list (@property B H)) (w : transcript)
    (pt : bool * testT (suiteE B H)) (w' : transcript) : Prop :=
  override w' = override w /\ exists rs, reports w' = (reports w ++ rs)%list /\
    skipped (snd pt) = false /\ (status_of (fst pt) (snd pt) = PASS <-> rs = passes ps).

Lemma tierBody_spec cfg ps w :
  asked w -> Forall (fun p => silent (tRunner (pfn p cfg))) ps ->
  may (tRunner (tierBody cfg ps)) (tier_result ps w) w.
Proof.
  intros Hw Hps. unfold tRunner, tierBody, tbind. apply wp_bind. apply wp_bind.
  eapply wp_mono; [|by apply runAll_spec].
  intros [[[ns nf]| |] t] w' (Ho & rs & Hr & _ & Hres); [|done|].
  2:{ destruct Hres as (Hs & Hc & Hne). cbn [wp fst snd]. rewrite Hc. cbn. split; [done|]. exists rs.
      by split_and!. }
  destruct Hres as (Hs & Hc & Hns & Hnf & Hiff). cbn [fst snd].
  assert (Hend : forall t1, cleanups t1 = [] -> skipped t1 = false ->
    (failed t1 = false <-> clean t ns nf) ->
    may (bind (runCleanups (cleanups t1)) (fun _ => Ret (false, t1))) (tier_result ps w) w').
  { intros t1 Hc1 Hs1 Hf1. rewrite Hc1. cbn. split; [done|]. exists rs. split_and!; [done|done|].
    rewrite status_PASS, Hf1, Hiff. unfold clean. cbn. naive_solver. }
  unfold twhen. destruct (Z.gtb_spec ns 0); [|]; cbn [bind tErrorf tret wp fst snd].
  - destruct (Z.gtb_spec nf 0); cbn [bind tErrorf tret wp fst snd]; apply Hend; try done; unfold clean; cbn; split; lia || done.
  - destruct (Z.gtb_spec nf 0); cbn [bind tErrorf tret wp fst snd]; apply Hend; try done; unfold clean; cbn; split; naive_solver lia.
Qed.

(** [preflight] prints nothing; it goes on, or it stops the walk with a failure
    or a skip. *)
Definition preflight_result (t : testT (suiteE B H)) (w : transcript)
    (r : exit unit * testT (suiteE B H)) (w' : transcript) : Prop :=
  w' = w /\ (Forall silent (cleanups t) -> Forall silent (cleanups (snd r))) /\
  match fst r with
  | Returned _ => failed (snd r) = failed t /\ skipped (snd r) = skipped t
  | Goexit => failed (snd r) = true \/ skipped (snd r) = true
  | Panicked => False
  end.

Lemma Getenv_asked key w v w' :
  asked w -> transcribe string (SGetenv key) w v w' -> w' = w.
Proof. destruct w as [rs [o|]]; cbn; [by intros _ ->|by intros []]. Qed.

Lemma image_spec t w Q :
  asked w -> (forall img, Q (Returned img, t) w) -> may (image t) Q w.
Proof.
  intros Hw HQ. unfold image, tbind, tdo. cbn [bind call wp]. split; [done|].
  intros v w' ->%Getenv_asked; [|done]. destruct (negb _); cbn; apply HQ.
Qed.

Lemma preflight_spec cfg t w : asked w -> may (preflight cfg t) (preflight_result t w) w.
Proof.
  intros Hw. unfold preflight, newBackend, tbind, tdo. cbn [bind call wp]. split; [done|].
  intros [[b|]|e] w' ->; cbn [bind tFatalf tCleanup tret wp].
  2,3: (split; [done|]; split; [done|by left]).
  apply wp_bind. apply image_spec; [done|]. intros img. cbn [bind call wp]. split; [done|].
  assert (Hcl : silent (call (SClose b : suiteE B H unit))) by (by split).
  intros [h|e] w' ->.
  - cbn [bind tCleanup wp call]. split; [done|]. intros [[]|e] w' ->; cbn [tFatalf tret wp];
      (split; [done|]; split; [intros Hc; repeat (apply Forall_cons; split; [by split|]); exact Hc|]).
    + by split.
    + by left.
  - destruct (Is e ErrRuntimeUnavailable); cbn; (split; [done|]; split; [by constructor|]); [by right|by left].
Qed.

(** The verdict of a whole run against its transcript. *)
Definition measured (tier : string) (ps : list (@property B H)) (pt : bool * testT (suiteE B H))
    (w : transcript) : Prop :=
  let verdict := status_of (fst pt) (snd pt) in
  (reports w = [] \/
   exists rs s, reports w = (rs ++ [(tier, s)])%list /\ (s = PASS <-> rs = passes ps) /\
     (verdict = PASS <-> s = PASS /\ override w = Some "")) /\
  (verdict = SKIP -> reports w = []).

(** What runs after the question whether the image is overridden. *)
Definition walk_after (cfg : Config) (tier : string) (ps : list (@property B H)) : T unit :=
  _ <~ preflight cfg;; _ <~ image;; _ <~ tRun SSelects SReport tier (tierBody cfg ps);; tret tt.

Definition finishing (rt : exit unit * testT (suiteE B H)) : prog (suiteE B H) (bool * testT (suiteE B H)) :=
  _ <- runCleanups (cleanups (snd rt));;
  Ret (match fst rt with Panicked => true | _ => false end, snd rt).

Lemma walk_rest cfg tier ps t w v :
  Forall (fun p => silent (tRunner (pfn p cfg))) ps ->
  reports w = [] -> override w = Some v -> failed t = negb (String.eqb v "") ->
  skipped t = false -> cleanups t = [] ->
  may (bind (walk_after cfg tier ps t) finishing) (measured tier ps) w.
Proof.
  intros Hps Hr Ho Hf Hs Hc. assert (Hw : asked w) by (unfold asked; by rewrite Ho).
  assert (Hfin : forall r t1 w1, asked w1 -> Forall silent (cleanups t1) ->
    measured tier ps (match r with Panicked => true | _ => false end, t1) w1 ->
    may (finishing (r, t1)) (measured tier ps) w1).
  { intros r t1 w1 Hw1 Hc1 Hm. unfold finishing. apply wp_bind.
    eapply wp_mono; [|by apply runCleanups_silent]. by intros _ w2 ->. }
  unfold walk_after, tbind. apply wp_bind, wp_bind. eapply wp_mono; [|by apply preflight_spec].
  intros [[[]| |] t1] w1 (-> & Hcl & Hres); cbn [fst snd] in *; [| |done].
  2:{ apply Hfin; [done|by apply Hcl; rewrite Hc; constructor|]. by split; [left|]. }
  destruct Hres as [Hf1 Hs1]. assert (Hsil : Forall silent (cleanups t1)) by (apply Hcl; rewrite Hc; constructor).
  apply wp_bind. apply image_spec; [done|]. intros img. apply wp_bind. apply tRun_wp.
  { apply Hfin; [done|done|]. split; [by left|]. done. }
  eapply wp_mono; [|by apply tierBody_spec].
  intros [panicked t2] w2 (Ho2 & rs & Hr2 & Hs2 & Hst). cbn [fst snd] in *. rewrite Hr in Hr2. cbn in Hr2.
  assert (Hm : forall t3, (panicked = false -> failed t3 = failed t1 || failed t2) -> skipped t3 = false ->
    measured tier ps (panicked, t3)
      (mkTranscript (reports w2 ++ [(tier, status_of panicked t2)]) (override w2))).
  { intros t3 Hf3 Hs3. split; cbn [reports override fst snd].
    - right. eexists rs, _. rewrite Hr2. split; [done|]. split; [done|]. rewrite !status_PASS, Ho2, Ho.
      destruct panicked; [naive_solver|]. rewrite (Hf3 eq_refl), Hf1, Hf.
      destruct (String.eqb_spec v "") as [->|Hv], (failed t2); cbn; naive_solver.
    - intros Hk. exfalso. unfold status_of in Hk. rewrite Hs3 in Hk. by destruct (panicked || failed t3). }
  assert (Hw2 : asked (mkTranscript (reports w2 ++ [(tier, status_of panicked t2)]) (override w2))).
  { unfold asked. cbn. by rewrite Ho2. }
  destruct panicked; cbn [bind tret]; (apply Hfin; [exact Hw2|exact Hsil|]).
  - apply Hm; [done|]. by rewrite Hs1.
  - apply Hm; [done|]. cbn. by rewrite Hs1.
Qed.

(** A run that ends green measured what it claims.  Whatever the properties
    do, the backend answers and the command line leaves out: the tier's own
    line is printed after those of the properties it ran, and says PASS exactly
    when every property of the tier was run and passed, none skipped and none
    filtered out; the run as a whole passes, once the tier was started, exactly
    when it did and no image override was in force when the walk asked; and a
    run that is reported as skipped has started no property. *)
Theorem walk_verdict cfg tier ps :
  (forall cfg, Forall (fun p => silent (tRunner (pfn p cfg))) ps) ->
  may (tRunner (walk cfg tier ps)) (fun pt w =>
    let verdict := status_of (fst pt) (snd pt) in
    (reports w = [] \/
     exists rs s, reports w = (rs ++ [(tier, s)])%list /\ (s = PASS <-> rs = passes ps) /\
       (verdict = PASS <-> s = PASS /\ override w = Some "")) /\
    (verdict = SKIP -> reports w = []))
  (mkTranscript [] None).
Proof.
  intros Hps. change (may (tRunner (walk cfg tier ps)) (measured tier ps) (mkTranscript [] None)).
  unfold walk. destruct (hasNew cfg); [|by split; [left|]].
  destruct (String.eqb (Name cfg) ""); [by split; [left|]|]. cbn [negb].
  unfold tRunner, newPlantedSuffix, tbind, tdo. cbn [bind call wp]. split; [done|].
  intros [b|e] w ->; [|by split; [left|]]. cbn [bind call wp]. split; [done|]. intros pid w ->.
  cbn [bind tret call wp]. split; [done|]. intros v w ->. set (w := mkTranscript _ _).
  set (cfg' := mkConfig _ _ _). unfold twhen. destruct (String.eqb_spec v "") as [->|Hv]; cbn [negb].
  - cbn [bind tret]. exact (walk_rest cfg' tier ps fresh w "" (Hps cfg') eq_refl eq_refl eq_refl eq_refl eq_refl).
  - apply wp_bind, wp_bind, wp_bind. apply image_spec; [done|]. intros img. cbn [wp tErrorf].
    rewrite <- wp_bind. refine (walk_rest cfg' tier ps (mkT true _ false []) w v (Hps cfg') eq_refl eq_refl _ eq_refl eq_refl).
    cbn. by destruct (String.eqb_spec v "").
Qed.
End verdict.
