(* ===== verification/ConformanceProbes.v ===== *)
(** * pkg/conformance: the properties

    filesystem.go, privilege.go, network.go, process.go, lifecycle.go and
    hostlocal.go: every property the suite measures, as a test over the calls
    of the harness.  The scripts are constants of the suite; what a shell makes
    of them is the backend's answer. *)

From S2P Require Import Prelude GoErrors GoStrings GoFloat64 GoDuration GoTime GoNet GoHttp GoText Effects GoTesting Sandbox Conformance.

(** ** Pure parts *)

(** [newDetachedSleep], from the two bytes it draws. *)
Definition detachedSleepOf (b0 b1 : Z) : string :=
  Itoa (800000 + Z.lor (Z.shiftl b0 8) b1 mod 100000).

Definition controlPlaneSockets : list string :=
  ["/var/run/docker.sock"; "/run/docker.sock"; "/run/containerd/containerd.sock";
   "/run/crio/crio.sock"; "/run/podman/podman.sock"; "/run/openbloxd/openbloxd.sock"].

Definition networkProbeTargets : list (string * string) :=
  [("169.254.169.254", "80"); ("172.17.0.1", "2375"); ("172.17.0.1", "22"); ("10.0.0.1", "80");
   ("192.168.0.1", "80"); ("1.1.1.1", "443"); ("8.8.8.8", "53")].

(** [mountOptionsFor]: the options of the entry with the longest mount point
    above [dir]; the loop carries the best entry so far. *)
Definition governs (mp dir : string) : bool :=
  String.eqb mp dir || HasPrefix dir (TrimSuffix1 mp "/" ++ "/").

Fixpoint mountLoop (dir : string) (lines : list string) (best : option (string * string))
    : option (string * string) :=
  match lines with
  | [] => best
  | line :: lines =>
      match Fields line with
      | _ :: _ :: _ :: _ :: mp :: opts :: _ =>
          if governs mp dir then
            match best with
            | Some (b, _) =>
                if (String.length b <? String.length mp)%nat then mountLoop dir lines (Some (mp, opts))
                else mountLoop dir lines best
            | None => mountLoop dir lines (Some (mp, opts))
            end
          else mountLoop dir lines best
      | _ => mountLoop dir lines best
      end
  end.

Definition mountOptionsFor (mountinfo dir : string) : option string :=
  snd <$> mountLoop dir (Split mountinfo nlc) None.

(** [shortID] *)
Definition shortID (id : string) : string :=
  if (12 <? String.length id)%nat then stake 12 id else id.

Definition hostLeakIterations : nat := 15.

(** [marker] with its first byte in brackets. *)
Definition countPattern (marker : string) : string :=
  "[" ++ stake 1 marker ++ "]" ++ sdrop 1 marker.

Definition egressProbe : string :=
  (nl ++ "command -v python3 >/dev/null 2>&1 || echo NO_PYTHON" ++ nl
    ++ "python3 - <<'PY' 2>/dev/null" ++ nl ++ "import socket" ++ nl ++ "import ssl" ++ nl
    ++ nl ++ "# Positive control, covering every socket family the three attempts below" ++ nl
    ++ "# use: IPv4 TCP end to end, IPv6 support compiled in, and a UDP socket that" ++ nl
    ++ "# constructs. A python without IPv6, or one where SOCK_DGRAM fails, would" ++ nl
    ++ "# otherwise make REACHED6 and RESOLVED silently vacuous under a control that" ++ nl
    ++ "# still passed." ++ nl ++ "try:" ++ nl ++ "    srv = socket.socket()" ++ nl
    ++ "    srv.bind((" ++ dq ++ "127.0.0.1" ++ dq ++ ", 0))" ++ nl ++ "    srv.listen(1)" ++ nl
    ++ "    c = socket.create_connection(srv.getsockname(), timeout=2)" ++ nl
    ++ "    c.close()" ++ nl ++ "    srv.close()" ++ nl ++ "    if not socket.has_ipv6:" ++ nl
    ++ "        raise OSError(" ++ dq ++ "no IPv6 support" ++ dq ++ ")" ++ nl
    ++ "    socket.socket(socket.AF_INET6, socket.SOCK_STREAM).close()" ++ nl
    ++ "    socket.socket(socket.AF_INET, socket.SOCK_DGRAM).close()" ++ nl
    ++ "    print(" ++ dq ++ "PYTHON_NET_OK" ++ dq ++ ")" ++ nl ++ "except Exception:" ++ nl
    ++ "    pass" ++ nl ++ nl
    ++ "# Verification is off on purpose and is not a weakness here: this probe is" ++ nl
    ++ "# measuring whether the sandbox can reach 1.1.1.1 at all, and a certificate" ++ nl
    ++ "# check against a bare IP would abort the attempt for a reason that has" ++ nl
    ++ "# nothing to do with containment — the exact vacuity this suite is closing." ++ nl
    ++ "# Nothing is sent over this socket and nothing read from it is trusted." ++ nl
    ++ "try:" ++ nl ++ "    ctx = ssl.create_default_context()" ++ nl
    ++ "    ctx.check_hostname = False" ++ nl ++ "    ctx.verify_mode = ssl.CERT_NONE" ++ nl
    ++ "    with socket.create_connection((" ++ dq ++ "1.1.1.1" ++ dq
    ++ ", 443), timeout=2) as raw:" ++ nl ++ "        with ctx.wrap_socket(raw) as tls:" ++ nl
    ++ "            tls.send(b" ++ dq ++ "HEAD / HTTP/1.0\r\n\r\n" ++ dq ++ ")" ++ nl
    ++ "            print(" ++ dq ++ "REACHED_TLS" ++ dq ++ ")" ++ nl ++ "except Exception:" ++ nl
    ++ "    pass" ++ nl ++ nl ++ "try:" ++ nl
    ++ "    s = socket.socket(socket.AF_INET6, socket.SOCK_STREAM)" ++ nl ++ "    s.settimeout(2)"
    ++ nl ++ "    s.connect((" ++ dq ++ "2606:4700:4700::1111" ++ dq ++ ", 443))" ++ nl
    ++ "    s.close()" ++ nl ++ "    print(" ++ dq ++ "REACHED6" ++ dq ++ ")" ++ nl
    ++ "except Exception:" ++ nl ++ "    pass" ++ nl ++ nl
    ++ "# A DNS query addressed at a public resolver, so a sandbox that runs a" ++ nl
    ++ "# resolver of its own cannot make this look contained: A example.com IN." ++ nl
    ++ "query = (b" ++ dq ++ "\x12\x34\x01\x00\x00\x01\x00\x00\x00\x00\x00\x00" ++ dq ++ nl
    ++ "         b" ++ dq ++ "\x07example\x03com\x00\x00\x01\x00\x01" ++ dq ++ ")" ++ nl
    ++ "try:" ++ nl ++ "    s = socket.socket(socket.AF_INET, socket.SOCK_DGRAM)" ++ nl
    ++ "    s.settimeout(2)" ++ nl ++ "    s.sendto(query, (" ++ dq ++ "8.8.8.8" ++ dq ++ ", 53))"
    ++ nl ++ "    data, _ = s.recvfrom(512)" ++ nl ++ "    s.close()" ++ nl
    ++ "    if len(data) > 12:" ++ nl ++ "        print(" ++ dq ++ "RESOLVED" ++ dq ++ ")" ++ nl
    ++ "except Exception:" ++ nl ++ "    pass" ++ nl ++ "PY" ++ nl).

Section probes.
Context {B H : Type}.
(** The package's variables, drawn once per process. *)
Variables (plantedSuffix detachedSleep : string).

Abbreviation T := (GoTesting.T (suiteE B H)).
Abbreviation do := (@tdo (suiteE B H) _).

Definition plantedBinary : string := "planted-" ++ plantedSuffix.
Definition plantedFile : string := "f-" ++ plantedSuffix.
Definition knobControl : string := "/tmp/openblox-conf-knob-control-" ++ plantedSuffix.
Definition plantedNode : string := "/tmp/sda-" ++ plantedSuffix.
Definition injectedA : string := "/tmp/openblox-conf-pwned-a-" ++ plantedSuffix.
Definition injectedB : string := "/tmp/openblox-conf-pwned-b-" ++ plantedSuffix.

Fixpoint removeAll (paths : list string) : prog (suiteE B H) unit :=
  match paths with
  | [] => Ret tt
  | p :: paths => _ <- call (SRemove p);; removeAll paths
  end.

Definition sweepPlantedArtifacts : prog (suiteE B H) unit :=
  removeAll
    (flat_map (fun dir => [dir ++ "/" ++ plantedBinary; dir ++ "/" ++ plantedFile]) ["/tmp"; "/dev/shm"]
     ++ [knobControl; plantedNode; injectedA; injectedB]).

(** [shellQuote] *)
Definition shellQuote (s : string) : T string :=
  if ContainsAny s ["'"%char; nlc] then tpanic else tret ("'" ++ s ++ "'").

(** One [t.Errorf] per marker the output contains. *)
Definition noMarkers (what : string) (out : string) (markers : list string) : T unit :=
  tfor markers (fun marker => twhen (Contains out marker) (tErrorf what)).

Definition exec (sb : H) (argv : list string) (timeout : Z) : T (result Result) :=
  do (SExec sb (mkCommand argv [] "" None timeout)).

(** ** filesystem.go *)

Definition propNoControlPlaneSocket (cfg : Config) : T unit :=
  b <~ newBackend cfg;;
  sb <~ create b (sbName cfg "openblox-conf-sockets") [];;
  out <~ run sb "[ -e /etc ] && echo PRESENT; cat /etc/hostname >/dev/null 2>&1 && echo READ";;
  _ <~ twhen (negb (Contains out "PRESENT") || negb (Contains out "READ"))
    (tFatalf "%s: the probe's own existence test and read do not work, so the absences below would prove nothing: %q");;
  _ <~ tfor controlPlaneSockets (fun p =>
    q <~ shellQuote p;;
    out <~ run sb ("[ -e " ++ q ++ " ] && echo PRESENT");;
    twhen (Contains out "PRESENT") (tErrorf "%s: %s is visible inside the sandbox"));;
  out <~ run sb "[ -e /etc/shadow ] && echo PRESENT";;
  _ <~ twhen (negb (Contains out "PRESENT"))
    (tFatalf "%s: /etc/shadow is absent, so failing to read it says nothing about permissions: %q");;
  out <~ run sb "cat /etc/shadow >/dev/null 2>&1 && echo READ";;
  twhen (Contains out "READ") (tErrorf "%s: sandbox user read /etc/shadow").

Definition propCannotWriteKernelKnobs (cfg : Config) : T unit :=
  b <~ newBackend cfg;;
  sb <~ create b (sbName cfg "openblox-conf-procsys") [];;
  q <~ shellQuote knobControl;;
  out <~ run sb ((nl ++ "echo 1 > ") ++ q ++ (" 2>/dev/null && echo CONTROL_WROTE" ++ nl
    ++ "cat /proc/self/status >/dev/null 2>&1 && echo CONTROL_READ" ++ nl
    ++ "echo 1 > /proc/sys/vm/drop_caches 2>/dev/null && echo WROTE_PROC_SYS" ++ nl
    ++ "echo 1 > /proc/sysrq-trigger 2>/dev/null && echo WROTE_SYSRQ" ++ nl
    ++ "echo x > /sys/kernel/uevent_helper 2>/dev/null && echo WROTE_SYS" ++ nl
    ++ "cat /proc/kcore >/dev/null 2>&1 && echo READ_KCORE" ++ nl));;
  _ <~ twhen (negb (Contains out "CONTROL_WROTE") || negb (Contains out "CONTROL_READ"))
    (tFatalf "%s: the probe cannot write or read at all, so the absences below would prove nothing: %q");;
  noMarkers "%s: %s: %q" out ["WROTE_PROC_SYS"; "WROTE_SYSRQ"; "WROTE_SYS"; "READ_KCORE"].

Definition propNoBlockDevices (cfg : Config) : T unit :=
  b <~ newBackend cfg;;
  sb <~ create b (sbName cfg "openblox-conf-dev") [];;
  q <~ shellQuote plantedNode;;
  out <~ run sb ((nl ++ "for d in /dev/* /dev/*/*; do [ -c " ++ dq ++ "$d" ++ dq
    ++ " ] && echo CONTROL_CHAR && break; done" ++ nl
    ++ "command -v mknod >/dev/null 2>&1 || echo NO_MKNOD" ++ nl
    ++ "command -v mount >/dev/null 2>&1 || echo NO_MOUNT" ++ nl
    ++ "for d in /dev/* /dev/*/*; do [ -b " ++ dq ++ "$d" ++ dq ++ " ] && echo " ++ dq ++ "BLOCK $d"
    ++ dq ++ "; done" ++ nl ++ "mknod ") ++ q ++ (" b 8 0 2>/dev/null && echo MADE_NODE" ++ nl
    ++ "mount -t tmpfs none /tmp 2>/dev/null && echo MOUNTED" ++ nl));;
  _ <~ twhen (negb (Contains out "CONTROL_CHAR"))
    (tFatalf "%s: the probe found no character device under /dev, so it is not reading a populated /dev and its absence of block devices proves nothing: %q");;
  _ <~ tfor ["NO_MKNOD"; "NO_MOUNT"] (fun missing =>
    twhen (Contains out missing)
      (tFatalf "%s: %s: the pinned reference image must provide it, or the attempt below never runs: %q"));;
  noMarkers "%s: %s: %q" out ["BLOCK"; "MADE_NODE"; "MOUNTED"].

Definition propNoTraversalOutOfGuest (cfg : Config) : T unit :=
  b <~ newBackend cfg;;
  sb <~ create b (sbName cfg "openblox-conf-traverse") [];;
  out <~ run sb ("ln -s /etc/shadow /workspace/link; ln -s / /workspace/root" ++ nl
    ++ "[ -L /workspace/link ] && [ -L /workspace/root ] && echo LINKED");;
  _ <~ twhen (negb (Contains out "LINKED"))
    (tFatalf "%s: the probe could not plant its symlinks, so nothing below traverses one: %q");;
  _ <~ tfor ["/workspace/link"; "/workspace/root/etc/shadow"; "/workspace/../etc/shadow"] (fun p =>
    rc <~ do (SReadFile sb p);;
    match rc with
    | Err _ => tret tt
    | Ok rc =>
        n <~ do (SRead rc 64);;
        _ <~ do (SCloseReader rc);;
        twhen (n >? 0) (tErrorf "%s: ReadFile(%q) returned %d bytes of a root-only file")
    end);;
  err <~ do (SWriteFile sb "/workspace/root/etc/openblox-planted" 420 "x");;
  _ <~ twhen (is_ok err)
    (tErrorf "%s: WriteFile through a symlink wrote into the read-only root filesystem");;
  err <~ do (SWriteFile sb ("/workspace/$(touch " ++ injectedA ++ ");`touch " ++ injectedB ++ ("`" ++ nl ++ "-rf")) 420 "x");;
  _ <~ twhen (negb (is_ok err)) (tFatalf "%s: WriteFile(hostile name) = %v");;
  qa <~ shellQuote injectedA;;
  qb <~ shellQuote injectedB;;
  out <~ run sb ("[ -e " ++ qa ++ " ] || [ -e " ++ qb ++ " ] && echo INJECTED");;
  twhen (Contains out "INJECTED") (tErrorf "%s: a file name was executed as shell").

(** ** privilege.go *)

(** The value of a line of /proc/self/status. *)
Definition afterColon (l : string) : string := match Cut l ":" with Some (_, v) => v | None => "" end.

Definition emptySet (l : string) : bool := String.eqb (Trim1 (TrimSpace (afterColon l)) "0") "".

Definition propNoCapabilities (cfg : Config) : T unit :=
  b <~ newBackend cfg;;
  sb <~ create b (sbName cfg "openblox-conf-caps") [];;
  out <~ run sb "grep -E '^Cap(Inh|Prm|Eff|Bnd|Amb):' /proc/self/status; id -u; id -g";;
  match Split (TrimSpace out) nlc with
  | [l0; l1; l2; l3; l4; uid; gid] =>
      _ <~ tfor [l0; l1; l2; l3; l4] (fun l =>
        twhen (negb (emptySet l)) (tErrorf "%s: capability set not empty: %q"));;
      twhen (String.eqb uid "0" || String.eqb gid "0")
        (tErrorf "%s: running as uid %s gid %s, want non-root")
  | _ => tFatalf "%s: unexpected probe output: %q"
  end.

Definition noexecProbe : string :=
  (nl ++ "src=$(command -v sh 2>/dev/null)" ++ nl ++ "[ -n " ++ dq ++ "$src" ++ dq ++ " ] && [ -f "
    ++ dq ++ "$src" ++ dq ++ " ] || echo NO_SHELL_BINARY" ++ nl
    ++ "for d in /tmp /workspace /dev/shm; do" ++ nl ++ "  if cp " ++ dq ++ "$src" ++ dq ++ " "
    ++ dq ++ "$d/") ++ plantedBinary ++ (dq ++ " 2>/dev/null; then" ++ nl ++ "    echo " ++ dq ++ "COPIED $d" ++ dq ++ nl
    ++ "  else" ++ nl ++ "    echo " ++ dq ++ "NOCOPY $d" ++ dq ++ nl ++ "    continue" ++ nl
    ++ "  fi" ++ nl ++ "  chmod 4755 " ++ dq ++ "$d/") ++ plantedBinary ++ (dq ++ " 2>/dev/null" ++ nl ++ "  " ++ dq ++ "$d/") ++ plantedBinary ++ (dq ++ " -c 'exit 0' 2>/dev/null && echo " ++ dq ++ "EXECUTED $d" ++ dq ++ nl
    ++ "done" ++ nl).

(** The flags of one line of the probe's output, if it names a mount. *)
Definition checkMount (mountinfo line : string) : T unit :=
  match CutPrefix (TrimSpace line) "COPIED " with
  | None => tret tt
  | Some dir =>
      match mountOptionsFor mountinfo dir with
      | None => tErrorf "%s: no mount in the guest's table governs the writable path %s: %q"
      | Some opts =>
          tfor ["noexec"; "nosuid"] (fun flag =>
            twhen (negb (existsb (String.eqb flag) (Split opts ",")))
              (tErrorf "%s: writable mount %s is not %s: %q"))
      end
  end.

Definition propWritableMountsAreNoexecNosuid (cfg : Config) : T unit :=
  b <~ newBackend cfg;;
  sb <~ create b (sbName cfg "openblox-conf-noexec") [];;
  out <~ run sb noexecProbe;;
  _ <~ twhen (Contains out "NO_SHELL_BINARY")
    (tFatalf "%s: probe cannot locate a shell binary to copy, so its attack step cannot run: %q");;
  _ <~ twhen (negb (Contains out "COPIED "))
    (tFatalf "%s: the probe could not plant its binary on any writable mount, so nothing below attempted to execute one: %q");;
  _ <~ twhen (Contains out "EXECUTED") (tErrorf "%s: EXECUTED: %q");;
  mountinfo <~ run sb "cat /proc/self/mountinfo";;
  _ <~ twhen (String.eqb (TrimSpace mountinfo) "")
    (tFatalf "%s: the guest's own mount table is empty, so the flags below cannot be checked");;
  tfor (Split out nlc) (checkMount mountinfo).

Definition propCreateRefusesRoot (cfg : Config) : T unit :=
  b <~ newBackend cfg;;
  tfor ["0:0"; "root"; "1000:0"] (fun user =>
    img <~ image;;
    r <~ do (SCreate b (sbName cfg "openblox-conf-root") [WithImage img; WithUser user]);;
    if match r with Err err => Is err ErrInvalid | Ok _ => false end then tret tt
    else
      _ <~ do (SDestroy TContext b (sbName cfg "openblox-conf-root"));;
      tErrorf "%s: Create(user %q) = %v, want ErrInvalid").

(** ** network.go *)

Definition propNoHostOrMetadataAddresses (cfg : Config) : T unit :=
  b <~ newBackend cfg;;
  sb <~ create b (sbName cfg "openblox-conf-net") [];;
  out <~ run sb "nc -l -p 18080 >/dev/null 2>&1 & sleep 1; nc -z -w 2 127.0.0.1 18080 && echo LOOPBACK_OK";;
  _ <~ twhen (negb (Contains out "LOOPBACK_OK"))
    (tFatalf "%s: probe cannot reach the sandbox's own loopback, so its failures below would prove nothing: %q");;
  _ <~ tfor networkProbeTargets (fun target =>
    host <~ shellQuote (fst target);;
    port <~ shellQuote (snd target);;
    out <~ run sb ("nc -z -w 2 " ++ host ++ " " ++ port ++ " && echo REACHED");;
    twhen (Contains out "REACHED") (tErrorf "%s: sandbox reached %s:%s"));;
  out <~ run sb egressProbe;;
  _ <~ twhen (Contains out "NO_PYTHON")
    (tFatalf "%s: probe requires python3, which the pinned reference image must provide: %q");;
  _ <~ twhen (negb (Contains out "PYTHON_NET_OK"))
    (tFatalf "%s: the probe's own socket layer does not work, so the absences below would prove nothing: %q");;
  noMarkers "%s: egress attempt succeeded: %s in %q" out ["REACHED_TLS"; "REACHED6"; "RESOLVED"].

(** The listener accepts and closes connections until it is closed. *)
Definition propLoopbackIsNotTheHosts (cfg : Config) : T unit :=
  ln <~ do SHostListen;;
  match ln with
  | Err _ => tFatalf "%s: listen on host loopback: %v"
  | Ok port =>
      tdefer (call SHostUnlisten)
        (b <~ newBackend cfg;;
         sb <~ create b (sbName cfg "openblox-conf-hostlo") [];;
         q <~ shellQuote (Itoa port);;
         out <~ run sb ("nc -z -w 2 127.0.0.1 " ++ q ++ " && echo REACHED");;
         twhen (Contains out "REACHED")
           (tErrorf "%s: sandbox reached a listener on the HOST's loopback (port %s)"))
  end.

(** The loop over the lines of /proc/net/dev; whether lo was among them. *)
Fixpoint interfaces (lines : list string) (sawLoopback : bool) : T bool :=
  match lines with
  | [] => tret sawLoopback
  | line :: lines =>
      match Cut (TrimSpace line) ":" with
      | None => interfaces lines sawLoopback
      | Some (iface, _) =>
          if String.eqb iface "lo" then interfaces lines true
          else
            _ <~ tErrorf "%s: sandbox has network interface %q; want only lo";;
            interfaces lines sawLoopback
      end
  end.

Definition propOnlyLoopbackInterface (cfg : Config) : T unit :=
  b <~ newBackend cfg;;
  sb <~ create b (sbName cfg "openblox-conf-ifaces") [];;
  out <~ run sb "cat /proc/net/dev";;
  sawLoopback <~ interfaces (Split out nlc) false;;
  twhen (negb sawLoopback)
    (tFatalf "%s: the probe read no lo interface out of /proc/net/dev, so it has not read the interface table at all: %q").
End probes.

(** The sweep after a run removes only what carries this process's suffix. *)
Lemma sweep_own {B H} plantedSuffix :
  safe (fun X (e : suiteE B H X) =>
      match e with SRemove p => exists q, p = q ++ plantedSuffix | _ => False end)
    (sweepPlantedArtifacts plantedSuffix) (fun _ => True).
Proof.
  repeat (split; [eexists; unfold plantedBinary, plantedFile, knobControl, plantedNode, injectedA, injectedB;
    by rewrite <- ?sapp_assoc|intros []]). done.
Qed.

(** ** The mount that governs a directory *)

(** The mount point and options of a line of a mount table. *)
Definition mount_entry (line : string) : option (string * string) :=
  match Fields line with
  | _ :: _ :: _ :: _ :: mp :: opts :: _ => Some (mp, opts)
  | _ => None
  end.

Definition mounts (mountinfo : string) : list (string * string) :=
  omap mount_entry (Split mountinfo nlc).

(** [best] is the longest governing entry of [l], or of [l] and what came
    before. *)
Definition longest_of (dir : string) (l : list (string * string)) (r : option (string * string)) : Prop :=
  match r with
  | Some (mp, opts) => (mp, opts) ∈ l /\ governs mp dir = true /\
      forall mp' opts', (mp', opts') ∈ l -> governs mp' dir = true ->
        (String.length mp' <= String.length mp)%nat
  | None => forall mp' opts', (mp', opts') ∈ l -> governs mp' dir = false
  end.

Lemma mountLoop_longest dir lines before best :
  longest_of dir before best ->
  longest_of dir (before ++ omap mount_entry lines) (mountLoop dir lines best).
Proof.
  revert before best. induction lines as [|line lines IH]; intros before best Hb; cbn [mountLoop].
  { change (omap mount_entry []) with (@nil (string * string)). by rewrite app_nil_r. }
  assert (Hskip : mount_entry line = None -> longest_of dir (before ++ omap mount_entry (line :: lines)) (mountLoop dir lines best)).
  { intros He. cbn. rewrite He. by apply IH. }
  unfold mount_entry in Hskip at 1.
  destruct (Fields line) as [|f1 [|f2 [|f3 [|f4 [|mp [|opts rest]]]]]] eqn:Ef; try (by apply Hskip).
  assert (Ho : omap mount_entry (line :: lines) = (mp, opts) :: omap mount_entry lines).
  { cbn. unfold mount_entry at 1. by rewrite Ef. }
  rewrite Ho. replace (before ++ _ :: _)%list with ((before ++ [(mp, opts)]) ++ omap mount_entry lines)%list
    by (by rewrite <- app_assoc).
  assert (Hin : forall mp' opts', (mp', opts') ∈ (before ++ [(mp, opts)])%list ->
    (mp', opts') ∈ before \/ mp' = mp) by (intros *; rewrite elem_of_app, list_elem_of_singleton; naive_solver).
  destruct (governs mp dir) eqn:Eg.
  - assert (Hnew : (forall mp' opts', (mp', opts') ∈ before -> governs mp' dir = true ->
      (String.length mp' <= String.length mp)%nat) -> longest_of dir (before ++ [(mp, opts)]) (Some (mp, opts))).
    { intros Hle. split_and!; [set_solver|done|]. intros mp' o' [Hi| ->]%Hin Hg; [eauto|done]. }
    destruct best as [[b bo]|]; [destruct (Nat.ltb_spec (String.length b) (String.length mp)) as [Hlt|Hge]|]; apply IH.
    + apply Hnew. intros mp' o' Hi Hg. destruct Hb as (_ & _ & Hb). specialize (Hb _ _ Hi Hg). lia.
    + destruct Hb as (Hi & Hg & Hb). split_and!; [set_solver|done|]. intros mp' o' [Hi'| ->]%Hin Hg'; [eauto|done].
    + apply Hnew. intros mp' o' Hi Hg. by rewrite (Hb _ _ Hi) in Hg.
  - apply IH. destruct best as [[b bo]|].
    + destruct Hb as (Hi & Hg & Hb). split_and!; [set_solver|done|].
      intros mp' o' [Hi'| ->]%Hin Hg'; [eauto|congruence].
    + intros mp' o' [Hi| ->]%Hin; eauto.
Qed.

(** The flags [propWritableMountsAreNoexecNosuid] checks are those of the
    mount the directory is on: [mountOptionsFor] answers the options of the
    entry of the guest's table with the longest mount point among those that
    are the directory or above it, and answers nothing only if there is none. *)
Theorem mountOptionsFor_longest mountinfo dir :
  match mountOptionsFor mountinfo dir with
  | Some opts => exists mp, (mp, opts) ∈ mounts mountinfo /\ governs mp dir = true /\
      forall mp' opts', (mp', opts') ∈ mounts mountinfo -> governs mp' dir = true ->
        (String.length mp' <= String.length mp)%nat
  | None => forall mp opts, (mp, opts) ∈ mounts mountinfo -> governs mp dir = false
  end.
Proof.
  pose proof (mountLoop_longest dir (Split mountinfo nlc) [] None) as Hl.
  unfold mountOptionsFor, mounts. destruct (mountLoop dir (Split mountinfo nlc) None) as [[mp opts]|]; cbn in *.
  - destruct Hl as (H1 & H2 & H3); [set_solver|]. by exists mp.
  - apply Hl. set_solver.
Qed.

(** Of two mounts stacked on one mount point the kernel uses the later, the
    suite reads the earlier: its flags hide those in force. *)
Example stacked_mount_flags :
  mountOptionsFor ("30 25 0:40 / /tmp rw,nosuid,noexec - tmpfs tmpfs rw" ++ nl ++
    "31 30 0:41 / /tmp rw - tmpfs tmpfs rw") "/tmp" = Some "rw,nosuid,noexec".
Proof. reflexivity. Qed.
