(* ===== verification/ConformanceCore.v ===== *)
(** * pkg/conformance: processes, lifecycle, the host, and the two tiers

    process.go, lifecycle.go, hostlocal.go and the tables of conformance.go. *)

From S2P Require Import Prelude GoErrors GoStrings GoFloat64 GoDuration GoTime GoNet GoHttp GoText Effects GoTesting Sandbox Conformance ConformanceProbes.

Section core.
Context {B H : Type}.
Variables (plantedSuffix detachedSleep : string).

Abbreviation T := (GoTesting.T (suiteE B H)).
Abbreviation do := (@tdo (suiteE B H) _).

Definition isErr {A} (r : result A) (s : sentinel) : bool :=
  match r with Err err => Is err s | Ok _ => false end.

(** ** process.go *)

Definition countScript (pattern : string) : string :=
  ("n=0; for f in /proc/[0-9]*/cmdline; do tr '\0' ' ' 2>/dev/null <" ++ dq ++ "$f" ++ dq
    ++ " | grep -q ") ++ pattern
  ++ " && n=$((n+1)); done; echo $n".

Definition countProcs (sb : H) (marker : string) : T Z :=
  q <~ shellQuote (countPattern marker);;
  res <~ exec sb ["sh"; "-c"; countScript q] probeTimeout;;
  match res with
  | Err _ => tFatalf "%s: count processes matching %q: Exec = %v"
  | Ok res =>
      match Atoi (TrimSpace (Stdout res)) with
      | None => tFatalf "%s: count processes matching %q: unparseable probe output %q"
      | Some n => tret n
      end
  end.

Definition propTimedOutCommandKillsChildren (cfg : Config) : T unit :=
  b <~ newBackend cfg;;
  sb <~ create b (sbName cfg "openblox-conf-timeoutkill") [];;
  err <~ exec sb ["sh"; "-c"; "sleep 3131 & sleep 3132 & while :; do :; done"] (2 * Second);;
  _ <~ twhen (negb (isErr err ErrTimeout)) (tFatalf "%s: Exec = %v, want ErrTimeout");;
  n <~ countProcs sb "sleep 313";;
  _ <~ twhen (negb (n =? 0)) (tErrorf "%s: %d child processes outlived the timeout");;
  n <~ countProcs sb "while :; do :; done";;
  _ <~ twhen (negb (n =? 0)) (tErrorf "%s: the timed-out command itself is still running (%d)");;
  out <~ run sb "echo alive";;
  twhen (negb (Contains out "alive")) (tErrorf "%s: sandbox unusable after a timeout: %q").

Definition propCancelledCommandIsNotATimeout (cfg : Config) : T unit :=
  b <~ newBackend cfg;;
  sb <~ create b (sbName cfg "openblox-conf-cancel") [];;
  err <~ do (SExecCancelled Second sb (mkCommand ["sleep"; "3133"] [] "" None probeTimeout));;
  _ <~ twhen (negb (isErr err Canceled)) (tFatalf "%s: Exec = %v, want context.Canceled");;
  _ <~ twhen (isErr err ErrTimeout)
    (tFatalf "%s: Exec = %v, cancellation must not also report ErrTimeout");;
  n <~ countProcs sb "sleep 3133";;
  twhen (negb (n =? 0)) (tErrorf "%s: cancelled command still running (%d)").

(** [for range n]: whether a process with the marker was seen. *)
Fixpoint awaitProc (n : nat) (sb : H) (marker : string) : T bool :=
  match n with
  | O => tret false
  | S n =>
      c <~ countProcs sb marker;;
      if c >? 0 then tret true
      else _ <~ do (SSleep (20 * Millisecond));; awaitProc n sb marker
  end.

Definition propKillGroupWaitsForLateRecord (cfg : Config) : T unit :=
  b <~ newBackend cfg;;
  sb <~ create b (sbName cfg "openblox-conf-killwait") [];;
  _ <~ do (SGoExec sb (mkCommand ["sh"; "-c"; "exec sleep 3138"] [] "" None (10 * Second)));;
  seen <~ awaitProc 50 sb "sleep 3138";;
  _ <~ do SCancelGo;;
  _ <~ twhen (negb seen)
    (tFatalf "%s: probe never observed %q running; the tight-timeout race below would prove nothing");;
  err <~ exec sb ["sh"; "-c"; "exec sleep 3137"] (100 * Millisecond);;
  _ <~ twhen (negb (isErr err ErrTimeout)) (tFatalf "%s: Exec = %v, want ErrTimeout");;
  n <~ countProcs sb "sleep 3137";;
  twhen (negb (n =? 0))
    (tErrorf "%s: the kill gave up before a record of the command existed: %d still running").

Definition propTimeoutKillIsScopedToItsCommand (cfg : Config) : T unit :=
  b <~ newBackend cfg;;
  sb <~ create b (sbName cfg "openblox-conf-killscope") [];;
  err <~ do (SStartProcess sb "server" (mkCommand ["sleep"; "3135"] [] "" None 0));;
  _ <~ twhen (negb (is_ok err)) (tFatalf "%s: StartProcess = %v");;
  err <~ exec sb ["sh"; "-c"; "while :; do :; done"] Second;;
  _ <~ twhen (negb (isErr err ErrTimeout)) (tFatalf "%s: Exec = %v, want ErrTimeout");;
  n <~ countProcs sb "sleep 3135";;
  twhen (negb (n =? 1))
    (tErrorf "%s: background process count = %d after an unrelated timeout, want 1").

Definition propSetsidEscapesTheTimeoutKill (cfg : Config) : T unit :=
  b <~ newBackend cfg;;
  sb <~ create b (sbName cfg "openblox-conf-setsid") [];;
  out <~ run sb "command -v setsid || echo MISSING";;
  _ <~ twhen (Contains out "MISSING")
    (tFatalf "%s: probe requires setsid, which the pinned reference image must provide: %q");;
  let detached := "sleep " ++ detachedSleep in
  err <~ exec sb ["sh"; "-c"; "setsid " ++ detached ++ " </dev/null >/dev/null 2>&1 & while :; do :; done"] Second;;
  _ <~ twhen (negb (isErr err ErrTimeout)) (tFatalf "%s: Exec = %v, want ErrTimeout");;
  n <~ countProcs sb detached;;
  twhen (negb (n =? 1))
    (tErrorf "%s: setsid process count = %d; if the kill now reaches it, update ErrTimeout's documentation").

Definition slen (s : string) : Z := Z.of_nat (String.length s).

Definition propOutputFloodIsCapped (cfg : Config) : T unit :=
  b <~ newBackend cfg;;
  sb <~ create b (sbName cfg "openblox-conf-flood") [];;
  res <~ exec sb ["sh"; "-c"; "head -c 50000000 /dev/zero; head -c 50000000 /dev/zero >&2; exit 4"] probeTimeout;;
  match res with
  | Err _ => tFatalf "%s: Exec = %v"
  | Ok res =>
      _ <~ twhen (negb (Truncated res)) (tErrorf "%s: Truncated = false after 50 MB on each stream");;
      _ <~ twhen (negb (slen (Stdout res) =? MaxOutputBytes) || negb (slen (Stderr res) =? MaxOutputBytes))
        (tErrorf "%s: kept %d/%d bytes, want %d on each");;
      twhen (negb (ExitCode res =? 4))
        (tErrorf "%s: exit code = %d, want 4: the stream must be drained so the command finishes")
  end.

(** ** lifecycle.go *)

Definition plantScript : string :=
  let f := plantedFile plantedSuffix in
  "echo a-data > /workspace/" ++ f ++ "; echo a-data > /tmp/" ++ f ++ "; echo a-data > /dev/shm/" ++ f
  ++ (" 2>/dev/null" ++ nl ++ "cat /workspace/") ++ f ++ " /tmp/" ++ f ++ " 2>/dev/null".

Definition propSandboxesShareNoState (cfg : Config) : T unit :=
  let f := plantedFile plantedSuffix in
  _ <~ do (SSetenv "OPENBLOX_HOST_SECRET" "host-secret-value");;
  b <~ newBackend cfg;;
  a <~ create b (sbName cfg "openblox-conf-iso-a") [WithEnv ["TENANT_TOKEN=a-secret"]];;
  other <~ create b (sbName cfg "openblox-conf-iso-b") [];;
  planted <~ run a plantScript;;
  _ <~ twhen (negb (Contains planted "a-data"))
    (tFatalf "%s: sandbox A could not write the state B is about to be checked for: %q");;
  out <~ run other ("cat /workspace/" ++ f ++ " /tmp/" ++ f ++ " /dev/shm/" ++ f ++ " 2>/dev/null; env");;
  _ <~ noMarkers "%s: sandbox B sees %q" out ["a-data"; "a-secret"; "host-secret-value"];;
  aEnv <~ run a "env";;
  _ <~ twhen (negb (Contains aEnv "a-secret"))
    (tFatalf "%s: sandbox A was not given the environment B is being checked for: %q");;
  _ <~ twhen (Contains aEnv "host-secret-value")
    (tErrorf "%s: the calling process's environment leaked into the sandbox");;
  err <~ do (SDestroy TContext b (sbName cfg "openblox-conf-iso-a"));;
  _ <~ twhen (negb (is_ok err)) (tFatalf "%s: Destroy = %v");;
  again <~ create b (sbName cfg "openblox-conf-iso-a") [];;
  out <~ run again ("cat /workspace/" ++ f ++ " /tmp/" ++ f ++ " 2>/dev/null; env");;
  twhen (Contains out "a-data" || Contains out "a-secret")
    (tErrorf "%s: a re-created sandbox inherited its predecessor's state: %q").

(** The polling loop.  A turn sleeps 200 ms and the deadline is 20 s away, so
    102 turns outlast it; a loop that went on would end as go test's own
    -timeout ends it, in a panic. *)
Definition pollFuel : nat := 102.

Fixpoint awaitStopped (fuel : nat) (b : B) (name : string) (deadline : time) : T unit :=
  match fuel with
  | O => tpanic
  | S fuel =>
      current <~ do (SOpen b name);;
      stopped <~ match current with
        | Ok current => info <~ do (SInfo current);; tret (String.eqb (InfoState info) StateStopped)
        | Err _ => tret false
        end;;
      if (stopped : bool) then tret tt
      else
        now <~ do SNow;;
        if After now deadline then
          tFatalf "%s: sandbox still not stopped 20s after its init was killed (err %v)"
        else _ <~ do (SSleep (200 * Millisecond));; awaitStopped fuel b name deadline
  end.

Definition propCrashedSandboxRecoversThroughCreate (cfg : Config) : T unit :=
  b <~ newBackend cfg;;
  let name := sbName cfg "openblox-conf-crash" in
  sb <~ create b name [];;
  _ <~ exec sb ["sh"; "-c"; "kill -9 1"] (10 * Second);;
  now <~ do SNow;;
  _ <~ awaitStopped pollFuel b name (now + 20 * Second);;
  start <~ do SNow;;
  err <~ exec sb ["true"] probeTimeout;;
  _ <~ twhen (negb (isErr err ErrStopped))
    (tErrorf "%s: Exec on a crashed sandbox = %v, want ErrStopped");;
  now <~ do SNow;;
  _ <~ twhen (Sub now start >? 10 * Second)
    (tErrorf "%s: Exec on a crashed sandbox hung instead of failing");;
  img <~ image;;
  back <~ do (SCreate b name [WithImage img]);;
  match back with
  | Err _ => tFatalf "%s: Create after crash = %v"
  | Ok back =>
      out <~ run back "echo back";;
      twhen (negb (Contains out "back"))
        (tErrorf "%s: sandbox not usable after Create brought it back: %q")
  end.

Definition propStoppedSandboxIsReplacedByCreate (cfg : Config) : T unit :=
  b <~ newBackend cfg;;
  let name := sbName cfg "openblox-conf-restart" in
  sb <~ create b name [WithLabel "policy" "old"];;
  err <~ do (SStop sb);;
  _ <~ twhen (negb (is_ok err)) (tFatalf "%s: Stop = %v");;
  img <~ image;;
  back <~ do (SCreate b name [WithImage img; WithLabel "policy" "new"]);;
  match back with
  | Err _ => tFatalf "%s: Create = %v"
  | Ok back =>
      info <~ do (SInfo back);;
      _ <~ twhen (negb (String.eqb (InfoState info) StateRunning))
        (tErrorf "%s: state after Create = %s, want running");;
      old <~ do (SInfo sb);;
      _ <~ twhen (String.eqb (InfoID info) (InfoID old))
        (tErrorf "%s: Create restarted the stopped container instead of replacing it");;
      _ <~ twhen (negb (String.eqb (default "" (InfoLabels info !! "policy")) "new"))
        (tErrorf "%s: policy label = %q, want the options passed to this Create");;
      out <~ run back "echo ok";;
      twhen (negb (Contains out "ok")) (tErrorf "%s: Exec after replacement: %q")
  end.

Definition propArgvIsNeverAShellBuiltin (cfg : Config) : T unit :=
  b <~ newBackend cfg;;
  sb <~ create b (sbName cfg "openblox-conf-builtin") [];;
  res <~ exec sb ["exit"; "3"] probeTimeout;;
  twhen (match res with Ok res => ExitCode res =? 3 | Err _ => false end)
    (tErrorf ("%s: argv[0] " ++ dq ++ "exit" ++ dq ++ " ran as the shell builtin")).

Definition propDestroyRemovesTheSandbox (cfg : Config) : T unit :=
  b <~ newBackend cfg;;
  let name := sbName cfg "openblox-conf-destroy" in
  img <~ image;;
  r <~ do (SCreate b name [WithImage img]);;
  match r with
  | Err _ => tFatalf "%s: Create = %v"
  | Ok _ =>
      _ <~ tCleanup (destroyIgnored b name);;
      err <~ do (SDestroy TContext b name);;
      _ <~ twhen (negb (is_ok err)) (tFatalf "%s: Destroy = %v");;
      opened <~ do (SOpen b name);;
      _ <~ twhen (negb (isErr opened ErrNotFound))
        (tErrorf "%s: Open after Destroy = %v, want ErrNotFound");;
      infos <~ do (SList b);;
      match infos with
      | Err _ => tFatalf "%s: List = %v"
      | Ok infos =>
          _ <~ tfor infos (fun info =>
            twhen (String.eqb (InfoName info) name) (tErrorf "%s: List still reports %q after Destroy"));;
          err <~ do (SDestroy TContext b name);;
          twhen (negb (is_ok err)) (tErrorf "%s: second Destroy = %v, want nil")
      end
  end.

(** ** hostlocal.go *)

(** [hostProcServing]: the first process whose command line mentions [id]. *)
Fixpoint scanProcs (id : string) (pids : list string) : T string :=
  match pids with
  | [] => tret ""
  | pid :: pids =>
      cmdline <~ do (SReadHostFile ("/proc/" ++ pid ++ "/cmdline"));;
      match cmdline with
      | Err _ => scanProcs id pids
      | Ok cmdline => if Contains cmdline id then tret pid else scanProcs id pids
      end
  end.

Definition hostProcServing (id : string) : T (result string) :=
  entries <~ do (SReadDir "/proc");;
  match entries with
  | Err err => tret (Err (Errorf "read /proc = %w; a host process leak cannot be measured, and an unmeasured scan must not read as containment" [AWrap err]))
  | Ok entries => pid <~ scanProcs id entries;; tret (Ok pid)
  end.

(** One create, use and destroy cycle; the sandbox's identifier. *)
Definition cycle (cfg : Config) (b : B) (i : Z) (probe : bool) : T string :=
  let name := sbName cfg ("openblox-conf-leak-" ++ Itoa i) in
  let f := "/workspace/" ++ plantedFile plantedSuffix in
  img <~ image;;
  sb <~ do (SCreate b name [WithImage img]);;
  match sb with
  | Err _ => tFatalf "%s: Create #%d = %v"
  | Ok sb =>
      info <~ do (SInfo sb);;
      let id := InfoID info in
      _ <~ twhen (String.eqb id "")
        (tFatalf "%s: Info().ID is empty; every scan below would match every process on the host");;
      _ <~ exec sb ["sh"; "-c"; "sleep 5 & echo hi"] Second;;
      err <~ do (SWriteFile sb f 420 "data");;
      _ <~ twhen (negb (is_ok err))
        (tFatalf "%s: WriteFile #%d = %v; the descriptor count would not cover the file path");;
      rc <~ do (SReadFile sb f);;
      match rc with
      | Err _ => tFatalf "%s: ReadFile #%d = %v; the descriptor count would not cover the file path"
      | Ok rc =>
          _ <~ do (SCloseReader rc);;
          _ <~ (if probe then
                  pid <~ hostProcServing id;;
                  match pid with
                  | Err _ => tFatalf "%s: %v"
                  | Ok pid => twhen (String.eqb pid "")
                      (tFatalf "%s: no host process mentions live sandbox %s, so an absent match after Destroy would prove nothing about process leaks on this backend")
                  end
                else tret tt);;
          err <~ do (SDestroy TContext b name);;
          _ <~ twhen (negb (is_ok err)) (tFatalf "%s: Destroy #%d = %v");;
          tret id
      end
  end.

Definition processLocal : T (Z * Z) :=
  entries <~ do (SReadDir "/proc/self/fd");;
  match entries with
  | Err _ => tFatalf "%s: read /proc/self/fd = %v; descriptor growth cannot be measured"
  | Ok entries => g <~ do SNumGoroutine;; tret (g, Z.of_nat (length entries))
  end.

(** [for i := range n] *)
Fixpoint cycles (cfg : Config) (b : B) (idx : list Z) (ids : list string) : T (list string) :=
  match idx with
  | [] => tret ids
  | i :: idx => id <~ cycle cfg b i false;; cycles cfg b idx (ids ++ [id])
  end.

Definition propHostRetainsNothing (cfg : Config) : T unit :=
  b <~ newBackend cfg;;
  id <~ cycle cfg b (-1) true;;
  _ <~ do (SSleep (2 * Second));;
  before <~ processLocal;;
  ids <~ cycles cfg b (map Z.of_nat (seq 0 hostLeakIterations)) [id];;
  _ <~ do (SSleep (3 * Second));;
  after <~ processLocal;;
  _ <~ twhen (fst after >? fst before + 5) (tErrorf "%s: goroutines grew %d -> %d");;
  _ <~ twhen (snd after >? snd before + 5) (tErrorf "%s: file descriptors grew %d -> %d");;
  tfor ids (fun id =>
    pid <~ hostProcServing id;;
    match pid with
    | Err _ => tFatalf "%s: %v"
    | Ok pid => twhen (negb (String.eqb pid ""))
        (tErrorf "%s: host process %s still serves destroyed container %s")
    end).

Definition propHostFilesAreInvisible (cfg : Config) : T unit :=
  marker <~ do (SCreateTemp "openblox-conf-host-marker-*");;
  match marker with
  | Err _ => tFatalf "%s: CreateTemp = %v"
  | Ok marker =>
      tdefer (call (SRemove marker))
        (b <~ newBackend cfg;;
         sb <~ create b (sbName cfg "openblox-conf-hostfiles") [];;
         res <~ exec sb ["test"; "-e"; marker] probeTimeout;;
         twhen (match res with Ok res => ExitCode res =? 0 | Err _ => false end)
           (tErrorf "%s: host temp file %s is visible inside the sandbox"))
  end.

(** ** The tiers *)

Definition core : list (@property B H) :=
  [mkProperty "no-control-plane-socket" propNoControlPlaneSocket;
   mkProperty "no-host-private-or-metadata-addresses" propNoHostOrMetadataAddresses;
   mkProperty "loopback-is-not-the-hosts" propLoopbackIsNotTheHosts;
   mkProperty "only-a-loopback-interface" propOnlyLoopbackInterface;
   mkProperty "cannot-write-kernel-knobs" (propCannotWriteKernelKnobs plantedSuffix);
   mkProperty "no-block-devices" (propNoBlockDevices plantedSuffix);
   mkProperty "no-traversal-out-of-the-guest" (propNoTraversalOutOfGuest plantedSuffix);
   mkProperty "no-capabilities" propNoCapabilities;
   mkProperty "writable-mounts-are-noexec-nosuid" (propWritableMountsAreNoexecNosuid plantedSuffix);
   mkProperty "create-refuses-root" propCreateRefusesRoot;
   mkProperty "timed-out-command-kills-its-children" propTimedOutCommandKillsChildren;
   mkProperty "cancelled-command-is-not-reported-as-timeout" propCancelledCommandIsNotATimeout;
   mkProperty "kill-group-waits-for-a-late-group-record" propKillGroupWaitsForLateRecord;
   mkProperty "timeout-kill-is-scoped-to-its-own-command" propTimeoutKillIsScopedToItsCommand;
   mkProperty "known-escape-setsid-survives-the-timeout-kill" propSetsidEscapesTheTimeoutKill;
   mkProperty "output-flood-is-capped-and-the-command-completes" propOutputFloodIsCapped;
   mkProperty "sandboxes-share-no-state" propSandboxesShareNoState;
   mkProperty "crashed-sandbox-recovers-through-create" propCrashedSandboxRecoversThroughCreate;
   mkProperty "stopped-sandbox-is-replaced-by-create" propStoppedSandboxIsReplacedByCreate;
   mkProperty "argv-is-never-a-shell-builtin" propArgvIsNeverAShellBuiltin;
   mkProperty "destroy-removes-the-sandbox" propDestroyRemovesTheSandbox].

Definition hostLocal : list (@property B H) :=
  [mkProperty "host-retains-no-process-goroutine-or-descriptor" propHostRetainsNothing;
   mkProperty "host-files-are-invisible-to-the-guest" propHostFilesAreInvisible].

Definition Run (cfg : Config) : T unit := walk cfg "core" core.

Definition RunHostLocal (cfg : Config) : T unit := walk cfg "host-local" hostLocal.
End core.
