(* ===== verification/ConformanceCalls.v ===== *)
(** * pkg/conformance: what a run does to the host it measures

    Properties of every execution of the suite, whatever the backend answers:
    which sandboxes it names, and that it leaves none behind. *)

From S2P Require Import Prelude GoErrors GoStrings GoFloat64 GoDuration GoTime GoText Sha256 Effects GoTesting Sandbox.
From S2P Require Import PreviewToken Conformance ConformanceProbes ConformanceCore.

Section calls.
Context {B H : Type}.

Abbreviation T := (GoTesting.T (suiteE B H)).
Abbreviation suite := (prog (suiteE B H)).

(** ** Invariants most calls cannot touch *)

(** The calls that neither name a sandbox nor print a result. *)
Definition neutral (X : Type) (e : suiteE B H X) : Prop :=
  match e with
  | SCreate _ _ _ | SOpen _ _ | SDestroy _ _ _ | SSelects _ | SReport _ _ => False
  | _ => True
  end.

(** An invariant that survives them, and the closing of a backend. *)
Class Indifferent {W : Type} (ok : forall X, suiteE B H X -> W -> Prop)
    (step : forall X, suiteE B H X -> W -> X -> W -> Prop) (J : list (suite unit) -> W -> Prop) : Prop := {
  indifferent_do : forall X (e : suiteE B H X) cs w, neutral X e -> J cs w ->
    ok X e w /\ forall x w', step X e w x w' -> J cs w';
  indifferent_close : forall b cs w, J cs w -> J (call (SClose b) :: cs) w
}.

Section indifferent.
Context {W : Type} (ok : forall X, suiteE B H X -> W -> Prop)
  (step : forall X, suiteE B H X -> W -> X -> W -> Prop) (J : list (suite unit) -> W -> Prop)
  `{!Indifferent ok step J}.

Abbreviation keeps := (@keeps (suiteE B H) W ok step J _).

Lemma keeps_neutral {X} (e : suiteE B H X) : neutral X e -> keeps (tdo e).
Proof. intros He. apply keeps_do. intros cs w. by apply indifferent_do. Qed.

Ltac decompose_test :=
  repeat first [keeps_step | apply keeps_neutral; exact I].

Lemma keeps_image : keeps image.
Proof. unfold image. decompose_test. Qed.

Lemma keeps_newBackend cfg : keeps (newBackend cfg).
Proof. unfold newBackend. decompose_test. apply keeps_Cleanup, indifferent_close. Qed.

Lemma keeps_run sb script : keeps (run sb script).
Proof. unfold run. decompose_test. Qed.

Lemma keeps_exec sb argv timeout : keeps (exec sb argv timeout).
Proof. unfold exec. decompose_test. Qed.

Lemma keeps_shellQuote s : keeps (shellQuote s).
Proof. unfold shellQuote. decompose_test. Qed.

Lemma keeps_noMarkers what out markers : keeps (noMarkers what out markers).
Proof. unfold noMarkers. decompose_test. Qed.

Lemma keeps_countProcs sb marker : keeps (countProcs sb marker).
Proof.
  unfold countProcs. apply keeps_bind; [apply keeps_shellQuote|intros q].
  apply keeps_bind; [apply keeps_exec|intros res]. decompose_test.
Qed.

Lemma keeps_awaitProc n sb marker : keeps (awaitProc n sb marker).
Proof.
  induction n as [|n IH]; cbn [awaitProc]; [apply keeps_ret|].
  apply keeps_bind; [apply keeps_countProcs|intros c]. decompose_test. exact IH.
Qed.

Lemma keeps_interfaces lines saw : keeps (interfaces lines saw).
Proof.
  revert saw. induction lines as [|line lines IH]; intros saw; cbn [interfaces]; [apply keeps_ret|].
  decompose_test; apply IH.
Qed.

Lemma keeps_scanProcs id pids : keeps (scanProcs id pids).
Proof.
  induction pids as [|pid pids IH]; cbn [scanProcs]; decompose_test; exact IH.
Qed.

Lemma keeps_hostProcServing id : keeps (hostProcServing id).
Proof. unfold hostProcServing. decompose_test. apply keeps_scanProcs. Qed.

Lemma keeps_processLocal : keeps processLocal.
Proof. unfold processLocal. decompose_test. Qed.

Lemma keeps_checkMount mountinfo line : keeps (checkMount mountinfo line).
Proof. unfold checkMount. decompose_test. Qed.

(** Closing the host's listener, removing its file. *)
Lemma deferred_neutral (e : suiteE B H unit) cs w :
  neutral unit e -> J cs w -> wp ok step (call e) (fun _ w' => J cs w') w.
Proof. intros He HJ. destruct (indifferent_do _ e cs w He HJ) as [Hok Hs]. by apply wp_call. Qed.
End indifferent.
End calls.

Create HintDb suite.
#[export] Hint Resolve keeps_image keeps_newBackend keeps_run keeps_exec keeps_shellQuote
  keeps_noMarkers keeps_countProcs keeps_awaitProc keeps_interfaces keeps_hostProcServing
  keeps_processLocal keeps_checkMount : suite.

(** Take a property apart, down to the calls that name a sandbox. *)
Ltac suite_step :=
  first [ keeps_step
        | solve [auto with suite nocore typeclass_instances]
        | apply keeps_neutral; [typeclasses eauto|exact I]
        | apply keeps_defer; [intros ? ? ?; apply deferred_neutral; [typeclasses eauto|exact I|assumption]|] ].

(** ** Names *)

Section names.
Context {B H : Type}.
Variables (plantedSuffix detachedSleep : string).

Abbreviation T := (GoTesting.T (suiteE B H)).
Abbreviation suite := (prog (suiteE B H)).

(** The name a call gives to the backend is one of this run's. *)
Definition own_call (cfg : Config) (X : Type) (e : suiteE B H X) : Prop :=
  match e with
  | SCreate _ name _ | SOpen _ name | SDestroy _ _ name => exists base, name = sbName cfg base
  | SSelects _ | SReport _ _ => False
  | _ => True
  end.

(** Calls that satisfy [P], as an invariant: so do those of the cleanups. *)
Definition calling (P : forall X, suiteE B H X -> Prop) : forall X, suiteE B H X -> unit -> Prop :=
  fun X e _ => P X e.
Definition answered (X : Type) (e : suiteE B H X) (_ : unit) (_ : X) (_ : unit) : Prop := True.
Definition cleanups_call (P : forall X, suiteE B H X -> Prop) (cs : list (suite unit)) (_ : unit) : Prop :=
  Forall (fun c => safe P c (fun _ => True)) cs.

Lemma wp_calling P {A} (p : suite A) (Q : A -> Prop) w :
  wp (calling P) answered p (fun a _ => Q a) w -> safe P p Q.
Proof.
  revert w. induction p as [a|X e k IH]; intros w; cbn [wp safe]; [done|].
  intros [He Hk]. split; [exact He|]. intros x. apply (IH x tt). by apply Hk.
Qed.

#[export] Instance own_indifferent cfg :
  Indifferent (calling (own_call cfg)) answered (cleanups_call (own_call cfg)).
Proof. split; [by intros X [] cs w He HJ|]. intros b cs w HJ. by constructor. Qed.

Abbreviation calls_own cfg := (keeps (calling (own_call cfg)) answered (cleanups_call (own_call cfg))).

Lemma own_do cfg {X} (e : suiteE B H X) : own_call cfg X e -> calls_own cfg (tdo e).
Proof. intros He. by apply keeps_do. Qed.

Lemma own_cleanup cfg b base : calls_own cfg (tCleanup (destroyIgnored b (sbName cfg base))).
Proof.
  apply keeps_Cleanup. intros cs w HJ. constructor; [|done]. by split; [exists base|].
Qed.

Lemma own_create cfg b base opts : calls_own cfg (create b (sbName cfg base) opts).
Proof.
  unfold create. repeat suite_step; [|apply own_cleanup]. by apply own_do; exists base.
Qed.

Lemma own_awaitStopped cfg fuel b base deadline :
  calls_own cfg (awaitStopped fuel b (sbName cfg base) deadline).
Proof.
  induction fuel as [|fuel IH]; cbn [awaitStopped]; [apply keeps_panic|].
  apply keeps_bind; [by apply own_do; exists base|]. intros cur. repeat suite_step; exact IH.
Qed.

Lemma own_cycle cfg b i probe : calls_own cfg (cycle plantedSuffix cfg b i probe).
Proof. unfold cycle. repeat suite_step; apply own_do; by eexists. Qed.

Lemma own_cycles cfg b idx ids : calls_own cfg (cycles plantedSuffix cfg b idx ids).
Proof.
  revert ids. induction idx as [|i idx IH]; intros ids; cbn [cycles]; [apply keeps_ret|].
  apply keeps_bind; [apply own_cycle|auto].
Qed.

Ltac own_property :=
  intros cfg; cbn [pfn]; cbv beta delta [propNoControlPlaneSocket propNoHostOrMetadataAddresses
    propLoopbackIsNotTheHosts propOnlyLoopbackInterface propCannotWriteKernelKnobs propNoBlockDevices
    propNoTraversalOutOfGuest propNoCapabilities propWritableMountsAreNoexecNosuid propCreateRefusesRoot
    propTimedOutCommandKillsChildren propCancelledCommandIsNotATimeout propKillGroupWaitsForLateRecord
    propTimeoutKillIsScopedToItsCommand propSetsidEscapesTheTimeoutKill propOutputFloodIsCapped
    propSandboxesShareNoState propCrashedSandboxRecoversThroughCreate propStoppedSandboxIsReplacedByCreate
    propArgvIsNeverAShellBuiltin propDestroyRemovesTheSandbox propHostRetainsNothing propHostFilesAreInvisible];
  repeat first [ suite_step | apply own_create | apply own_awaitStopped | apply own_cleanup
               | apply own_cycle | apply own_cycles
               | apply own_do; by eexists ].

(** Every property of both tiers names this run's sandboxes only, and prints
    nothing. *)
Lemma properties_call_own :
  Forall (fun p => forall cfg, calls_own cfg (pfn p cfg))
    (core plantedSuffix detachedSleep ++ hostLocal plantedSuffix).
Proof. repeat (apply Forall_cons; split; [own_property|]). done. Qed.

Lemma keeps_safe P (f : T unit) :
  keeps (calling P) answered (cleanups_call P) f -> safe P (tRunner f) (fun _ => True).
Proof.
  intros Hf. apply (wp_calling P _ _ tt). unfold tRunner. apply wp_bind.
  eapply wp_mono; [|apply Hf; by constructor]. intros rt [] Hcs. apply wp_bind.
  induction Hcs as [|c cs Hc _ IH]; [done|]. cbn [runCleanups]. apply wp_bind.
  clear - Hc IH. induction c as [a|X e k IHc]; cbn [wp]; [exact IH|].
  destruct Hc as [He Hk]. split; [exact He|]. intros x [] _. by apply IHc.
Qed.
End names.

(** *** Two runs *)

Lemma hex_no_dash b : has_byte "-" (hex b) = false.
Proof. apply (all_bytes_not_has is_hex); [done|apply hex_all]. Qed.

Lemma pid_no_dash pid : 0 <= pid -> has_byte "-" (Itoa pid) = false.
Proof.
  intros Hp. unfold Itoa. zcase. apply (all_bytes_not_has is_digit); [done|apply utoa_digits].
Qed.

(** The text after the last dash. *)
Lemma last_dash a b h k :
  has_byte "-" h = false -> has_byte "-" k = false -> a ++ "-" ++ h = b ++ "-" ++ k -> a = b /\ h = k.
Proof.
  intros Hh Hk E. destruct (sep_align _ _ _ _ _ E) as [?|[(x & ->)|(x & ->)]]; [done| |].
  - rewrite has_byte_app in Hk. cbn in Hk. by rewrite orb_true_r in Hk.
  - rewrite has_byte_app in Hh. cbn in Hh. by rewrite orb_true_r in Hh.
Qed.

Lemma sbName_run cfg base pid b : cfgRun cfg = suffixOf pid b -> sbName cfg base = base ++ "-" ++ suffixOf pid b.
Proof.
  intros Hr. unfold sbName. rewrite Hr. destruct (String.eqb_spec (suffixOf pid b) "") as [E|]; [|done].
  unfold suffixOf in E. by destruct (Itoa pid).
Qed.

(** A name tells its run. *)
Lemma sbName_inj cfg1 cfg2 base1 base2 pid1 b1 pid2 b2 :
  0 <= pid1 -> 0 <= pid2 -> cfgRun cfg1 = suffixOf pid1 b1 -> cfgRun cfg2 = suffixOf pid2 b2 ->
  sbName cfg1 base1 = sbName cfg2 base2 -> base1 = base2 /\ cfgRun cfg1 = cfgRun cfg2.
Proof.
  intros Hp1 Hp2 Hr1 Hr2. rewrite (sbName_run _ _ _ _ Hr1), (sbName_run _ _ _ _ Hr2), Hr1, Hr2.
  unfold suffixOf. rewrite <- !(sapp_assoc base1), <- !(sapp_assoc base2).
  rewrite <- (sapp_assoc (base1 ++ "-")), <- (sapp_assoc (base2 ++ "-")).
  intros [E1 E2]%last_dash; try apply hex_no_dash. rewrite !sapp_assoc in E1.
  apply last_dash in E1 as [-> E1]; [|by apply pid_no_dash..]. by rewrite E1, E2.
Qed.

(** Two runs never touch each other's sandboxes.  Whatever the backend answers,
    each property of either tier, and the preflight, gives the backend only
    names that carry its own run's suffix; and two runs that drew different
    suffixes have no name in common. *)
Theorem runs_never_collide {B H} plantedSuffix detachedSleep cfg1 cfg2 pid1 b1 pid2 b2 :
  0 <= pid1 -> 0 <= pid2 -> cfgRun cfg1 = suffixOf pid1 b1 -> cfgRun cfg2 = suffixOf pid2 b2 ->
  cfgRun cfg1 <> cfgRun cfg2 ->
  (forall p, p ∈ (core plantedSuffix detachedSleep ++ hostLocal plantedSuffix)%list ->
     safe (@own_call B H cfg1) (tRunner (pfn p cfg1)) (fun _ => True)) /\
  safe (@own_call B H cfg1) (tRunner (preflight cfg1)) (fun _ => True) /\
  (forall base1 base2, sbName cfg1 base1 <> sbName cfg2 base2).
Proof.
  intros Hp1 Hp2 Hr1 Hr2 Hne. split_and!.
  - intros p Hp. apply keeps_safe.
    pose proof (@properties_call_own B H plantedSuffix detachedSleep) as Hall.
    rewrite Forall_forall in Hall. by apply Hall.
  - apply keeps_safe. unfold preflight. repeat suite_step; try (apply own_do; by eexists).
    by apply own_cleanup.
  - intros base1 base2 E. by apply (sbName_inj _ _ _ _ pid1 b1 pid2 b2) in E as [_ ?].
Qed.

Lemma runs_never_collide_witness :
  let cfg1 := mkConfig true "docker" (suffixOf 4711 "abcdef") in
  let cfg2 := mkConfig true "docker" (suffixOf 4712 "ghijkl") in
  sbName cfg1 "openblox-conf-net" = "openblox-conf-net-4711-616263646566" /\
  sbName cfg1 "openblox-conf-net" <> sbName cfg2 "openblox-conf-net".
Proof.
  split; [reflexivity|].
  apply (runs_never_collide (B := unit) (H := unit) "" "" _ _ 4711 "abcdef" 4712 "ghijkl"); done.
Defined.

(** ** The verdict on a tier *)

Lemma properties_silent {B H} plantedSuffix detachedSleep cfg :
  Forall (fun p : @property B H => silent (tRunner (pfn p cfg)))
    (core plantedSuffix detachedSleep ++ hostLocal plantedSuffix).
Proof.
  eapply Forall_impl; [apply properties_call_own|]. intros p Hp.
  apply (safe_weaken (own_call cfg)); [|apply keeps_safe, Hp]. by intros X [].
Qed.

(** C31. A green run measured what it claims.  Whatever the backend answers and the
    command line leaves out: the tier's own line is printed after those of the
    properties that ran and says PASS exactly when every one of the tier's
    properties was run and passed, none skipped and none filtered out; once the
    tier was started, the whole run passes exactly when the tier did and no
    image override was in force when the walk asked; and a run reported as
    skipped has started no property. *)
Theorem Run_verdict {B H} plantedSuffix detachedSleep cfg tier (ps : list (@property B H)) (f : GoTesting.T (suiteE B H) unit) :
  (tier, ps, f) ∈ [("core", core plantedSuffix detachedSleep, Run plantedSuffix detachedSleep cfg);
                   ("host-local", hostLocal plantedSuffix, RunHostLocal plantedSuffix cfg)] ->
  wp (@anything B H) transcribe (tRunner f) (fun pt w =>
    let verdict := status_of (fst pt) (snd pt) in
    (reports w = [] \/
     exists rs s, reports w = (rs ++ [(tier, s)])%list /\
       (s = PASS <-> rs = map (fun p => (pname p, PASS)) ps) /\
       (verdict = PASS <-> s = PASS /\ override w = Some "")) /\
    (verdict = SKIP -> reports w = []))
  (mkTranscript [] None).
Proof.
  intros Hin.
  assert (Hs : forall cfg, Forall (fun p : @property B H => silent (tRunner (pfn p cfg))) (core plantedSuffix detachedSleep) /\
    Forall (fun p : @property B H => silent (tRunner (pfn p cfg))) (hostLocal plantedSuffix)).
  { intros cfg'. apply Forall_app, properties_silent. }
  apply list_elem_of_In in Hin as [[= <- <- <-]|[[= <- <- <-]|[]]]; apply walk_verdict; intros cfg'; apply Hs.
Qed.

Lemma Run_verdict_witness :
  wp (@anything unit unit) transcribe (tRunner (Run "1-00" "800001" (mkConfig true "docker" ""))) (fun pt w =>
    status_of (fst pt) (snd pt) = SKIP -> reports w = []) (mkTranscript [] None).
Proof.
  eapply wp_mono; [|apply (Run_verdict "1-00" "800001" (mkConfig true "docker" "") "core" (core "1-00" "800001"));
    left]. intros pt w [_ Hv]. exact Hv.
Defined.
