(* ===== verification/ConformanceTidy.v ===== *)
(** * pkg/conformance: no sandbox is left behind

    Which sandboxes a run has created and not destroyed, which of them the
    backend refused to destroy, and that a run of the core tier ends having
    destroyed every other one, however it ends. *)

From S2P Require Import Prelude GoErrors GoStrings GoFloat64 GoDuration GoTime GoText Effects GoTesting Sandbox.
From S2P Require Import Conformance ConformanceProbes ConformanceCore ConformanceCalls.

Section tidy.
Context {B H : Type}.
Variables (plantedSuffix detachedSleep : string).

Abbreviation T := (GoTesting.T (suiteE B H)).
Abbreviation suite := (prog (suiteE B H)).

(** The sandboxes that were created and have not been destroyed since, by a
    [Destroy] that answered so; and those for which, since they were created, a
    [Destroy] with a context that cannot have been cancelled answered an error. *)
Record ledger : Type := mkLedger { left : gset string; refused : gset string }.

Definition owing (X : Type) (e : suiteE B H X) (o : ledger) : X -> ledger -> Prop :=
  match e in suiteE _ _ X return X -> ledger -> Prop with
  | SCreate _ name _ => fun r o' => o' =
      match r with Ok _ => mkLedger ({[name]} ∪ left o) (refused o ∖ {[name]}) | Err _ => o end
  | SDestroy ctx _ name => fun r o' => o' =
      match r, ctx with
      | Ok _, _ => mkLedger (left o ∖ {[name]}) (refused o)
      | Err _, WithoutCancel => mkLedger (left o) ({[name]} ∪ refused o)
      | Err _, TContext => o
      end
  | _ => fun _ o' => o' = o
  end.

(** Those still to be dealt with. *)
Definition due (o : ledger) : gset string := left o ∖ refused o.

(** The sandbox [propCreateRefusesRoot] asks for, which should not exist. *)
Definition root_sandbox (n : string) : Prop := exists cfg, n = sbName cfg "openblox-conf-root".

Definition any_call (X : Type) (e : suiteE B H X) (o : ledger) : Prop := True.

Abbreviation may := (wp any_call owing).

(** Cleanups that create nothing; a cleanup that deals with a name. *)
Definition creates_none (c : suite unit) : Prop := forall o, may c (fun _ o' => due o' ⊆ due o) o.
Definition destroys (name : string) (c : suite unit) : Prop :=
  forall o, may c (fun _ o' => due o' ⊆ due o ∖ {[name]}) o.

(** Every name due that was not due before the test began, and every name of
    [K], has its cleanup registered. *)
Definition covered (o0 : ledger) (K : list string) (cs : list (suite unit)) (o : ledger) : Prop :=
  Forall creates_none cs /\
  (forall n, n ∈ due o -> n ∈ due o0 \/ root_sandbox n \/ Exists (destroys n) cs) /\
  Forall (fun n => Exists (destroys n) cs) K.

Abbreviation tidy o0 K := (keeps any_call owing (covered o0 K)).

#[export] Instance covered_indifferent o0 K : Indifferent any_call owing (covered o0 K).
Proof.
  split.
  - intros X e cs o He HJ. split; [done|]. intros x o' Hs. destruct e; try done; cbn in Hs; by subst.
  - intros b cs o (H1 & H2 & H3). split_and!.
    + constructor; [|done]. intros o'. split; [done|]. intros x w' ->. cbn. reflexivity.
    + intros n Hn. destruct (H2 n Hn) as [?|[?|?]]; [by left|by right; left|by right; right; constructor 2].
    + eapply Forall_impl; [exact H3|]. intros n Hn. by constructor 2.
Qed.

Lemma destroyIgnored_destroys b name : destroys name (destroyIgnored b name).
Proof. intros o. split; [done|]. intros r o' ->. unfold due. destruct r; cbn; set_solver. Qed.

Lemma destroys_none name c : destroys name c -> creates_none c.
Proof. intros Hc o. eapply wp_mono; [|apply Hc]. intros u o' Ho. set_solver. Qed.

(** A name just created is covered by its cleanup. *)
Lemma covered_create o0 K cs o b name :
  covered o0 K cs o ->
  covered o0 (name :: K) (destroyIgnored b name :: cs) (mkLedger ({[name]} ∪ left o) (refused o ∖ {[name]})).
Proof.
  intros (H1 & H2 & H3). pose proof (destroyIgnored_destroys b name) as Hd. split_and!.
  - constructor; [by eapply destroys_none|done].
  - intros n Hn. destruct (decide (n = name)) as [->|Hne]; [by right; right; constructor|].
    destruct (H2 n) as [?|[?|?]]; [unfold due in *; cbn in Hn; set_solver|by left|by right; left|by right; right; constructor 2].
  - constructor; [by constructor|]. eapply Forall_impl; [exact H3|]. intros n Hn. by constructor 2.
Qed.

Lemma covered_forget o0 K name cs o : covered o0 (name :: K) cs o -> covered o0 K cs o.
Proof. intros (H1 & H2 & H3). split_and!; [done|done|]. by inversion H3. Qed.

(** Create a sandbox, and register its cleanup at once. *)
Lemma tidy_register {A} o0 K b name opts (bad : error -> T A) (good : H -> T A) :
  (forall e, tidy o0 K (bad e)) -> (forall h, tidy o0 (name :: K) (good h)) ->
  tidy o0 K (r <~ tdo (SCreate b name opts);;
             match r with
             | Err e => bad e
             | Ok h => _ <~ tCleanup (destroyIgnored b name);; good h
             end).
Proof.
  intros Hb Hg t o HJ. unfold tbind, tdo. cbn [bind call wp]. split; [done|].
  intros [h|e] o' ->; cbn [bind]; [|by apply Hb]. cbn [tCleanup bind wp].
  eapply wp_mono; [|apply (Hg h); by apply covered_create]. intros rt o' Ho. by apply covered_forget in Ho.
Qed.

Lemma tidy_create {A} o0 K b name opts (f : H -> T A) :
  (forall h, tidy o0 (name :: K) (f h)) -> tidy o0 K (sb <~ create b name opts;; f sb).
Proof.
  intros Hf t o HJ. unfold tbind at 1. apply wp_bind. unfold create. unfold tbind at 1. apply wp_bind.
  eapply wp_mono; [|apply (keeps_image any_call owing (covered o0 K)); exact HJ].
  intros [[img| |] t1] o1 HJ1; [|exact HJ1|exact HJ1]. cbn [snd] in HJ1. unfold tbind, tdo. cbn [bind call wp].
  split; [done|]. intros [h|e] o' ->; cbn [tCleanup tFatalf tret bind wp]; [|exact HJ1].
  eapply wp_mono; [|apply (Hf h); by apply covered_create]. intros rt o' Ho. by apply covered_forget in Ho.
Qed.

Lemma due_create b name opts r o o' :
  owing _ (SCreate b name opts) o r o' -> forall n, n ∈ due o' -> n = name \/ n ∈ due o.
Proof. intros -> n. unfold due. destruct (decide (n = name)), r; cbn [left refused]; set_solver. Qed.

(** A further create of a name that is covered. *)
Lemma tidy_again o0 K b name opts : name ∈ K -> tidy o0 K (tdo (SCreate b name opts)).
Proof.
  intros Hk. apply keeps_do. intros cs o (H1 & H2 & H3). split; [done|]. intros r o' Hs.
  split_and!; [done| |done]. intros n Hn. destruct (decide (n ∈ due o)) as [Ho|Ho]; [by apply H2|].
  apply (due_create _ _ _ _ _ _ Hs) in Hn as [->|?]; [|done].
  right; right. rewrite Forall_forall in H3. by apply H3.
Qed.

Lemma due_destroy ctx b name r o o' :
  owing _ (SDestroy ctx b name) o r o' -> due o' ⊆ due o.
Proof. intros ->. unfold due. destruct r, ctx; cbn; set_solver. Qed.

Lemma tidy_destroy o0 K ctx b name : tidy o0 K (tdo (SDestroy ctx b name)).
Proof.
  apply keeps_do. intros cs o (H1 & H2 & H3). split; [done|]. intros r o' Ho%due_destroy.
  split_and!; [done| |done]. intros n Hn. apply H2. set_solver.
Qed.

Lemma tidy_open o0 K b name : tidy o0 K (tdo (SOpen b name)).
Proof. apply keeps_do. intros cs o HJ. split; [done|]. by intros r o' ->. Qed.

Lemma tidy_awaitStopped o0 K fuel b name deadline : tidy o0 K (awaitStopped fuel b name deadline).
Proof.
  induction fuel as [|fuel IH]; cbn [awaitStopped]; [apply keeps_panic|].
  apply keeps_bind; [apply tidy_open|]. intros cur. repeat suite_step; exact IH.
Qed.

(** [propCreateRefusesRoot]'s own way: a sandbox that should not exist is
    destroyed on the spot, with no cleanup. *)
Lemma tidy_refuse o0 K b name opts what :
  root_sandbox name ->
  tidy o0 K (r <~ tdo (SCreate b name opts);;
    if match r with Err err => Is err ErrInvalid | Ok _ => false end then tret tt
    else _ <~ tdo (SDestroy TContext b name);; tErrorf what).
Proof.
  intros Hroot t o HJ. unfold tbind, tdo. cbn [bind call wp]. split; [done|]. intros r o1 Hs.
  assert (Hd : forall o2, due o2 ⊆ {[name]} ∪ due o -> covered o0 K (cleanups t) o2).
  { intros o2 Ho2. destruct HJ as (H1 & H2 & H3). split_and!; [done| |done]. intros n Hn.
    destruct (decide (n = name)) as [->|Hne]; [by right; left|]. apply H2. set_solver. }
  assert (Ho1 : due o1 ⊆ {[name]} ∪ due o).
  { intros n Hn. apply (due_create _ _ _ _ _ _ Hs) in Hn as [->|?]; set_solver. }
  destruct (match r with Err err => _ | Ok _ => _ end); [by apply Hd|].
  cbn [tbind bind call wp tErrorf]. split; [done|]. intros r2 o2 Ho%due_destroy. apply Hd. set_solver.
Qed.

Ltac tidy_step :=
  first [ apply tidy_create; intros ? | apply tidy_register; intros ? | apply tidy_refuse; [by eexists]
        | suite_step | apply tidy_destroy | apply tidy_open | apply tidy_awaitStopped
        | apply tidy_again; set_solver ].

Ltac tidy_property :=
  intros cfg o0; cbn [pfn]; cbv beta delta [propNoControlPlaneSocket propNoHostOrMetadataAddresses
    propLoopbackIsNotTheHosts propOnlyLoopbackInterface propCannotWriteKernelKnobs propNoBlockDevices
    propNoTraversalOutOfGuest propNoCapabilities propWritableMountsAreNoexecNosuid propCreateRefusesRoot
    propTimedOutCommandKillsChildren propCancelledCommandIsNotATimeout propKillGroupWaitsForLateRecord
    propTimeoutKillIsScopedToItsCommand propSetsidEscapesTheTimeoutKill propOutputFloodIsCapped
    propSandboxesShareNoState propCrashedSandboxRecoversThroughCreate propStoppedSandboxIsReplacedByCreate
    propArgvIsNeverAShellBuiltin propDestroyRemovesTheSandbox propHostFilesAreInvisible];
  repeat tidy_step.

Lemma core_tidy :
  Forall (fun p => forall cfg o0, tidy o0 [] (pfn p cfg)) (core plantedSuffix detachedSleep).
Proof. repeat (apply Forall_cons; split; [tidy_property|]). done. Qed.

(** ** From the properties to the run *)

Lemma runCleanups_covered cs o :
  Forall creates_none cs ->
  may (runCleanups cs) (fun _ o' => due o' ⊆ due o /\ forall n, Exists (destroys n) cs -> n ∉ due o') o.
Proof.
  intros Hcs. revert o. induction Hcs as [|c cs Hc Hcs IH]; intros o; cbn [runCleanups].
  { split; [reflexivity|]. intros n Hn. by inversion Hn. }
  apply wp_bind. eapply wp_mono; [|apply (wp_all _ _ (fun n => destroys n c) _ _
    (fun n _ o' => due o' ⊆ due o ∖ {[n]}) o (Hc o)); auto].
  intros u o1 [Ho1 Hd]. eapply wp_mono; [|apply IH]. intros u' o2 [Ho2 Hd2]. split; [set_solver|].
  intros n Hn. inversion Hn as [? ? Hdn|]; subst; [|by apply Hd2]. specialize (Hd n Hdn). set_solver.
Qed.

(** A test that keeps its names covered leaves none of its own due. *)
Lemma tidy_tRunner (f : T unit) o :
  (forall o0, tidy o0 [] f) ->
  may (tRunner f) (fun _ o' => forall n, n ∈ due o' -> n ∈ due o \/ root_sandbox n) o.
Proof.
  intros Hf. unfold tRunner. apply wp_bind. eapply wp_mono; [|apply (Hf o fresh o)].
  - intros rt o1 (H1 & H2 & _). apply wp_bind. eapply wp_mono; [|by apply runCleanups_covered].
    intros u o2 [Ho2 Hd]. cbn. intros n Hn. destruct (H2 n) as [?|[?|Hx]]; [set_solver|by left|by right|].
    by apply Hd in Hx.
  - split_and!; [done| |done]. intros n Hn. by left.
Qed.

Lemma tidy_tRun o0 K name (f : T unit) :
  (forall o, tidy o [] f) -> tidy o0 K (tRun SSelects SReport name f).
Proof.
  intros Hf t o HJ. unfold tRun, tbind, tdo. cbn [bind call wp]. split; [done|]. intros sel o1 ->.
  destruct sel; [|exact HJ]. apply wp_bind. eapply wp_mono; [|by apply tidy_tRunner].
  intros [panicked t'] o1 Ho1. cbn [bind call wp]. split; [done|]. intros u o2 ->.
  assert (HJ1 : covered o0 K (cleanups t) o1).
  { destruct HJ as (H1 & H2 & H3). split_and!; [done| |done]. intros n Hn.
    destruct (Ho1 n Hn) as [?|?]; [by apply H2|by right; left]. }
  by destruct panicked.
Qed.

Lemma tidy_runAll o0 K cfg ps ns nf :
  Forall (fun p : property => forall o, tidy o [] (pfn p cfg)) ps -> tidy o0 K (runAll cfg ps ns nf).
Proof.
  intros Hps. revert ns nf. induction Hps as [|p ps Hp Hps IH]; intros ns nf; cbn [runAll]; [apply keeps_ret|].
  apply keeps_bind; [by apply tidy_tRun|]. intros [t|]; apply IH.
Qed.

Lemma tidy_tierBody cfg ps o0 :
  Forall (fun p : property => forall o, tidy o [] (pfn p cfg)) ps -> tidy o0 [] (tierBody cfg ps).
Proof.
  intros Hps. unfold tierBody. apply keeps_bind; [by apply tidy_runAll|]. intros counts. repeat suite_step.
Qed.

Lemma tidy_walk o0 cfg tier ps :
  Forall (fun p : property => forall cfg o, tidy o [] (pfn p cfg)) ps -> tidy o0 [] (walk cfg tier ps).
Proof.
  intros Hps. unfold walk, newPlantedSuffix, preflight. repeat tidy_step.
  all: apply tidy_tRun; intros o; apply tidy_tierBody; eapply Forall_impl; [exact Hps|]; auto.
Qed.
End tidy.

(** C32. However a run of the core tier ends, it leaves no sandbox behind by its
    own doing.  Whatever the backend answers, whichever properties fail, stop
    early or panic: every name for which a create succeeded, at any time during
    the run, has since been destroyed by a [Destroy] that answered nil, unless a
    [Destroy] with a context that outlives the test ([context.WithoutCancel])
    was made for it and the backend answered an error; the one exception is the
    sandbox for root, which should not have been created and is destroyed on the
    spot, under the test's own context.  So against a backend that does destroy,
    and refuses root, nothing is left. *)
Theorem Run_leaves_nothing {B H} plantedSuffix detachedSleep cfg :
  wp any_call (@owing B H) (tRunner (Run plantedSuffix detachedSleep cfg))
    (fun _ o => forall n, n ∈ left o -> n ∈ refused o \/ root_sandbox n) (mkLedger ∅ ∅).
Proof.
  eapply wp_mono; [|apply tidy_tRunner].
  - intros pt o Ho n Hn. destruct (decide (n ∈ refused o)) as [?|Hr]; [by left|].
    destruct (Ho n) as [Hd|?]; [unfold due; set_solver| |by right].
    unfold due in Hd. cbn in Hd. set_solver.
  - intros o0. apply tidy_walk. apply core_tidy.
Qed.
