(* ===== verification/ConformanceClosed.v ===== *)
(** * pkg/conformance: probes that fail closed

    A probe reads an absence as containment, so a backend that runs nothing
    must not look like one that contains everything.  Here: a backend whose
    commands print nothing, whatever else it answers. *)

From S2P Require Import Prelude GoErrors GoStrings GoFloat64 GoDuration GoTime GoNet GoHttp GoText Effects GoTesting Sandbox.
From S2P Require Import Conformance ConformanceProbes ConformanceCore.

Section closed.
Context {B H : Type}.
Variables (plantedSuffix detachedSleep : string).

Abbreviation T := (GoTesting.T (suiteE B H)).

Definition prints_nothing (r : result Result) : Prop :=
  match r with Ok res => Stdout res = "" /\ Stderr res = "" | Err _ => True end.

Definition mute (X : Type) (e : suiteE B H X) (w : unit) : X -> unit -> Prop :=
  match e in suiteE _ _ X return X -> unit -> Prop with
  | SExec _ _ => fun r _ => prints_nothing r
  | _ => fun _ _ => True
  end.

Definition any_call (X : Type) (e : suiteE B H X) (w : unit) : Prop := True.

Abbreviation may := (wp any_call mute).

(** A test that ends early ends with a failure, and a failure is final. *)
Definition honest {A} (m : T A) : Prop := forall t w,
  may (m t) (fun rt _ => (failed t = true -> failed (snd rt) = true) /\
    (fst rt = Goexit -> failed (snd rt) = true)) w.

(** A test that cannot pass. *)
Definition doomed {A} (m : T A) : Prop := forall t w,
  may (m t) (fun rt _ => failed (snd rt) = true \/ fst rt = Panicked) w.

Lemma honest_ret {A} (a : A) : honest (tret a).
Proof. by intros t w. Qed.
Lemma honest_panic {A} : honest (@tpanic (suiteE B H) A).
Proof. by intros t w. Qed.
Lemma honest_Errorf what : honest (tErrorf what).
Proof. by intros t w. Qed.
Lemma honest_Cleanup c : honest (tCleanup c).
Proof. by intros t w. Qed.
Lemma honest_do {X} (e : suiteE B H X) : honest (tdo e).
Proof. intros t w. unfold tdo. cbn. by split. Qed.
Lemma doomed_Fatalf {A} what : doomed (@tFatalf (suiteE B H) A what).
Proof. intros t w. by left. Qed.
Lemma doomed_Errorf what : doomed (tErrorf what).
Proof. intros t w. by left. Qed.
Lemma honest_Fatalf {A} what : honest (@tFatalf (suiteE B H) A what).
Proof. by intros t w. Qed.

Lemma honest_bind {A C} (m : T A) (f : A -> T C) :
  honest m -> (forall a, honest (f a)) -> honest (tbind m f).
Proof.
  intros Hm Hf t w. unfold tbind. apply wp_bind. eapply wp_mono; [|apply Hm].
  intros [[a| |] t'] w' [H1 H2]; cbn [fst snd] in *.
  - eapply wp_mono; [|apply Hf]. intros rt w'' [H3 H4]. split; [|exact H4]. auto.
  - split; [exact H1|]. intros _. exact (H2 eq_refl).
  - split; [exact H1|]. discriminate.
Qed.

(** Doomed in the rest, or already in the first part. *)
Lemma doomed_bind {A C} (m : T A) (f : A -> T C) :
  honest m -> (forall a, doomed (f a)) -> doomed (tbind m f).
Proof.
  intros Hm Hf t w. unfold tbind. apply wp_bind. eapply wp_mono; [|apply Hm].
  intros [[a| |] t'] w' [H1 H2]; cbn [fst snd] in *; [apply Hf|left; auto|by right].
Qed.

Lemma doomed_first {A C} (m : T A) (f : A -> T C) :
  doomed m -> (forall a, honest (f a)) -> doomed (tbind m f).
Proof.
  intros Hm Hf t w. unfold tbind. apply wp_bind. eapply wp_mono; [|apply Hm].
  intros [[a| |] t'] w' Hd; cbn [fst snd] in *.
  - destruct Hd as [Hd|]; [|done]. eapply wp_mono; [|apply Hf]. intros rt w'' [H3 _]. left. auto.
  - destruct Hd as [Hd|]; [by left|done].
  - by right.
Qed.

Lemma honest_when b m : honest m -> honest (twhen b m).
Proof. destruct b; [done|]. intros _. apply honest_ret. Qed.

Lemma honest_for {X} (l : list X) body : (forall x, honest (body x)) -> honest (tfor l body).
Proof. intros Hb. induction l; cbn [tfor]; [apply honest_ret|by apply honest_bind]. Qed.
End closed.

(** Take a test apart. *)
Ltac honest_step :=
  lazymatch goal with
  | |- honest (tbind _ _) => apply honest_bind; [|intros ?]
  | |- honest (tret _) => apply honest_ret
  | |- honest tpanic => apply honest_panic
  | |- honest (tErrorf _) => apply honest_Errorf
  | |- honest (tFatalf _) => apply honest_Fatalf
  | |- honest (tCleanup _) => apply honest_Cleanup
  | |- honest (tdo _) => apply honest_do
  | |- honest (twhen _ _) => apply honest_when
  | |- honest (tfor _ _) => apply honest_for; intros ?
  | |- honest (let x := _ in _) => cbv zeta
  | |- honest (match ?x with _ => _ end) => destruct x
  end.

Section probes.
Context {B H : Type}.
Variables (plantedSuffix detachedSleep : string).

Abbreviation T := (GoTesting.T (suiteE B H)).

Lemma honest_image : @honest B H _ image.
Proof. unfold image. repeat honest_step. Qed.
Lemma honest_newBackend cfg : @honest B H _ (newBackend cfg).
Proof. unfold newBackend. repeat honest_step. Qed.
Lemma honest_create b name opts : @honest B H _ (create b name opts).
Proof. unfold create. repeat first [honest_step | apply honest_image]. Qed.
Lemma honest_run sb script : @honest B H _ (run sb script).
Proof. unfold run. repeat honest_step. Qed.
Lemma honest_exec sb argv timeout : @honest B H _ (exec sb argv timeout).
Proof. unfold exec. repeat honest_step. Qed.
Lemma honest_shellQuote s : @honest B H _ (shellQuote s).
Proof. unfold shellQuote. repeat honest_step. Qed.
Lemma honest_noMarkers what out ms : @honest B H _ (noMarkers what out ms).
Proof. unfold noMarkers. repeat honest_step. Qed.
Lemma honest_checkMount mi line : @honest B H _ (checkMount mi line).
Proof. unfold checkMount. repeat honest_step. Qed.
Lemma honest_countProcs sb marker : @honest B H _ (countProcs sb marker).
Proof. unfold countProcs. repeat first [honest_step | apply honest_shellQuote | apply honest_exec]. Qed.
Lemma honest_awaitStopped fuel b name deadline : @honest B H _ (awaitStopped fuel b name deadline).
Proof. induction fuel; cbn [awaitStopped]; repeat honest_step; assumption. Qed.

(** The output of a script is empty. *)
Lemma doomed_run {A} sb script (f : string -> T A) : doomed (f "") -> doomed (x <~ run sb script;; f x).
Proof.
  intros Hf t w. unfold run, tbind, tdo. cbn [bind call wp]. split; [done|].
  intros [res|e] w' Hr; cbn [bind tret tFatalf wp]; [|by left]. destruct Hr as [-> ->]. apply Hf.
Qed.

Lemma doomed_exec {A} sb argv timeout (f : result Result -> T A) :
  (forall r, prints_nothing r -> doomed (f r)) -> doomed (r <~ exec sb argv timeout;; f r).
Proof.
  intros Hf t w. unfold exec, tbind, tdo. cbn [bind call wp]. split; [done|].
  intros r w' Hr. by apply Hf.
Qed.

(** A count cannot be read from it. *)
Lemma doomed_countProcs sb marker : @doomed B H _ (countProcs sb marker).
Proof.
  unfold countProcs. apply doomed_bind; [apply honest_shellQuote|]. intros q.
  apply doomed_exec. intros [res|e] Hr; [|apply doomed_Fatalf]. destruct Hr as [-> _]. apply doomed_Fatalf.
Qed.

Lemma doomed_awaitProc n sb marker : @doomed B H _ (awaitProc (S n) sb marker).
Proof.
  cbn [awaitProc]. apply doomed_first; [apply doomed_countProcs|]. intros c.
  assert (Hn : @honest B H _ (awaitProc n sb marker)).
  { induction n; cbn [awaitProc]; repeat first [honest_step | apply honest_countProcs]; assumption. }
  repeat honest_step. exact Hn.
Qed.
End probes.

Create HintDb closed.
#[export] Hint Resolve honest_image honest_newBackend honest_create honest_run honest_exec honest_shellQuote
  honest_noMarkers honest_checkMount honest_countProcs honest_awaitStopped : closed.

Ltac honest_test :=
  repeat lazymatch goal with
  | |- honest (awaitStopped _ _ _ _) => apply honest_awaitStopped
  | _ => first [honest_step | solve [auto with closed nocore]]
  end.

(** Run a test against a backend whose commands print nothing. *)
Ltac doom_step :=
  lazymatch goal with
  | |- doomed (tFatalf _) => apply doomed_Fatalf
  | |- doomed (tErrorf _) => apply doomed_Errorf
  | |- doomed (let x := _ in _) => cbv zeta
  | |- doomed (tbind (tFatalf _) _) => apply doomed_first; [apply doomed_Fatalf|intros ?; honest_test]
  | |- doomed (tbind (tErrorf _) _) => apply doomed_first; [apply doomed_Errorf|intros ?; honest_test]
  | |- doomed (tbind (countProcs _ _) _) => apply doomed_first; [apply doomed_countProcs|intros ?; honest_test]
  | |- doomed (tbind (awaitProc _ _ _) _) => apply doomed_first; [apply doomed_awaitProc|intros ?; honest_test]
  | |- doomed (tbind (run _ _) _) => apply doomed_run; cbv beta
  | |- doomed (tbind (twhen ?c _) _) =>
      tryif (lazymatch c with context [Contains "" _] => change c with true end)
      then cbv beta iota delta [twhen]
      else (apply doomed_bind; [honest_test|intros ?])
  | |- doomed (twhen ?c _) => change c with true; cbv beta iota delta [twhen]
  | |- doomed (tbind _ _) => apply doomed_bind; [honest_test|intros ?]
  | |- doomed (match ?x with _ => _ end) =>
      tryif is_var x then destruct x
      else let v := eval vm_compute in x in change x with v; cbv beta iota
  end.

Section theorem.
Context {B H : Type}.
Variables (plantedSuffix detachedSleep : string).

(** The properties that the statement below leaves out.  create-refuses-root and
    destroy-removes-the-sandbox run no command; argv-is-never-a-shell-builtin
    judges a command by its exit code.  loopback-is-not-the-hosts does read what a
    command prints, and takes silence as a pass: it has no positive sign that
    its probe ran, and can pass against a backend whose commands print nothing. *)
Definition without_probe : list string :=
  ["loopback-is-not-the-hosts"; "create-refuses-root"; "argv-is-never-a-shell-builtin";
   "destroy-removes-the-sandbox"].

(** A result without output is not the capped flood. *)
Lemma doomed_flood cfg : @doomed B H _ (propOutputFloodIsCapped cfg).
Proof.
  unfold propOutputFloodIsCapped. do 2 doom_step. apply doomed_exec.
  intros [res|e] Hr; [|apply doomed_Fatalf]. destruct Hr as [-> ->]. doom_step.
  change (negb (slen "" =? MaxOutputBytes) || negb (slen "" =? MaxOutputBytes)) with true.
  cbv beta iota delta [twhen]. doom_step.
Qed.

(** Nothing printed is no interface table. *)
Lemma doomed_interface cfg : @doomed B H _ (propOnlyLoopbackInterface cfg).
Proof.
  unfold propOnlyLoopbackInterface. do 3 doom_step.
  change (interfaces (Split "" nlc) false) with (@tret (suiteE B H) bool false). intros t w. by left.
Qed.

Ltac doom_property :=
  intros cfg; cbn [pfn]; cbv beta delta [propNoControlPlaneSocket propNoHostOrMetadataAddresses
    propCannotWriteKernelKnobs propNoBlockDevices
    propNoTraversalOutOfGuest propNoCapabilities propWritableMountsAreNoexecNosuid
    propTimedOutCommandKillsChildren propCancelledCommandIsNotATimeout propKillGroupWaitsForLateRecord
    propTimeoutKillIsScopedToItsCommand propSetsidEscapesTheTimeoutKill
    propSandboxesShareNoState propCrashedSandboxRecoversThroughCreate propStoppedSandboxIsReplacedByCreate];
  lazymatch goal with 
  | |- doomed (propOutputFloodIsCapped _) => apply doomed_flood
  | |- doomed (propOnlyLoopbackInterface _) => apply doomed_interface
  | _ => repeat doom_step end.

Lemma core_closed :
  Forall (fun p => existsb (String.eqb (pname p)) without_probe = false -> forall cfg, doomed (pfn p cfg))
    (core plantedSuffix detachedSleep : list (@property B H)).
Proof.
  repeat (apply Forall_cons; split; [intros Hn; vm_compute in Hn; first [discriminate Hn | clear Hn; doom_property]|]).
  done.
Qed.
End theorem.

Lemma doomed_fails {B H} (f : GoTesting.T (suiteE B H) unit) :
  doomed f -> wp any_call mute (tRunner f) (fun pt _ => status_of (fst pt) (snd pt) = FAIL) tt.
Proof.
  intros Hf. unfold tRunner. apply wp_bind. eapply wp_mono; [|apply Hf]. intros [r t] [] Hd. cbn [snd fst].
  apply wp_bind.
  assert (Hend : forall w, wp (@any_call B H) mute (Ret (match r with Panicked => true | _ => false end, t))
    (fun pt _ => status_of (fst pt) (snd pt) = FAIL) w).
  { intros w. cbn. unfold status_of. cbn in Hd. destruct Hd as [->| ->]; [by rewrite orb_true_r|done]. }
  generalize (runCleanups (cleanups t)) as p. intros p.
  induction p as [a|X e k IH]; cbn [wp].
  - exact (Hend tt).
  - split; [done|]. intros x [] _. apply IH.
Qed.

(** C33. The probes fail closed, all but one.  Against a backend whose commands
    print nothing (a shell that is missing, an exec that drops its output, a
    stub), whatever its other operations answer, every property of the core tier
    other than the four named in [without_probe] fails: each of them first
    requires a positive sign that its probe ran.  Of those four,
    create-refuses-root, argv-is-never-a-shell-builtin and
    destroy-removes-the-sandbox read no command's output;
    loopback-is-not-the-hosts does, without such a sign, and can pass. *)
Theorem probes_fail_closed {B H} plantedSuffix detachedSleep cfg p :
  p ∈ (core plantedSuffix detachedSleep : list (@property B H)) ->
  existsb (String.eqb (pname p)) without_probe = false ->
  wp any_call mute (tRunner (pfn p cfg)) (fun pt _ => status_of (fst pt) (snd pt) = FAIL) tt.
Proof.
  intros Hp Hn. apply doomed_fails.
  pose proof (@core_closed B H plantedSuffix detachedSleep) as Hall. rewrite Forall_forall in Hall.
  by apply Hall.
Qed.

Lemma probes_fail_closed_witness :
  let cfg := mkConfig true "stub" "1-00" in
  wp (@any_call unit unit) mute (tRunner (propNoCapabilities cfg))
    (fun pt _ => status_of (fst pt) (snd pt) = FAIL) tt.
Proof.
  intros cfg.
  apply (probes_fail_closed "s" "800001" cfg (mkProperty "no-capabilities" propNoCapabilities)).
  - apply (list_elem_of_lookup_2 _ 7). reflexivity.
  - reflexivity.
Defined.
