(* ===== verification/ConformanceEnds.v ===== *)
(** * pkg/conformance: every property ends in a verdict

    The suite's own panics (a constant it cannot quote, a loop stopped from
    outside) never happen. *)

From S2P Require Import Prelude GoErrors GoStrings GoFloat64 GoDuration GoTime GoNet GoHttp GoText Sha256 Effects GoTesting Sandbox.
From S2P Require Import PreviewToken Conformance ConformanceProbes ConformanceCore.

Section ends.
Context {B H : Type}.

Abbreviation T := (GoTesting.T (suiteE B H)).

(** A host whose clock does not run backwards and whose sleeps last. *)
Definition ticking (X : Type) (e : suiteE B H X) (w : time) : X -> time -> Prop :=
  match e in suiteE _ _ X return X -> time -> Prop with
  | SNow => fun now w' => w <= w' /\ now = w'
  | SSleep d => fun _ w' => w + d <= w' /\ w <= w'
  | _ => fun _ w' => w <= w'
  end.

Definition any_call (X : Type) (e : suiteE B H X) (w : time) : Prop := True.

Abbreviation may := (wp any_call ticking).

Definition calm {A} (m : T A) : Prop := forall t w,
  may (m t) (fun rt w' => fst rt <> Panicked /\ w <= w') w.

Lemma calm_ret {A} (a : A) : calm (tret a).
Proof. intros t w. split; [done|lia]. Qed.
Lemma calm_Errorf what : calm (tErrorf what).
Proof. intros t w. split; [done|lia]. Qed.
Lemma calm_Fatalf {A} what : calm (@tFatalf (suiteE B H) A what).
Proof. intros t w. split; [done|lia]. Qed.
Lemma calm_Cleanup c : calm (tCleanup c).
Proof. intros t w. split; [done|lia]. Qed.

Lemma ticking_on X (e : suiteE B H X) w x w' : ticking X e w x w' -> w <= w'.
Proof. destruct e; cbn; lia. Qed.

Lemma calm_do {X} (e : suiteE B H X) : calm (tdo e).
Proof.
  intros t w. unfold tdo. cbn [bind call wp]. split; [done|]. intros x w' Hs%ticking_on. by split.
Qed.

Lemma calm_bind {A C} (m : T A) (f : A -> T C) : calm m -> (forall a, calm (f a)) -> calm (tbind m f).
Proof.
  intros Hm Hf t w. unfold tbind. apply wp_bind. eapply wp_mono; [|apply Hm].
  intros [[a| |] t'] w' [H1 H2]; cbn [fst] in H1; [|by split|done].
  eapply wp_mono; [|apply Hf]. intros rt w'' [H3 H4]. split; [done|lia].
Qed.

Lemma calm_prog {A} (p : prog (suiteE B H) A) w : may p (fun _ w' => w <= w') w.
Proof.
  revert w. induction p as [a|X e k IH]; intros w; cbn [wp]; [reflexivity|]. split; [done|].
  intros x w' Hs%ticking_on. eapply wp_mono; [|apply IH]. intros u w'' Hle. cbn in Hle. lia.
Qed.

Lemma calm_defer {A} d (m : T A) : calm m -> calm (tdefer d m).
Proof.
  intros Hm t w. unfold tdefer. apply wp_bind. eapply wp_mono; [|apply Hm]. intros rt w' [H1 H2].
  apply wp_bind. eapply wp_mono; [|apply calm_prog]. intros u w'' H3. cbn in H3. split; [done|lia].
Qed.

Lemma calm_when b m : calm m -> calm (twhen b m).
Proof. destruct b; [done|]. intros _. apply calm_ret. Qed.

Lemma calm_for {X} (l : list X) body : (forall x, x ∈ l -> calm (body x)) -> calm (tfor l body).
Proof.
  intros Hb. induction l as [|x l IH]; cbn [tfor]; [apply calm_ret|].
  apply calm_bind; [apply Hb; set_solver|]. intros _. apply IH. intros y Hy. apply Hb. set_solver.
Qed.

(** ** Quoting *)

Lemma calm_shellQuote s : ContainsAny s ["'"%char; nlc] = false -> calm (shellQuote s).
Proof. intros Hs. unfold shellQuote. rewrite Hs. apply calm_ret. Qed.

Lemma ContainsAny_app s u cs : ContainsAny (s ++ u) cs = ContainsAny s cs || ContainsAny u cs.
Proof. induction s as [|c s IH]; cbn; [done|]. by rewrite IH, orb_assoc. Qed.

Lemma ContainsAny_not p s cs :
  all_bytes p s = true -> forallb (fun c => negb (p c)) cs = true -> ContainsAny s cs = false.
Proof.
  intros Hs Hcs. induction s as [|c s IH]; cbn in *; [done|]. apply andb_true_iff in Hs as [Hc Hs].
  rewrite IH by done. rewrite orb_false_r. apply Bool.not_true_iff_false. intros Hx.
  apply existsb_exists in Hx as (d & Hd & ->%Ascii.eqb_eq). rewrite forallb_forall in Hcs.
  specialize (Hcs d Hd). by rewrite Hc in Hcs.
Qed.

Lemma suffix_quotable pid b : ContainsAny (suffixOf pid b) ["'"%char; nlc] = false.
Proof.
  unfold suffixOf. rewrite !ContainsAny_app.
  rewrite (ContainsAny_not is_int_byte (Itoa pid)) by (done || apply Itoa_all).
  by rewrite (ContainsAny_not is_hex (hex b)) by (done || apply hex_all).
Qed.

(** ** The polling loop *)

(** While the deadline is ahead there is a turn left for every 200 ms of it. *)
Definition turns_left (fuel : nat) (deadline w : time) : Prop :=
  (fuel = 0%nat -> False) /\ deadline - w < (Z.of_nat fuel - 1) * (200 * Millisecond).

Lemma calm_awaitStopped fuel b name deadline t w :
  turns_left fuel deadline w ->
  may (awaitStopped fuel b name deadline t) (fun rt w' => fst rt <> Panicked /\ w <= w') w.
Proof.
  revert t w. induction fuel as [|fuel IH]; intros t w [Hf Hd]; [done|]. cbn [awaitStopped].
  unfold tbind at 1, tdo at 1. cbn [bind call wp]. split; [done|]. intros cur w1 Hw1.
  assert (Hpoll : forall t2 w2, w1 <= w2 -> may ((now <~ tdo SNow;;
      if After now deadline then
        tFatalf "%s: sandbox still not stopped 20s after its init was killed (err %v)"
      else _ <~ tdo (SSleep (200 * Millisecond));; awaitStopped fuel b name deadline) t2)
    (fun rt w' => fst rt <> Panicked /\ w <= w') w2).
  { intros t2 w2 Hw2. unfold tbind, tdo. cbn [bind call wp]. split; [done|]. intros now w3 [Hw3 ->].
    unfold After. destruct (Z.ltb_spec deadline w3) as [|Hle]; [split; [done|cbn in *; lia]|].
    cbn [bind call wp]. split; [done|]. intros u w4 [Hw4 _]. cbn in Hw1.
    eapply wp_mono; [|apply IH].
    - intros rt w5 [H1 H2]. split; [done|]. unfold Millisecond in *. lia.
    - unfold turns_left, Millisecond, Microsecond in *. split; [|lia]. intros ->. lia. }
  unfold tbind at 1. destruct cur as [cur|e].
  - unfold tbind at 2, tdo at 1. cbn [bind call wp]. split; [done|]. intros info w2 Hw2.
    cbn [bind tret]. destruct (String.eqb _ _); [split; [done|cbn in *; lia]|]. by apply Hpoll.
  - cbn [bind tret]. by apply Hpoll.
Qed.
End ends.

Ltac calm_step :=
  lazymatch goal with
  | |- calm (tbind _ _) => apply calm_bind; [|intros ?]
  | |- calm (tret _) => apply calm_ret
  | |- calm (tErrorf _) => apply calm_Errorf
  | |- calm (tFatalf _) => apply calm_Fatalf
  | |- calm (tCleanup _) => apply calm_Cleanup
  | |- calm (tdo _) => apply calm_do
  | |- calm (twhen _ _) => apply calm_when
  | |- calm (tfor _ _) => apply calm_for; intros ? ?
  | |- calm (tdefer _ _) => apply calm_defer
  | |- calm (let x := _ in _) => cbv zeta
  | |- calm (match ?x with _ => _ end) => destruct x
  end.

Section properties.
Context {B H : Type}.
Variables (pid : Z) (b : string) (x y : Z).
Let plantedSuffix := suffixOf pid b.
Let detachedSleep := detachedSleepOf x y.

Lemma calm_image : @calm B H _ image.
Proof. unfold image. repeat calm_step. Qed.
Lemma calm_newBackend cfg : @calm B H _ (newBackend cfg).
Proof. unfold newBackend. repeat calm_step. Qed.
Lemma calm_create be name opts : @calm B H _ (create be name opts).
Proof. unfold create. repeat first [calm_step | apply calm_image]. Qed.
Lemma calm_run sb script : @calm B H _ (run sb script).
Proof. unfold run. repeat calm_step. Qed.
Lemma calm_exec sb argv timeout : @calm B H _ (exec sb argv timeout).
Proof. unfold exec. repeat calm_step. Qed.
Lemma calm_noMarkers what out ms : @calm B H _ (noMarkers what out ms).
Proof. unfold noMarkers. repeat calm_step. Qed.
Lemma calm_checkMount mi line : @calm B H _ (checkMount mi line).
Proof. unfold checkMount. repeat calm_step. Qed.
Lemma calm_processLocal : @calm B H _ processLocal.
Proof. unfold processLocal. repeat calm_step. Qed.

Lemma calm_interfaces lines saw : @calm B H _ (interfaces lines saw).
Proof. revert saw. induction lines; intros saw; cbn [interfaces]; repeat calm_step; auto. Qed.

Lemma calm_scanProcs id pids : @calm B H _ (scanProcs id pids).
Proof. induction pids; cbn [scanProcs]; repeat calm_step; assumption. Qed.

Lemma calm_hostProcServing id : @calm B H _ (hostProcServing id).
Proof. unfold hostProcServing. repeat calm_step. apply calm_scanProcs. Qed.

(** What the suite quotes: its paths and ports, and the markers it counts. *)
Lemma calm_planted prefix :
  ContainsAny prefix ["'"%char; nlc] = false -> @calm B H _ (shellQuote (prefix ++ plantedSuffix)).
Proof.
  intros Hp. apply calm_shellQuote. unfold plantedSuffix. by rewrite ContainsAny_app, Hp, suffix_quotable.
Qed.

Lemma calm_constant {X} (f : X -> string) l s :
  forallb (fun s => negb (ContainsAny (f s) ["'"%char; nlc])) l = true -> s ∈ l ->
  @calm B H _ (shellQuote (f s)).
Proof.
  intros Hl Hs. apply calm_shellQuote. rewrite forallb_forall in Hl.
  apply list_elem_of_In in Hs. by apply Hl, negb_true_iff in Hs.
Qed.

Lemma calm_port port : @calm B H _ (shellQuote (Itoa port)).
Proof. apply calm_shellQuote, (ContainsAny_not is_int_byte); [apply Itoa_all|done]. Qed.

Lemma calm_countProcs sb marker :
  ContainsAny (countPattern marker) ["'"%char; nlc] = false -> @calm B H _ (countProcs sb marker).
Proof.
  intros Hm. unfold countProcs. apply calm_bind; [by apply calm_shellQuote|]. intros q.
  apply calm_bind; [apply calm_exec|]. intros r. repeat calm_step.
Qed.

Lemma detached_quotable : ContainsAny (countPattern ("sleep " ++ detachedSleep)) ["'"%char; nlc] = false.
Proof.
  change (countPattern ("sleep " ++ detachedSleep)) with ("[s]leep " ++ detachedSleep).
  rewrite ContainsAny_app. unfold detachedSleep, detachedSleepOf.
  by rewrite (ContainsAny_not is_int_byte (Itoa _)) by (done || apply Itoa_all).
Qed.

Lemma calm_awaitProc n sb marker :
  ContainsAny (countPattern marker) ["'"%char; nlc] = false -> @calm B H _ (awaitProc n sb marker).
Proof.
  intros Hm. induction n as [|n IH]; cbn [awaitProc]; [apply calm_ret|].
  apply calm_bind; [by apply calm_countProcs|]. intros c. repeat calm_step. exact IH.
Qed.

(** Twenty seconds in turns of 200 ms. *)
Lemma calm_poll {A} be name (f : unit -> GoTesting.T (suiteE B H) A) :
  (forall u, calm (f u)) ->
  calm (now <~ tdo SNow;; u <~ awaitStopped pollFuel be name (now + 20 * Second);; f u).
Proof.
  intros Hf t w. unfold tbind at 1, tdo. cbn [bind call wp]. split; [done|]. intros now w1 [Hw1 ->].
  unfold tbind. apply wp_bind. eapply wp_mono; [|apply calm_awaitStopped].
  - intros [[u| |] t2] w2 [H1 H2]; [|split; [done|lia]|done].
    eapply wp_mono; [|apply Hf]. intros rt w3 [H3 H4]. split; [done|lia].
  - split; [done|]. unfold pollFuel, Second, Millisecond. lia.
Qed.

Lemma calm_cycle cfg be i probe : @calm B H _ (cycle plantedSuffix cfg be i probe).
Proof.
  unfold cycle. repeat first [calm_step | apply calm_image | apply calm_exec | apply calm_hostProcServing].
Qed.

Lemma calm_cycles cfg be idx ids : @calm B H _ (cycles plantedSuffix cfg be idx ids).
Proof.
  revert ids. induction idx as [|i idx IH]; intros ids; cbn [cycles]; [apply calm_ret|].
  apply calm_bind; [apply calm_cycle|auto].
Qed.

Ltac calm_property :=
  intros cfg; cbn [pfn]; cbv beta delta [propNoControlPlaneSocket propNoHostOrMetadataAddresses
    propLoopbackIsNotTheHosts propOnlyLoopbackInterface propCannotWriteKernelKnobs propNoBlockDevices
    propNoTraversalOutOfGuest propNoCapabilities propWritableMountsAreNoexecNosuid propCreateRefusesRoot
    propTimedOutCommandKillsChildren propCancelledCommandIsNotATimeout propKillGroupWaitsForLateRecord
    propTimeoutKillIsScopedToItsCommand propSetsidEscapesTheTimeoutKill propOutputFloodIsCapped
    propSandboxesShareNoState propCrashedSandboxRecoversThroughCreate propStoppedSandboxIsReplacedByCreate
    propArgvIsNeverAShellBuiltin propDestroyRemovesTheSandbox propHostRetainsNothing propHostFilesAreInvisible];
  repeat first
    [ lazymatch goal with |- calm (tbind (tdo SNow) (fun _ => tbind (awaitStopped _ _ _ _) _)) => apply calm_poll; intros ? end
    | calm_step
    | lazymatch goal with
      | |- calm image => apply calm_image
      | |- calm (newBackend _) => apply calm_newBackend
      | |- calm (create _ _ _) => apply calm_create
      | |- calm (run _ _) => apply calm_run
      | |- calm (exec _ _ _) => apply calm_exec
      | |- calm (noMarkers _ _ _) => apply calm_noMarkers
      | |- calm (checkMount _ _) => apply calm_checkMount
      | |- calm processLocal => apply calm_processLocal
      | |- calm (interfaces _ _) => apply calm_interfaces
      | |- calm (hostProcServing _) => apply calm_hostProcServing
      | |- calm (cycle _ _ _ _ _) => apply calm_cycle
      | |- calm (cycles _ _ _ _ _) => apply calm_cycles
      | |- calm (shellQuote (Itoa _)) => apply calm_port
      | H : ?p ∈ ?l |- calm (shellQuote ?p) => apply (calm_constant id l p eq_refl H)
      | H : ?p ∈ ?l |- calm (shellQuote (?f ?p)) => apply (calm_constant f l p eq_refl H)
      | |- calm (awaitProc _ _ _) => apply calm_awaitProc; reflexivity
      | |- calm (countProcs _ ("sleep " ++ detachedSleep)) => apply calm_countProcs, detached_quotable
      | |- calm (countProcs _ _) => apply calm_countProcs; reflexivity
      | |- calm (shellQuote (knobControl _)) => apply calm_planted; reflexivity
      | |- calm (shellQuote (plantedNode _)) => apply calm_planted; reflexivity
      | |- calm (shellQuote (injectedA _)) => apply calm_planted; reflexivity
      | |- calm (shellQuote (injectedB _)) => apply calm_planted; reflexivity
      end ].

Lemma properties_calm :
  Forall (fun p => forall cfg, calm (pfn p cfg))
    (core plantedSuffix detachedSleep ++ hostLocal plantedSuffix : list (@property B H)).
Proof.
  repeat (apply Forall_cons; split; [calm_property|]). done.
Qed.
End properties.

(** Every property of both tiers ends in a verdict.  On a host whose clock does
    not run backwards and whose sleeps last, whatever the backend answers, no
    property panics: nothing it splices into a script is unquotable, the
    process's own suffix and marker included, and the wait for a crashed
    sandbox ends by itself at its deadline. *)
Theorem properties_end {B H} pid b x y cfg p w :
  p ∈ (core (suffixOf pid b) (detachedSleepOf x y) ++ hostLocal (suffixOf pid b) : list (@property B H))%list ->
  wp any_call ticking (tRunner (pfn p cfg)) (fun pt _ => fst pt = false) w.
Proof.
  intros Hp. pose proof (@properties_calm B H pid b x y) as Hall. rewrite Forall_forall in Hall.
  unfold tRunner. apply wp_bind. eapply wp_mono; [|by apply Hall]. intros [r t] w' [Hr _]. apply wp_bind.
  eapply wp_mono; [|apply calm_prog]. intros u w'' _. cbn [fst] in *. by destruct r.
Qed.

Lemma properties_end_witness :
  wp (@any_call unit unit) ticking
    (tRunner (propCrashedSandboxRecoversThroughCreate (mkConfig true "docker" "1-00"))) (fun pt _ => fst pt = false) 0.
Proof.
  apply (properties_end 4711 "abcdef" 17 4 (mkConfig true "docker" "1-00")
    (mkProperty "crashed-sandbox-recovers-through-create" propCrashedSandboxRecoversThroughCreate)).
  apply (list_elem_of_lookup_2 _ 17). reflexivity.
Defined.
