(* ===== verification/ConformanceLimits.v ===== *)
(** * pkg/conformance: where the suite measures less than it means to

    Concrete runs, executed: a backend and a host that answer in a given way,
    and what the suite makes of them. *)

From S2P Require Import Prelude GoErrors GoStrings GoFloat64 GoDuration GoTime GoNet GoHttp GoText Effects GoTesting Sandbox.
From S2P Require Import Conformance ConformanceProbes ConformanceCore ConformanceTidy ConformanceClosed.

(** A host and a backend that grants everything: how it answers questions about
    the environment (the [n]-th one), what a file write answers, which tests
    the command line selects. *)
Record bench : Type := mkBench {
  environ : nat -> string;
  writes : result unit;
  selects : string -> bool
}.

(** What is observed: questions asked, the clock, names owed, images of the
    sandboxes created, result lines. *)
Record observed : Type := mkObserved {
  questions : nat;
  clock : time;
  owed : gset string;
  images : list string;
  lines : list (string * status)
}.

Definition bench_step (b : bench) (X : Type) (e : suiteE unit unit X) (o : observed) : X * observed :=
  match e in suiteE _ _ X return X * observed with
  | SNew => (Ok (Some tt), o)
  | SClose _ => (tt, o)
  | SCreate _ name opts => (Ok tt, mkObserved (questions o) (clock o) ({[name]} ∪ owed o)
      (images o ++ [Image (NewSpec opts)]) (lines o))
  | SOpen _ _ => (Ok tt, o)
  | SList _ => (Ok [], o)
  | SDestroy _ _ name =>
      (Ok tt, mkObserved (questions o) (clock o) (owed o ∖ {[name]}) (images o) (lines o))
  | SInfo _ => (mkInfo "sandbox" "0123456789abcdef" "" StateRunning 0 ∅, o)
  | SExec _ _ => (Ok (mkResult "" "" 0 false false false), o)
  | SStop _ => (Ok tt, o)
  | SStartProcess _ _ _ => (Ok tt, o)
  | SWriteFile _ _ _ _ => (writes b, o)
  | SReadFile _ _ => (Ok 0, o)
  | SRead _ _ => (0, o)
  | SCloseReader _ => (tt, o)
  | SExecCancelled _ _ _ => (Err (Sentinel Canceled), o)
  | SGoExec _ _ => (tt, o)
  | SCancelGo => (tt, o)
  | SGetenv key => (environ b (questions o),
      mkObserved (S (questions o)) (clock o) (owed o) (images o) (lines o))
  | SSetenv _ _ => (tt, o)
  | SGetpid => (4711, o)
  | SRandRead n => (Ok (stake n "abcdefghijkl"), o)
  | SNow => (clock o, o)
  | SSleep d => (tt, mkObserved (questions o) (clock o + d) (owed o) (images o) (lines o))
  | SHostListen => (Ok 40001, o)
  | SHostUnlisten => (tt, o)
  | SCreateTemp _ => (Ok "/tmp/openblox-conf-host-marker-1", o)
  | SRemove _ => (tt, o)
  | SReadDir _ => (Ok ["1"], o)
  | SReadHostFile _ => (Ok "runsc 0123456789abcdef", o)
  | SNumGoroutine => (7, o)
  | SSelects name => (selects b name, o)
  | SReport name s => (tt, mkObserved (questions o) (clock o) (owed o) (images o) (lines o ++ [(name, s)]))
  end.

Definition at_rest : observed := mkObserved 0 0 ∅ [] [].

(** The verdict on a test, and what was observed. *)
Definition verdict (b : bench) (f : GoTesting.T (suiteE unit unit) unit) : status * observed :=
  let '(pt, o) := Effects.run (bench_step b) (tRunner f) at_rest in (status_of (fst pt) (snd pt), o).

Definition plain : bench := mkBench (fun _ => "") (Ok tt) (fun _ => true).

Definition a_config : Config := mkConfig true "mine" "".

(** An image override that appears after the walk has asked for it is not
    noticed: [image] reads the environment again for every sandbox, so a
    backend constructor that sets the variable, which runs in the same process
    after the check, decides what userland every probe executes in, and the run
    passes. *)
Theorem late_override_passes :
  let b := mkBench (fun n => if n =? 0 then "" else "registry.example/evil")%nat (Ok tt) (fun _ => true) in
  let '(s, o) := verdict b (walk a_config "core"
    [mkProperty "argv-is-never-a-shell-builtin" propArgvIsNeverAShellBuiltin]) in
  s = PASS /\ lines o = [("argv-is-never-a-shell-builtin", PASS); ("core", PASS)] /\
  images o = ["registry.example/evil"; "registry.example/evil"].
Proof. vm_compute. done. Qed.

(** A tier that -run or -skip leaves out as a whole is not reported: the counts
    are taken inside the tier's own subtest, so a run that measured nothing
    passes. *)
Theorem filtered_tier_passes plantedSuffix detachedSleep :
  let b := mkBench (fun _ => "") (Ok tt) (fun name => negb (String.eqb name "core")) in
  let '(s, o) := verdict b (Run plantedSuffix detachedSleep a_config) in s = PASS /\ lines o = [].
Proof. vm_compute. done. Qed.

(** The probe of the host's loopback has no control of its own: a sandbox in
    which no command prints anything passes it. *)
Theorem loopback_probe_uncontrolled :
  verdict plain (propLoopbackIsNotTheHosts a_config) =
  (PASS, mkObserved 1 0 ∅ [referenceImage] []).
Proof. vm_compute. done. Qed.

(** The leak property leaves its own sandbox behind when it fails: unlike every
    other property, a cycle registers no cleanup, so a write that fails ends
    the test between the create and the destroy. *)
Theorem leak_cycle_leaves_sandbox plantedSuffix :
  let b := mkBench (fun _ => "") (Err (External ExtOther "no space left on device")) (fun _ => true) in
  let '(s, o) := verdict b (propHostRetainsNothing plantedSuffix a_config) in
  s = FAIL /\ "openblox-conf-leak--1" ∈ owed o.
Proof. vm_compute. done. Qed.
