(* ===== verification/ConformanceDocker.v ===== *)
(** * The Docker backend under the conformance suite

    pkg/conformance composed with pkg/docker: the calls of the suite answered
    by the Docker backend's operations, themselves answered by an engine. *)

From S2P Require Import Prelude GoErrors GoStrings GoFloat64 GoTime GoNet GoText Effects GoTesting Sandbox.
From S2P Require Import DockerApi DockerBackend DockerLifecycle DockerExec Conformance ConformanceProbes ConformanceCore.

Section docker.
Context `{MapRange string} `{FloatConv}.
Context {W : Type} (step : forall X, dockerE X -> W -> X -> W -> Prop).

Abbreviation suiteD := (suiteE Backend dockerSandbox).

(** A call of the suite is an execution of the backend's operation; the calls
    about the test process leave the engine alone. *)
Definition by_docker (b : Backend) (X : Type) (e : suiteD X) (w : W) : X -> W -> Prop :=
  match e in suiteE _ _ X return X -> W -> Prop with
  | SNew => fun r w' => r = Ok (Some b) /\ w' = w
  | SCreate b name opts => outcome step (Create b name opts) w
  | SOpen b name => outcome step (Open b name) w
  | SList _ => outcome step List w
  | SDestroy _ _ name => outcome step (Destroy name) w
  | SInfo sb => fun info w' => info = ds_info sb /\ w' = w
  | SExec sb cmd => outcome step (Exec sb cmd) w
  | SStop sb => outcome step (Stop sb) w
  | SStartProcess sb name cmd => outcome step (StartProcess sb name cmd) w
  | SWriteFile sb path mode body => outcome step (WriteFile sb path mode body) w
  | SReadFile sb path => fun r w' =>
      exists r', outcome step (ReadFile sb path) w r' w' /\ is_ok r = is_ok r'
  | SExecCancelled _ _ _ | SGoExec _ _ | SCancelGo => fun _ _ => True
  | _ => fun _ w' => w' = w
  end.

Definition any_call (X : Type) (e : suiteD X) (w : W) : Prop := True.

Abbreviation may b := (wp any_call (by_docker b)).

(** ** create-refuses-root *)

(** A specification that is not valid is refused before Docker is asked. *)
Lemma Create_invalid b name opts e :
  Spec_Validate (NewSpec opts) = Err e -> Is e ErrInvalid = true ->
  exists e', Create b name opts = Ret (Err e') /\ Is e' ErrInvalid = true.
Proof.
  intros Hv He. unfold Create. destruct (String.eqb name ""); [by eexists|]. rewrite Hv. by exists e.
Qed.

Lemma root_refused img user :
  user ∈ ["0:0"; "root"; "1000:0"] ->
  exists e, Spec_Validate (NewSpec [WithImage img; WithUser user]) = Err e /\ Is e ErrInvalid = true.
Proof.
  intros Hu%list_elem_of_In. destruct Hu as [<-|[<-|[<-|[]]]]; eexists; (split; [reflexivity|reflexivity]).
Qed.

Lemma image_quiet b t w Q : (forall img, Q (Returned img, t) w) -> may b (image t) Q w.
Proof.
  intros HQ. unfold image, tbind, tdo. cbn [bind call wp]. split; [done|]. intros v w' ->.
  destruct (negb _); cbn; apply HQ.
Qed.

Lemma newBackend_quiet b cfg t w Q :
  Q (Returned b, mkT (failed t) (messages t) (skipped t) (call (SClose b) :: cleanups t)) w ->
  may b (newBackend cfg t) Q w.
Proof. intros HQ. split; [done|]. by intros r w' [-> ->]. Qed.

Lemma tfor_quiet {X} b (l : list X) body t w :
  (forall x, x ∈ l -> may b (body x t) (fun rt w' => rt = (Returned tt, t) /\ w' = w) w) ->
  may b (tfor l body t) (fun rt w' => rt = (Returned tt, t) /\ w' = w) w.
Proof.
  intros Hb. induction l as [|x l IH]; cbn [tfor]; [done|]. unfold tbind. apply wp_bind.
  eapply wp_mono; [|apply Hb; left]. intros rt w' [-> ->]. apply IH. intros y Hy. apply Hb. by right.
Qed.

Lemma close_quiet b t w Q (a : exit unit) :
  cleanups t = [call (SClose b)] ->
  Q (match a with Panicked => true | _ => false end, t) w ->
  may b (_ <- runCleanups (cleanups t);; Ret (match a with Panicked => true | _ => false end, t)) Q w.
Proof. intros -> HQ. cbn. split; [done|]. by intros x w' ->. Qed.

(** One turn of the property's loop changes nothing. *)
Lemma refuses_root_turn b cfg user t w :
  user ∈ ["0:0"; "root"; "1000:0"] ->
  may b ((img <~ image;;
     r <~ tdo (SCreate b (sbName cfg "openblox-conf-root") [WithImage img; WithUser user]);;
     if match r with Err err => Is err ErrInvalid | Ok _ => false end then tret tt
     else
       _ <~ tdo (SDestroy TContext b (sbName cfg "openblox-conf-root"));;
       tErrorf "%s: Create(user %q) = %v, want ErrInvalid") t)
    (fun rt w' => rt = (Returned tt, t) /\ w' = w) w.
Proof.
  intros Hu. unfold tbind at 1. apply wp_bind, image_quiet. intros img.
  unfold tbind, tdo. cbn [bind call wp]. split; [done|]. intros r w2 Ho. cbn in Ho.
  destruct (root_refused img user Hu) as (e & Hv & He).
  destruct (Create_invalid b (sbName cfg "openblox-conf-root") _ e Hv He) as (e' & Hc & He').
  rewrite Hc in Ho. inversion Ho; subst. by rewrite He'.
Qed.
End docker.

(** The Docker backend refuses a privileged user, whatever Docker does: the
    property create-refuses-root passes against it under every behaviour of the
    engine, without the engine being asked for anything. *)
Theorem docker_refuses_root `{MapRange string} `{FloatConv} {W}
    (step : forall X, dockerE X -> W -> X -> W -> Prop) b cfg w :
  wp any_call (by_docker step b) (tRunner (propCreateRefusesRoot cfg))
    (fun pt w' => status_of (fst pt) (snd pt) = PASS /\ w' = w) w.
Proof.
  unfold tRunner, propCreateRefusesRoot, tbind at 1. apply wp_bind, wp_bind, newBackend_quiet.
  cbn [bind wp]. eapply wp_mono; [|apply tfor_quiet; intros user Hu; by apply refuses_root_turn].
  intros rt w' [-> ->]. by apply close_quiet.
Qed.

(** ** destroy-removes-the-sandbox *)

(** An engine in good health: it fails to inspect, or to remove by force, only
    what is not there, and lists containers it holds.  Nothing is said of a
    removal that is not forced: Docker answers a conflict when the container is
    running. *)
Class HealthyEngine {W : Type} (view : W -> gmap string Container)
    (step : forall X, dockerE X -> W -> X -> W -> Prop) : Prop := {
  healthy_inspect : forall ref w e w', step _ (ContainerInspect ref) w (Err e) w' -> IsNotFound e = true;
  healthy_remove : forall ref vols w e w',
    step _ (ContainerRemove ref true vols) w (Err e) w' -> IsNotFound e = true;
  healthy_list : forall all label w r w', step _ (ContainerList all label) w r w' ->
    exists cs, r = Ok cs /\ forall s, s ∈ cs ->
      exists n c, view w !! n = Some c /\ SumLabels s = CfgLabels (CtConfig c)
}.

(** Nobody else uses openblox's label for the name of a sandbox. *)
Definition labelled (m : gmap string Container) : Prop :=
  forall n c name, m !! n = Some c -> CfgLabels (CtConfig c) !! labelName = Some name -> n = containerName name.

Section destroy.
Context `{MapRange string} `{FloatConv}.
Context {W : Type} (view : W -> gmap string Container) (step : forall X, dockerE X -> W -> X -> W -> Prop)
  `{!DockerEngine view step} `{!HealthyEngine view step}.
Variable b : Backend.

Abbreviation runs := (wp (fun _ _ _ => True) step).
Abbreviation may := (wp any_call (by_docker step b)).

Lemma Destroy_answers name w : runs (Destroy name) (fun r _ => r = Ok tt) w.
Proof.
  unfold Destroy. cbn [bind call wp]. split; [done|]. intros [[]|e] w' Hs; [done|].
  by rewrite (healthy_remove _ _ _ _ _ Hs).
Qed.

Lemma Open_absent name w :
  ids_ok (view w) -> view w !! containerName name = None ->
  runs (Open b name) (fun r w' => view w' = view w /\ exists e, r = Err e /\ Is e ErrNotFound = true) w.
Proof.
  intros Hok Hn. unfold Open. cbn [bind call wp]. split; [done|]. intros [j|e] w' Hs.
  - apply engine_inspect_ok in Hs as (_ & n & c & Hc & Hr & _).
    apply (refers_containerName _ _ _ _ Hok Hc) in Hr as ->. congruence.
  - rewrite (healthy_inspect _ _ _ _ Hs). apply engine_inspect_err in Hs as (Hv & _). cbn [wp].
    split; [done|]. eexists. split; [done|reflexivity].
Qed.

Lemma List_listed w :
  runs List (fun r w' => view w' = view w /\ exists infos, r = Ok infos /\
    forall info, info ∈ infos -> exists n c, view w !! n = Some c /\
      InfoName info = label (CfgLabels (CtConfig c)) labelName) w.
Proof.
  unfold List. cbn [bind call wp]. split; [done|]. intros r w' Hs.
  pose proof (engine_list _ _ _ _ _ Hs) as Hv.
  apply healthy_list in Hs as (cs & -> & Hcs). cbn [wp]. split; [done|]. eexists. split; [done|].
  intros info (s & -> & Hin)%list_elem_of_fmap. destruct (Hcs s Hin) as (n & c & Hc & Hl).
  exists n, c. cbn [InfoName]. by rewrite Hl.
Qed.

Lemma not_listed (infos : list Info) name t w :
  Forall (fun info => InfoName info <> name) infos ->
  may (tfor infos (fun info => twhen (String.eqb (InfoName info) name)
    (tErrorf "%s: List still reports %q after Destroy")) t) (fun rt w' => rt = (Returned tt, t) /\ w' = w) w.
Proof.
  intros Hall. rewrite Forall_forall in Hall. apply tfor_quiet. intros info Hin.
  destruct (String.eqb_spec (InfoName info) name) as [E|]; [by apply Hall in Hin|done].
Qed.

(** After a successful create and the destroy that follows it. *)
Lemma destroyed_gone name opts w w1 w2 sb :
  name <> "" -> ids_ok (view w) -> labelled (view w) ->
  outcome step (Create b name opts) w (Ok sb) w1 -> outcome step (Destroy name) w1 (Ok tt) w2 ->
  ids_ok (view w2) /\ view w2 !! containerName name = None /\
  forall n c, view w2 !! n = Some c -> label (CfgLabels (CtConfig c)) labelName <> name.
Proof.
  intros Hne Hok Hl Hc Hd. eapply wp_outcome in Hc; [|by apply Create_spec]. destruct Hc as [Hk1 [Hok1 _]].
  eapply wp_outcome in Hd; [|by apply Destroy_spec]. destruct Hd as [Hk2 Hd].
  destruct (Hd eq_refl) as [Hgone Hok2]. split_and!; [done|done|]. intros n c Hn Hlab.
  assert (Hnn : n <> containerName name) by congruence. rewrite Hk2, Hk1 in Hn by done.
  unfold label in Hlab. destruct (CfgLabels (CtConfig c) !! labelName) as [nm|] eqn:E; cbn in Hlab; [|by subst].
  subst nm. by apply (Hl n c name Hn) in E.
Qed.

(** The cleanups cannot change a verdict. *)
Lemma finish_any (r : exit unit) t (P : bool * testT (suiteE Backend dockerSandbox) -> Prop) w :
  P (match r with Panicked => true | _ => false end, t) ->
  may (_ <- runCleanups (cleanups t);; Ret (match r with Panicked => true | _ => false end, t)) (fun pt _ => P pt) w.
Proof.
  intros HP. apply wp_bind. generalize (runCleanups (cleanups t)) as p. intros p. revert w.
  induction p as [a|X e k IH]; intros w; [exact HP|]. split; [done|]. intros x w' _. apply IH.
Qed.

(** The property after its create. *)
Definition check_destroyed (name : string) : GoTesting.T (suiteE Backend dockerSandbox) unit :=
  err <~ tdo (SDestroy TContext b name);;
  _ <~ twhen (negb (is_ok err)) (tFatalf "%s: Destroy = %v");;
  opened <~ tdo (SOpen b name);;
  _ <~ twhen (negb (isErr opened ErrNotFound))
    (tErrorf "%s: Open after Destroy = %v, want ErrNotFound");;
  infos <~ tdo (SList b);;
  match infos with
  | Err _ => tFatalf "%s: List = %v"
  | Ok infos =>
      _ <~ tfor infos (fun info =>
        twhen (String.eqb (InfoName info) name) (tErrorf "%s: List still reports %q after Destroy"));;
      err <~ tdo (SDestroy TContext b name);;
      twhen (negb (is_ok err)) (tErrorf "%s: second Destroy = %v, want nil")
  end.

Lemma check_destroyed_quiet name opts sb t w w1 :
  name <> "" -> ids_ok (view w) -> labelled (view w) ->
  outcome step (Create b name opts) w (Ok sb) w1 ->
  may (check_destroyed name t) (fun rt _ => rt = (Returned tt, t)) w1.
Proof.
  intros Hne Hok Hl Hc. unfold check_destroyed, tbind, tdo. cbn [bind call wp]. split; [done|].
  intros r w2 Hd. cbn in Hd. pose proof (wp_outcome _ _ _ _ _ _ _ (Destroy_answers name w1) Hd) as ->.
  destruct (destroyed_gone name opts w w1 w2 sb Hne Hok Hl Hc Hd) as (Hok2 & Hgone & Hlab).
  cbn [is_ok negb twhen tret bind call wp]. split; [done|]. intros r w3 Ho. cbn in Ho.
  eapply wp_outcome in Ho; [|by apply Open_absent]. destruct Ho as (V3 & e & -> & He).
  cbn [isErr]. rewrite He. cbn [negb twhen tret bind call wp]. split; [done|]. intros r w4 Hi. cbn in Hi.
  eapply wp_outcome in Hi; [|apply List_listed]. destruct Hi as (V4 & infos & -> & Hin).
  cbn [bind]. apply wp_bind. eapply wp_mono; [|apply not_listed].
  - intros rt w5 [-> ->]. cbn [bind call wp]. split; [done|]. intros r w6 Hd2. cbn in Hd2.
    by pose proof (wp_outcome _ _ _ _ _ _ _ (Destroy_answers name w4) Hd2) as ->.
  - apply Forall_forall. intros info Hi. destruct (Hin info Hi) as (n & c & Hn & ->). rewrite V3 in Hn. eauto.
Qed.
End destroy.

(** The verdict of the property: it passes, or it stops at its create, which
    answered an error, and reports that and nothing else. *)
Definition destroyed_or_not_created `{MapRange string} `{FloatConv} {W}
    (step : forall X, dockerE X -> W -> X -> W -> Prop) (b : Backend) (cfg : Config) (w : W)
    (pt : bool * testT (suiteE Backend dockerSandbox)) : Prop :=
  status_of (fst pt) (snd pt) = PASS \/
  messages (snd pt) = ["%s: Create = %v"] /\
  exists img e w', outcome step (Create b (sbName cfg "openblox-conf-destroy") [WithImage img]) w (Err e) w'.


(** The reference engine is in good health. *)
#[global] Instance ref_engine_healthy :
  HealthyEngine (fun m => m) (fun X e m x m' => ref_engine X e m = (x, m')).
Proof.
  split.
  - intros ref m e m'. cbn. destruct (find_ref m ref) as [[n c]|]; by intros [= <- <-].
  - intros ref vols m e m'. cbn. destruct (find_ref m ref) as [[n c]|]; by intros [= <- <-].
  - intros all label m r m' [= <- <-]. eexists. split; [done|]. intros s Hs.
    apply list_elem_of_fmap in Hs as ([n c] & -> & Hin). exists n, c. split; [|done].
    by apply elem_of_map_to_list.
Qed.

